(* ===== verification/_CoqProject ===== *)
-Q . S2P
Prelude.v
Regex.v
Vocab.v
CharEncoder.v
PhoneEncoder.v
Segmentation.v
SwbdTranscript.v
TimitText.v
TimitPhone.v
OsPath.v
TimitPrepare.v
CsjPath.v
CsjLabels.v
Wav2Feature.v
CsjRefine.v
HtkConfig.v
CsjPhoneLoop.v
LabelSave.v
