(* ===== verification/Prelude.v ===== *)
(** * asr_preprocessing: a verification development

    The repository turns speech-corpus transcripts (CSJ, Switchboard,
    TIMIT) into label index sequences, and cuts a file's feature matrix
    into per-utterance slices.  Its parts, leaf first:
    - path discovery ([Prepare] of src/timit/prepare_path.py, [Path] of
      src/csj/path.py) sorts the files [glob] finds into data sets by
      speaker and extension;
    - the corpus readers clean the transcripts of those files with
      chained regular expressions and build a symbol set and a mapping
      file (src/switchboard/labels/ctc/ldc97s62/character.py,
      src/timit/labels/character.py and phone.py,
      src/csj/labels/character.py);
    - [Char2idx] and [Phone2idx] (src/utils/labels) read a vocabulary
      file and encode a string into indices;
    - [segment] (src/utils/inputs/segmentation.py) slices the frames of
      each utterance out of the file's feature matrix, padded with
      silence, and accumulates statistics;
    - [wav2feature] (src/utils/inputs/wav2feature_python_speech_features.py)
      reads an audio file, converting NIST files with [sox], and computes
      filterbank or MFCC features with their deltas ([_delta]);
    - [setup] (src/utils/htk/make_config.py) writes the configuration
      with which HTK computes the same features.
    The readers produce the strings and the [(start, end)] frame pairs
    that the encoders and the segmenter consume; each reader ends with a
    save loop that converts every transcript with the encoder of its
    mapping file and writes one [.npy] file per utterance.

    ** Files, in dependency order
    - [Prelude] (this file): Python values and their methods as the code
      uses them: strings as lists of [ascii]; the exceptions [KeyError],
      [IndexError], [ValueError] as values of [result] with a bind
      notation in [py_scope]; [dict[k]] as [dict_get] on a [gmap];
      [str.split], [sep.join], indexing and slicing with negative
      indices, [str.strip], [str.lower], [sorted] (Stdlib's merge sort on
      Python's string order); the hint database [pyprelude], the rewrite
      database [pyrewrite], the tactics [result_inv] and
      [elem_of_list_cases], the combinator [eventually] for runs of a
      loop given as a step relation, [str(n)] ([py_str_Z]) with its
      reading [parse_digits], and the lemmas the components share.
    - [Regex]: the part of [re] the cleaners use: [re.match] with
      literals and greedy repetitions, in Python's backtracking order,
      proved sound and complete for a declarative reading ([matches]);
      [re.sub] with fixed-length patterns; the loop
      [while re.match(p, t): t = f(...)] as [rewrite_loop], which stops
      within [len(t)] rounds when every rewrite shortens the string.
    - [Vocab]: the vocabulary loop of [Char2idx.__init__] and
      [Phone2idx.__init__] ([read_vocab]): which index every line gets.
    - [CharEncoder], Module [Char2idx]: the constructor and the three
      modes of [__call__].  The double-letter loop with its [skip_flag]
      is proved equal to a greedy tokenizer ([greedy_tokens]); with the
      vocabulary file this gives a decode/encode round trip.
    - [PhoneEncoder], Module [Phone2idx]: the constructor and
      [__call__]; round trip and [KeyError].
    - [Segmentation]: [segment] after the feature file is read: the
      sorted keys, the loop state of lines 75-81 as the record
      [seg_state], the three boundary branches ([extend]), the slices,
      the running sums and the final statistics.  The abstract policy
      [exp_start]/[exp_end] states the padding per side; [extend_exp] and
      [segment_valid] show the loop implements it, and the theorems on
      the policy show that padded neighbours never overlap, that each
      utterance stays inside its slice and each slice inside the file.
    - [SwbdTranscript], Module [Swbd]: [fix_transcript] (the [re.sub]
      chain and six rewrite loops, proved to terminate) and [read_trans]
      as a fold over files and lines; its invariant ([state_ok]) gives
      that the mapping file covers every stored character.
    - [TimitText], [TimitPhone]: [read_text] (two transcript styles, the
      symbol list, its errors; a round trip for the capital-divide style)
      and [read_phone], with [map_phone2phone] of the absent module
      [timit.util] as a Section variable.
    - [OsPath]: [os.path.join], [basename], [splitext] of [posixpath].
    - [TimitPrepare], [CsjPath]: the path classes, with [glob] results,
      speaker lists and [os.path.isfile] as inputs; the lists as filters
      of the [glob] results, disjointness of development/test and
      evaluation/training sets, the transcript paths.
    - [CsjLabels]: [read_sdb] of src/csj/labels/character.py.  Its text
      is Japanese, so a character is a code point ([Z]) and a string a
      list of them.  The row loop is the state machine [step] on the
      record [state] (the local variables of the function): a row joins
      the current utterance ([stack]) while its index is the same or
      the parentheses of the stacked text do not balance, and ends it
      otherwise ([flush]: cleaning, the [__] loop [dedup], the skip
      lists, the key [str(utt_index - 1).zfill(4)]).  Its invariant
      gives what every stored utterance is; the kana-to-phone table,
      the three mapping lists and the kana-to-phone loop follow.
      [fix_transcript], [is_hiragana], [is_katakana] and
      [jaconv.kata2hira] are Section variables.
    - [Wav2Feature]: [wav2feature] and [_delta].  The libraries are the
      classes [FeatureLib] ([fbank], [mfcc], [np.log]) and [AudioIO]
      ([scipy.io.wavfile.read], [sox]), with the laws the theorems use
      in [FeatureLibLaws] and [AudioIOLaws] ([mfcc] keeps at most the
      26 cepstra of its default [nfilt]); the file system is an
      explicit map, so that [./tmp.wav] of the NIST fallback is seen.
      Locals the code leaves unbound on some paths ([delta1], [feat])
      are options whose read raises [NameError].  The theorems give the
      shape of the features, the exception of every failing path, the
      slope [_delta] computes on a ramp, and the effect on [./tmp.wav].
    - [CsjRefine]: an utterance-level reading of a CSJ file.  A lecture
      is a list of groups (an index and its rows); [spec_dict] stores
      each group followed by another, its text stacked and cleaned,
      under [str(next index - 1).zfill(4)].  [read_file_refines] proves
      that the row machine [step] of [CsjLabels] implements it (a
      functional refinement: one [at_group] relation between the state
      and the groups read, kept by every group); the assumption
      [flush_stores] of its lemmas is discharged from [flush].
    - [HtkConfig]: [setup] of src/utils/htk/make_config.py, from its
      arguments to the path and the text of [config_fbank], with
      ['%.1f'] as [format_1f] and ['%d'] as [py_str_Z].  HTK's reading
      of the file ([read_config]: one [KEY = VALUE] entry per line) is a
      specification; the theorems show the file well formed, the target
      kind and its qualifiers read back, the sampling period consistent
      with the rate (and missing for rates other than 16 and 8 kHz), the
      frame rate and window size read back to half a tenth.
    - [CsjPhoneLoop]: the kana-to-phone loop of [read_sdb] (lines
      360-385) as the code writes it, an index loop on the record
      [loop_state] whose [while] is the step function [loop_next].  Its
      run is described with [eventually] of this file: the run from
      [i = 0] ends, and ends with what the recursive reading
      [kana2phone_seqs] computes ([loop_equiv]).
    - [LabelSave]: the save loops of the four readers (Switchboard
      lines 86-97, TIMIT sentences 141-154, TIMIT phones 29-87, CSJ
      323-396) and the mapping file paths, on an explicit file store
      ([fsys]: the [.npy] files written and the directories made) in a
      state-and-exception monad [io], where a write done before an
      exception persists.  [np.save] and [mkdir] are its two writes; the
      converters ([char2num], [kana2num], [phone2num]) are Section
      variables.  Two generic loop theorems over [d.items()]
      ([flat_spec], [nested_spec], with a frame predicate [touches])
      give for each loop: it raises nothing exactly when every
      conversion succeeds, and then every utterance's file holds its
      conversion.  [swbd_read_save] composes [Swbd.read_trans] with its
      save loop; [read_phone_save_refines] shows the TIMIT phone loop,
      which reads and saves file by file, refines [read_phone].  The
      CSJ mapping paths ([csj_map_paths]) are modelled as the code joins
      them, with no separator between [mapping_files] and the model.

    ** Modelling choices and bounds
    - Characters are [ascii]: the English corpora are ASCII, and the
      CSJ file names are ASCII; the CSJ transcripts are lists of code
      points.
    - Frame indices and the silence width are integers ([Z]); [int(x/2)]
      of the code is [Z.quot x 2] (truncation toward zero, which matters
      for overlapping utterances).  Feature values are rationals ([Q]),
      here and in [Wav2Feature]: the code computes with floats, and the
      theorems speak of the exact values; the final [np.sqrt] of the
      variance is left out.
    - Loops over lists are structural recursion on the list; the index
      loop of the CSJ kana-to-phone conversion is recursion on the rest
      of the string in [CsjLabels], and the code's index loop in
      [CsjPhoneLoop], proved equal; its runs need no fuel (the measure
      is the number of characters left).  Fuel is used twice.  The Switchboard rewrite loops
      get [len(t) + 1] rounds: each rewrite drops at least one character
      of the match ([loops_shrink]), so the loop has stopped before the
      fuel runs out and any larger fuel gives the same string
      ([while_match_terminates]).  The CSJ loop
      [while '__' in t: t = re.sub('__', '_', t)] gets [len(t)] rounds,
      enough for the same reason ([dedup_terminates]).
    - The CSJ rows are given as [pandas] yields them, with the
      utterance index and the frames already integers.
    - Files are given as their lists of lines; [print] output is a list
      of warnings where a theorem speaks of it.
    - [d.items()] lists a dictionary in insertion order, which [gmap]
      does not keep: the save loops take the order as a parameter
      [items], and their theorems hold for every order that lists each
      entry once ([items V m ≡ₚ map_to_list m]).

    ** Not modelled
    - In [read_sdb]: reading the [.sdb] files with [pandas] and the
      [float] parsing of the frames (lines 93-113).
    - The converters [char2num], [kana2num] and [phone2num] that the
      save loops call: the repository does not define them
      (src/utils/labels has only the classes [Char2idx] and
      [Phone2idx]), so they are Section variables of [LabelSave].
    - Writing the mapping files (text written line by line with
      [f.write]) and the contents of an [.npy] file beyond the list or
      string saved; [utils.util.mkdir] and [mkdir_join], outside the
      repository, are modelled as adding a directory to the store.
    - The signal processing of [python_speech_features] (the library's
      code, not the repository's): [fbank] and [mfcc] are given by their
      shapes only.
    - The tests under src/timit/test: drivers that call [read_phone] on
      corpus files.
    - Python's float formatting: ['%.1f'] in [HtkConfig] rounds the
      exact rational, where Python rounds the binary float (the two can
      differ on a tie such as [0.15]). *)

From Stdlib Require Import String Sorted Mergesort.
From Stdlib Require Export Ascii ZArith.
From stdpp Require Export base list gmap strings.

(** ** Python values

    A Python [str] is a list of characters.  The corpora this code is
    run on for English (TIMIT, Switchboard) are ASCII, so a character
    is an [ascii]; literals are written [str "..."]. *)

Abbreviation pystr := (list ascii).

Definition str (s : string) : pystr := list_ascii_of_string s.

(** The exceptions the modelled code raises.  [KeyError k] is a
    dictionary lookup of the missing key [k]; [IndexError] an index
    out of range ([word[0]] of an empty word); [ValueError] the
    explicit [raise ValueError] of the source (and numpy's); [NameError x]
    the read of a local variable [x] that no assignment has bound
    ([UnboundLocalError], a subclass of [NameError]). *)
Inductive pyerror :=
| KeyError (key : pystr)
| IndexError
| ValueError
| NameError (name : pystr).

Inductive result (A : Type) :=
| Ok (a : A)
| Err (e : pyerror).
Arguments Ok {A} a.
Arguments Err {A} e.

Definition is_Ok {A} (r : result A) : Prop := exists x, r = Ok x.

Declare Scope py_scope.
Delimit Scope py_scope with py.

Notation "x <- c1 ;; c2" :=
  (match c1 with Ok x => c2 | Err e => Err e end)
  (at level 60, c1 at next level, right associativity) : py_scope.

Local Open Scope py_scope.

(** ** Dictionary lookup: [d[k]] on a [dict] with string keys *)

Definition dict_get {V} (d : gmap pystr V) (k : pystr) : result V :=
  match d !! k with
  | Some v => Ok v
  | None => Err (KeyError k)
  end.

(** [list(map(f, l))] where [f] may raise: the first exception wins. *)
Fixpoint map_result {A B} (f : A -> result B) (l : list A) : result (list B) :=
  match l with
  | [] => Ok []
  | x :: l' =>
      y <- f x ;;
      ys <- map_result f l' ;;
      Ok (y :: ys)
  end.

(** ** [str.split(sep)] with a one-character separator

    Python's [s.split(c)] keeps empty fields: ["".split("_") = [""]],
    ["_a".split("_") = ["", "a"]]. *)
Fixpoint py_split (sep : ascii) (s : pystr) : list pystr :=
  match s with
  | [] => [[]]
  | c :: s' =>
      let rest := py_split sep s' in
      if decide (c = sep) then [] :: rest
      else match rest with
           | w :: ws => (c :: w) :: ws
           | [] => [[c]]
           end
  end.

(** [sep.join(words)] *)
Fixpoint py_join (sep : pystr) (ws : list pystr) : pystr :=
  match ws with
  | [] => []
  | [w] => w
  | w :: ws' => w ++ sep ++ py_join sep ws'
  end.

(** ** Indexing [s[i]] and slicing [s[a:b]]

    Negative indices count from the end; an index out of range raises
    [IndexError], a slice bound out of range is clamped. *)
Definition py_norm (len : nat) (i : Z) : Z :=
  if decide (i < 0)%Z then (i + Z.of_nat len)%Z else i.

Definition py_get {A} (l : list A) (i : Z) : result A :=
  let j := py_norm (length l) i in
  if decide (0 <= j)%Z then
    match l !! Z.to_nat j with
    | Some x => Ok x
    | None => Err IndexError
    end
  else Err IndexError.

Definition py_slice_bound (len : nat) (i : Z) : nat :=
  Z.to_nat (Z.max 0 (Z.min (py_norm len i) (Z.of_nat len))).

Definition py_slice {A} (l : list A) (a b : Z) : list A :=
  let a' := py_slice_bound (length l) a in
  let b' := py_slice_bound (length l) b in
  take (b' - a') (drop a' l).

(** ** [str.strip()], [str.upper()] on one character, [sorted]

    [str.strip()] removes the characters for which [str.isspace] holds:
    codes 9 to 13, 28 to 31 and the space. *)
Definition is_py_space (c : ascii) : bool :=
  let n := nat_of_ascii c in
  ((9 <=? n) && (n <=? 13)) || ((28 <=? n) && (n <=? 32)).

Fixpoint py_lstrip (s : pystr) : pystr :=
  match s with
  | c :: s' => if is_py_space c then py_lstrip s' else s
  | [] => []
  end.

Definition py_strip (s : pystr) : pystr := reverse (py_lstrip (reverse (py_lstrip s))).

(** [c.upper()] for an ASCII character: lower-case letters move to upper
    case, every other character is unchanged. *)
Definition ascii_upper (c : ascii) : ascii :=
  let n := nat_of_ascii c in
  if (97 <=? n) && (n <=? 122) then ascii_of_nat (n - 32) else c.

(** [s.lower()] on ASCII: upper-case letters move to lower case. *)
Definition ascii_lower (c : ascii) : ascii :=
  let n := nat_of_ascii c in
  if (65 <=? n) && (n <=? 90) then ascii_of_nat (n + 32) else c.

Definition py_lower (s : pystr) : pystr := map ascii_lower s.

(** [str.isdigit()] on one ASCII character ([\d] of [re]). *)
Definition is_digit (c : ascii) : bool :=
  let n := nat_of_ascii c in (48 <=? n) && (n <=? 57).

(** [s.zfill(w)]: zeros on the left up to width [w], after a leading
    sign. *)
Definition py_zfill (w : nat) (s : pystr) : pystr :=
  let pad := replicate (w - length s) "0"%char in
  match s with
  | c :: s' => if decide (c = "+"%char \/ c = "-"%char) then c :: pad ++ s' else pad ++ s
  | [] => pad
  end.

(** [str(n)] for an [int]: the decimal digits, after a [-] when [n] is
    negative.  [digits_fuel] writes the digits of [n] from the last;
    [S (log2 n)] rounds are more than the number of decimal digits. *)
Fixpoint digits_fuel (fuel : nat) (n : Z) (acc : pystr) : pystr :=
  match fuel with
  | 0 => acc
  | S fuel' =>
      let acc' := ascii_of_nat (48 + Z.to_nat (n mod 10)) :: acc in
      if decide (n < 10)%Z then acc' else digits_fuel fuel' (n / 10)%Z acc'
  end.

Definition py_str_Z (n : Z) : pystr :=
  if decide (n < 0)%Z then "-"%char :: digits_fuel (S (Z.to_nat (Z.log2 (- n)))) (- n) []
  else digits_fuel (S (Z.to_nat (Z.log2 n))) n [].

(** The reading of a string of decimal digits, as [int(s)] reads it
    when [s] is one; the readers of the files this code writes use it. *)
Definition digits_value (s : pystr) : Z :=
  foldl (fun v c => 10 * v + (Z.of_nat (nat_of_ascii c) - 48))%Z 0%Z s.

Definition parse_digits (s : pystr) : option Z :=
  if decide (s <> [] /\ Forall (fun c => is_digit c = true) s) then Some (digits_value s) else None.

(** Python compares strings by code point, lexicographically. *)
Fixpoint pystr_leb (s1 s2 : pystr) : bool :=
  match s1, s2 with
  | [], _ => true
  | _ :: _, [] => false
  | c1 :: s1', c2 :: s2' =>
      if decide (c1 = c2) then pystr_leb s1' s2'
      else (nat_of_ascii c1 <? nat_of_ascii c2)
  end.

Lemma pystr_leb_total s1 s2 : pystr_leb s1 s2 = true \/ pystr_leb s2 s1 = true.
Proof.
  revert s2; induction s1 as [|c1 s1 IH]; intros [|c2 s2]; simpl; auto.
  case_decide as Hc; [subst; rewrite decide_True by done; auto|].
  rewrite decide_False by congruence.
  assert (nat_of_ascii c1 <> nat_of_ascii c2).
  { intros Heq. apply Hc. by rewrite <- (ascii_nat_embedding c1), Heq, ascii_nat_embedding. }
  destruct (Nat.ltb_spec (nat_of_ascii c1) (nat_of_ascii c2)); [auto|].
  right. apply Nat.ltb_lt. lia.
Qed.

Module PyStrOrder <: Orders.TotalLeBool.
Definition t := pystr.
Definition leb := pystr_leb.
Definition leb_total := pystr_leb_total.
End PyStrOrder.

Module PyStrSort := Sort PyStrOrder.

(** [sorted(l)] on a list of strings. *)
Definition py_sorted (l : list pystr) : list pystr := PyStrSort.sort l.

(** Sum of a list of integers. *)
Definition zsum (l : list Z) : Z := foldr Z.add 0%Z l.

(** * Shared lemmas *)

(** ** Runs of a loop

    A loop whose body is one step of a relation [step] on its
    configurations.  [eventually step P c]: every run from [c] reaches a
    configuration satisfying [P], and none is stuck before it (the
    combinator of coqutil's [OmniSmallstepCombinators]). *)
Inductive eventually {C} (step : C -> C -> Prop) (P : C -> Prop) : C -> Prop :=
  | eventually_done c : P c -> eventually step P c
  | eventually_step c :
      (exists c', step c c') -> (forall c', step c c' -> eventually step P c') -> eventually step P c.

Create HintDb pyprelude discriminated.

(** [lower] is idempotent and sends only the space to the space (each
    of the 256 characters checked). *)
Lemma ascii_lower_idem c : ascii_lower (ascii_lower c) = ascii_lower c.
Proof. destruct c as [[] [] [] [] [] [] [] []]; reflexivity. Qed.

Lemma ascii_lower_space c : ascii_lower c = " "%char -> c = " "%char.
Proof. destruct c as [[] [] [] [] [] [] [] []]; try discriminate; reflexivity. Qed.

Lemma py_lower_lowered s : Forall (fun c => ascii_lower c = c) (py_lower s).
Proof. induction s; constructor; auto using ascii_lower_idem. Qed.

Lemma map_result_ok {A B} (f : A -> result B) l l' :
  map_result f l = Ok l' <-> Forall2 (fun a b => f a = Ok b) l l'.
Proof.
  revert l'; induction l as [|x l IH]; intros l'; simpl.
  - split; [intros [= <-]; constructor | intros H; inversion H; reflexivity].
  - split.
    + destruct (f x) eqn:Hf; [|done]. destruct (map_result f l) eqn:Hl; [|done].
      intros [= <-]. constructor; [done|]. by apply IH.
    + intros H; inversion H as [|? y ? ys Hy Hys]; subst. rewrite Hy.
      apply IH in Hys. by rewrite Hys.
Qed.

Lemma map_result_length {A B} (f : A -> result B) l l' :
  map_result f l = Ok l' -> length l' = length l.
Proof. intros H%map_result_ok. symmetry. by eapply Forall2_length. Qed.

Lemma map_result_app {A B} (f : A -> result B) l1 l2 :
  map_result f (l1 ++ l2) =
  (ys1 <- map_result f l1 ;; ys2 <- map_result f l2 ;; Ok (ys1 ++ ys2)).
Proof.
  induction l1 as [|x l1 IH]; simpl.
  - by destruct (map_result f l2).
  - destruct (f x); [|done]. rewrite IH.
    destruct (map_result f l1); [|done]. by destruct (map_result f l2).
Qed.

Lemma map_result_map {A B C} (g : A -> B) (f : B -> result C) l :
  map_result f (map g l) = map_result (fun x => f (g x)) l.
Proof. induction l as [|x l IH]; simpl; [done|]. by rewrite IH. Qed.

(** Every element mapped: the result is the list of the images. *)
Lemma map_result_all_ok {A B} (f : A -> result B) (g : A -> B) l :
  (forall x, x ∈ l -> f x = Ok (g x)) -> map_result f l = Ok (map g l).
Proof.
  induction l as [|x l IH]; intros Hf; simpl; [done|].
  rewrite Hf by set_solver. rewrite IH; [done|]. intros y Hy. apply Hf. set_solver.
Qed.

(** No element fails: the map succeeds, with one image per element. *)
Lemma map_result_total {A B} (f : A -> result B) l :
  (forall x, x ∈ l -> exists y, f x = Ok y) ->
  exists l', map_result f l = Ok l' /\ length l' = length l.
Proof.
  induction l as [|x l IH]; intros Hf; simpl; [by exists []|].
  destruct (Hf x) as [y ->]; [set_solver|].
  destruct IH as [l' [-> Hl]]; [intros z Hz; apply Hf; set_solver|].
  exists (y :: l'). simpl. auto.
Qed.

(** The first element that fails decides the exception. *)
Lemma map_result_err {A B} (f : A -> result B) l1 x l2 e :
  (forall y, y ∈ l1 -> exists b, f y = Ok b) -> f x = Err e ->
  map_result f (l1 ++ x :: l2) = Err e.
Proof.
  induction l1 as [|y l1 IH]; intros Hok Hx; simpl.
  - by rewrite Hx.
  - destruct (Hok y) as [b ->]; [set_solver|]. rewrite IH; [done| |done].
    intros z Hz. apply Hok. set_solver.
Qed.

Lemma dict_get_Some {V} (d : gmap pystr V) k v :
  d !! k = Some v -> dict_get d k = Ok v.
Proof. unfold dict_get. by intros ->. Qed.

Lemma dict_get_None {V} (d : gmap pystr V) k :
  d !! k = None -> dict_get d k = Err (KeyError k).
Proof. unfold dict_get. by intros ->. Qed.

#[export] Hint Resolve dict_get_Some dict_get_None : pyprelude.

(** [py_split] never returns the empty list. *)
Lemma py_split_not_nil sep s : py_split sep s <> [].
Proof.
  destruct s as [|c s]; simpl; [done|].
  case_decide; [done|]. by destruct (py_split sep s).
Qed.

(** Split/join round trip: joining the fields with the separator gives
    back the string. *)
Lemma py_join_split sep s : py_join [sep] (py_split sep s) = s.
Proof.
  induction s as [|c s IH]; simpl; [done|].
  pose proof (py_split_not_nil sep s) as Hne.
  case_decide as Hc.
  - subst. destruct (py_split sep s) as [|w ws]; [done|].
    destruct ws; simpl in *; by rewrite IH.
  - destruct (py_split sep s) as [|w [|w' ws]]; [done| |]; simpl in *; by rewrite IH.
Qed.

(** The fields do not contain the separator. *)
(** A field of [s.split(sep)] is made of characters of [s]. *)
Lemma py_split_chars sep s w c : w ∈ py_split sep s -> c ∈ w -> c ∈ s.
Proof.
  revert w; induction s as [|c' s IH]; intros w; simpl.
  - rewrite list_elem_of_singleton. intros -> Hc. by apply not_elem_of_nil in Hc.
  - case_decide.
    + intros [->|Hw]%elem_of_cons Hc; [by apply not_elem_of_nil in Hc|]. right. by eapply IH.
    + destruct (py_split sep s) as [|w0 ws] eqn:E; [by apply py_split_not_nil in E|].
      intros [->|Hw]%elem_of_cons Hc.
      * apply elem_of_cons in Hc as [->|Hc]; [left|right; apply (IH w0); [left|]]; done.
      * right. apply (IH w); [by right|done].
Qed.

Lemma py_split_no_sep sep s w : w ∈ py_split sep s -> sep ∉ w.
Proof.
  revert w; induction s as [|c s IH]; intros w; simpl.
  - rewrite list_elem_of_singleton. intros ->. set_solver.
  - pose proof (py_split_not_nil sep s) as Hne.
    case_decide as Hc.
    + rewrite elem_of_cons. intros [->|Hw]; [set_solver|]. by apply IH.
    + destruct (py_split sep s) as [|w0 ws] eqn:E; [done|].
      rewrite elem_of_cons. intros [->|Hw].
      * rewrite elem_of_cons. intros [?|?]; [congruence|]. apply (IH w0); [set_solver|done].
      * apply IH. set_solver.
Qed.

(** There is one more field than separators. *)
Lemma py_split_length sep s :
  length (py_split sep s) = S (length (filter (fun c => c = sep) s)).
Proof.
  induction s as [|c s IH]; simpl; [done|].
  pose proof (py_split_not_nil sep s) as Hne.
  rewrite filter_cons. case_decide; simpl; [by rewrite IH|].
  destruct (py_split sep s); [done|]. simpl in *. done.
Qed.

(** A string without the separator is one field. *)
Lemma py_split_no_sep_single sep s : sep ∉ s -> py_split sep s = [s].
Proof.
  induction s as [|c s IH]; intros Hs; simpl; [done|].
  case_decide; [set_solver|]. rewrite IH; [done|set_solver].
Qed.

Lemma py_split_app_sep sep s1 s2 :
  sep ∉ s1 -> py_split sep (s1 ++ sep :: s2) = s1 :: py_split sep s2.
Proof.
  induction s1 as [|c s1 IH]; intros Hs; simpl.
  - by rewrite decide_True.
  - rewrite decide_False by set_solver. rewrite IH by set_solver. done.
Qed.

(** Splitting a join of separator-free words gives the words back. *)
Lemma py_split_join sep ws :
  ws <> [] -> Forall (fun w => sep ∉ w) ws -> py_split sep (py_join [sep] ws) = ws.
Proof.
  induction ws as [|w ws IH]; intros Hne Hws; [done|].
  inversion Hws; subst. destruct ws as [|w' ws].
  - simpl. by apply py_split_no_sep_single.
  - change (py_join [sep] (w :: w' :: ws)) with (w ++ [sep] ++ py_join [sep] (w' :: ws)).
    simpl. rewrite py_split_app_sep by done. f_equal. by apply IH.
Qed.

Lemma py_slice_length {A} (l : list A) a b :
  length (py_slice l a b) =
  py_slice_bound (length l) b - py_slice_bound (length l) a.
Proof.
  unfold py_slice, py_slice_bound. rewrite length_take, length_drop. lia.
Qed.

(** A slice with bounds [0 <= a <= b <= len] has [b - a] elements. *)
Lemma py_slice_length_in {A} (l : list A) (a b : Z) :
  (0 <= a <= b)%Z -> (b <= Z.of_nat (length l))%Z ->
  length (py_slice l a b) = Z.to_nat (b - a).
Proof.
  intros Hab Hb. rewrite py_slice_length. unfold py_slice_bound, py_norm.
  rewrite !decide_False by lia. lia.
Qed.

(** [s[-1]] is the last character, [s[0]] the first. *)
Lemma py_get_last {A} (l : list A) : py_get l (-1) =
  match last l with Some x => Ok x | None => Err IndexError end.
Proof.
  unfold py_get, py_norm. rewrite (decide_True (P := (-1 < 0)%Z)) by lia.
  destruct l as [|x l _] using rev_ind; [by rewrite decide_False by (simpl; lia)|].
  rewrite last_snoc, length_app. simpl. rewrite decide_True by lia.
  replace (Z.to_nat _) with (length l) by lia.
  by rewrite lookup_app_r, Nat.sub_diag by lia.
Qed.

(** [l[n]] for a non-negative index. *)
Lemma py_get_nat {A} (l : list A) (n : nat) :
  py_get l (Z.of_nat n) = match l !! n with Some x => Ok x | None => Err IndexError end.
Proof.
  unfold py_get, py_norm. rewrite (decide_False (P := (Z.of_nat n < 0)%Z)) by lia.
  rewrite (decide_True (P := (0 <= Z.of_nat n)%Z)) by lia. by rewrite Nat2Z.id.
Qed.

Lemma py_get_first {A} (x : A) l : py_get (x :: l) 0 = Ok x.
Proof. done. Qed.

Lemma py_get_elem {A} (l : list A) i x : py_get l i = Ok x -> x ∈ l.
Proof.
  unfold py_get. case_decide; [|done]. destruct (l !! _) eqn:E; [|done].
  intros [= <-]. by eapply list_elem_of_lookup_2.
Qed.

Lemma py_get_nil {A} i : py_get (@nil A) i = Err IndexError.
Proof. unfold py_get. by case_decide. Qed.

(** A key that occurs once is not found again further on. *)
Lemma NoDup_not_in_drop {A} (l : list A) i x :
  NoDup l -> l !! i = Some x -> x ∉ drop (S i) l.
Proof.
  intros Hnd Hi Hin. apply list_elem_of_lookup in Hin as [j Hj].
  rewrite lookup_drop in Hj. pose proof (NoDup_lookup l i (S i + j) x Hnd Hi Hj). lia.
Qed.

(** [sorted] permutes its argument into ascending order. *)
Lemma py_sorted_perm l : l ≡ₚ py_sorted l.
Proof. apply PyStrSort.Permuted_sort. Qed.

Lemma py_sorted_Sorted l : Sorted (fun a b => pystr_leb a b = true) (py_sorted l).
Proof. apply PyStrSort.Sorted_sort. Qed.

Lemma elem_of_py_sorted l x : x ∈ py_sorted l <-> x ∈ l.
Proof. by rewrite <- py_sorted_perm. Qed.

Lemma NoDup_py_sorted l : NoDup l -> NoDup (py_sorted l).
Proof. by rewrite <- py_sorted_perm. Qed.

#[export] Hint Resolve py_split_not_nil py_join_split : pyprelude.

Create Rewrite HintDb pyrewrite.
#[export] Hint Rewrite @map_result_app @map_result_map py_join_split : pyrewrite.

(** Prove [tac] for each element of a concrete list: [H : x ∈ [a; b; ...]]. *)
Ltac elem_of_list_cases H tac :=
  repeat (apply elem_of_cons in H as [->|H]; [tac|]); by apply not_elem_of_nil in H.

(** Injectivity of [Ok] as a lemma: [injection] on two large terms
    compares them by computation first. *)
Lemma zsum_app l1 l2 : zsum (l1 ++ l2) = (zsum l1 + zsum l2)%Z.
Proof. induction l1; simpl; lia. Qed.

Lemma last_app_ne {A} (l1 l2 : list A) : l2 <> [] -> last (l1 ++ l2) = last l2.
Proof. intros H. rewrite last_app. destruct (last l2) eqn:E; [done|by apply last_None in E]. Qed.

Lemma last_cons_ne {A} (x : A) l : l <> [] -> last (x :: l) = last l.
Proof. intros H. apply (last_app_ne [x]), H. Qed.

Lemma Ok_inj {A} (x y : A) : Ok x = Ok y -> x = y.
Proof. by intros [= ->]. Qed.

(** Unfold a Python-style result match on a hypothesis: the success
    case substitutes, the error case is discharged. *)
Ltac result_inv H :=
  repeat match type of H with
  | match ?c with Ok _ => _ | Err _ => _ end = _ =>
      let E := fresh "E" in destruct c eqn:E; [simpl in H|discriminate H]
  | Ok _ = Ok _ => apply Ok_inj in H
  end.

(** ** Printing and reading integers *)

Lemma digits_fuel_acc f n acc : digits_fuel f n acc = digits_fuel f n [] ++ acc.
Proof.
  revert n acc; induction f as [|f IH]; intros n acc; simpl; [done|].
  case_decide; [done|]. rewrite IH, (IH _ [_]). by rewrite <- app_assoc.
Qed.

Lemma digits_value_snoc s c :
  digits_value (s ++ [c]) = (10 * digits_value s + (Z.of_nat (nat_of_ascii c) - 48))%Z.
Proof. unfold digits_value. by rewrite foldl_app. Qed.

Lemma digits_value_single c : digits_value [c] = (Z.of_nat (nat_of_ascii c) - 48)%Z.
Proof. unfold digits_value. simpl. lia. Qed.

Lemma digit_char_ok n :
  is_digit (ascii_of_nat (48 + Z.to_nat (n mod 10))) = true /\
  (Z.of_nat (nat_of_ascii (ascii_of_nat (48 + Z.to_nat (n mod 10)))) - 48 = n mod 10)%Z.
Proof.
  pose proof (Z.mod_pos_bound n 10 ltac:(lia)).
  unfold is_digit. rewrite nat_ascii_embedding by lia. split; [apply andb_true_iff; split; apply Nat.leb_le|]; lia.
Qed.

Lemma digits_fuel_digits f n acc :
  Forall (fun c => is_digit c = true) acc -> Forall (fun c => is_digit c = true) (digits_fuel f n acc).
Proof.
  revert n acc; induction f as [|f IH]; intros n acc Hacc; simpl; [done|].
  destruct (digit_char_ok n) as [Hd _]. case_decide; [by constructor|]. apply IH. by constructor.
Qed.

(** Every character of [str(n)] is a digit or the sign. *)
Lemma py_str_Z_chars n : Forall (fun c => c = "-"%char \/ is_digit c = true) (py_str_Z n).
Proof.
  unfold py_str_Z. case_decide; [constructor; [by left|]|];
    eapply Forall_impl; [apply digits_fuel_digits; constructor| |apply digits_fuel_digits; constructor|]; eauto.
Qed.

Lemma parse_digits_Some s n :
  parse_digits s = Some n <-> s <> [] /\ Forall (fun c => is_digit c = true) s /\ digits_value s = n.
Proof.
  unfold parse_digits. case_decide as Hs; split.
  - intros [= <-]. naive_solver.
  - intros (_ & _ & ->). done.
  - done.
  - intros (? & ? & _). naive_solver.
Qed.

Lemma digits_fuel_S f n :
  digits_fuel (S f) n [] =
  if decide (n < 10)%Z then [ascii_of_nat (48 + Z.to_nat (n mod 10))]
  else digits_fuel f (n / 10)%Z [] ++ [ascii_of_nat (48 + Z.to_nat (n mod 10))].
Proof. simpl. case_decide; [done|apply digits_fuel_acc]. Qed.

Lemma digits_fuel_spec f n :
  (0 <= n < 2 ^ Z.of_nat (S f))%Z ->
  digits_fuel (S f) n [] <> [] /\ Forall (fun c => is_digit c = true) (digits_fuel (S f) n []) /\
  digits_value (digits_fuel (S f) n []) = n.
Proof.
  revert n; induction f as [|f IH]; intros n Hn; rewrite digits_fuel_S;
    destruct (digit_char_ok n) as [Hd Hv]; case_decide.
  1,3: split_and!; [done|by constructor|]; rewrite digits_value_single, Hv; apply Z.mod_small; lia.
  - rewrite Nat2Z.inj_succ, Z.pow_1_r in Hn. lia.
  - destruct (IH (n / 10)%Z) as (Hne & Hall & Hval).
    { split; [apply Z.div_pos; lia|]. rewrite Nat2Z.inj_succ, Z.pow_succ_r in Hn by lia.
      apply Z.div_lt_upper_bound; lia. }
    split_and!.
    + by destruct (digits_fuel _ _ _).
    + apply Forall_app. by split; [|constructor].
    + rewrite digits_value_snoc, Hval, Hv. pose proof (Z.div_mod n 10). lia.
Qed.

(** [int(str(n)) = n] for [n >= 0]: [str] writes decimal digits that
    read back as [n]. *)
Lemma parse_py_str_Z n : (0 <= n)%Z -> parse_digits (py_str_Z n) = Some n.
Proof.
  intros Hn. unfold py_str_Z. rewrite decide_False by lia.
  destruct (digits_fuel_spec (Z.to_nat (Z.log2 n)) n) as (Hne & Hall & Hval).
  { split; [done|]. rewrite Nat2Z.inj_succ, Z2Nat.id by apply Z.log2_nonneg.
    destruct (Z.eq_dec n 0%Z) as [->|]; [done|]. apply Z.log2_spec. lia. }
  apply parse_digits_Some. done.
Qed.

(** ** Runs of a loop *)

(** A step given by a function: one successor, so [eventually] goes
    through it. *)
Lemma eventually_next {C} (next : C -> option C) (P : C -> Prop) c c' :
  next c = Some c' -> eventually (fun x y => next x = Some y) P c' ->
  eventually (fun x y => next x = Some y) P c.
Proof.
  intros Hc Hev. apply eventually_step; [by exists c'|]. intros c'' Hc''. congruence.
Qed.

Lemma eventually_mono {C} (step : C -> C -> Prop) (P Q : C -> Prop) c :
  (forall x, P x -> Q x) -> eventually step P c -> eventually step Q c.
Proof. intros HPQ Hev. induction Hev; [by apply eventually_done, HPQ|by apply eventually_step]. Qed.

