(* ===== verification/Regex.v ===== *)
(** * The subset of Python's [re] that the transcript cleaners use

    [re.match] with patterns built from literals and greedy repetitions
    of a character class, each repetition a capturing group, as in
    the laughter pattern: any text, [\[laughter-], a run of non-space
    characters, [\]], any text; and [re.sub] with a pattern of fixed
    length (a literal, or [_\d]).  [re_match] searches the way Python's
    backtracking engine does: each repetition first takes as many
    characters as it can, then gives them back one at a time.  It is
    proved sound and complete for the declarative reading [matches]
    of a pattern: it finds a match exactly when one exists.  The loops
    [while re.match(p, t): t = f(match)] are [rewrite_loop], with the
    length of the string as its bound. *)

From S2P Require Import Prelude.

(** A pattern item: a literal, or a captured group [(P{min,})] of
    characters satisfying [P], taken greedily. *)
Inductive item :=
| ILit (l : pystr)
| IRep (min : nat) (P : ascii -> bool).

Abbreviation pattern := (list item).

(** Python's [.] (any character but a newline) and [\S]. *)
Definition re_dot (c : ascii) : bool := negb (bool_decide (c = "010"%char)).
Definition re_nonspace (c : ascii) : bool := negb (is_py_space c).

(** The number of leading characters of [s] that satisfy [P]. *)
Fixpoint span (P : ascii -> bool) (s : pystr) : nat :=
  match s with
  | c :: s' => if P c then S (span P s') else 0
  | [] => 0
  end.

Fixpoint first_some {A B} (f : A -> option B) (l : list A) : option B :=
  match l with
  | [] => None
  | x :: l' => match f x with Some y => Some y | None => first_some f l' end
  end.

(** The counts a greedy repetition tries: [n], [n - 1], ..., [min]. *)
Definition greedy_counts (min n : nat) : list nat := reverse (seq min (S n - min)).

(** [re.match(pattern, s)]: the groups of the first match in
    backtracking order, anchored at the start of [s]. *)
Fixpoint re_match (pat : pattern) (s : pystr) : option (list pystr) :=
  match pat with
  | [] => Some []
  | ILit l :: pat' => if decide (l `prefix_of` s) then re_match pat' (drop (length l) s) else None
  | IRep min P :: pat' =>
      first_some (fun k => match re_match pat' (drop k s) with
                           | Some gs => Some (take k s :: gs)
                           | None => None
                           end)
                 (greedy_counts min (span P s))
  end.

(** The text a match covers, rebuilt from the literals and the groups. *)
Fixpoint render (pat : pattern) (gs : list pystr) : pystr :=
  match pat, gs with
  | [], _ => []
  | ILit l :: pat', _ => l ++ render pat' gs
  | IRep _ _ :: pat', g :: gs' => g ++ render pat' gs'
  | IRep _ _ :: _, [] => []
  end.

(** The declarative reading: [gs] are groups of a match of [pat] at the
    start of [s]. *)
Fixpoint matches (pat : pattern) (gs : list pystr) (s : pystr) : Prop :=
  match pat, gs with
  | [], [] => True
  | ILit l :: pat', _ => exists s', s = l ++ s' /\ matches pat' gs s'
  | IRep min P :: pat', g :: gs' =>
      min <= length g /\ Forall (fun c => P c = true) g /\
      exists s', s = g ++ s' /\ matches pat' gs' s'
  | _, _ => False
  end.

(** [re.sub(pat, rep, s)] for a pattern of fixed length, given as one
    character test per position: the leftmost matches, without overlap,
    are replaced.  [skip] counts the characters of the last match still
    to pass over. *)
Definition matches_at (pat : list (ascii -> bool)) (s : pystr) : bool :=
  bool_decide (length pat <= length s) && forallb id (zip_with (fun P c => P c) pat s).

Fixpoint sub_go (pat : list (ascii -> bool)) (rep : pystr) (skip : nat) (s : pystr) : pystr :=
  match s with
  | [] => []
  | c :: s' =>
      match skip with
      | S k => sub_go pat rep k s'
      | 0 => if matches_at pat s then rep ++ sub_go pat rep (length pat - 1) s'
             else c :: sub_go pat rep 0 s'
      end
  end.

Definition re_sub (pat : list (ascii -> bool)) (rep s : pystr) : pystr := sub_go pat rep 0 s.

(** A literal pattern, one character test per character. *)
Definition lit (l : pystr) : list (ascii -> bool) := map (fun c d => bool_decide (d = c)) l.

(** [while re.match(p, t) is not None: t = f(re.match(p, t))], with a
    bound on the number of rounds. *)
Fixpoint rewrite_loop (pat : pattern) (f : list pystr -> pystr) (fuel : nat) (t : pystr) : pystr :=
  match fuel with
  | 0 => t
  | S fuel' =>
      match re_match pat t with
      | Some gs => rewrite_loop pat f fuel' (f gs)
      | None => t
      end
  end.

(** * The matcher *)

Lemma first_some_Some {A B} (f : A -> option B) l y :
  first_some f l = Some y -> exists x, x ∈ l /\ f x = Some y.
Proof.
  induction l as [|x l IH]; simpl; [done|].
  destruct (f x) eqn:E; [intros [= <-]; exists x; split; [by apply elem_of_cons; left|done]|].
  intros H. destruct (IH H) as [x' [? ?]]. exists x'. split; [by apply elem_of_cons; right|done].
Qed.

Lemma first_some_None {A B} (f : A -> option B) l x :
  first_some f l = None -> x ∈ l -> f x = None.
Proof.
  induction l as [|y l IH]; simpl; [set_solver|].
  destruct (f y) eqn:E; [done|]. intros H [->|Hx]%elem_of_cons; auto.
Qed.

Lemma elem_of_greedy_counts min n k : k ∈ greedy_counts min n <-> min <= k <= n.
Proof.
  unfold greedy_counts. rewrite elem_of_reverse, list_elem_of_In, in_seq. lia.
Qed.

Lemma span_spec P s k : k <= span P s <-> k <= length s /\ Forall (fun c => P c = true) (take k s).
Proof.
  revert k; induction s as [|c s IH]; intros k; simpl.
  - rewrite take_nil. split; [intros; split; [lia|constructor] | lia].
  - destruct k as [|k]; [split; [intros; split; [lia|constructor]|lia]|].
    simpl. rewrite Forall_cons. destruct (P c) eqn:Hc.
    + rewrite <- Nat.succ_le_mono, IH. split; [intros [? ?]; split_and!; auto with lia|].
      intros (? & ? & ?); split; auto with lia.
    + split; [lia|]. intros (_ & ? & _). congruence.
Qed.

(** Soundness: what [re_match] returns is a match. *)
Lemma re_match_sound pat : forall s gs, re_match pat s = Some gs -> matches pat gs s.
Proof.
  induction pat as [|[l|min P] pat IH]; intros s gs H; simpl in *.
  - by injection H as <-.
  - case_decide as Hp; [|done]. destruct Hp as [s' ->]. exists s'. split; [done|].
    apply IH. by rewrite drop_app_length in H.
  - apply first_some_Some in H as [k [Hk Hm]].
    apply elem_of_greedy_counts in Hk as [Hmin Hspan].
    destruct (re_match pat (drop k s)) as [gs'|] eqn:E; [|done]. injection Hm as <-.
    apply span_spec in Hspan as [Hlen HP].
    split_and!; [rewrite length_take; lia|done|]. exists (drop k s).
    split; [by rewrite take_drop|]. by apply IH.
Qed.

(** Completeness: when a match exists, [re_match] finds one. *)
Lemma re_match_complete pat : forall s gs, matches pat gs s -> is_Some (re_match pat s).
Proof.
  induction pat as [|[l|min P] pat IH]; intros s gs H; simpl in *; [by eauto|..].
  - destruct H as [s' [-> H]]. rewrite decide_True by (by exists s').
    rewrite drop_app_length. eauto.
  - destruct gs as [|g gs]; [done|]. destruct H as (Hmin & HP & s' & -> & Hm).
    destruct (first_some _ _) as [r|] eqn:E; [by eauto|exfalso].
    eapply (first_some_None _ _ (length g)) in E.
    + cbv beta in E. rewrite drop_app_length in E. destruct (IH s' gs Hm) as [gs' Hgs']. by rewrite Hgs' in E.
    + apply elem_of_greedy_counts. split; [done|]. apply span_spec.
      rewrite take_app_length, length_app. split; [lia|done].
Qed.

(** A match covers a prefix of the string: the literals and the groups. *)
Lemma matches_render pat : forall gs s, matches pat gs s -> exists rest, s = render pat gs ++ rest.
Proof.
  induction pat as [|[l|min P] pat IH]; intros gs s H; simpl in *.
  - destruct gs; [|done]. by exists s.
  - destruct H as [s' [-> H]]. destruct (IH _ _ H) as [rest ->]. exists rest. by rewrite app_assoc.
  - destruct gs as [|g gs]; [done|]. destruct H as (_ & _ & s' & -> & H).
    destruct (IH _ _ H) as [rest ->]. exists rest. by rewrite app_assoc.
Qed.

Lemma re_match_render pat s gs : re_match pat s = Some gs -> exists rest, s = render pat gs ++ rest.
Proof. intros H. by apply matches_render, re_match_sound. Qed.

(** * Substitution *)

(** [re.sub] writes characters of its input and of the replacement only. *)
Lemma elem_of_sub_go pat rep : forall s k x, x ∈ sub_go pat rep k s -> x ∈ s \/ x ∈ rep.
Proof.
  induction s as [|c s IH]; intros k x; simpl; [set_solver|].
  destruct k as [|k]; [destruct (matches_at pat (c :: s))|]; intros Hx.
  - apply elem_of_app in Hx as [?|Hx]; [by right|]. destruct (IH _ _ Hx); set_solver.
  - apply elem_of_cons in Hx as [->|Hx]; [set_solver|]. destruct (IH _ _ Hx); set_solver.
  - destruct (IH _ _ Hx); set_solver.
Qed.

(** Substituting a one-character literal leaves none of that character,
    when the replacement has none. *)
Lemma re_sub_char_gone c rep s : c ∉ rep -> c ∉ re_sub (lit [c]) rep s.
Proof.
  intros Hc. unfold re_sub. induction s as [|d s IH]; simpl; [set_solver|].
  unfold matches_at; simpl. case_bool_decide as Hd; simpl.
  - rewrite elem_of_app. intros [?|?]; auto.
  - rewrite elem_of_cons. intros [->|?]; auto.
Qed.

Section Chars.
Context (Q : ascii -> Prop).

Lemma re_sub_Forall pat rep s : Forall Q s -> Forall Q rep -> Forall Q (re_sub pat rep s).
Proof.
  rewrite !Forall_forall. intros Hs Hr x Hx.
  destruct (elem_of_sub_go _ _ _ _ _ Hx); auto.
Qed.

(** The groups of a match are made of characters of the string. *)
Lemma matches_groups_Forall pat : forall gs s, matches pat gs s -> Forall Q s -> Forall (Forall Q) gs.
Proof.
  induction pat as [|[l|min P] pat IH]; intros gs s H Hs; simpl in *.
  - by destruct gs.
  - destruct H as [s' [-> H]]. apply Forall_app in Hs as [_ Hs]. eauto.
  - destruct gs as [|g gs]; [done|]. destruct H as (_ & _ & s' & -> & H).
    apply Forall_app in Hs as [Hg Hs]. constructor; eauto.
Qed.

Lemma re_match_groups_Forall pat s gs : re_match pat s = Some gs -> Forall Q s -> Forall (Forall Q) gs.
Proof. intros H%re_match_sound. by eapply matches_groups_Forall. Qed.

(** A loop whose rewrite keeps a property of the characters keeps it. *)
Lemma rewrite_loop_Forall pat f :
  (forall t gs, re_match pat t = Some gs -> Forall Q t -> Forall Q (f gs)) ->
  forall fuel t, Forall Q t -> Forall Q (rewrite_loop pat f fuel t).
Proof.
  intros Hf fuel. induction fuel as [|fuel IH]; intros t Ht; simpl; [done|].
  destruct (re_match pat t) eqn:E; eauto.
Qed.
End Chars.

(** * Loops that shorten the string terminate *)

Section Loop.
Context (pat : pattern) (f : list pystr -> pystr).
(** Every rewrite shortens the string. *)
Hypothesis f_shrinks : forall t gs, re_match pat t = Some gs -> length (f gs) < length t.

Lemma rewrite_loop_done fuel t : length t < fuel -> re_match pat (rewrite_loop pat f fuel t) = None.
Proof.
  revert t; induction fuel as [|fuel IH]; intros t Hf; [lia|]. simpl.
  destruct (re_match pat t) as [gs|] eqn:E; [|done].
  apply IH. pose proof (f_shrinks t gs E). lia.
Qed.

Lemma rewrite_loop_fuel fuel1 fuel2 t :
  length t < fuel1 -> length t < fuel2 -> rewrite_loop pat f fuel1 t = rewrite_loop pat f fuel2 t.
Proof.
  revert fuel2 t; induction fuel1 as [|f1 IH]; intros [|f2] t H1 H2; [lia|lia|lia|]. simpl.
  destruct (re_match pat t) as [gs|] eqn:E; [|done].
  pose proof (f_shrinks t gs E). apply IH; lia.
Qed.
End Loop.

(** Take a hypothesis [matches pat gs s] for a concrete [pat] apart:
    [gs] becomes the list of groups and [s] their concatenation with the
    literals. *)
Ltac matches_inv H :=
  repeat (first
    [ progress (cbn [matches] in H)
    | match type of H with
      | False => contradiction
      | True => clear H
      | exists s', _ = _ ++ s' /\ _ =>
          let s1 := fresh "s" in destruct H as [s1 [-> H]]
      | _ /\ _ /\ exists s', _ = _ ++ s' /\ _ =>
          let s1 := fresh "s" in destruct H as (_ & _ & s1 & -> & H)
      | context [match ?gs with _ => _ end] => is_var gs; destruct gs
      end ]).
