(* ===== verification/Vocab.v ===== *)
(** * Vocabulary files: reading a symbol table and writing one

    [read_vocab] is the loop of [Char2idx.__init__] and
    [Phone2idx.__init__] (src/utils/labels/character.py,
    src/utils/labels/phone.py): every line of the file, stripped, is a
    symbol, and the symbols not in [remove_list] get the indices
    0, 1, 2, ... in file order.  The theorems say which index each
    symbol receives, and that decoding an index through the list of
    kept lines is the inverse of the lookup. *)

From S2P Require Import Prelude.
Local Open Scope py_scope.

(** Lines 30-39 of character.py (lines 118-126 of phone.py):
    [map_dict] and [vocab_count] are the loop's state. *)
Fixpoint read_vocab (remove_list : list pystr) (lines : list pystr)
    (map_dict : gmap pystr nat) (vocab_count : nat) : gmap pystr nat * nat :=
  match lines with
  | [] => (map_dict, vocab_count)
  | line :: rest =>
      let char := py_strip line in
      if decide (char ∈ remove_list)
      then read_vocab remove_list rest map_dict vocab_count
      else read_vocab remove_list rest (<[char := vocab_count]> map_dict) (S vocab_count)
  end.

(** The symbols that receive an index, in file order. *)
Definition kept_symbols (remove_list : list pystr) (lines : list pystr) : list pystr :=
  filter (fun c => c ∉ remove_list) (map py_strip lines).

(** Decoding: the symbol of an index is the kept line at that position. *)
Definition decode_index (table : list pystr) (k : nat) : option pystr := table !! k.

Section ReadVocab.
Context (remove_list : list pystr).

Lemma kept_symbols_cons line lines :
  kept_symbols remove_list (line :: lines) =
  if decide (py_strip line ∈ remove_list) then kept_symbols remove_list lines
  else py_strip line :: kept_symbols remove_list lines.
Proof. unfold kept_symbols. simpl. rewrite filter_cons. by repeat case_decide. Qed.

(** The counter ends at the number of kept symbols. *)
Lemma read_vocab_count lines m n :
  (read_vocab remove_list lines m n).2 = n + length (kept_symbols remove_list lines).
Proof.
  revert m n; induction lines as [|l lines IH]; intros m n; [simpl; lia|].
  rewrite kept_symbols_cons. simpl. case_decide; rewrite IH; simpl; lia.
Qed.

(** A symbol that is not kept keeps the value it had before. *)
Lemma read_vocab_notin lines m n k :
  k ∉ kept_symbols remove_list lines ->
  (read_vocab remove_list lines m n).1 !! k = m !! k.
Proof.
  revert m n; induction lines as [|l lines IH]; intros m n Hk; [done|].
  rewrite kept_symbols_cons in Hk. simpl. case_decide; [by apply IH|].
  rewrite IH by set_solver. apply lookup_insert_ne. set_solver.
Qed.

(** With no duplicate symbol, the [i]-th kept symbol gets index [n + i]. *)
Lemma read_vocab_lookup lines m n i k :
  NoDup (kept_symbols remove_list lines) ->
  kept_symbols remove_list lines !! i = Some k ->
  (read_vocab remove_list lines m n).1 !! k = Some (n + i).
Proof.
  revert m n i; induction lines as [|l lines IH]; intros m n i Hnd Hi; [done|].
  rewrite kept_symbols_cons in Hnd, Hi. simpl. case_decide; [by apply IH|].
  apply NoDup_cons in Hnd as [Hl Hnd]. destruct i as [|i]; simpl in Hi.
  - injection Hi as <-. rewrite read_vocab_notin by done.
    rewrite lookup_insert_eq. f_equal. lia.
  - rewrite (IH _ _ i) by done. f_equal. lia.
Qed.

(** The map holds nothing but the kept symbols (from an empty map). *)
Lemma read_vocab_Some lines n k v :
  (read_vocab remove_list lines ∅ n).1 !! k = Some v -> k ∈ kept_symbols remove_list lines.
Proof.
  intros H. destruct (decide (k ∈ kept_symbols remove_list lines)) as [|Hk]; [done|].
  rewrite read_vocab_notin in H by done. by rewrite lookup_empty in H.
Qed.
End ReadVocab.

(** Lines 41-43 of character.py (30-32 of phone.py): [<SOS>] and [<EOS>]
    get the two indices after the file's. *)
Definition add_sos_eos (map_dict : gmap pystr nat) (vocab_count : nat) : gmap pystr nat :=
  <[str ">" := S vocab_count]> (<[str "<" := vocab_count]> map_dict).

(** The symbol table of a vocabulary file: the kept lines, then [<] and [>]. *)
Definition symbols (vocab_lines remove_list : list pystr) : list pystr :=
  kept_symbols remove_list vocab_lines ++ [str "<"; str ">"].

(** Reading a file without repeated symbols (in particular with neither
    [<] nor [>] among its lines) builds the inverse of its symbol table. *)
Lemma vocab_inverse vocab_lines remove_list k i :
  NoDup (symbols vocab_lines remove_list) ->
  add_sos_eos (read_vocab remove_list vocab_lines ∅ 0).1
              (read_vocab remove_list vocab_lines ∅ 0).2 !! k = Some i ->
  symbols vocab_lines remove_list !! i = Some k.
Proof.
  unfold add_sos_eos, symbols. intros Hnd.
  pose proof (read_vocab_count remove_list vocab_lines ∅ 0) as Hc.
  destruct (read_vocab remove_list vocab_lines ∅ 0) as [m n] eqn:E. simpl in *.
  apply NoDup_app in Hnd as (Hnd & Hdisj & _).
  rewrite !lookup_insert. case_decide as H1; [intros [= <-]; subst|].
  { rewrite lookup_app_r by lia. by replace (S _ - _) with 1 by lia. }
  case_decide as H2; [intros [= <-]; subst|].
  { rewrite lookup_app_r by lia. by rewrite Nat.sub_diag. }
  intros Hk. pose proof Hk as Hin.
  replace m with (read_vocab remove_list vocab_lines ∅ 0).1 in Hin, Hk by by rewrite E.
  apply read_vocab_Some in Hin. apply list_elem_of_lookup in Hin as [j Hj].
  rewrite (read_vocab_lookup _ _ _ _ j k) in Hk by done. injection Hk as <-.
  by apply lookup_app_l_Some.
Qed.

(** The indices decode, through the vocabulary table, to the tokens that
    were looked up: [table] lists the symbols by index and [d] is its
    inverse. *)
Section Decode.
Context (table : list pystr) (d : gmap pystr nat).
Hypothesis d_inv : forall k i, d !! k = Some i -> table !! i = Some k.

Lemma decode_lookups toks ks :
  map_result (dict_get d) toks = Ok ks -> map (decode_index table) ks = map Some toks.
Proof.
  revert ks; induction toks as [|tok toks IH]; intros ks H; simpl in H.
  - by injection H as <-.
  - unfold dict_get at 1 in H. destruct (d !! tok) as [i|] eqn:E; [|done].
    destruct (map_result _ toks) as [ks'|] eqn:E'; [|done]. injection H as <-.
    simpl. f_equal; [by apply d_inv | by apply IH].
Qed.
End Decode.

#[export] Hint Resolve read_vocab_lookup read_vocab_notin : pyprelude.
