(* ===== verification/CharEncoder.v ===== *)
(** * Char2idx: from a character sequence to vocabulary indices

    Models the class [Char2idx] of src/utils/labels/character.py: the
    constructor reads a vocabulary file ([Vocab.read_vocab]) and adds
    [<] and [>]; [__call__] encodes a string in one of three modes:
    - capital-divide: split into words on [space_mark], look each word's
      first character up upper-cased, then the double-letter scan on the
      rest of the word;
    - double-letter: the scan over the whole string, which prefers a
      two-character symbol of the vocabulary to a single character;
    - plain: one index per character.
    The double-letter scan is a loop with a [skip_flag]; it is proved
    equal to a plain recursive greedy tokenizer [greedy_tokens], whose
    tokens concatenate back to the input. *)

From S2P Require Import Prelude Vocab.
Local Open Scope py_scope.

Module Char2idx.

(** The attributes set by [__init__]. *)
Record t := {
  space_mark : ascii;
  capital_divide : bool;
  double_letter : bool;
  remove_list : list pystr;
  map_dict : gmap pystr nat
}.

(** [__init__] (lines 23-43): read the vocabulary file, then add
    [<SOS>] and [<EOS>] after the last index. *)
Definition init (vocab_lines : list pystr) (space_mark : ascii)
    (capital_divide double_letter : bool) (remove_list : list pystr) : t :=
  let st := read_vocab remove_list vocab_lines ∅ 0 in
  {| space_mark := space_mark;
     capital_divide := capital_divide;
     double_letter := double_letter;
     remove_list := remove_list;
     map_dict := add_sos_eos st.1 st.2 |}.

(** The loop [for i in range(lo, hi)] of lines 61-71 and 79-88, run for
    [n] iterations on the suffix [s = word[lo:]].  The state is
    [(skip_flag, index_list)]; [word[i:i + 2]] is [take 2 s]. *)
Fixpoint scan (d : gmap pystr nat) (n : nat) (skip_flag : bool) (s : pystr)
    (index_list : list nat) : result (bool * list nat) :=
  match n, s with
  | 0, _ | _, [] => Ok (skip_flag, index_list)
  | S n', c :: s' =>
      if skip_flag then scan d n' false s' index_list
      else match d !! take 2 s with
           | Some k => scan d n' true s' (index_list ++ [k])
           | None =>
               k <- dict_get d [c] ;;
               scan d n' false s' (index_list ++ [k])
           end
  end.

(** "Final character" (lines 73-75 and 90-92): [word[-1]] unless the
    last iteration consumed it. *)
Definition final_char (d : gmap pystr nat) (skip_flag : bool) (word : pystr)
    (index_list : list nat) : result (list nat) :=
  if skip_flag then Ok index_list
  else c <- py_get word (-1) ;; k <- dict_get d [c] ;; Ok (index_list ++ [k]).

(** One word of the capital-divide mode (lines 57-75). *)
Definition capital_word (d : gmap pystr nat) (word : pystr) (index_list : list nat)
    : result (list nat) :=
  c0 <- py_get word 0 ;;
  k0 <- dict_get d [ascii_upper c0] ;;
  st <- scan d (length word - 2) false (drop 1 word) (index_list ++ [k0]) ;;
  final_char d st.1 word st.2.

(** [for word in str_char.split(self.space_mark)] (line 56). *)
Fixpoint capital_words (d : gmap pystr nat) (words : list pystr) (index_list : list nat)
    : result (list nat) :=
  match words with
  | [] => Ok index_list
  | word :: words' =>
      index_list' <- capital_word d word index_list ;;
      capital_words d words' index_list'
  end.

(** The double-letter mode (lines 78-92). *)
Definition double_letter_seq (d : gmap pystr nat) (str_char : pystr) : result (list nat) :=
  st <- scan d (length str_char - 1) false str_char [] ;;
  final_char d st.1 str_char st.2.

(** The plain mode (line 95). *)
Definition plain (d : gmap pystr nat) (str_char : pystr) : result (list nat) :=
  map_result (fun x => dict_get d [x]) str_char.

(** [__call__] (lines 45-97). *)
Definition call (self : t) (str_char : pystr) : result (list nat) :=
  if capital_divide self then
    capital_words (map_dict self) (py_split (space_mark self) str_char) []
  else if double_letter self then double_letter_seq (map_dict self) str_char
  else plain (map_dict self) str_char.

(** ** Reference tokenizer

    Greedy left-to-right tokenization with one character of lookahead:
    a two-character token when the pair is in the vocabulary, otherwise
    a one-character token.  No backtracking. *)
Fixpoint greedy_tokens (d : gmap pystr nat) (s : pystr) : list pystr :=
  match s with
  | c :: ((c' :: s'') as s') =>
      if decide (is_Some (d !! [c; c'])) then [c; c'] :: greedy_tokens d s''
      else [c] :: greedy_tokens d s'
  | [c] => [[c]]
  | [] => []
  end.

(** ** The scan computes the greedy tokenization *)

Section Scan.
Context (d : gmap pystr nat).

(** The tokens of [greedy_tokens], looked up one by one. *)
Definition lookup_tokens (s : pystr) : result (list nat) :=
  map_result (dict_get d) (greedy_tokens d s).

Lemma final_char_same_last skip w w' acc :
  last w = last w' -> final_char d skip w acc = final_char d skip w' acc.
Proof. intros Hl. unfold final_char. by rewrite !py_get_last, Hl. Qed.

Lemma greedy_tokens_cons2 c c' s'' :
  greedy_tokens d (c :: c' :: s'') =
  if decide (is_Some (d !! [c; c'])) then [c; c'] :: greedy_tokens d s''
  else [c] :: greedy_tokens d (c' :: s'').
Proof. done. Qed.

Lemma scan_cons2 n skip c c' s'' acc :
  scan d (S n) skip (c :: c' :: s'') acc =
  if skip then scan d n false (c' :: s'') acc
  else match d !! [c; c'] with
       | Some k => scan d n true (c' :: s'') (acc ++ [k])
       | None => k <- dict_get d [c] ;; scan d n false (c' :: s'') (acc ++ [k])
       end.
Proof. done. Qed.

(** Main invariant of the loop: started on a non-empty suffix [s] whose
    last character is the word's, with [length s - 1] iterations left and
    [skip_flag] clear, the scan followed by the final character appends
    the indices of the greedy tokens of [s] to [index_list]. *)
Lemma scan_final_greedy n : forall s w acc,
  length s <= n -> s <> [] -> last w = last s ->
  (st <- scan d (length s - 1) false s acc ;; final_char d st.1 w st.2) =
  (ks <- lookup_tokens s ;; Ok (acc ++ ks)).
Proof.
  induction n as [|n IH]; intros s w acc Hn Hs Hw; [destruct s; simpl in *; [done|lia]|].
  unfold lookup_tokens. destruct s as [|c [|c' s'']]; [done| |].
  - simpl. unfold final_char. rewrite py_get_last, Hw. simpl.
    destruct (d !! [c]) eqn:E; simpl; [by rewrite (dict_get_Some _ _ _ E)|].
    by rewrite (dict_get_None _ _ E).
  - replace (length (c :: c' :: s'') - 1) with (S (length s'')) by (simpl; lia).
    rewrite scan_cons2, greedy_tokens_cons2.
    destruct (d !! [c; c']) as [k|] eqn:E.
    + rewrite decide_True by eauto. cbn [map_result].
      rewrite (dict_get_Some _ _ _ E). destruct s'' as [|c'' s3].
      * done.
      * change (length (c'' :: s3)) with (S (length s3)). rewrite scan_cons2.
        replace (length s3) with (length (c'' :: s3) - 1) by (simpl; lia).
        rewrite (IH (c'' :: s3) w) by (simpl in *; auto with lia).
        unfold lookup_tokens. destruct (map_result _ _); [|done]. by rewrite <- app_assoc.
    + rewrite decide_False by (intros [? ?]; discriminate). cbn [map_result].
      destruct (dict_get d [c]) as [k|e]; [|done].
      replace (length s'') with (length (c' :: s'') - 1) by (simpl; lia).
      rewrite (IH (c' :: s'') w) by (simpl in *; auto with lia).
      unfold lookup_tokens. destruct (map_result _ _); [|done]. by rewrite <- app_assoc.
Qed.

(** The tokens concatenate back to the input. *)
Lemma greedy_tokens_concat_aux n : forall s, length s <= n -> concat (greedy_tokens d s) = s.
Proof.
  induction n as [|n IH]; intros s Hn; [destruct s; simpl in *; [done|lia]|].
  destruct s as [|c [|c' s'']]; [done|done|]. rewrite greedy_tokens_cons2.
  simpl in Hn. case_decide; cbn [concat app]; rewrite IH; simpl; auto with lia.
Qed.

(** Every token is one character, or a pair of characters that is a
    key of the vocabulary. *)
Lemma greedy_tokens_shape_aux n : forall s tok, length s <= n ->
  tok ∈ greedy_tokens d s ->
  (exists c, tok = [c]) \/ (exists c c', tok = [c; c'] /\ is_Some (d !! tok)).
Proof.
  induction n as [|n IH]; intros s tok Hn Hin; [destruct s; simpl in *; [set_solver|lia]|].
  destruct s as [|c [|c' s'']]; [set_solver|left; apply list_elem_of_singleton in Hin; eauto|].
  rewrite greedy_tokens_cons2 in Hin. simpl in Hn.
  case_decide; apply elem_of_cons in Hin as [->|Hin]; [eauto| |eauto|];
    (eapply IH; [|exact Hin]; simpl; lia).
Qed.

Lemma greedy_tokens_length_aux n : forall s, length s <= n ->
  length (greedy_tokens d s) <= length s <= 2 * length (greedy_tokens d s).
Proof.
  induction n as [|n IH]; intros s Hn; [destruct s; simpl in *; lia|].
  destruct s as [|c [|c' s'']]; [simpl; lia|simpl; lia|].
  rewrite greedy_tokens_cons2. simpl in Hn.
  case_decide; [pose proof (IH s'') | pose proof (IH (c' :: s''))]; cbn [length] in *; lia.
Qed.

End Scan.

(** [init] builds the inverse of its symbol table when no symbol is
    repeated. *)
Lemma init_inverse vocab_lines sm cd dl remove_list k i :
  NoDup (symbols vocab_lines remove_list) ->
  map_dict (init vocab_lines sm cd dl remove_list) !! k = Some i ->
  symbols vocab_lines remove_list !! i = Some k.
Proof. apply vocab_inverse. Qed.

(** * Properties of [__call__] *)

(** A small vocabulary in the shape of the spec's examples. *)
Definition spec_table : gmap pystr nat :=
  list_to_map [(str "B", 0); (str "A", 1); (str "L", 2); (str "LL", 9);
               (str "C", 0); (str "T", 2); (str "a", 3); (str "l", 4)].

Definition spec_table_cat : gmap pystr nat :=
  list_to_map [(str "C", 0); (str "A", 1); (str "T", 2); (str "TT", 9)].

Definition encoder (d : gmap pystr nat) (cd dl : bool) : t :=
  {| space_mark := "_"; capital_divide := cd; double_letter := dl;
     remove_list := []; map_dict := d |}.

(** Shared by the claim below and the lemmas that follow. *)
Lemma double_letter_seq_lookup d s :
  s <> [] -> double_letter_seq d s = lookup_tokens d s.
Proof.
  intros Hs. unfold double_letter_seq.
  rewrite (scan_final_greedy d (length s) s s []) by done.
  by destruct (lookup_tokens d s).
Qed.

(** C3: The double-letter mode (the loop with [skip_flag] and the final
    character) computes exactly the lookups of the greedy tokenization
    of a non-empty string. *)
Theorem double_letter_seq_greedy d s :
  s <> [] -> double_letter_seq d s = lookup_tokens d s.
Proof. apply double_letter_seq_lookup. Qed.

Lemma double_letter_seq_greedy_witness :
  str "BALLL" <> [] /\
  double_letter_seq spec_table (str "BALLL") = lookup_tokens spec_table (str "BALLL").
Proof. split; [discriminate | apply double_letter_seq_greedy; discriminate]. Defined.

(** On the empty string the double-letter mode raises [IndexError]
    ([str_char[-1]], line 92). *)
Theorem double_letter_seq_empty d : double_letter_seq d [] = Err IndexError.
Proof. done. Qed.

(** The tokens of the greedy tokenization concatenate back to the
    input. *)
Theorem greedy_tokens_concat d s : concat (greedy_tokens d s) = s.
Proof. by apply (greedy_tokens_concat_aux d (length s)). Qed.

(** C4: Round trip through the vocabulary file: if [__call__] in the
    double-letter mode succeeds on [s], then the indices decode through
    the symbol table to tokens that concatenate back to [s]. *)
Theorem double_letter_roundtrip vocab_lines sm remove_list s ks :
  NoDup (symbols vocab_lines remove_list) ->
  call (init vocab_lines sm false true remove_list) s = Ok ks ->
  exists toks, map (decode_index (symbols vocab_lines remove_list)) ks = map Some toks
               /\ concat toks = s.
Proof.
  intros Hnd Hcall. unfold call in Hcall. cbn [capital_divide double_letter init] in Hcall.
  destruct s as [|c s']; [done|].
  rewrite double_letter_seq_lookup in Hcall by done.
  exists (greedy_tokens (map_dict (init vocab_lines sm false true remove_list)) (c :: s')).
  split; [|by apply (greedy_tokens_concat_aux _ (length (c :: s')))].
  eapply decode_lookups; [|exact Hcall]. intros k i. by apply init_inverse.
Qed.

Lemma double_letter_roundtrip_witness :
  NoDup (symbols (map str ["a"; "b"; "bb"]) []) /\
  call (init (map str ["a"; "b"; "bb"]) "_" false true []) (str "abbb") = Ok [0; 2; 1] /\
  exists toks, map (decode_index (symbols (map str ["a"; "b"; "bb"]) [])) [0; 2; 1] = map Some toks
               /\ concat toks = str "abbb".
Proof.
  assert (Hnd : NoDup (symbols (map str ["a"; "b"; "bb"]) [])) by (apply (bool_decide_unpack _); vm_compute; reflexivity).
  assert (Hc : call (init (map str ["a"; "b"; "bb"]) "_" false true []) (str "abbb") = Ok [0; 2; 1])
    by (vm_compute; reflexivity).
  split; [exact Hnd|]. split; [exact Hc|].
  exact (double_letter_roundtrip _ _ _ _ _ Hnd Hc).
Defined.


(** Shared by the claim below and the lemmas that follow. *)
Lemma capital_word_long d c0 rest acc :
  rest <> [] ->
  capital_word d (c0 :: rest) acc =
  (k0 <- dict_get d [ascii_upper c0] ;; ks <- lookup_tokens d rest ;; Ok (acc ++ k0 :: ks)).
Proof.
  intros Hr. unfold capital_word. rewrite py_get_first.
  destruct (dict_get d _) as [k0|]; [|done]. cbn [drop length].
  replace (S (length rest) - 2) with (length rest - 1) by lia.
  rewrite (scan_final_greedy d (length rest) rest (c0 :: rest)) by auto using last_cons_ne.
  destruct (lookup_tokens d rest); [|done]. by rewrite <- app_assoc.
Qed.

(** A word of two or more characters: the upper-cased first character,
    then the greedy tokens of the rest of the word. *)
Theorem capital_word_spec d c0 rest acc :
  rest <> [] ->
  capital_word d (c0 :: rest) acc =
  (k0 <- dict_get d [ascii_upper c0] ;; ks <- lookup_tokens d rest ;; Ok (acc ++ k0 :: ks)).
Proof. apply capital_word_long. Qed.

Lemma capital_word_spec_witness :
  str "ALL" <> [] /\ capital_word spec_table (str "BALL") [] = Ok [0; 1; 9].
Proof.
  split; [discriminate|]. rewrite (capital_word_spec spec_table "B" (str "ALL")) by discriminate.
  vm_compute. reflexivity.
Defined.

(** Shared by the claim below and the lemmas that follow. *)
Lemma capital_word_one d c acc :
  capital_word d [c] acc =
  (k0 <- dict_get d [ascii_upper c] ;; k <- dict_get d [c] ;; Ok (acc ++ [k0; k])).
Proof.
  unfold capital_word. rewrite py_get_first. destruct (dict_get d _); [|done].
  unfold final_char. cbn [drop length scan fst snd]. rewrite py_get_last. cbn [last].
  simpl. destruct (dict_get d [c]); [|done]. by rewrite <- app_assoc.
Qed.

(** A one-character word is looked up twice: once upper-cased (line 58)
    and once more as the final character (line 75), since the loop of
    line 62 runs no iteration and leaves [skip_flag] clear. *)
Theorem capital_word_single d c acc :
  capital_word d [c] acc =
  (k0 <- dict_get d [ascii_upper c] ;; k <- dict_get d [c] ;; Ok (acc ++ [k0; k])).
Proof. apply capital_word_one. Qed.

(** An empty word raises [IndexError] ([word[0]], line 58). *)
Theorem capital_word_empty d acc : capital_word d [] acc = Err IndexError.
Proof. done. Qed.

Lemma capital_word_acc d w acc :
  capital_word d w acc = (ks <- capital_word d w [] ;; Ok (acc ++ ks)).
Proof.
  destruct w as [|c [|c' rest]]; [done| |].
  - rewrite !capital_word_one. destruct (dict_get d _); [|done]. by destruct (dict_get d [c]).
  - rewrite !capital_word_long by done. destruct (dict_get d _); [|done].
    by destruct (lookup_tokens _ _).
Qed.

(** The capital-divide mode concatenates the encodings of the words. *)
Theorem capital_words_concat d ws acc :
  capital_words d ws acc =
  (kss <- map_result (fun w => capital_word d w []) ws ;; Ok (acc ++ concat kss)).
Proof.
  revert acc; induction ws as [|w ws IH]; intros acc; simpl; [by rewrite app_nil_r|].
  rewrite capital_word_acc. destruct (capital_word d w []) as [ks|]; [|done].
  rewrite IH. destruct (map_result _ ws); [|done]. simpl. by rewrite app_assoc.
Qed.

(** In the capital-divide mode a string that starts with the space mark,
    or is empty, raises [IndexError]: its first word is empty.  This is
    the case of every CTC transcript, which begins with ['_']. *)
Theorem call_capital_leading_space self s :
  capital_divide self = true ->
  (s = [] \/ exists s', s = space_mark self :: s') ->
  call self s = Err IndexError.
Proof.
  intros Hcd Hs. unfold call. rewrite Hcd.
  destruct Hs as [->|[s' ->]]; [done|]. simpl. by rewrite decide_True.
Qed.

Lemma call_capital_leading_space_witness :
  capital_divide (encoder spec_table true false) = true /\
  call (encoder spec_table true false) (str "_BALL_") = Err IndexError.
Proof.
  split; [done|]. apply call_capital_leading_space; [done|]. right. by eexists.
Defined.

(** Plain mode: one index per character when every character is a
    symbol of the vocabulary. *)
Theorem plain_complete d s :
  (forall c, c ∈ s -> is_Some (d !! [c])) ->
  exists ks, plain d s = Ok ks /\ length ks = length s.
Proof.
  intros Hs. apply map_result_total. intros c Hc.
  destruct (Hs c Hc) as [k Hk]. exists k. by apply dict_get_Some.
Qed.

Lemma plain_complete_witness :
  (forall c, c ∈ str "BAL" -> is_Some (spec_table !! [c])) /\
  exists ks, plain spec_table (str "BAL") = Ok ks /\ length ks = length (str "BAL").
Proof.
  assert (H : forall c, c ∈ str "BAL" -> is_Some (spec_table !! [c])).
  { intros c Hc. elem_of_list_cases Hc ltac:(vm_compute; eauto). }
  split; [exact H | exact (plain_complete _ _ H)].
Defined.

(** Plain mode: the first character missing from the vocabulary raises
    [KeyError] with that character. *)
Theorem plain_first_missing d s1 c s2 :
  (forall c', c' ∈ s1 -> is_Some (d !! [c'])) -> d !! [c] = None ->
  plain d (s1 ++ c :: s2) = Err (KeyError [c]).
Proof.
  intros Hs1 Hc. unfold plain. apply map_result_err; [|by apply dict_get_None].
  intros c' Hc'. destruct (Hs1 c' Hc') as [k Hk]. exists k. by apply dict_get_Some.
Qed.

Lemma plain_first_missing_witness :
  (forall c', c' ∈ str "BA" -> is_Some (spec_table !! [c'])) /\ spec_table !! str "x" = None /\
  plain spec_table (str "BA" ++ "x"%char :: str "L") = Err (KeyError (str "x")).
Proof.
  assert (H1 : forall c', c' ∈ str "BA" -> is_Some (spec_table !! [c'])).
  { intros c Hc. elem_of_list_cases Hc ltac:(vm_compute; eauto). }
  assert (H2 : spec_table !! str "x" = None) by (vm_compute; reflexivity).
  split; [exact H1|]. split; [exact H2|]. exact (plain_first_missing _ _ _ _ H1 H2).
Defined.

(** Double-letter mode never fails on a non-empty string whose characters
    are all symbols, and yields between half as many and as many indices
    as characters. *)
Theorem double_letter_complete d s :
  s <> [] -> (forall c, c ∈ s -> is_Some (d !! [c])) ->
  exists ks, double_letter_seq d s = Ok ks /\ length ks <= length s <= 2 * length ks.
Proof.
  intros Hne Hs. rewrite double_letter_seq_lookup by done. unfold lookup_tokens.
  assert (Htok : forall tok, tok ∈ greedy_tokens d s -> exists k, d !! tok = Some k).
  { intros tok Hin. destruct (greedy_tokens_shape_aux d (length s) s tok) as [[c ->]|[c [c' [-> [k Hk]]]]];
      [done|done| |by eauto].
    apply Hs. rewrite <- (greedy_tokens_concat_aux d (length s) s (le_n _)).
    apply list_elem_of_In, in_concat.
    exists [c]. split; [by apply list_elem_of_In|]. by left. }
  destruct (map_result_total (dict_get d) (greedy_tokens d s)) as [ks [Hks Hlen]].
  { intros tok Hin. destruct (Htok tok Hin) as [k Hk]. exists k. by apply dict_get_Some. }
  exists ks. split; [done|]. rewrite Hlen.
  by apply greedy_tokens_length_aux with (n := length s).
Qed.


(** The two examples of the spec (section 8): ["CAT"] against
    [{C:0, A:1, T:2, TT:9}] and ["BALL"] against [{B:0, A:1, L:2, LL:9}]
    in the capital-word mode. *)
Theorem call_spec_examples :
  call (encoder spec_table_cat true false) (str "CAT") = Ok [0; 1; 2] /\
  call (encoder spec_table true false) (str "BALL") = Ok [0; 1; 9].
Proof. split; vm_compute; reflexivity. Qed.

(** The one-letter word ["a"] yields two indices, that of ["A"] and that
    of ["a"]. *)
Theorem call_single_letter_word :
  call (encoder spec_table true false) (str "BALL_a") = Ok [0; 1; 9; 1; 3].
Proof. vm_compute. reflexivity. Qed.


Lemma double_letter_complete_witness :
  str "BALL" <> [] /\ (forall c, c ∈ str "BALL" -> is_Some (spec_table !! [c])) /\
  exists ks, double_letter_seq spec_table (str "BALL") = Ok ks /\
             length ks <= length (str "BALL") <= 2 * length ks.
Proof.
  assert (H : forall c, c ∈ str "BALL" -> is_Some (spec_table !! [c])).
  { intros c Hc. elem_of_list_cases Hc ltac:(vm_compute; eauto). }
  split; [discriminate|]. split; [exact H|].
  exact (double_letter_complete spec_table (str "BALL") ltac:(discriminate) H).
Defined.

End Char2idx.
