(* ===== verification/PhoneEncoder.v ===== *)
(** * Phone2idx: from a space-separated phone string to indices

    Models the class [Phone2idx] of src/utils/labels/phone.py: the
    constructor reads the vocabulary file like [Char2idx]
    ([Vocab.read_vocab], then [<] and [>]); [__call__] splits the string
    on single spaces and looks every field up.  The theorems: one index
    per field, the round trip through the symbol table and the join of
    the fields, and the [KeyError] of the first unknown phone. *)

From S2P Require Import Prelude Vocab.
Local Open Scope py_scope.

Module Phone2idx.

(** The attributes set by [__init__]. *)
Record t := {
  remove_list : list pystr;
  map_dict : gmap pystr nat
}.

(** [__init__] (lines 18-32). *)
Definition init (vocab_lines : list pystr) (remove_list : list pystr) : t :=
  let st := read_vocab remove_list vocab_lines ∅ 0 in
  {| remove_list := remove_list; map_dict := add_sos_eos st.1 st.2 |}.

(** [__call__] (lines 34-45). *)
Definition call (self : t) (str_phone : pystr) : result (list nat) :=
  let phone_list := py_split " " str_phone in
  map_result (dict_get (map_dict self)) phone_list.

(** The phones of a string: its fields between single spaces. *)
Definition phones (str_phone : pystr) : list pystr := py_split " " str_phone.

(** * Properties *)

(** One index per field: a string with [n] spaces gives [n + 1] indices. *)
Lemma call_length self s ks :
  call self s = Ok ks -> length ks = S (length (filter (fun c => c = " "%char) s)).
Proof. intros H%map_result_length. by rewrite H, py_split_length. Qed.

(** C17: Round trip: with a vocabulary file without repeated symbols, the
    indices decode to the phones, and joining the decoded phones with
    single spaces gives the input string back. *)
Theorem phone_roundtrip vocab_lines remove_list s ks :
  NoDup (symbols vocab_lines remove_list) ->
  call (init vocab_lines remove_list) s = Ok ks ->
  map (decode_index (symbols vocab_lines remove_list)) ks = map Some (phones s) /\
  py_join [" "%char] (phones s) = s.
Proof.
  intros Hnd Hcall. split; [|apply py_join_split].
  eapply decode_lookups; [|exact Hcall]. intros k i. by apply vocab_inverse.
Qed.

(** Every field that is a phone of the vocabulary is looked up: the call
    succeeds with one index per field. *)
Theorem phone_call_complete self s :
  (forall p, p ∈ phones s -> is_Some (map_dict self !! p)) ->
  exists ks, call self s = Ok ks /\ length ks = length (phones s).
Proof.
  intros Hs. apply map_result_total. intros p Hp.
  destruct (Hs p Hp) as [k Hk]. exists k. by apply dict_get_Some.
Qed.

(** The first field that is not a phone of the vocabulary raises
    [KeyError] with that field. *)
Theorem phone_call_first_missing self ps1 p ps2 s :
  phones s = ps1 ++ p :: ps2 ->
  (forall q, q ∈ ps1 -> is_Some (map_dict self !! q)) -> map_dict self !! p = None ->
  call self s = Err (KeyError p).
Proof.
  intros Hs Hok Hp. unfold call. fold (phones s). rewrite Hs.
  apply map_result_err; [|by apply dict_get_None].
  intros q Hq. destruct (Hok q Hq) as [k Hk]. exists k. by apply dict_get_Some.
Qed.

(** * Witnesses *)

Definition timit_phones : list pystr := map str ["sil"; "aa"; "ae"].

Lemma phone_roundtrip_witness :
  NoDup (symbols timit_phones []) /\
  call (init timit_phones []) (str "sil aa sil") = Ok [0; 1; 0] /\
  map (decode_index (symbols timit_phones [])) [0; 1; 0] = map Some (phones (str "sil aa sil")) /\
  py_join [" "%char] (phones (str "sil aa sil")) = str "sil aa sil".
Proof.
  assert (Hnd : NoDup (symbols timit_phones [])) by (apply (bool_decide_unpack _); vm_compute; reflexivity).
  assert (Hc : call (init timit_phones []) (str "sil aa sil") = Ok [0; 1; 0]) by (vm_compute; reflexivity).
  split; [exact Hnd|]. split; [exact Hc|]. exact (phone_roundtrip _ _ _ _ Hnd Hc).
Defined.

Lemma phone_call_complete_witness :
  (forall p, p ∈ phones (str "aa ae") -> is_Some (map_dict (init timit_phones []) !! p)) /\
  exists ks, call (init timit_phones []) (str "aa ae") = Ok ks /\ length ks = length (phones (str "aa ae")).
Proof.
  assert (H : forall p, p ∈ phones (str "aa ae") -> is_Some (map_dict (init timit_phones []) !! p)).
  { intros p Hp. vm_compute in Hp. elem_of_list_cases Hp ltac:(vm_compute; eauto). }
  split; [exact H | exact (phone_call_complete _ _ H)].
Defined.

(** Two spaces in a row make an empty field: ["sil  aa"] raises
    [KeyError ""] when the vocabulary file has no empty line. *)
Lemma phone_call_first_missing_witness :
  phones (str "sil  aa") = [str "sil"] ++ [] :: [str "aa"] /\
  (forall q, q ∈ [str "sil"] -> is_Some (map_dict (init timit_phones []) !! q)) /\
  map_dict (init timit_phones []) !! [] = None /\
  call (init timit_phones []) (str "sil  aa") = Err (KeyError []).
Proof.
  assert (H1 : phones (str "sil  aa") = [str "sil"] ++ [] :: [str "aa"]) by reflexivity.
  assert (H2 : forall q, q ∈ [str "sil"] -> is_Some (map_dict (init timit_phones []) !! q)).
  { intros q Hq. elem_of_list_cases Hq ltac:(vm_compute; eauto). }
  assert (H3 : map_dict (init timit_phones []) !! [] = None) by (vm_compute; reflexivity).
  split_and!; [exact H1|exact H2|exact H3|].
  exact (phone_call_first_missing _ _ _ _ _ H1 H2 H3).
Defined.

End Phone2idx.
