(* ===== verification/Segmentation.v ===== *)
(** * Segmentation of a file's feature matrix into utterances

    Models [segment] of src/utils/inputs/segmentation.py from the point
    where the feature matrix [input_data] has been read (line 71).  The
    frames are a list of rows of rationals; frame indices, the silence
    width [sil_duration] and the utterance boundaries are integers ([Z]);
    [int(x / 2)] is truncation toward zero, [Z.quot x 2].  The loop over
    the sorted utterance keys keeps the state of lines 75-81 and
    167 in a record [seg_state].  Overlap warnings, which the code prints,
    are kept as the list of the utterance keys they name. *)

From S2P Require Import Prelude.
From Stdlib Require Import QArith.
Local Close Scope Q_scope.
Local Open Scope py_scope.

Abbreviation frame := (list Q).

(** ** Vector arithmetic of numpy, on rows of a fixed dimension *)

Definition vzeros (n : nat) : frame := replicate n 0%Q.
Definition vadd (u v : frame) : frame := zip_with Qplus u v.

(** [np.sum(m, axis=0)] of a [(rows, dim)] array. *)
Definition col_sum (dim : nat) (m : list frame) : frame := foldr vadd (vzeros dim) m.

(** [np.abs(x - mean) ** 2], row by row. *)
Definition sq_dev (mean x : frame) : frame :=
  zip_with (fun a b => ((a - b) * (a - b))%Q) x mean.

(** ** Boundary expansion (lines 96-154) *)

(** First utterance, start (lines 98-101). *)
Definition first_start (sil start_frame : Z) : Z :=
  if decide (start_frame >= sil)%Z then (start_frame - sil)%Z else 0%Z.

(** End of a non-last utterance against the next start (lines 112-116
    and 150-154). *)
Definition extend_end (sil end_frame start_frame_next : Z) : Z :=
  if decide (start_frame_next - end_frame >= sil * 2)%Z then (end_frame + sil)%Z
  else (end_frame + Z.quot (start_frame_next - end_frame) 2)%Z.

(** Start of a non-first utterance against the previous end (lines
    123-127 and 136-140). *)
Definition extend_start (sil start_frame end_frame_pre : Z) : Z :=
  if decide (start_frame - end_frame_pre >= sil * 2)%Z then (start_frame - sil)%Z
  else (start_frame - Z.quot (start_frame - end_frame_pre) 2)%Z.

(** Last utterance, end (lines 129-132). *)
Definition last_end (sil end_frame nframes : Z) : Z :=
  if decide (nframes - end_frame >= sil)%Z then (end_frame + sil)%Z else nframes.

(** The overlap test of lines 105 and 143. *)
Definition overlaps (end_frame start_frame_next : Z) : bool :=
  bool_decide (end_frame > start_frame_next)%Z.

(** The three branches of lines 96-154: the expanded bounds of the
    [i]-th of [utt_num] utterances and whether an overlap warning is
    printed.  [next] is [utterance_dict[keys[i + 1]][0]], read only by
    the branches that use it. *)
Definition extend (nframes : Z) (utt_num i : nat) (sil start_frame end_frame end_frame_pre : Z)
    (next : result Z) : result (Z * Z * bool) :=
  if decide (i = 0) then
    let start_frame_extend := first_start sil start_frame in
    if decide (utt_num <> 1) then
      start_frame_next <- next ;;
      Ok (start_frame_extend, extend_end sil end_frame start_frame_next,
          overlaps end_frame start_frame_next)
    else Ok (start_frame_extend, (end_frame + sil)%Z, false)
  else if decide (i = utt_num - 1) then
    Ok (extend_start sil start_frame end_frame_pre, last_end sil end_frame nframes, false)
  else
    start_frame_next <- next ;;
    Ok (extend_start sil start_frame end_frame_pre, extend_end sil end_frame start_frame_next,
        overlaps end_frame start_frame_next).

(** ** The loop (lines 74-167) *)

Record seg_state := {
  input_data_dict : gmap pystr (list frame);
  input_data_utt_sum : frame;
  stddev : frame;
  total_frame_num_file : Z;
  end_frame_pre : Z;
  warnings : list pystr
}.

(** [utterance_dict[keys[i + 1]][0]] *)
Definition start_of_key (utterance_dict : gmap pystr (Z * Z)) (keys : list pystr) (j : nat)
    : result Z :=
  k <- py_get keys (Z.of_nat j) ;;
  info <- dict_get utterance_dict k ;;
  Ok info.1.

(** One iteration, for the [i]-th key [utt_index] (lines 84-167). *)
Definition segment_step (input_data : list frame) (feature_dim : nat)
    (utterance_dict : gmap pystr (Z * Z)) (sil_duration : Z) (mean : option frame)
    (keys : list pystr) (i : nat) (utt_index : pystr) (st : seg_state) : result seg_state :=
  utt_info <- dict_get utterance_dict utt_index ;;
  let start_frame := utt_info.1 in
  let end_frame := utt_info.2 in
  if decide (start_frame > end_frame)%Z then Err ValueError
  else
    b <- extend (Z.of_nat (length input_data)) (length keys) i sil_duration
                start_frame end_frame (end_frame_pre st)
                (start_of_key utterance_dict keys (S i)) ;;
    let '(start_frame_extend, end_frame_extend, warn) := b in
    let input_data_utt := py_slice input_data start_frame_extend end_frame_extend in
    Ok {| input_data_utt_sum :=
            vadd (input_data_utt_sum st) (col_sum feature_dim input_data_utt);
          total_frame_num_file :=
            (total_frame_num_file st + (end_frame_extend - start_frame_extend))%Z;
          input_data_dict := <[utt_index := input_data_utt]> (input_data_dict st);
          stddev :=
            match mean with
            | Some m => vadd (stddev st) (col_sum feature_dim (map (sq_dev m) input_data_utt))
            | None => stddev st
            end;
          end_frame_pre := end_frame;
          warnings := if warn then warnings st ++ [utt_index] else warnings st |}.

(** [for i, utt_index in enumerate(keys)], from index [i] on the keys
    [rest] still to visit. *)
Fixpoint segment_loop (input_data : list frame) (feature_dim : nat)
    (utterance_dict : gmap pystr (Z * Z)) (sil_duration : Z) (mean : option frame)
    (keys : list pystr) (i : nat) (rest : list pystr) (st : seg_state) : result seg_state :=
  match rest with
  | [] => Ok st
  | utt_index :: rest' =>
      st' <- segment_step input_data feature_dim utterance_dict sil_duration mean keys i utt_index st ;;
      segment_loop input_data feature_dim utterance_dict sil_duration mean keys (S i) rest' st'
  end.

(** The statistics returned for the file (lines 169-178).  The code
    returns [np.sqrt(stddev / (total_frame_num_file - 1))]; the model
    returns the variance [stddev / (total_frame_num_file - 1)], the
    square root being outside rational arithmetic. *)
Inductive stats :=
| NoStats
| MeanOf (mean : frame)
| VarianceOf (var : frame).

Definition vscale (q : Q) (v : frame) : frame := map (fun x => (x * q)%Q) v.

Definition file_stats (is_training : bool) (mean : option frame) (st : seg_state) : stats :=
  if is_training then
    match mean with
    | Some _ => VarianceOf (vscale (/ inject_Z (total_frame_num_file st - 1)) (stddev st))
    | None => MeanOf (vscale (/ inject_Z (total_frame_num_file st)) (input_data_utt_sum st))
    end
  else NoStats.

Record segment_out := {
  out_dict : gmap pystr (list frame);
  out_utt_sum : frame;
  out_stats : stats;
  out_total_frame_num_file : Z;
  out_warnings : list pystr
}.

(** The state before the loop (lines 75-81). *)
Definition seg_init (feature_dim : nat) : seg_state :=
  {| input_data_dict := ∅; input_data_utt_sum := vzeros feature_dim;
     stddev := vzeros feature_dim; total_frame_num_file := 0;
     end_frame_pre := 0; warnings := [] |}.

(** [keys = sorted(list(utterance_dict.keys()))] (line 82). *)
Definition sorted_keys (utterance_dict : gmap pystr (Z * Z)) : list pystr :=
  py_sorted (map fst (map_to_list utterance_dict)).

(** [segment] from line 71 on: [utterance_dict] maps each utterance key
    to its [(start_frame, end_frame)]. *)
Definition segment (input_data : list frame) (feature_dim : nat)
    (utterance_dict : gmap pystr (Z * Z)) (is_training : bool) (sil_duration : Z)
    (mean : option frame) : result segment_out :=
  let keys := sorted_keys utterance_dict in
  st <- segment_loop input_data feature_dim utterance_dict sil_duration mean keys 0 keys
          (seg_init feature_dim) ;;
  Ok {| out_dict := input_data_dict st; out_utt_sum := input_data_utt_sum st;
        out_stats := file_stats is_training mean st;
        out_total_frame_num_file := total_frame_num_file st;
        out_warnings := warnings st |}.

(** ** The boundary policy, side by side

    The three branches of the loop say, per side: the start of the
    [j]-th utterance depends only on whether it is the first, its end
    only on whether it is the last ([ivs] lists the [(start, end)] of the
    utterances in key order). *)
Definition exp_start (sil : Z) (ivs : list (Z * Z)) (j : nat) : Z :=
  match ivs !! j with
  | None => 0%Z
  | Some (s, _) =>
      match j with
      | 0 => first_start sil s
      | S j' => match ivs !! j' with Some (_, e_pre) => extend_start sil s e_pre | None => s end
      end
  end.

Definition exp_end (nframes sil : Z) (ivs : list (Z * Z)) (j : nat) : Z :=
  match ivs !! j with
  | None => 0%Z
  | Some (_, e) =>
      match ivs !! S j with
      | Some (s_next, _) => extend_end sil e s_next
      | None => if decide (j = 0) then (e + sil)%Z else last_end sil e nframes
      end
  end.

(** Well-formed timing: every interval has [start <= end], and each
    utterance ends before the next starts. *)
Definition ordered (ivs : list (Z * Z)) : Prop :=
  (forall j s e, ivs !! j = Some (s, e) -> (s <= e)%Z) /\
  (forall j s e s' e', ivs !! j = Some (s, e) -> ivs !! S j = Some (s', e') -> (e <= s')%Z).

(** Inside a file of [nframes] frames: the utterances lie in [0, nframes]. *)
Definition in_file (nframes : Z) (ivs : list (Z * Z)) : Prop :=
  forall j s e, ivs !! j = Some (s, e) -> (0 <= s)%Z /\ (e <= nframes)%Z.

(** Executable versions of [ordered] and [in_file]. *)
Fixpoint ordered_b (ivs : list (Z * Z)) : bool :=
  match ivs with
  | [] => true
  | (s, e) :: rest =>
      (s <=? e)%Z &&
      match rest with (s', _) :: _ => (e <=? s')%Z | [] => true end &&
      ordered_b rest
  end.

Definition in_file_b (nframes : Z) (ivs : list (Z * Z)) : bool :=
  forallb (fun iv => (0 <=? iv.1)%Z && (iv.2 <=? nframes)%Z) ivs.

Lemma ordered_b_sound ivs : ordered_b ivs = true -> ordered ivs.
Proof.
  induction ivs as [|[s e] rest IH]; intros H; [split; intros j; done|].
  simpl in H. apply andb_prop in H as [H Hr]. apply andb_prop in H as [Hse Hn].
  destruct (IH Hr) as [IH1 IH2]. split.
  - intros [|j] s' e' Hj; simpl in Hj; [injection Hj as <- <-; lia|eauto].
  - intros [|j] s1 e1 s2 e2 H1 H2; simpl in H1, H2; [|eauto].
    injection H1 as <- <-. destruct rest as [|[s3 e3] rest]; [done|].
    simpl in H2. injection H2 as <- <-. lia.
Qed.

Lemma in_file_b_sound nframes ivs : in_file_b nframes ivs = true -> in_file nframes ivs.
Proof.
  intros H j s e Hj. unfold in_file_b in H. rewrite forallb_forall in H.
  apply list_elem_of_lookup_2, list_elem_of_In, H in Hj. simpl in Hj. lia.
Qed.

(** * Arithmetic of the expansion *)

Lemma quot2_bounds g : (0 <= g)%Z -> (0 <= 2 * Z.quot g 2 <= g)%Z.
Proof.
  intros Hg. rewrite Z.quot_div_nonneg by lia.
  pose proof (Z.mul_div_le g 2 ltac:(lia)). pose proof (Z.div_pos g 2 Hg ltac:(lia)). lia.
Qed.

(** The half-gap rule never makes two neighbours overlap: when an
    utterance ends before the next starts, its expanded end is at most
    the expanded start of the next one. *)
Lemma extend_end_start_le sil e s' :
  (e <= s')%Z -> (extend_end sil e s' <= extend_start sil s' e)%Z.
Proof.
  intros H. pose proof (quot2_bounds (s' - e) ltac:(lia)).
  unfold extend_end, extend_start. repeat case_decide; lia.
Qed.

Lemma extend_start_between sil s e_pre :
  (0 <= sil)%Z -> (e_pre <= s)%Z -> (e_pre <= extend_start sil s e_pre <= s)%Z.
Proof.
  intros Hs H. pose proof (quot2_bounds (s - e_pre) ltac:(lia)).
  unfold extend_start. case_decide; lia.
Qed.

Lemma extend_end_ge sil e s' : (0 <= sil)%Z -> (e <= s')%Z -> (e <= extend_end sil e s')%Z.
Proof.
  intros Hs H. pose proof (quot2_bounds (s' - e) ltac:(lia)).
  unfold extend_end. case_decide; lia.
Qed.

Lemma first_start_between sil s : (0 <= sil)%Z -> (0 <= s)%Z -> (0 <= first_start sil s <= s)%Z.
Proof. intros. unfold first_start. case_decide; lia. Qed.

Lemma last_end_between sil e nframes :
  (0 <= sil)%Z -> (e <= nframes)%Z -> (e <= last_end sil e nframes <= nframes)%Z.
Proof. intros. unfold last_end. case_decide; lia. Qed.

Section Bounds.
Context (nframes sil : Z) (ivs : list (Z * Z)).
Hypothesis Hord : ordered ivs.

Lemma exp_start_S j s e s' e' :
  ivs !! j = Some (s, e) -> ivs !! S j = Some (s', e') ->
  exp_start sil ivs (S j) = extend_start sil s' e.
Proof. intros H1 H2. unfold exp_start. by rewrite H2, H1. Qed.

Lemma exp_end_S j s e s' e' :
  ivs !! j = Some (s, e) -> ivs !! S j = Some (s', e') ->
  exp_end nframes sil ivs j = extend_end sil e s'.
Proof. intros H1 H2. unfold exp_end. by rewrite H1, H2. Qed.

(** C2: Neighbouring expanded slices do not overlap. *)
Theorem expanded_disjoint j :
  S j < length ivs -> (exp_end nframes sil ivs j <= exp_start sil ivs (S j))%Z.
Proof.
  intros Hj.
  destruct (lookup_lt_is_Some_2 ivs (S j) Hj) as [[s' e'] H2].
  destruct (lookup_lt_is_Some_2 ivs j ltac:(lia)) as [[s e] H1].
  rewrite (exp_end_S j s e s' e'), (exp_start_S j s e s' e') by done.
  apply extend_end_start_le. by eapply (proj2 Hord).
Qed.

Hypothesis Hsil : (0 <= sil)%Z.
Hypothesis Hin : in_file nframes ivs.

(** Shared by the claim below and the lemmas that follow. *)
Lemma exp_bounds_contain j s e :
  ivs !! j = Some (s, e) -> (exp_start sil ivs j <= s)%Z /\ (e <= exp_end nframes sil ivs j)%Z.
Proof.
  intros Hj. destruct (Hin j s e Hj) as [Hs0 He0]. pose proof (proj1 Hord j s e Hj).
  split.
  - destruct j as [|j]; [unfold exp_start; rewrite Hj; by apply first_start_between|].
    destruct (ivs !! j) as [[sp ep]|] eqn:Hp; [|unfold exp_start; rewrite Hj, Hp; lia].
    rewrite (exp_start_S j sp ep s e) by done.
    apply extend_start_between; [done|]. by eapply (proj2 Hord).
  - destruct (ivs !! S j) as [[s' e']|] eqn:Hn.
    + rewrite (exp_end_S j s e s' e') by done. apply extend_end_ge; [done|].
      by eapply (proj2 Hord).
    + unfold exp_end. rewrite Hj, Hn. case_decide; [lia|]. by apply last_end_between.
Qed.

(** Each utterance lies inside its expanded slice. *)
Theorem expanded_contains j s e :
  ivs !! j = Some (s, e) -> (exp_start sil ivs j <= s)%Z /\ (e <= exp_end nframes sil ivs j)%Z.
  Proof. apply exp_bounds_contain. Qed.

(** Shared by the claim below and the lemmas that follow. *)
Lemma exp_bounds_in_file j s e :
  2 <= length ivs -> ivs !! j = Some (s, e) ->
  (0 <= exp_start sil ivs j)%Z /\ (exp_end nframes sil ivs j <= nframes)%Z.
Proof.
  intros Hlen Hj. split.
  - destruct j as [|j]; [unfold exp_start; rewrite Hj; apply first_start_between; [done|]; by eapply Hin|].
    destruct (lookup_lt_is_Some_2 ivs j) as [[sp ep] Hp]; [apply lookup_lt_Some in Hj; lia|].
    rewrite (exp_start_S j sp ep s e) by done.
    pose proof (extend_start_between sil s ep Hsil (proj2 Hord j sp ep s e Hp Hj)).
    pose proof (proj1 Hord j sp ep Hp). pose proof (Hin j sp ep Hp). lia.
  - destruct (ivs !! S j) as [[s' e']|] eqn:Hn.
    + rewrite (exp_end_S j s e s' e') by done.
      pose proof (extend_end_start_le sil e s' (proj2 Hord j s e s' e' Hj Hn)).
      pose proof (extend_start_between sil s' e Hsil (proj2 Hord j s e s' e' Hj Hn)).
      pose proof (Hin _ _ _ Hn). pose proof (proj1 Hord _ _ _ Hn). lia.
    + unfold exp_end. rewrite Hj, Hn. pose proof (lookup_lt_Some _ _ _ Hj).
      apply lookup_ge_None in Hn. rewrite decide_False by lia.
      apply last_end_between; [done|]. by eapply Hin.
Qed.
(** With two utterances or more, every expanded slice lies in the file. *)
Theorem expanded_in_file j s e :
  2 <= length ivs -> ivs !! j = Some (s, e) ->
  (0 <= exp_start sil ivs j)%Z /\ (exp_end nframes sil ivs j <= nframes)%Z.
  Proof. apply exp_bounds_in_file. Qed.

End Bounds.

(** * The loop implements the policy *)

Section Loop.
Context (input_data : list frame) (feature_dim : nat) (d : gmap pystr (Z * Z))
        (sil : Z) (mean : option frame) (keys : list pystr) (ivs : list (Z * Z)).
(** [ivs] lists the intervals of the keys, in key order. *)
Hypothesis Hivs : Forall2 (fun k iv => d !! k = Some iv) keys ivs.

Definition nframes_of : Z := Z.of_nat (length input_data).

(** [end_frame_pre] when the [j]-th key is visited. *)
Definition prev_end (j : nat) : Z :=
  match j with
  | 0 => 0%Z
  | S j' => match ivs !! j' with Some (_, e) => e | None => 0%Z end
  end.

Definition slice_of (j : nat) : list frame :=
  py_slice input_data (exp_start sil ivs j) (exp_end nframes_of sil ivs j).

Definition len_of (j : nat) : Z := (exp_end nframes_of sil ivs j - exp_start sil ivs j)%Z.

Definition warn_of (j : nat) : bool :=
  match ivs !! j, ivs !! S j with
  | Some (_, e), Some (s', _) => overlaps e s'
  | _, _ => false
  end.

Lemma keys_ivs_length : length keys = length ivs.
Proof. by eapply Forall2_length. Qed.

Lemma start_of_key_spec j :
  start_of_key d keys j = match ivs !! j with Some (s, _) => Ok s | None => Err IndexError end.
Proof.
  unfold start_of_key, py_get, py_norm.
  rewrite (decide_False (P := (Z.of_nat j < 0)%Z)) by lia. rewrite decide_True by lia.
  rewrite Nat2Z.id. destruct (keys !! j) as [k|] eqn:Hk.
  - destruct (Forall2_lookup_l _ _ _ _ _ Hivs Hk) as [[s e] [-> Hd]].
    by rewrite (dict_get_Some _ _ _ Hd).
  - apply lookup_ge_None in Hk. rewrite keys_ivs_length in Hk.
    by rewrite (proj2 (lookup_ge_None _ _) Hk).
Qed.

(** Shared by the claim below and the lemmas that follow. *)
Lemma extend_exp_branches j s e :
  ivs !! j = Some (s, e) ->
  extend nframes_of (length keys) j sil s e (prev_end j) (start_of_key d keys (S j)) =
  Ok (exp_start sil ivs j, exp_end nframes_of sil ivs j, warn_of j).
Proof.
  intros Hj. rewrite start_of_key_spec, keys_ivs_length.
  pose proof (lookup_lt_Some _ _ _ Hj) as Hlt.
  unfold extend, exp_start, exp_end, warn_of. rewrite Hj.
  destruct (ivs !! S j) as [[s' e']|] eqn:Hn.
  - pose proof (lookup_lt_Some _ _ _ Hn).
    destruct j as [|j]; simpl.
    + by rewrite decide_True by lia.
    + rewrite decide_False by lia. destruct (ivs !! j) as [[sp ep]|] eqn:Hp; [done|].
      apply lookup_ge_None in Hp. lia.
  - apply lookup_ge_None in Hn. destruct j as [|j]; simpl.
    + by rewrite decide_False by lia.
    + rewrite decide_True by lia. destruct (ivs !! j) as [[sp ep]|] eqn:Hp; [done|].
      apply lookup_ge_None in Hp. lia.
Qed.

(** C19: Refinement: the three branches of the code compute the side-by-side
    policy [exp_start]/[exp_end], and warn exactly on an overlap with
    the next utterance. *)
Theorem extend_exp j s e :
  ivs !! j = Some (s, e) ->
  extend nframes_of (length keys) j sil s e (prev_end j) (start_of_key d keys (S j)) =
  Ok (exp_start sil ivs j, exp_end nframes_of sil ivs j, warn_of j).
Proof. apply extend_exp_branches. Qed.

Lemma step_valid j k s e st :
  keys !! j = Some k -> ivs !! j = Some (s, e) -> (s <= e)%Z -> end_frame_pre st = prev_end j ->
  segment_step input_data feature_dim d sil mean keys j k st =
  Ok {| input_data_utt_sum := vadd (input_data_utt_sum st) (col_sum feature_dim (slice_of j));
        total_frame_num_file := (total_frame_num_file st + len_of j)%Z;
        input_data_dict := <[k := slice_of j]> (input_data_dict st);
        stddev := match mean with
                  | Some m => vadd (stddev st) (col_sum feature_dim (map (sq_dev m) (slice_of j)))
                  | None => stddev st
                  end;
        end_frame_pre := e;
        warnings := if warn_of j then warnings st ++ [k] else warnings st |}.
Proof.
  intros Hk Hj Hse Hpre. unfold segment_step.
  destruct (Forall2_lookup_l _ _ _ _ _ Hivs Hk) as [iv [Hj' Hd]].
  rewrite Hj in Hj'. injection Hj' as <-.
  rewrite (dict_get_Some _ _ _ Hd). simpl. rewrite decide_False by lia.
  rewrite Hpre. change (Z.of_nat (length input_data)) with nframes_of.
  by rewrite (extend_exp_branches j s e Hj).
Qed.

Definition valid_all : Prop := forall j s e, ivs !! j = Some (s, e) -> (s <= e)%Z.

(** The loop from index [i] on, when no timestamp is reversed: it
    succeeds, adds the lengths of the expanded slices to the frame
    count, stores each key's slice, and warns on the keys that overlap
    their successor. *)
Lemma loop_valid m : forall i st,
  length keys = i + m -> valid_all -> end_frame_pre st = prev_end i ->
  exists st', segment_loop input_data feature_dim d sil mean keys i (drop i keys) st = Ok st' /\
    total_frame_num_file st' = (total_frame_num_file st + zsum (map len_of (seq i m)))%Z /\
    warnings st' = warnings st ++ omap (fun j => if warn_of j then keys !! j else None) (seq i m) /\
    (forall j k, NoDup keys -> i <= j -> keys !! j = Some k ->
       input_data_dict st' !! k = Some (slice_of j)) /\
    (forall k, k ∉ drop i keys -> input_data_dict st' !! k = input_data_dict st !! k).
Proof.
  induction m as [|m IH]; intros i st Hlen Hval Hpre.
  - rewrite drop_ge by lia. exists st. simpl. rewrite Z.add_0_r, app_nil_r.
    split_and!; try done. intros j k _ Hj Hk. apply lookup_lt_Some in Hk. lia.
  - destruct (lookup_lt_is_Some_2 keys i ltac:(lia)) as [k Hk].
    destruct (Forall2_lookup_l _ _ _ _ _ Hivs Hk) as [[s e] [Hj Hd]].
    rewrite (drop_S _ _ _ Hk). cbn [segment_loop].
    rewrite (step_valid i k s e st Hk Hj (Hval _ _ _ Hj) Hpre).
    match goal with |- context [segment_loop _ _ _ _ _ _ _ _ ?st1] =>
      destruct (IH (S i) st1 ltac:(lia) Hval) as (st' & Hloop & Htot & Hw & Hdict & Hrest);
        [simpl; by rewrite Hj|] end.
    exists st'. rewrite Hloop. cbn [seq map zsum foldr omap]. simpl in Htot, Hw.
    split_and!; [done| unfold zsum in *; lia | |..].
    + rewrite Hw. simpl. rewrite Hk. destruct (warn_of i); by rewrite <- ?app_assoc.
    + intros j k' Hnd Hij Hk'. destruct (decide (j = i)) as [->|Hne]; [|apply Hdict; auto with lia].
      rewrite Hk in Hk'. injection Hk' as <-.
      rewrite Hrest by (by apply NoDup_not_in_drop). simpl. by rewrite lookup_insert_eq.
    + intros k' Hk'. rewrite Hrest by set_solver. simpl. rewrite lookup_insert_ne; [done|set_solver].
Qed.

Lemma step_reversed j k s e st :
  keys !! j = Some k -> ivs !! j = Some (s, e) -> (e < s)%Z ->
  segment_step input_data feature_dim d sil mean keys j k st = Err ValueError.
Proof.
  intros Hk Hj Hse. unfold segment_step.
  destruct (Forall2_lookup_l _ _ _ _ _ Hivs Hk) as [iv [Hj' Hd]].
  rewrite Hj in Hj'. injection Hj' as <-.
  rewrite (dict_get_Some _ _ _ Hd). simpl. by rewrite decide_True by lia.
Qed.

(** A reversed timestamp at index [i] or later stops the loop with
    [ValueError]. *)
Lemma loop_reversed m : forall i st,
  length keys = i + m -> end_frame_pre st = prev_end i ->
  (exists j s e, i <= j /\ ivs !! j = Some (s, e) /\ (e < s)%Z) ->
  segment_loop input_data feature_dim d sil mean keys i (drop i keys) st = Err ValueError.
Proof.
  induction m as [|m IH]; intros i st Hlen Hpre (j & s & e & Hij & Hj & Hse).
  { apply lookup_lt_Some in Hj. rewrite <- keys_ivs_length in Hj. lia. }
  destruct (lookup_lt_is_Some_2 keys i ltac:(lia)) as [k Hk].
  destruct (Forall2_lookup_l _ _ _ _ _ Hivs Hk) as [[si ei] [Hi _]].
  rewrite (drop_S _ _ _ Hk). cbn [segment_loop].
  destruct (Z_lt_le_dec ei si) as [Hrev|Hok].
  - by rewrite (step_reversed i k si ei st Hk Hi Hrev).
  - rewrite (step_valid i k si ei st Hk Hi Hok Hpre). apply IH; [lia| |].
    + simpl. by rewrite Hi.
    + exists j, s, e. split_and!; [|done|done]. destruct (decide (j = i)); [subst; rewrite Hi in Hj; injection Hj as <- <-; lia|lia].
Qed.
End Loop.

(** * [segment] *)

Lemma sorted_keys_perm d : Permutation (map fst (map_to_list d)) (sorted_keys d).
Proof. apply PyStrSort.Permuted_sort. Qed.

Lemma sorted_keys_NoDup d : NoDup (sorted_keys d).
Proof. rewrite <- (sorted_keys_perm d). apply NoDup_fst_map_to_list. Qed.

Lemma elem_of_sorted_keys d k : k ∈ sorted_keys d <-> is_Some (d !! k).
Proof.
  rewrite <- (sorted_keys_perm d). rewrite list_elem_of_fmap.
  split; [intros [[k' v] [-> Hin]]; apply elem_of_map_to_list in Hin; simpl; eauto|].
  intros [v Hv]. exists (k, v). split; [done|]. by apply elem_of_map_to_list.
Qed.

(** The intervals of the utterances, in the order of the sorted keys. *)
Definition utt_intervals (d : gmap pystr (Z * Z)) : list (Z * Z) :=
  omap (fun k => d !! k) (sorted_keys d).

Lemma omap_lookup_Forall2 (d : gmap pystr (Z * Z)) ks :
  Forall (fun k => is_Some (d !! k)) ks ->
  Forall2 (fun k iv => d !! k = Some iv) ks (omap (fun k => d !! k) ks).
Proof.
  induction 1 as [|k ks [v Hv] _ IH]; simpl; [constructor|]. rewrite Hv. by constructor.
Qed.

Lemma utt_intervals_Forall2 d :
  Forall2 (fun k iv => d !! k = Some iv) (sorted_keys d) (utt_intervals d).
Proof.
  apply omap_lookup_Forall2, Forall_forall. intros k Hk. by apply elem_of_sorted_keys.
Qed.

Lemma utt_intervals_lookup d j iv :
  utt_intervals d !! j = Some iv -> exists k, sorted_keys d !! j = Some k /\ d !! k = Some iv.
Proof. intros H. destruct (Forall2_lookup_r _ _ _ _ _ (utt_intervals_Forall2 d) H) as [k ?]. eauto. Qed.

Lemma sorted_keys_lookup d k iv :
  d !! k = Some iv -> exists j, sorted_keys d !! j = Some k /\ utt_intervals d !! j = Some iv.
Proof.
  intros Hk. destruct (proj1 (list_elem_of_lookup (sorted_keys d) k)) as [j Hj].
  { apply elem_of_sorted_keys. eauto. }
  destruct (Forall2_lookup_l _ _ _ _ _ (utt_intervals_Forall2 d) Hj) as [iv' [? Hd]].
  rewrite Hk in Hd. injection Hd as ->. eauto.
Qed.

Lemma valid_all_of_dict d :
  map_Forall (fun _ iv => (iv.1 <= iv.2)%Z) d -> valid_all (utt_intervals d).
Proof.
  intros H j s e Hj. destruct (utt_intervals_lookup d j _ Hj) as (k & _ & Hk).
  exact (H k (s, e) Hk).
Qed.

Section SegmentFile.
Context (input_data : list frame) (feature_dim : nat) (d : gmap pystr (Z * Z))
        (is_training : bool) (sil : Z) (mean : option frame).

(** Shared by the claim below and the lemmas that follow. *)
Lemma segment_valid_result :
  map_Forall (fun _ iv => (iv.1 <= iv.2)%Z) d ->
  exists o, segment input_data feature_dim d is_training sil mean = Ok o /\
    (forall j k, sorted_keys d !! j = Some k ->
       out_dict o !! k = Some (slice_of input_data sil (utt_intervals d) j)) /\
    (forall k, d !! k = None -> out_dict o !! k = None) /\
    out_total_frame_num_file o =
      zsum (map (len_of input_data sil (utt_intervals d)) (seq 0 (length (sorted_keys d)))) /\
    out_warnings o =
      omap (fun j => if warn_of (utt_intervals d) j then sorted_keys d !! j else None)
           (seq 0 (length (sorted_keys d))).
Proof.
  intros Hval. unfold segment.
  edestruct (loop_valid input_data feature_dim d sil mean (sorted_keys d) (utt_intervals d)
               (utt_intervals_Forall2 d) (length (sorted_keys d)) 0 (seg_init feature_dim))
    as (st & Hloop & Htot & Hw & Hdict & Hrest); [done|by apply valid_all_of_dict|done|].
  rewrite drop_0 in Hloop. rewrite Hloop. eexists. split; [done|]. cbn.
  split_and!; [| |done|done].
  - intros j k Hk. apply Hdict; [apply sorted_keys_NoDup|lia|done].
  - intros k Hk. rewrite Hrest; [done|]. rewrite drop_0, elem_of_sorted_keys, Hk. by intros [].
Qed.

(** C1: When no utterance has [start_frame > end_frame], [segment] returns:
    for the [j]-th key in sorted order, the frames of its expanded
    interval [exp_start .. exp_end]; no entry for other keys; the sum of
    the interval lengths as [total_frame_num_file]; and a warning for each
    key whose utterance overlaps the next one. *)
Theorem segment_valid :
  map_Forall (fun _ iv => (iv.1 <= iv.2)%Z) d ->
  exists o, segment input_data feature_dim d is_training sil mean = Ok o /\
    (forall j k, sorted_keys d !! j = Some k ->
       out_dict o !! k = Some (slice_of input_data sil (utt_intervals d) j)) /\
    (forall k, d !! k = None -> out_dict o !! k = None) /\
    out_total_frame_num_file o =
      zsum (map (len_of input_data sil (utt_intervals d)) (seq 0 (length (sorted_keys d)))) /\
    out_warnings o =
      omap (fun j => if warn_of (utt_intervals d) j then sorted_keys d !! j else None)
           (seq 0 (length (sorted_keys d))).
  Proof. apply segment_valid_result. Qed.

(** C9: A reversed timestamp anywhere in the file raises [ValueError]
    (line 94). *)
Theorem segment_reversed :
  (exists k s e, d !! k = Some (s, e) /\ (e < s)%Z) ->
  segment input_data feature_dim d is_training sil mean = Err ValueError.
Proof.
  intros (k & s & e & Hk & Hse). destruct (sorted_keys_lookup d k _ Hk) as (j & Hj & Hiv).
  unfold segment.
  rewrite <- (drop_0 (sorted_keys d)) at 2.
  rewrite (loop_reversed input_data feature_dim d sil mean (sorted_keys d) (utt_intervals d)
             (utt_intervals_Forall2 d) (length (sorted_keys d)) 0 (seg_init feature_dim));
    [done|done|done|].
  exists j, s, e. split_and!; [lia|done|done].
Qed.
End SegmentFile.

(** * Frame counts *)

Lemma len_of_slice input_data sil ivs j s e :
  ordered ivs -> in_file (Z.of_nat (length input_data)) ivs -> (0 <= sil)%Z ->
  2 <= length ivs -> ivs !! j = Some (s, e) ->
  len_of input_data sil ivs j = Z.of_nat (length (slice_of input_data sil ivs j)).
Proof.
  intros Hord Hin Hsil Hlen Hj. unfold len_of, slice_of, nframes_of.
  pose proof (exp_bounds_in_file _ _ _ Hord Hsil Hin j s e Hlen Hj).
  pose proof (exp_bounds_contain _ _ _ Hord Hsil Hin j s e Hj).
  pose proof (proj1 Hord j s e Hj).
  rewrite py_slice_length_in by lia. lia.
Qed.

(** With two utterances or more, well-ordered and inside the file, the
    returned [total_frame_num_file] is the number of frames in the
    returned slices. *)
Theorem total_frames_counts_slices input_data feature_dim d is_training sil mean o :
  ordered (utt_intervals d) -> in_file (Z.of_nat (length input_data)) (utt_intervals d) ->
  (0 <= sil)%Z -> 2 <= length (sorted_keys d) ->
  segment input_data feature_dim d is_training sil mean = Ok o ->
  out_total_frame_num_file o =
    zsum (map (fun j => Z.of_nat (length (slice_of input_data sil (utt_intervals d) j)))
              (seq 0 (length (sorted_keys d)))).
Proof.
  intros Hord Hin Hsil Hlen Hseg.
  destruct (segment_valid_result input_data feature_dim d is_training sil mean) as (o' & Hseg' & _ & _ & Htot & _).
  { intros k [s e] Hk. destruct (sorted_keys_lookup d k _ Hk) as (j & _ & Hj). by eapply (proj1 Hord). }
  rewrite Hseg in Hseg'. injection Hseg' as <-. rewrite Htot. f_equal.
  apply map_ext_in. intros j Hj%in_seq.
  rewrite (keys_ivs_length _ _ _ (utt_intervals_Forall2 d)) in Hj, Hlen.
  destruct (lookup_lt_is_Some_2 (utt_intervals d) j ltac:(lia)) as [[s e] Hs].
  by eapply len_of_slice.
Qed.

(** A feature matrix of [n] one-dimensional frames numbered 0 .. n-1. *)
Definition ramp (n : nat) : list frame := map (fun i => [inject_Z (Z.of_nat i)]) (seq 0 n).

Definition two_utterances : gmap pystr (Z * Z) :=
  list_to_map [(str "0001", (100, 200)%Z); (str "0002", (250, 400)%Z)].

(** The example of the spec (section 8): utterances at [(100, 200)] and
    [(250, 400)] of a 500-frame file, silence width 20.  The gap of 50
    frames is at least [2 * 20], so both sides take the full width: the
    slices are [80 .. 220] and [230 .. 420], 330 frames, not the
    [(80, 225), (225, 420)] the spec gives. *)
Theorem segment_spec_example :
  exists o, segment (ramp 500) 1 two_utterances false 20 None = Ok o /\
    out_dict o !! str "0001" = Some (py_slice (ramp 500) 80 220) /\
    out_dict o !! str "0002" = Some (py_slice (ramp 500) 230 420) /\
    out_total_frame_num_file o = 330%Z /\ out_warnings o = [].
Proof. eexists. split; [vm_compute; reflexivity|]. vm_compute. auto. Qed.

(** A single utterance is expanded by the silence width past the end of
    the file (line 118, unlike line 132 for the last of several): the
    slice is cut at the end of the file but [total_frame_num_file], the
    divisor of the mean, counts the frames past it. *)
Theorem single_utterance_overcount :
  exists o, segment (ramp 100) 1 {[ str "0001" := (10, 95)%Z ]} true 20 None = Ok o /\
    out_total_frame_num_file o = 115%Z /\
    option_map length (out_dict o !! str "0001") = Some 100.
Proof. eexists. split; [vm_compute; reflexivity|]. vm_compute. auto. Qed.

(** * Witnesses *)

Definition two_ivs : list (Z * Z) := [(100, 200); (250, 400)]%Z.

Lemma two_ivs_ordered : ordered two_ivs.
Proof. apply ordered_b_sound. reflexivity. Qed.

Lemma two_ivs_in_file : in_file 500 two_ivs.
Proof. apply in_file_b_sound. reflexivity. Qed.

Lemma expanded_disjoint_witness :
  ordered two_ivs /\ 1 < length two_ivs /\
  (exp_end 500 20 two_ivs 0 <= exp_start 20 two_ivs 1)%Z.
Proof.
  split; [exact two_ivs_ordered|]. split; [simpl; lia|].
  exact (expanded_disjoint 500 20 two_ivs two_ivs_ordered 0 ltac:(simpl; lia)).
Defined.

Lemma expanded_contains_witness :
  ordered two_ivs /\ (0 <= 20)%Z /\ in_file 500 two_ivs /\ two_ivs !! 1 = Some (250%Z, 400%Z) /\
  (exp_start 20 two_ivs 1 <= 250)%Z /\ (400 <= exp_end 500 20 two_ivs 1)%Z.
Proof.
  split_and!; [exact two_ivs_ordered|lia|exact two_ivs_in_file|done| |];
    apply (expanded_contains 500 20 two_ivs two_ivs_ordered ltac:(lia) two_ivs_in_file 1 _ _ eq_refl).
Defined.

Lemma expanded_in_file_witness :
  ordered two_ivs /\ (0 <= 20)%Z /\ in_file 500 two_ivs /\ 2 <= length two_ivs /\
  two_ivs !! 1 = Some (250%Z, 400%Z) /\
  (0 <= exp_start 20 two_ivs 1)%Z /\ (exp_end 500 20 two_ivs 1 <= 500)%Z.
Proof.
  split_and!; [exact two_ivs_ordered|lia|exact two_ivs_in_file|simpl; lia|done| |];
    apply (expanded_in_file 500 20 two_ivs two_ivs_ordered ltac:(lia) two_ivs_in_file 1 _ _
             ltac:(simpl; lia) eq_refl).
Defined.

Lemma extend_exp_witness :
  Forall2 (fun k iv => two_utterances !! k = Some iv)
    (sorted_keys two_utterances) (utt_intervals two_utterances) /\
  utt_intervals two_utterances !! 0 = Some (100%Z, 200%Z) /\
  extend (nframes_of (ramp 500)) (length (sorted_keys two_utterances)) 0 20 100 200
    (prev_end (utt_intervals two_utterances) 0)
    (start_of_key two_utterances (sorted_keys two_utterances) 1) =
  Ok (exp_start 20 (utt_intervals two_utterances) 0,
      exp_end (nframes_of (ramp 500)) 20 (utt_intervals two_utterances) 0,
      warn_of (utt_intervals two_utterances) 0).
Proof.
  assert (H0 : utt_intervals two_utterances !! 0 = Some (100%Z, 200%Z)) by (vm_compute; reflexivity).
  split_and!; [apply utt_intervals_Forall2|exact H0|].
  exact (extend_exp (ramp 500) two_utterances 20 (sorted_keys two_utterances)
           (utt_intervals two_utterances) (utt_intervals_Forall2 two_utterances) 0 100 200 H0).
Defined.

Lemma two_utterances_valid : map_Forall (fun _ iv => (iv.1 <= iv.2)%Z) two_utterances.
Proof. apply (bool_decide_unpack _). vm_compute. reflexivity. Qed.

Lemma segment_valid_witness :
  map_Forall (fun _ iv => (iv.1 <= iv.2)%Z) two_utterances /\
  exists o, segment (ramp 500) 1 two_utterances false 20 None = Ok o /\
    (forall j k, sorted_keys two_utterances !! j = Some k ->
       out_dict o !! k = Some (slice_of (ramp 500) 20 (utt_intervals two_utterances) j)) /\
    (forall k, two_utterances !! k = None -> out_dict o !! k = None) /\
    out_total_frame_num_file o =
      zsum (map (len_of (ramp 500) 20 (utt_intervals two_utterances))
                (seq 0 (length (sorted_keys two_utterances)))) /\
    out_warnings o =
      omap (fun j => if warn_of (utt_intervals two_utterances) j
                     then sorted_keys two_utterances !! j else None)
           (seq 0 (length (sorted_keys two_utterances))).
Proof.
  split; [exact two_utterances_valid|].
  exact (segment_valid (ramp 500) 1 two_utterances false 20 None two_utterances_valid).
Defined.

Definition reversed_utterance : gmap pystr (Z * Z) := {[ str "0001" := (200, 100)%Z ]}.

Lemma segment_reversed_witness :
  (exists k s e, reversed_utterance !! k = Some (s, e) /\ (e < s)%Z) /\
  segment (ramp 500) 1 reversed_utterance true 20 None = Err ValueError.
Proof.
  assert (H : exists k s e, reversed_utterance !! k = Some (s, e) /\ (e < s)%Z).
  { exists (str "0001"), 200%Z, 100%Z. split; [vm_compute; reflexivity|lia]. }
  split; [exact H|]. exact (segment_reversed (ramp 500) 1 reversed_utterance true 20 None H).
Defined.

Lemma total_frames_counts_slices_witness :
  exists o, segment (ramp 500) 1 two_utterances false 20 None = Ok o /\
    out_total_frame_num_file o =
      zsum (map (fun j => Z.of_nat (length (slice_of (ramp 500) 20 (utt_intervals two_utterances) j)))
                (seq 0 (length (sorted_keys two_utterances)))).
Proof.
  eexists. split; [vm_compute; reflexivity|].
  apply (total_frames_counts_slices (ramp 500) 1 two_utterances false 20 None).
  - apply ordered_b_sound. vm_compute. reflexivity.
  - apply in_file_b_sound. vm_compute. reflexivity.
  - lia.
  - vm_compute. lia.
  - vm_compute. reflexivity.
Defined.
