(* ===== verification/SwbdTranscript.v ===== *)
(** * Switchboard transcripts (LDC97S62): cleaning and label reading

    Models src/switchboard/labels/ctc/ldc97s62/character.py:
    [fix_transcript] as the chain of its [re.sub] calls and its six
    rewrite-until-no-match loops ([Regex.rewrite_loop] bounded by the
    length of the string, which every round shortens), and [read_trans]
    as a fold over the files and their lines with the state of lines
    36-39 ([speaker_dict], [char_set], and the [speaker_name] of the last
    line read, which line 69 uses).  The input of [fix_transcript] is one
    line of a file, lower-cased, so it holds no newline; the model of
    [.] still excludes it. *)

From Stdlib Require Import Sorted.
From S2P Require Import Prelude Regex.
Local Open Scope py_scope.

Module Swbd.

(** [m.group(n)] *)
Definition group (gs : list pystr) (n : nat) : pystr := default [] (gs !! (n - 1)).

Definition dot_star : item := IRep 0 re_dot.
Definition nonspace_plus : item := IRep 1 re_nonspace.

(** The six patterns of lines 122-173 and what replaces a match. *)
Definition laughter_expr : pattern :=
  [dot_star; ILit (str "[laughter-"); nonspace_plus; ILit (str "]"); dot_star].
Definition laughter_repl (gs : list pystr) : pystr :=
  group gs 1 ++ str "L " ++ group gs 2 ++ group gs 3.

Definition which_expr : pattern :=
  [dot_star; ILit (str "["); nonspace_plus; ILit (str "/"); nonspace_plus; ILit (str "]"); dot_star].
Definition which_repl (gs : list pystr) : pystr := group gs 1 ++ group gs 2 ++ group gs 4.

Definition backward_expr : pattern :=
  [dot_star; ILit (str "-["); nonspace_plus; ILit (str "]"); dot_star].
Definition backward_repl (gs : list pystr) : pystr := group gs 1 ++ str "-" ++ group gs 3.

Definition forward_expr : pattern :=
  [dot_star; ILit (str "["); nonspace_plus; ILit (str "]-"); dot_star].
Definition forward_repl (gs : list pystr) : pystr := group gs 1 ++ str "-" ++ group gs 3.

Definition nami_kakko_expr : pattern :=
  [dot_star; ILit (str "{"); nonspace_plus; ILit (str "}"); dot_star].
Definition nami_kakko_repl (gs : list pystr) : pystr := group gs 1 ++ group gs 2 ++ group gs 3.

Definition kaku_kakko_expr : pattern :=
  [dot_star; ILit (str "["); nonspace_plus; ILit (str "]"); dot_star].
Definition kaku_kakko_repl (gs : list pystr) : pystr := group gs 1 ++ str "-" ++ group gs 3.

(** [while re.match(expr, t) is not None: t = repl(re.match(expr, t))] *)
Definition while_match (expr : pattern) (repl : list pystr -> pystr) (t : pystr) : pystr :=
  rewrite_loop expr repl (S (length t)) t.

(** The six loops of [fix_transcript], in order: pattern and rewrite. *)
Definition loops : list (pattern * (list pystr -> pystr)) :=
  [(laughter_expr, laughter_repl); (which_expr, which_repl); (backward_expr, backward_repl);
   (forward_expr, forward_repl); (nami_kakko_expr, nami_kakko_repl); (kaku_kakko_expr, kaku_kakko_repl)].

(** [_\d] of line 176. *)
Definition underscore_digit : list (ascii -> bool) := [fun c => bool_decide (c = "_"%char); is_digit].

(** [fix_transcript] (lines 102-185). *)
Definition fix_transcript (transcript : pystr) : pystr :=
  let t := re_sub (lit (str "<b_aside>")) [] transcript in
  let t := re_sub (lit (str "<e_aside>")) [] t in
  let t := re_sub (lit (str "[silence]")) [] t in
  let t := re_sub (lit (str "[laughter]")) (str "L") t in
  let t := re_sub (lit (str "[noise]")) (str "N") t in
  let t := re_sub (lit (str "[vocalized-noise]")) (str "N") t in
  let t := re_sub (lit (str "&")) (str " and ") t in
  let t := while_match laughter_expr laughter_repl t in
  let t := re_sub (lit (str " laughter")) (str " L") t in
  let t := while_match which_expr which_repl t in
  let t := while_match backward_expr backward_repl t in
  let t := while_match forward_expr forward_repl t in
  let t := while_match nami_kakko_expr nami_kakko_repl t in
  let t := while_match kaku_kakko_expr kaku_kakko_repl t in
  let t := re_sub underscore_digit (str "them") t in
  let t := re_sub (lit (str "/")) [] t in
  let t := re_sub (lit (str "  ")) (str " ") t in
  re_sub (lit (str " ")) (str "_") t.

(** ** [read_trans] (lines 23-81) *)

(** What one line of a [*_trans.txt] file gives (lines 42-68): the
    speaker, the utterance key, the two time fields, and the cleaned
    transcript, or [None] when the transcript is empty (line 56).  The
    time fields are kept as text: [int(float(x) * 100 + 0.05)] is left
    out. *)
Record utt_line := {
  speaker_name : pystr;
  utt_key : pystr;
  start_field : pystr;
  end_field : pystr;
  utt_transcript : option pystr
}.

(** Lines 49-62: the transcript fields, lower-cased and cleaned; [None]
    for an empty result, else flanked by [_] with [__] replaced. *)
Definition clean_fields (fields : list pystr) : option pystr :=
  let transcript_original := py_lower (py_join [" "%char] (drop 3 fields)) in
  let transcript := fix_transcript transcript_original in
  if decide (transcript = []) then None
  else Some (re_sub (lit (str "__")) (str "_") (str "_" ++ transcript ++ str "_")).

Definition read_line (line : pystr) : result utt_line :=
  let fields := py_split " " (py_strip line) in
  f0 <- py_get fields 0 ;;
  sn <- py_get (py_split "-" f0) 0 ;;
  ui <- py_get (py_split "-" f0) (-1) ;;
  f1 <- py_get fields 1 ;;
  f2 <- py_get fields 2 ;;
  Ok {| speaker_name := sn; utt_key := py_zfill 4 ui; start_field := f1; end_field := f2;
        utt_transcript := clean_fields fields |}.

(** The state of the loop over files (lines 36-69).  [last_speaker] is
    the Python variable [speaker_name], still bound after its loop. *)
Record trans_state := {
  speaker_dict : gmap pystr (gmap pystr (pystr * pystr * pystr));
  char_set : gset pystr;
  last_speaker : option pystr
}.

Definition add_chars (cs : gset pystr) (t : pystr) : gset pystr :=
  foldl (fun cs c => {[ [c] ]} ∪ cs) cs (py_lower t).

(** The lines of one file (lines 41-68). *)
Fixpoint read_lines (lines : list pystr) (utterance_dict : gmap pystr (pystr * pystr * pystr))
    (cs : gset pystr) (last : option pystr)
    : result (gmap pystr (pystr * pystr * pystr) * gset pystr * option pystr) :=
  match lines with
  | [] => Ok (utterance_dict, cs, last)
  | line :: lines' =>
      u <- read_line line ;;
      match utt_transcript u with
      | None => read_lines lines' utterance_dict cs (Some (speaker_name u))
      | Some t =>
          read_lines lines' (<[utt_key u := (start_field u, end_field u, t)]> utterance_dict)
                     (add_chars cs t) (Some (speaker_name u))
      end
  end.

(** One file (lines 39-69): after its lines, the dictionary is stored
    under the speaker of the last line read, in this file or an earlier
    one; before any line at all, [speaker_name] is unbound and line 69
    raises [NameError]. *)
Definition read_file (st : trans_state) (lines : list pystr) : result trans_state :=
  r <- read_lines lines ∅ (char_set st) (last_speaker st) ;;
  let '(utterance_dict, cs, last) := r in
  match last with
  | None => Err (NameError (str "speaker_name"))
  | Some sn => Ok {| speaker_dict := <[sn := utterance_dict]> (speaker_dict st);
                     char_set := cs; last_speaker := Some sn |}
  end.

Fixpoint read_files (st : trans_state) (files : list (list pystr)) : result trans_state :=
  match files with
  | [] => Ok st
  | f :: files' => st' <- read_file st f ;; read_files st' files'
  end.

(** The mapping file's symbols (lines 75-81): the characters seen, with
    [L] and [N], sorted. *)
Definition mapping_symbols (cs : gset pystr) : list pystr :=
  py_sorted (elements ({[ str "N" ]} ∪ ({[ str "L" ]} ∪ cs))).

Definition read_trans (files : list (list pystr))
    : result (gmap pystr (gmap pystr (pystr * pystr * pystr)) * list pystr) :=
  st <- read_files {| speaker_dict := ∅; char_set := ∅; last_speaker := None |} files ;;
  Ok (speaker_dict st, mapping_symbols (char_set st)).

(** What a stored transcript may hold: no space, and lower-case
    characters or the event symbols [L] and [N]. *)
Definition label_char (c : ascii) : Prop :=
  c <> " "%char /\ (ascii_lower c = c \/ c = "L"%char \/ c = "N"%char).

(** The invariant of the loops of [read_trans]: every character [c] of a
    stored transcript is a [label_char] and [c.lower()] is in [char_set];
    [char_set] holds single characters other than the space. *)
Definition utts_ok (cs : gset pystr) (ud : gmap pystr (pystr * pystr * pystr)) : Prop :=
  map_Forall (fun _ v => Forall (fun c => label_char c /\ [ascii_lower c] ∈ cs) v.2) ud.

Definition chars_ok (cs : gset pystr) : Prop :=
  set_Forall (fun x => exists c, x = [c] /\ c <> " "%char) cs.

Definition state_ok (st : trans_state) : Prop :=
  map_Forall (fun _ ud => utts_ok (char_set st) ud) (speaker_dict st) /\ chars_ok (char_set st).

(** * The loops terminate *)

(** Each rewrite of the six loops shortens the transcript: the match
    covers the literals, which the replacement drops or shortens. *)
Ltac shrink_tac :=
  let H := fresh "H" in
  intros ? ? H%re_match_sound;
  cbv [laughter_expr which_expr backward_expr forward_expr nami_kakko_expr kaku_kakko_expr
       dot_star nonspace_plus] in H; matches_inv H;
  cbv [laughter_repl which_repl backward_repl forward_repl nami_kakko_repl kaku_kakko_repl group];
  cbn [lookup list_lookup default Nat.sub]; rewrite ?length_app; simpl; lia.

Lemma laughter_shrinks : forall t gs, re_match laughter_expr t = Some gs -> length (laughter_repl gs) < length t.
Proof. shrink_tac. Qed.
Lemma which_shrinks : forall t gs, re_match which_expr t = Some gs -> length (which_repl gs) < length t.
Proof. shrink_tac. Qed.
Lemma backward_shrinks : forall t gs, re_match backward_expr t = Some gs -> length (backward_repl gs) < length t.
Proof. shrink_tac. Qed.
Lemma forward_shrinks : forall t gs, re_match forward_expr t = Some gs -> length (forward_repl gs) < length t.
Proof. shrink_tac. Qed.
Lemma nami_kakko_shrinks : forall t gs, re_match nami_kakko_expr t = Some gs -> length (nami_kakko_repl gs) < length t.
Proof. shrink_tac. Qed.
Lemma kaku_kakko_shrinks : forall t gs, re_match kaku_kakko_expr t = Some gs -> length (kaku_kakko_repl gs) < length t.
Proof. shrink_tac. Qed.


Lemma loops_shrink e r : (e, r) ∈ loops -> forall t gs, re_match e t = Some gs -> length (r gs) < length t.
Proof.
  intros H. repeat (apply elem_of_cons in H as [H|H]; [injection H as -> ->|]).
  all: eauto using laughter_shrinks, which_shrinks, backward_shrinks, forward_shrinks,
         nami_kakko_shrinks, kaku_kakko_shrinks.
  by apply not_elem_of_nil in H.
Qed.

(** C16: Every [while re.match(expr, t)] loop of [fix_transcript] stops: it
    runs at most [len(t)] rounds and ends on a string the pattern does
    not match, and any larger bound gives the same string, which is
    therefore the string the unbounded Python loop returns. *)
Theorem while_match_terminates e r t fuel :
  (e, r) ∈ loops -> length t < fuel ->
  rewrite_loop e r fuel t = while_match e r t /\ re_match e (while_match e r t) = None.
Proof.
  intros H Hf. pose proof (loops_shrink _ _ H) as Hs. split.
  - apply rewrite_loop_fuel; [done|lia|simpl; lia].
  - apply rewrite_loop_done; [done|lia].
Qed.

(** The cleaned transcript has no space: the last substitution turns
    every space into [_]. *)
Theorem fix_transcript_no_space t : " "%char ∉ fix_transcript t.
Proof. apply re_sub_char_gone. by apply (bool_decide_unpack _). Qed.


(** * What the rules do on the examples of the spec and the comments *)

(** The example of the spec: cleaning ["well,_[laughter-um]_yeah"]
    replaces the laughter markup by [L] and the stem, but keeps the
    comma, which no rule removes: the result is ["well,_L_um_yeah"], not
    the ["well_L_um_yeah"] the spec gives. *)
Theorem fix_transcript_spec_example :
  fix_transcript (str "well,_[laughter-um]_yeah") = str "well,_L_um_yeah".
Proof. vm_compute. reflexivity. Qed.

(** The comment of line 175 says [them_1 -> them]; the rule
    [re.sub(r'_\d', 'them', t)] keeps the [them] before the underscore and
    adds another one. *)
Theorem fix_transcript_them : fix_transcript (str "them_1") = str "themthem".
Proof. vm_compute. reflexivity. Qed.

(** The comment of lines 135-137 says [[lem[guini]-/linguini]]
    becomes [lem[guini]-] and then [lem-]; the greedy first group of the
    [which] pattern takes [[lem] instead, and the whole word ends as [-]. *)
Theorem fix_transcript_which_nested : fix_transcript (str "[lem[guini]-/linguini]") = str "-".
Proof. vm_compute. reflexivity. Qed.

(** Cleaning is not idempotent, against the spec: a digit after a
    space becomes [_1] and a second cleaning turns it into [them];
    bracket markup around a space survives one cleaning (the patterns
    ask for [\S+] inside) and is removed by the second. *)
Theorem fix_transcript_not_idempotent :
  fix_transcript (str "a 1") = str "a_1" /\ fix_transcript (str "a_1") = str "athem" /\
  fix_transcript (str "[a b]") = str "[a_b]" /\ fix_transcript (str "[a_b]") = str "-".
Proof. vm_compute. repeat split. Qed.

(** Line 62 replaces ["__"] by ["_"] once, left to right, without
    overlap: five spaces left by removed markup become ["__"] in the
    stored transcript. *)
Theorem read_line_double_underscore :
  read_line (str "sw2001A-ms98-a-0001 0.0 1.0 hi <b_aside> [silence] <e_aside> [silence] um") =
  Ok {| speaker_name := str "sw2001A"; utt_key := str "0001"; start_field := str "0.0";
        end_field := str "1.0"; utt_transcript := Some (str "_hi__um_") |}.
Proof. vm_compute. reflexivity. Qed.

(** A file without lines stores an empty dictionary under the
    speaker of the previous file (line 69 reads the [speaker_name] left
    over from that file's loop), erasing that speaker's utterances. *)
Theorem read_trans_empty_file :
  read_trans [[str "sw2001A-ms98-a-0001 0.0 1.0 hi"]; []] =
  Ok ({[ str "sw2001A" := ∅ ]}, map str ["L"; "N"; "_"; "h"; "i"]).
Proof. vm_compute. reflexivity. Qed.

(** * The characters of the transcripts and of the symbol list *)

Section Chars.
Context (Q : ascii -> Prop).
(** [Q] holds for the characters the rules write. *)
Hypothesis Q_lits : Forall Q (str "LN and-them_").

Lemma lit_Forall l : l ⊆ str "LN and-them_" -> Forall Q l.
Proof. intros Hl. apply Forall_forall. intros c Hc. by eapply Forall_forall; [exact Q_lits|apply Hl]. Qed.

Lemma group_Forall gs n : Forall (Forall Q) gs -> Forall Q (group gs n).
Proof.
  intros H. unfold group. destruct (gs !! (n - 1)) eqn:E; [|constructor].
  by eapply Forall_lookup_1.
Qed.

Lemma repl_Forall e r t gs : (e, r) ∈ loops -> re_match e t = Some gs -> Forall Q t -> Forall Q (r gs).
Proof.
  intros H Hm Ht. pose proof (re_match_groups_Forall Q _ _ _ Hm Ht) as Hg.
  repeat (apply elem_of_cons in H as [H|H]; [injection H as -> ->|]); [..|by apply not_elem_of_nil in H].
  all: cbv [laughter_repl which_repl backward_repl forward_repl nami_kakko_repl kaku_kakko_repl].
  all: repeat apply Forall_app_2; solve [by apply group_Forall | apply lit_Forall; by apply (bool_decide_unpack _)].
Qed.

Lemma while_match_Forall e r t : (e, r) ∈ loops -> Forall Q t -> Forall Q (while_match e r t).
Proof. intros H. apply rewrite_loop_Forall. intros. by eapply repl_Forall. Qed.

Lemma fix_transcript_Forall t : Forall Q t -> Forall Q (fix_transcript t).
Proof.
  intros Ht. unfold fix_transcript.
  repeat first
    [ apply re_sub_Forall
    | eapply while_match_Forall;
        [solve [repeat first [apply elem_of_cons; left; reflexivity | apply elem_of_cons; right]]|]
    | apply lit_Forall; by apply (bool_decide_unpack _)
    | assumption ].
Qed.
End Chars.

(** A stored transcript: the cleaned line between two [_], with [__]
    replaced once (lines 59-62). *)
Lemma stored_label_chars x :
  Forall (fun c => ascii_lower c = c) x ->
  Forall label_char (re_sub (lit (str "__")) (str "_") (str "_" ++ fix_transcript x ++ str "_")).
Proof.
  intros Hx. apply Forall_and. split.
  - apply re_sub_Forall; [|by apply (bool_decide_unpack _)].
    rewrite !Forall_app. split_and!; [by apply (bool_decide_unpack _)| |by apply (bool_decide_unpack _)].
    apply Forall_forall. intros c Hc ->. by eapply fix_transcript_no_space.
  - apply re_sub_Forall; [|by apply (bool_decide_unpack _)].
    rewrite !Forall_app. split_and!; [by apply (bool_decide_unpack _)| |by apply (bool_decide_unpack _)].
    apply fix_transcript_Forall; [by apply (bool_decide_unpack _)|].
    eapply Forall_impl; [exact Hx|]. by left.
Qed.

Lemma clean_fields_label_chars fields t : clean_fields fields = Some t -> Forall label_char t.
Proof.
  unfold clean_fields. case_decide; [done|]. intros Ht%Some_inj. subst t.
  apply stored_label_chars, py_lower_lowered.
Qed.

Lemma read_line_transcript line u :
  read_line line = Ok u -> utt_transcript u = clean_fields (py_split " " (py_strip line)).
Proof. intros H. unfold read_line in H. result_inv H. by subst u. Qed.

Lemma read_line_label_chars line u t :
  read_line line = Ok u -> utt_transcript u = Some t -> Forall label_char t.
Proof.
  intros H Ht. rewrite (read_line_transcript _ _ H) in Ht. by eapply clean_fields_label_chars.
Qed.

Lemma elem_of_add_chars x cs t :
  x ∈ add_chars cs t <-> x ∈ cs \/ exists c, c ∈ t /\ x = [ascii_lower c].
Proof.
  unfold add_chars, py_lower. revert cs; induction t as [|a t IH]; intros cs; simpl.
  - split; [by left|]. intros [?|(c & Hc & _)]; [done|by apply not_elem_of_nil in Hc].
  - rewrite IH, elem_of_union, elem_of_singleton. setoid_rewrite elem_of_cons. naive_solver.
Qed.

Lemma utts_ok_mono cs cs' ud : cs ⊆ cs' -> utts_ok cs ud -> utts_ok cs' ud.
Proof.
  intros Hs Hu k v Hk. eapply Forall_impl; [exact (Hu k v Hk)|]. intros c [? ?]. split; [done|set_solver].
Qed.

(** Adding the characters of a stored transcript keeps the invariant. *)
Lemma add_chars_ok cs ud k v t :
  Forall label_char t -> utts_ok cs ud -> chars_ok cs ->
  utts_ok (add_chars cs t) (<[k := (v, t)]> ud) /\ chars_ok (add_chars cs t) /\ cs ⊆ add_chars cs t.
Proof.
  intros Ht Hu Hc. assert (Hsub : cs ⊆ add_chars cs t) by (intros x Hx; apply elem_of_add_chars; by left).
  split_and!; [|..|done].
  - apply map_Forall_insert_2; [|by eapply utts_ok_mono]. simpl.
    eapply Forall_impl; [apply Forall_and; split; [exact Ht|apply Forall_forall; intros c Hc'; exact Hc']|].
    intros c [? ?]. split; [done|]. apply elem_of_add_chars. right. by exists c.
  - intros x [Hx|(c & Hc' & ->)]%elem_of_add_chars; [by apply Hc|]. exists (ascii_lower c). split; [done|].
    rewrite Forall_forall in Ht. destruct (Ht c Hc') as [Hsp _]. by intros ?%ascii_lower_space.
Qed.

Lemma read_lines_ok lines : forall ud cs last ud' cs' last',
  read_lines lines ud cs last = Ok (ud', cs', last') -> utts_ok cs ud -> chars_ok cs ->
  utts_ok cs' ud' /\ chars_ok cs' /\ cs ⊆ cs'.
Proof.
  induction lines as [|line lines IH]; intros ud cs last ud' cs' last' H Hu Hc; simpl in H.
  - injection H as <- <- <-. done.
  - destruct (read_line line) as [u|] eqn:E; [|done].
    destruct (utt_transcript u) as [t|] eqn:Et.
    + destruct (add_chars_ok cs ud (utt_key u) (start_field u, end_field u) t) as (Hu' & Hc' & Hs');
        [by eapply read_line_label_chars|done|done|].
      destruct (IH _ _ _ _ _ _ H Hu' Hc') as (? & ? & ?). split_and!; [done|done|set_solver].
    + eauto.
Qed.

Lemma read_file_ok st lines st' : read_file st lines = Ok st' -> state_ok st -> state_ok st'.
Proof.
  unfold read_file. intros H [Hd Hc].
  destruct (read_lines lines ∅ (char_set st) (last_speaker st)) as [[[ud cs] last]|] eqn:E; [|done].
  simpl in H. destruct last as [sn|]; [|done]. injection H as <-.
  destruct (read_lines_ok _ _ _ _ _ _ _ E) as (Hu & Hc' & Hs); [by intros ??; rewrite lookup_empty|done|].
  split; [|done]. simpl. apply map_Forall_insert_2; [done|].
  intros k ud' Hk. eapply utts_ok_mono; [exact Hs|by apply Hd in Hk].
Qed.

Lemma read_files_ok files : forall st st', read_files st files = Ok st' -> state_ok st -> state_ok st'.
Proof.
  induction files as [|f files IH]; intros st st' H Hst; simpl in H; [by injection H as <-|].
  destruct (read_file st f) as [st1|] eqn:E; [|done]. eauto using read_file_ok.
Qed.

Lemma read_trans_state files d syms :
  read_trans files = Ok (d, syms) ->
  exists st, state_ok st /\ d = speaker_dict st /\ syms = mapping_symbols (char_set st).
Proof.
  unfold read_trans. intros H. result_inv H. injection H as <- <-. eexists. split_and!; [|done|done].
  eapply read_files_ok; [exact E|]. split; [apply map_Forall_empty|apply set_Forall_empty].
Qed.

Lemma elem_of_mapping_symbols x cs : x ∈ mapping_symbols cs <-> x = str "N" \/ x = str "L" \/ x ∈ cs.
Proof. unfold mapping_symbols. rewrite elem_of_py_sorted, elem_of_elements. set_solver. Qed.

(** C20: The mapping file [read_trans] writes (lines 75-81) lists each
    symbol once, in Python's string order, with [L] and [N]; every
    other symbol is one character, never the space. *)
Theorem read_trans_symbols files d syms :
  read_trans files = Ok (d, syms) ->
  NoDup syms /\ Sorted (fun a b => pystr_leb a b = true) syms /\ str "L" ∈ syms /\ str "N" ∈ syms /\
  Forall (fun x => x = str "L" \/ x = str "N" \/ exists c, x = [c] /\ c <> " "%char) syms.
Proof.
  intros (st & [_ Hc] & -> & ->)%read_trans_state.
  split_and!; [apply NoDup_py_sorted, NoDup_elements|apply py_sorted_Sorted| | |].
  1,2: apply elem_of_mapping_symbols; auto.
  apply Forall_forall. intros x [->|[->|Hx]]%elem_of_mapping_symbols; auto.
Qed.

(** C5: Every character of every stored transcript is a symbol of the
    mapping file, so that [char2num] finds each one. *)
Theorem read_trans_covers files d syms spk ud k v t :
  read_trans files = Ok (d, syms) -> d !! spk = Some ud -> ud !! k = Some (v, t) ->
  Forall (fun c => [c] ∈ syms) t.
Proof.
  intros (st & [Hd _] & -> & ->)%read_trans_state Hspk Hk.
  eapply Forall_impl; [exact (Hd _ _ Hspk _ _ Hk)|]. intros c [[_ Hl] Hin].
  apply elem_of_mapping_symbols. destruct Hl as [Hl|[->| ->]]; [rewrite Hl in Hin|..]; auto.
Qed.

(** * Witnesses *)

Definition swbd_file : list pystr :=
  [str "sw2001A-ms98-a-0001 0.0 1.0 hi [laughter]"; str "sw2001A-ms98-a-0002 1.0 2.0 Yeah, uh-huh"].

Definition swbd_utts : gmap pystr (pystr * pystr * pystr) :=
  <[str "0002" := (str "1.0", str "2.0", str "_yeah,_uh-huh_")]>
    {[ str "0001" := (str "0.0", str "1.0", str "_hi_L_") ]}.

Definition swbd_syms : list pystr := map str [","; "-"; "L"; "N"; "_"; "a"; "e"; "h"; "i"; "l"; "u"; "y"].

Lemma swbd_read_trans : read_trans [swbd_file] = Ok ({[ str "sw2001A" := swbd_utts ]}, swbd_syms).
Proof. vm_compute. reflexivity. Qed.

Lemma while_match_terminates_witness :
  (laughter_expr, laughter_repl) ∈ loops /\ length (str "[laughter-a] [laughter-b]") < 30 /\
  rewrite_loop laughter_expr laughter_repl 30 (str "[laughter-a] [laughter-b]") =
    while_match laughter_expr laughter_repl (str "[laughter-a] [laughter-b]") /\
  re_match laughter_expr (while_match laughter_expr laughter_repl (str "[laughter-a] [laughter-b]")) = None.
Proof.
  assert (H1 : (laughter_expr, laughter_repl) ∈ loops) by (apply elem_of_cons; by left).
  assert (H2 : length (str "[laughter-a] [laughter-b]") < 30) by (simpl; lia).
  split; [exact H1|]. split; [exact H2|]. exact (while_match_terminates _ _ _ _ H1 H2).
Defined.

Lemma read_trans_symbols_witness :
  read_trans [swbd_file] = Ok ({[ str "sw2001A" := swbd_utts ]}, swbd_syms) /\
  NoDup swbd_syms /\ Sorted (fun a b => pystr_leb a b = true) swbd_syms /\ str "L" ∈ swbd_syms /\
  str "N" ∈ swbd_syms /\
  Forall (fun x => x = str "L" \/ x = str "N" \/ exists c, x = [c] /\ c <> " "%char) swbd_syms.
Proof. split; [exact swbd_read_trans|]. exact (read_trans_symbols _ _ _ swbd_read_trans). Defined.

Lemma read_trans_covers_witness :
  read_trans [swbd_file] = Ok ({[ str "sw2001A" := swbd_utts ]}, swbd_syms) /\
  ({[ str "sw2001A" := swbd_utts ]} : gmap pystr _) !! str "sw2001A" = Some swbd_utts /\
  swbd_utts !! str "0002" = Some ((str "1.0", str "2.0"), str "_yeah,_uh-huh_") /\
  Forall (fun c => [c] ∈ swbd_syms) (str "_yeah,_uh-huh_").
Proof.
  assert (H2 : ({[ str "sw2001A" := swbd_utts ]} : gmap pystr _) !! str "sw2001A" = Some swbd_utts)
    by (vm_compute; reflexivity).
  assert (H3 : swbd_utts !! str "0002" = Some ((str "1.0", str "2.0"), str "_yeah,_uh-huh_"))
    by (vm_compute; reflexivity).
  split_and!; [exact swbd_read_trans|exact H2|exact H3|].
  exact (read_trans_covers _ _ _ _ _ _ _ _ swbd_read_trans H2 H3).
Defined.

End Swbd.
