(* ===== verification/TimitText.v ===== *)
(** * TIMIT sentence transcripts: [read_text]

    Models [read_text] of src/timit/labels/character.py up to the
    mapping file (lines 67-139): the check of [model], the last line of
    every label file, the punctuation removal, the two transcript
    styles (words joined by [_], or words marked by a capital first
    letter with the double letters recorded), the [<]/[>] of the
    attention model, the character set, and the symbol list written to
    the mapping file.  The label files are given as their paths and
    lines.  Saving the [.npy] files (lines 141-154) calls [char2num],
    which src/utils/labels/character.py does not define. *)

From Stdlib Require Import Sorted.
From S2P Require Import Prelude Regex.
Local Open Scope py_scope.

Module TimitText.

(** The class of line 79: the double quote and [:;!?,.-]. *)
Definition punct : list ascii := ["034"%char; ":"%char; ";"%char; "!"%char; "?"%char; ","%char; "."%char; "-"%char].
Definition is_punct (c : ascii) : bool := bool_decide (c ∈ punct).

(** Line 79: [line.strip().lower()], then [re.sub] of the runs of the
    class by the empty string.  Replacing every run by nothing deletes
    each of its characters, which the one-character pattern
    [[is_punct]] does. *)
Definition clean_line (line : pystr) : pystr := re_sub [is_punct] [] (py_lower (py_strip line)).

(** Lines 91-93: the double letters of a word. *)
Fixpoint add_doubles (word : pystr) (char_set : gset pystr) : gset pystr :=
  match word with
  | c :: ((d :: _) as word') =>
      add_doubles word' (if decide (c = d) then {[ [c; c] ]} ∪ char_set else char_set)
  | _ => char_set
  end.

(** Lines 82-95: the words after the first two fields, each with its
    first letter upper-cased, concatenated. *)
Fixpoint capital_words (words : list pystr) (char_set : gset pystr) : pystr * gset pystr :=
  match words with
  | [] => ([], char_set)
  | [] :: words' => capital_words words' char_set
  | (c :: rest) :: words' =>
      let word := ascii_upper c :: rest in
      let r := capital_words words' (add_doubles word char_set) in
      (word ++ r.1, r.2)
  end.

(** Lines 104-105: [for c in list(transcript): char_set.add(c)]. *)
Definition add_chars (char_set : gset pystr) (t : pystr) : gset pystr :=
  foldl (fun cs c => {[ [c] ]} ∪ cs) char_set t.

Definition is_attention (model : pystr) : bool := bool_decide (model = str "attention").

(** One label file (lines 74-107): the state is [text_dict] and
    [char_set]; [f.readlines()[-1]] raises [IndexError] on an empty
    file. *)
Definition read_file (model : pystr) (divide_by_capital : bool)
    (st : gmap pystr pystr * gset pystr) (label : pystr * list pystr)
    : result (gmap pystr pystr * gset pystr) :=
  let '(text_dict, char_set) := st in
  let '(label_path, lines) := label in
  line <- py_get lines (-1) ;;
  let line := clean_line line in
  let '(transcript, char_set) :=
    if divide_by_capital then capital_words (drop 2 (py_split " " line)) char_set
    else (py_join ["_"%char] (drop 2 (py_split " " line)), char_set) in
  let transcript := if is_attention model then str "<" ++ transcript ++ str ">" else transcript in
  Ok (<[label_path := transcript]> text_dict, add_chars char_set transcript).

Fixpoint read_files (model : pystr) (divide_by_capital : bool)
    (st : gmap pystr pystr * gset pystr) (labels : list (pystr * list pystr))
    : result (gmap pystr pystr * gset pystr) :=
  match labels with
  | [] => Ok st
  | l :: labels' => st' <- read_file model divide_by_capital st l ;; read_files model divide_by_capital st' labels'
  end.

(** Lines 120-136: the reserved symbols are discarded from the set and
    put back at fixed places. *)
Definition char_list (model : pystr) (divide_by_capital : bool) (char_set : gset pystr) : list pystr :=
  let cs := char_set ∖ {[ str "_"; str "'" ]} in
  let cs := if is_attention model then cs ∖ {[ str "<"; str ">" ]} else cs in
  (if is_attention model then [str "<"; str ">"] else []) ++
  (if divide_by_capital then py_sorted (elements cs) ++ [str "'"]
   else [str "_"] ++ py_sorted (elements cs) ++ [str "'"]).

(** [read_text] (lines 67-139): the transcripts by label path, and the
    symbols of the mapping file in index order. *)
Definition read_text (labels : list (pystr * list pystr)) (model : pystr) (divide_by_capital : bool)
    : result (gmap pystr pystr * list pystr) :=
  if decide (model ∉ [str "ctc"; str "attention"]) then Err ValueError
  else
    st <- read_files model divide_by_capital (∅, ∅) labels ;;
    Ok (st.1, char_list model divide_by_capital st.2).

(** ** Reading a capital-divide transcript back into words

    Not code of the repository: the reading the capital-divide style
    relies on.  A capital letter starts a word; [cap_split] returns the
    characters before the first capital and the words, lower-cased. *)
Definition is_upper (c : ascii) : bool := let n := nat_of_ascii c in (65 <=? n) && (n <=? 90).
Definition is_lower_letter (c : ascii) : bool := let n := nat_of_ascii c in (97 <=? n) && (n <=? 122).

Fixpoint cap_split (s : pystr) : pystr * list pystr :=
  match s with
  | [] => ([], [])
  | c :: s' =>
      let '(pre, ws) := cap_split s' in
      if is_upper c then ([], (ascii_lower c :: pre) :: ws) else (c :: pre, ws)
  end.

(** A word the capital-divide style reads back: a lower-case letter,
    then characters that are not capitals. *)
Definition plain_word (w : pystr) : Prop :=
  match w with
  | [] => True
  | c :: rest => is_lower_letter c = true /\ Forall (fun d => is_upper d = false) rest
  end.

(** * Properties *)

Lemma upper_of_lower c : is_lower_letter c = true -> is_upper (ascii_upper c) = true /\ ascii_lower (ascii_upper c) = c.
Proof. destruct c as [[] [] [] [] [] [] [] []]; try discriminate; split; reflexivity. Qed.

Lemma lower_not_upper c : is_upper (ascii_lower c) = false.
Proof. destruct c as [[] [] [] [] [] [] [] []]; reflexivity. Qed.

(** The transcript of [capital_words] does not depend on the set. *)
Lemma capital_words_fst words cs :
  (capital_words words cs).1 =
  concat (map (fun w => match w with [] => [] | c :: rest => ascii_upper c :: rest end) words).
Proof.
  revert cs; induction words as [|[|c rest] words IH]; intros cs; simpl; [done|done|].
  by rewrite IH.
Qed.

Lemma cap_split_rest rest s :
  Forall (fun d => is_upper d = false) rest -> cap_split (rest ++ s) = (rest ++ (cap_split s).1, (cap_split s).2).
Proof.
  induction rest as [|d rest IH]; intros Hr; simpl; [by destruct (cap_split s)|].
  apply Forall_cons in Hr as [Hd Hr]. rewrite IH by done. by rewrite Hd.
Qed.

(** C18: Round trip of the capital-divide style: when every word starts with
    a lower-case letter and has no capital, the transcript reads back
    as the non-empty words. *)
Theorem capital_words_roundtrip words cs :
  Forall plain_word words -> cap_split (capital_words words cs).1 = ([], filter (fun w => w <> []) words).
Proof.
  rewrite capital_words_fst. induction words as [|[|c rest] words IH]; intros Hw; [done|..];
    apply Forall_cons in Hw as [Hc Hw]; rewrite filter_cons; simpl.
  - by apply IH.
  - try rewrite decide_True by done. destruct Hc as [Hc Hr].
    destruct (upper_of_lower c Hc) as [Hu Hl].
    rewrite cap_split_rest, IH by done. simpl. by rewrite Hu, Hl, app_nil_r.
Qed.

(** ** The character set and the mapping file *)

Lemma elem_of_add_text_chars x cs t : x ∈ add_chars cs t <-> x ∈ cs \/ exists c, c ∈ t /\ x = [c].
Proof.
  unfold add_chars. revert cs; induction t as [|a t IH]; intros cs; simpl.
  - split; [by left|]. intros [?|(c & Hc & _)]; [done|by apply not_elem_of_nil in Hc].
  - rewrite IH, elem_of_union, elem_of_singleton. setoid_rewrite elem_of_cons. naive_solver.
Qed.

Lemma add_doubles_mono word cs : cs ⊆ add_doubles word cs.
Proof.
  revert cs; induction word as [|c [|d word] IH]; intros cs; simpl; [set_solver..|].
  etrans; [|apply IH]. case_decide; set_solver.
Qed.

Lemma capital_words_mono words cs : cs ⊆ (capital_words words cs).2.
Proof.
  revert cs; induction words as [|[|c rest] words IH]; intros cs; cbn -[add_doubles]; [set_solver|apply IH|].
  etrans; [apply add_doubles_mono|apply IH].
Qed.

(** The invariant of the loop over files: every character of a stored
    transcript is in [char_set]. *)
Definition text_ok (st : gmap pystr pystr * gset pystr) : Prop :=
  map_Forall (fun _ t => Forall (fun c => [c] ∈ st.2) t) st.1.

Lemma text_ok_mono d cs cs' : cs ⊆ cs' -> text_ok (d, cs) -> text_ok (d, cs').
Proof. intros Hs Hd k t Hk. eapply Forall_impl; [exact (Hd k t Hk)|]. simpl. set_solver. Qed.

Lemma read_text_file_ok model divide st l st' :
  read_file model divide st l = Ok st' -> text_ok st -> text_ok st'.
Proof.
  destruct st as [d cs], l as [p lines]. unfold read_file.
  destruct (py_get lines (-1)) as [line|]; [|done]. simpl.
  set (r := if divide then _ else _).
  assert (Hr : cs ⊆ r.2) by (subst r; destruct divide; [apply capital_words_mono|done]).
  destruct r as [t cs1]. simpl in Hr. intros H%Ok_inj Hd. subst st'.
  set (t' := if is_attention model then _ else _).
  assert (Ht' : Forall (fun c => [c] ∈ add_chars cs1 t') t').
  { apply Forall_forall. intros c Hc. apply elem_of_add_text_chars. right. by exists c. }
  unfold text_ok; simpl. apply map_Forall_insert_2; [done|]. apply (text_ok_mono d cs); [|done].
  intros x Hx. apply elem_of_add_text_chars. left. by apply Hr.
Qed.

Lemma read_text_files_ok model divide labels : forall st st',
  read_files model divide st labels = Ok st' -> text_ok st -> text_ok st'.
Proof.
  induction labels as [|l labels IH]; intros st st' H Hst; simpl in H; [by apply Ok_inj in H as <-|].
  destruct (read_file model divide st l) as [st1|] eqn:E; [|done]. eauto using read_text_file_ok.
Qed.

Lemma elem_of_char_list model divide cs x :
  x ∈ cs -> x ∈ char_list model divide cs \/ (divide = true /\ x = str "_").
Proof.
  intros Hx. unfold char_list.
  destruct (is_attention model), divide, (decide (x = str "_")) as [Hu|H1];
    try (by right); left; rewrite ?elem_of_app, ?elem_of_py_sorted, ?elem_of_elements;
    destruct (decide (x = str "'")), (decide (x = str "<")), (decide (x = str ">")); set_solver.
Qed.

Lemma NoDup_around (pre post : list pystr) (X : gset pystr) :
  NoDup (pre ++ post) -> (forall x, x ∈ pre ++ post -> x ∉ X) -> NoDup (pre ++ py_sorted (elements X) ++ post).
Proof.
  intros Hnd Hout. rewrite (Permutation_app_swap_app pre). apply NoDup_app. split_and!.
  - apply NoDup_py_sorted, NoDup_elements.
  - intros x Hx Hx'. apply elem_of_py_sorted, elem_of_elements in Hx. by apply (Hout x).
  - done.
Qed.

Lemma read_text_Ok labels model divide d syms :
  read_text labels model divide = Ok (d, syms) ->
  exists cs, read_files model divide (∅, ∅) labels = Ok (d, cs) /\ syms = char_list model divide cs.
Proof.
  unfold read_text. case_decide; [done|].
  destruct (read_files model divide (∅, ∅) labels) as [[d' cs]|]; [|done].
  simpl. intros Hr%Ok_inj. injection Hr as <- <-. by exists cs.
Qed.

(** read_file fails only on a file without lines. *)
Lemma read_file_Err model divide st l e : read_file model divide st l = Err e -> e = IndexError /\ l.2 = [].
Proof.
  destruct st, l as [p lines]. unfold read_file.
  destruct lines as [|x lines].
  - rewrite py_get_nil. cbn. by intros [= <-].
  - rewrite py_get_last. destruct (last (x :: lines)) eqn:E; [|by apply last_None in E].
    cbn. destruct (if divide then _ else _). congruence.
Qed.

Lemma read_files_Err model divide labels : forall st e,
  read_files model divide st labels = Err e -> e = IndexError /\ exists p, (p, []) ∈ labels.
Proof.
  induction labels as [|[p lines] labels IH]; intros st e H; simpl in H; [done|].
  destruct (read_file model divide st (p, lines)) as [st1|e1] eqn:E.
  - destruct (IH _ _ H) as [? [q Hq]]. split; [done|]. exists q. by apply elem_of_cons; right.
  - injection H as <-. apply read_file_Err in E as [-> Hl]. simpl in Hl. subst lines.
    split; [done|]. exists p. by apply elem_of_cons; left.
Qed.

Lemma read_files_empty_file model divide labels p : forall st,
  (p, []) ∈ labels -> exists e, read_files model divide st labels = Err e.
Proof.
  induction labels as [|l labels IH]; intros st Hin; [by apply not_elem_of_nil in Hin|]. simpl.
  apply elem_of_cons in Hin as [<-|Hin].
  - exists IndexError. unfold read_file at 1. destruct st. by rewrite py_get_nil.
  - destruct (read_file model divide st l) as [st1|e1]; [by apply IH|by exists e1].
Qed.

(** C6: Every character of every transcript [read_text] stores is a
    symbol of the mapping file, except the [_] of a capital-divide
    transcript (the capital-divide mapping file has no [_]). *)
Theorem read_text_covers labels model divide d syms p t :
  read_text labels model divide = Ok (d, syms) -> d !! p = Some t ->
  Forall (fun c => [c] ∈ syms \/ (divide = true /\ c = "_"%char)) t.
Proof.
  intros (cs & Hr & ->)%read_text_Ok Hp.
  assert (Hok : text_ok (d, cs)) by (eapply read_text_files_ok; [exact Hr|apply map_Forall_empty]).
  eapply Forall_impl; [exact (Hok p t Hp)|]. intros c Hc.
  destruct (elem_of_char_list model divide cs [c] Hc) as [|[? [= ->]]]; auto.
Qed.

(** C21: The mapping file lists each symbol once: [<] and [>] first for
    the attention model, then [_] unless the style is capital-divide,
    then the other characters sorted, then the apostrophe last. *)
Theorem read_text_symbols labels model divide d syms :
  read_text labels model divide = Ok (d, syms) ->
  NoDup syms /\ exists mid, Sorted (fun a b => pystr_leb a b = true) mid /\
    syms = (if is_attention model then [str "<"; str ">"] else []) ++
           (if divide then [] else [str "_"]) ++ mid ++ [str "'"].
Proof.
  intros (cs & _ & ->)%read_text_Ok. unfold char_list.
  destruct (is_attention model), divide; cbn [app];
    (split; [|eexists; split; [apply py_sorted_Sorted|reflexivity]]).
  - apply (NoDup_around [_; _] [_]); [by apply (bool_decide_unpack _)|set_solver].
  - apply (NoDup_around [_; _; _] [_]); [by apply (bool_decide_unpack _)|set_solver].
  - apply (NoDup_around [] [_]); [by apply (bool_decide_unpack _)|set_solver].
  - apply (NoDup_around [_] [_]); [by apply (bool_decide_unpack _)|set_solver].
Qed.

(** C25: [read_text] raises [ValueError] for a model other than [ctc] and
    [attention], and otherwise [IndexError] when a label file has no
    line ([f.readlines()[-1]]); it raises nothing else. *)
Theorem read_text_errors labels model divide e :
  (model ∉ [str "ctc"; str "attention"] -> read_text labels model divide = Err ValueError) /\
  (model ∈ [str "ctc"; str "attention"] -> forall p, (p, []) ∈ labels ->
     read_text labels model divide = Err IndexError) /\
  (read_text labels model divide = Err e -> e = ValueError \/ (e = IndexError /\ exists p, (p, []) ∈ labels)).
Proof.
  unfold read_text. split_and!.
  - intros H. by rewrite decide_True.
  - intros H p Hp. rewrite decide_False by tauto.
    destruct (read_files_empty_file model divide labels p (∅, ∅) Hp) as [e' He'].
    rewrite He'. by apply read_files_Err in He' as [-> _].
  - case_decide; [intros [= <-]; by left|].
    destruct (read_files _ _ _ _) as [st|e'] eqn:E; [done|]. intros [= <-]. right. by eapply read_files_Err.
Qed.

(** A word that starts with an apostrophe gets no capital, so the
    capital-divide transcript loses the boundary before it: [see 'em]
    becomes [See'em], which reads back as the one word [see'em]. *)
Theorem capital_words_apostrophe :
  (capital_words [str "see"; str "'em"] ∅).1 = str "See'em" /\
  cap_split (str "See'em") = ([], [str "see'em"]).
Proof. split; reflexivity. Qed.

(** * Witnesses *)

Definition sa1 : pystr * list pystr :=
  (str "train/dr1/fcjf0/sa1.txt", [str "0 46797 She had your dark suit in greasy wash water all year."]).

Definition sa1_transcript : pystr := str "she_had_your_dark_suit_in_greasy_wash_water_all_year".

Definition sa1_syms : list pystr :=
  map str ["_"; "a"; "d"; "e"; "g"; "h"; "i"; "k"; "l"; "n"; "o"; "r"; "s"; "t"; "u"; "w"; "y"; "'"].

Lemma sa1_read_text : read_text [sa1] (str "ctc") false = Ok ({[ sa1.1 := sa1_transcript ]}, sa1_syms).
Proof. vm_compute. reflexivity. Qed.

Lemma read_text_covers_witness :
  read_text [sa1] (str "ctc") false = Ok ({[ sa1.1 := sa1_transcript ]}, sa1_syms) /\
  ({[ sa1.1 := sa1_transcript ]} : gmap pystr pystr) !! sa1.1 = Some sa1_transcript /\
  Forall (fun c => [c] ∈ sa1_syms \/ (false = true /\ c = "_"%char)) sa1_transcript.
Proof.
  assert (H2 : ({[ sa1.1 := sa1_transcript ]} : gmap pystr pystr) !! sa1.1 = Some sa1_transcript)
    by (vm_compute; reflexivity).
  split_and!; [exact sa1_read_text|exact H2|exact (read_text_covers _ _ _ _ _ _ _ sa1_read_text H2)].
Defined.

Lemma read_text_symbols_witness :
  read_text [sa1] (str "ctc") false = Ok ({[ sa1.1 := sa1_transcript ]}, sa1_syms) /\
  NoDup sa1_syms /\ exists mid, Sorted (fun a b => pystr_leb a b = true) mid /\
    sa1_syms = (if is_attention (str "ctc") then [str "<"; str ">"] else []) ++
               (if false then [] else [str "_"]) ++ mid ++ [str "'"].
Proof. split; [exact sa1_read_text|exact (read_text_symbols _ _ _ _ _ sa1_read_text)]. Defined.

Lemma capital_words_roundtrip_witness :
  Forall plain_word [str "she"; []; str "had"] /\
  cap_split (capital_words [str "she"; []; str "had"] ∅).1 =
    ([], filter (fun w => w <> []) [str "she"; []; str "had"]).
Proof.
  assert (H : Forall plain_word [str "she"; []; str "had"]) by (repeat constructor).
  split; [exact H|exact (capital_words_roundtrip _ _ H)].
Defined.

End TimitText.
