(* ===== verification/TimitPhone.v ===== *)
(** * TIMIT phone transcripts: [read_phone]

    Models [read_phone] of src/timit/labels/phone.py (lines 29-83): the
    check of [label_type], the save-file name from the label path, the
    third field of every line of a [.phn] file, the phone set read from
    the 61-to-48-to-39 table, the symbols of the mapping file, and the
    [<]/[>] of the attention model.  The collapse [map_phone2phone]
    lives in [timit.util], which the repository does not contain: it is
    a parameter of the Section, as is [phone2num] (not defined by
    src/utils/labels/phone.py either) whose input is the phone list. *)

From Stdlib Require Import Sorted.
From S2P Require Import Prelude.
Local Open Scope py_scope.

Module TimitPhone.

(** [str.split()] without argument: the non-empty runs of non-space
    characters. *)
Definition py_split_ws (s : pystr) : list pystr :=
  filter (fun w => w <> []) (py_split " " (map (fun c => if is_py_space c then " "%char else c) s)).

Definition label_types : list pystr := [str "phone39"; str "phone48"; str "phone61"].

(** Lines 35-37: [speaker_name + '_' + file_name + '.npy']. *)
Definition save_file_name (label_path : pystr) : result pystr :=
  speaker_name <- py_get (py_split "/" label_path) (-2) ;;
  base <- py_get (py_split "/" label_path) (-1) ;;
  file_name <- py_get (py_split "." base) 0 ;;
  Ok (speaker_name ++ str "_" ++ file_name ++ str ".npy").

(** Lines 39-45: the third field of every line. *)
Definition read_phn (lines : list pystr) : result (list pystr) :=
  map_result (fun line => py_get (py_split " " (py_strip line)) 2) lines.

(** Lines 54-68: one line of the phone table [phone61 phone48 phone39]
    adds the column of [label_type]; a line whose second column is
    [nan] (the phone [q]) adds its first column for [phone61] only. *)
Definition table_line (label_type : pystr) (phone_set : gset pystr) (line : pystr) : result (gset pystr) :=
  let cols := py_split_ws (py_strip line) in
  c1 <- py_get cols 1 ;;
  if decide (c1 <> str "nan") then
    if decide (label_type = str "phone61") then c0 <- py_get cols 0 ;; Ok ({[ c0 ]} ∪ phone_set)
    else if decide (label_type = str "phone48") then Ok ({[ c1 ]} ∪ phone_set)
    else if decide (label_type = str "phone39") then c2 <- py_get cols 2 ;; Ok ({[ c2 ]} ∪ phone_set)
    else Ok phone_set
  else if decide (label_type = str "phone61") then c0 <- py_get cols 0 ;; Ok ({[ c0 ]} ∪ phone_set)
  else Ok phone_set.

Fixpoint read_table (label_type : pystr) (phone_set : gset pystr) (lines : list pystr) : result (gset pystr) :=
  match lines with
  | [] => Ok phone_set
  | line :: lines' => ps <- table_line label_type phone_set line ;; read_table label_type ps lines'
  end.

(** Lines 71-78: the symbols of the mapping file, in index order; a
    model other than [ctc] and [attention] writes an empty file. *)
Definition phone_symbols (model : pystr) (phone_set : gset pystr) : list pystr :=
  if decide (model = str "ctc") then py_sorted (elements phone_set)
  else if decide (model = str "attention") then [str "<"; str ">"] ++ py_sorted (elements phone_set)
  else [].

(** Lines 81-82. *)
Definition wrap (model : pystr) (phone_list : list pystr) : list pystr :=
  if decide (model = str "attention") then [str "<"] ++ phone_list ++ [str ">"] else phone_list.

Section ReadPhone.
(** [map_phone2phone(phone_list, label_type, path)] of [timit.util]. *)
Variable map_phone2phone : list pystr -> pystr -> result (list pystr).

(** One label file (lines 35-83): the save-file name, the symbols of the
    mapping file, and the phone list handed to [phone2num]. *)
Definition read_phone_file (label_type model : pystr) (table : list pystr) (label : pystr * list pystr)
    : result (pystr * list pystr * list pystr) :=
  name <- save_file_name label.1 ;;
  phone_list <- read_phn label.2 ;;
  phone_list <- map_phone2phone phone_list label_type ;;
  phone_set <- read_table label_type ∅ table ;;
  Ok (name, phone_symbols model phone_set, wrap model phone_list).

(** [read_phone] (lines 29-83). *)
Definition read_phone (labels : list (pystr * list pystr)) (label_type model : pystr) (table : list pystr)
    : result (list (pystr * list pystr * list pystr)) :=
  if decide (label_type ∉ label_types) then Err ValueError
  else map_result (read_phone_file label_type model table) labels.

(** * Properties *)

Lemma read_phn_Ok lines ps :
  read_phn lines = Ok ps -> Forall2 (fun line p => py_split " " (py_strip line) !! 2 = Some p) lines ps.
Proof.
  intros H%map_result_ok. eapply Forall2_impl; [exact H|]. intros line p.
  cbv beta. change 2%Z with (Z.of_nat 2). rewrite py_get_nat. by destruct (_ !! 2); [intros [= ->]|].
Qed.

Lemma read_phone_file_Ok label_type model table label name syms phones :
  read_phone_file label_type model table label = Ok (name, syms, phones) ->
  exists pl mapped, read_phn label.2 = Ok pl /\ map_phone2phone pl label_type = Ok mapped /\
    phones = wrap model mapped.
Proof.
  unfold read_phone_file. intros H. result_inv H. injection H as _ _ <-. by exists a0, a1.
Qed.

(** C23: Per label file, [read_phone] hands [phone2num] the third field of
    every line of the file (after the collapse [map_phone2phone]),
    between [<] and [>] for the attention model. *)
Theorem read_phone_lists labels label_type model table outs :
  read_phone labels label_type model table = Ok outs ->
  Forall2 (fun label out => exists pl mapped,
             Forall2 (fun line p => py_split " " (py_strip line) !! 2 = Some p) label.2 pl /\
             map_phone2phone pl label_type = Ok mapped /\
             out.2 = (if decide (model = str "attention") then [str "<"] ++ mapped ++ [str ">"] else mapped))
          labels outs.
Proof.
  unfold read_phone. case_decide; [done|]. intros Hr%map_result_ok.
  eapply Forall2_impl; [exact Hr|]. intros label [[name syms] phones] (pl & mapped & Hpl & Hm & ->)%read_phone_file_Ok.
  exists pl, mapped. split_and!; [by apply read_phn_Ok|done|done].
Qed.
End ReadPhone.

(** * Examples *)

(** A collapse that keeps the phones, and a table of three lines. *)
Definition keep_phones (pl : list pystr) (_ : pystr) : result (list pystr) := Ok pl.

Definition sa1_phn : pystr * list pystr :=
  (str "train/dr1/fcjf0/sa1.phn", [str "0 3050 h#"; str "3050 4559 sh"]).

Definition phone_table : list pystr := [str "h#	h#	sil"; str "q	nan	nan"; str "sh	sh	sh"].

(** [read_phone] does not check [model]: for a model other than
    [ctc] and [attention] it writes an empty mapping file and goes on,
    where [read_text] raises [ValueError]; [q] (second column [nan]) is
    left out of the 39-phone set. *)
Theorem read_phone_unknown_model :
  read_phone keep_phones [sa1_phn] (str "phone39") (str "rnn") phone_table =
    Ok [(str "fcjf0_sa1.npy", [], [str "h#"; str "sh"])] /\
  read_phone keep_phones [sa1_phn] (str "phone39") (str "ctc") phone_table =
    Ok [(str "fcjf0_sa1.npy", [str "sh"; str "sil"], [str "h#"; str "sh"])].
Proof. split; vm_compute; reflexivity. Qed.

Lemma read_phone_sa1 :
  read_phone keep_phones [sa1_phn] (str "phone39") (str "attention") phone_table =
    Ok [(str "fcjf0_sa1.npy", [str "<"; str ">"; str "sh"; str "sil"], [str "<"; str "h#"; str "sh"; str ">"])].
Proof. vm_compute. reflexivity. Qed.

Lemma read_phone_lists_witness :
  read_phone keep_phones [sa1_phn] (str "phone39") (str "attention") phone_table =
    Ok [(str "fcjf0_sa1.npy", [str "<"; str ">"; str "sh"; str "sil"], [str "<"; str "h#"; str "sh"; str ">"])] /\
  Forall2 (fun label out => exists pl mapped,
             Forall2 (fun line p => py_split " " (py_strip line) !! 2 = Some p) label.2 pl /\
             keep_phones pl (str "phone39") = Ok mapped /\
             out.2 = (if decide (str "attention" = str "attention") then [str "<"] ++ mapped ++ [str ">"] else mapped))
    [sa1_phn] [(str "fcjf0_sa1.npy", [str "<"; str ">"; str "sh"; str "sil"], [str "<"; str "h#"; str "sh"; str ">"])].
Proof. split; [exact read_phone_sa1|exact (read_phone_lists _ _ _ _ _ _ read_phone_sa1)]. Defined.

End TimitPhone.
