(* ===== verification/OsPath.v ===== *)
(** * [os.path] on POSIX paths, as the path-discovery classes call it

    [os.path.join], [basename] and [splitext] of Python's [posixpath],
    which src/timit/prepare_path.py and src/csj/path.py call; they are
    library code, written here from Python's definitions.  Paths are
    [pystr] with [/] as separator.  The lemma [path_join_last3] is what
    the classifiers' theorems rest on: joining a prefix keeps the last
    three components of a path that has three. *)

From S2P Require Import Prelude.
Local Open Scope py_scope.

(** [os.path.join(a, b)]: an absolute [b] replaces [a]. *)
Definition path_join (a b : pystr) : pystr :=
  if decide (head b = Some "/"%char) then b
  else if decide (a = [] \/ last a = Some "/"%char) then a ++ b else a ++ "/"%char :: b.

(** [os.path.basename(p)]: what follows the last [/]. *)
Definition basename (p : pystr) : pystr := default [] (last (py_split "/" p)).

(** [os.path.splitext(p)[1]]: from the last dot of the base name, when
    some character before that dot is not a dot. *)
Definition splitext_ext (p : pystr) : pystr :=
  let b := basename p in
  let parts := py_split "." b in
  let ext := default [] (last parts) in
  let stem := take (length b - length ext - 1) b in
  if decide (length parts = 1) then []
  else if existsb (fun c => negb (bool_decide (c = "."%char))) stem then "."%char :: ext else [].

(** [p.split('/')[-3:]]. *)
Definition last3 (p : pystr) : list pystr :=
  let parts := py_split "/" p in py_slice parts (-3) (Z.of_nat (length parts)).

(** * Lemmas *)

Lemma py_split_app sep s1 s2 : py_split sep (s1 ++ sep :: s2) = py_split sep s1 ++ py_split sep s2.
Proof.
  induction s1 as [|c s1 IH]; simpl; [by rewrite decide_True|].
  rewrite IH. case_decide; [done|].
  destruct (py_split sep s1) as [|w ws] eqn:E; [by apply py_split_not_nil in E|done].
Qed.

Lemma py_slice_last3 {A} (l : list A) :
  py_slice l (-3) (Z.of_nat (length l)) = drop (length l - 3) l.
Proof.
  unfold py_slice, py_slice_bound, py_norm.
  rewrite (decide_True (P := (-3 < 0)%Z)) by lia.
  rewrite (decide_False (P := (Z.of_nat (length l) < 0)%Z)) by lia.
  replace (Z.to_nat (Z.max 0 (Z.min (Z.of_nat (length l)) (Z.of_nat (length l))))) with (length l) by lia.
  replace (Z.to_nat (Z.max 0 (Z.min (-3 + Z.of_nat (length l)) (Z.of_nat (length l)))))
    with (length l - 3) by lia.
  rewrite take_ge; [done|]. rewrite length_drop. lia.
Qed.

Lemma last3_app_sep a p :
  3 <= length (py_split "/" p) -> last3 (a ++ "/"%char :: p) = last3 p.
Proof.
  unfold last3. rewrite py_split_app, !py_slice_last3, length_app. intros Hp.
  rewrite drop_app_ge by lia. f_equal. lia.
Qed.

(** Joining a prefix keeps the last three components. *)
Lemma path_join_last3 a p :
  3 <= length (py_split "/" p) -> last3 (path_join a p) = last3 p.
Proof.
  intros Hp. unfold path_join. case_decide; [done|].
  case_decide as Ha; [|by apply last3_app_sep].
  destruct Ha as [->|Ha]; [done|].
  destruct a as [|x a _] using rev_ind; [done|]. rewrite last_snoc in Ha. injection Ha as ->.
  rewrite <- app_assoc. by apply last3_app_sep.
Qed.
