(* ===== verification/TimitPrepare.v ===== *)
(** * TIMIT file lists: the class [Prepare]

    Models src/timit/prepare_path.py: [__make] sorts the files that
    [glob] finds under [train/] and [test/] into wav, text, word and
    phone lists by extension, keeping the [sx]/[si] sentences; the
    development and test lists keep the speakers of
    [config/dev_speaker_list.txt] and [config/test_speaker_list.txt].
    The [glob] results and the speaker files are inputs (lists of
    paths and of lines).  The getters return [None] for an unknown
    [data_type], as the Python methods fall off their [if] chain. *)

From S2P Require Import Prelude OsPath.
Local Open Scope py_scope.

Module TimitPrepare.

(** The four lists of one part ([self.wav_train_paths], ...). *)
Record split_paths := {
  wav_paths : list pystr;
  text_paths : list pystr;
  word_paths : list pystr;
  phone_paths : list pystr
}.

Definition no_paths : split_paths := {| wav_paths := []; text_paths := []; word_paths := []; phone_paths := [] |}.

(** The extension test of lines 46-57. *)
Definition add_by_ext (ext p : pystr) (ps : split_paths) : split_paths :=
  if decide (ext = str ".wav") then {| wav_paths := wav_paths ps ++ [p]; text_paths := text_paths ps;
                                        word_paths := word_paths ps; phone_paths := phone_paths ps |}
  else if decide (ext = str ".txt") then {| wav_paths := wav_paths ps; text_paths := text_paths ps ++ [p];
                                             word_paths := word_paths ps; phone_paths := phone_paths ps |}
  else if decide (ext = str ".wrd") then {| wav_paths := wav_paths ps; text_paths := text_paths ps;
                                             word_paths := word_paths ps ++ [p]; phone_paths := phone_paths ps |}
  else if decide (ext = str ".phn") then {| wav_paths := wav_paths ps; text_paths := text_paths ps;
                                             word_paths := word_paths ps; phone_paths := phone_paths ps ++ [p] |}
  else ps.

(** [if speaker_name not in speakers_dev: continue] (lines 78, 113). *)
Definition skipped (speakers : option (list pystr)) (speaker_name : pystr) : bool :=
  match speakers with Some sp => bool_decide (speaker_name ∉ sp) | None => false end.

(** One path found by [glob] (lines 43-57, 75-92, 110-127): [speakers]
    is [None] for the training part, which keeps every speaker.  The
    unpacking of [split('/')[-3:]] raises [ValueError] for a path of
    fewer than three components. *)
Definition add_file (data_path : pystr) (speakers : option (list pystr)) (ps : split_paths) (file_path : pystr)
    : result split_paths :=
  match last3 file_path with
  | [region_name; speaker_name; file_name] =>
      let ext := splitext_ext file_name in
      if skipped speakers speaker_name then Ok ps
      else if decide (take 2 (basename file_name) ∈ [str "sx"; str "si"])
      then Ok (add_by_ext ext (path_join data_path file_path) ps)
      else Ok ps
  | _ => Err ValueError
  end.

Fixpoint add_files (data_path : pystr) (speakers : option (list pystr)) (ps : split_paths) (files : list pystr)
    : result split_paths :=
  match files with
  | [] => Ok ps
  | f :: files' => ps' <- add_file data_path speakers ps f ;; add_files data_path speakers ps' files'
  end.

(** The attributes set by [__init__] and [__make]. *)
Record t := {
  run_root_path : pystr;
  train : split_paths;
  dev : split_paths;
  test : split_paths
}.

(** [__init__] and [__make] (lines 22-127): [train_glob] and
    [test_glob] are the results of the [glob] calls, [dev_lines] and
    [test_lines] the lines of the speaker lists. *)
Definition init (data_path run_root_path : pystr) (train_glob test_glob dev_lines test_lines : list pystr)
    : result t :=
  let train_data_path := path_join data_path (str "train") in
  let test_data_path := path_join data_path (str "test") in
  tr <- add_files train_data_path None no_paths train_glob ;;
  dv <- add_files test_data_path (Some (map py_strip dev_lines)) no_paths test_glob ;;
  te <- add_files test_data_path (Some (map py_strip test_lines)) no_paths test_glob ;;
  Ok {| run_root_path := run_root_path; train := tr; dev := dv; test := te |}.

(** The getters [wav], [text], [word], [phone] (lines 129-183). *)
Definition get (sel : split_paths -> list pystr) (self : t) (data_type : pystr) : option (list pystr) :=
  if decide (data_type = str "train") then Some (py_sorted (sel (train self)))
  else if decide (data_type = str "dev") then Some (py_sorted (sel (dev self)))
  else if decide (data_type = str "test") then Some (py_sorted (sel (test self)))
  else None.

Definition wav := get wav_paths.
Definition text := get text_paths.
Definition word := get word_paths.
Definition phone := get phone_paths.

(** * The lists as filters of the [glob] results *)

(** The files of a part that land in the list of extension [e]. *)
Definition lands (e : pystr) (speakers : option (list pystr)) (file_path : pystr) : bool :=
  match last3 file_path with
  | [_; speaker_name; file_name] =>
      negb (skipped speakers speaker_name) &&
      bool_decide (take 2 (basename file_name) ∈ [str "sx"; str "si"]) &&
      bool_decide (splitext_ext file_name = e)
  | _ => false
  end.

Definition by_filter (data_path : pystr) (speakers : option (list pystr)) (files : list pystr) : split_paths :=
  {| wav_paths := map (path_join data_path) (List.filter (lands (str ".wav") speakers) files);
     text_paths := map (path_join data_path) (List.filter (lands (str ".txt") speakers) files);
     word_paths := map (path_join data_path) (List.filter (lands (str ".wrd") speakers) files);
     phone_paths := map (path_join data_path) (List.filter (lands (str ".phn") speakers) files) |}.

Definition app_paths (ps qs : split_paths) : split_paths :=
  {| wav_paths := wav_paths ps ++ wav_paths qs; text_paths := text_paths ps ++ text_paths qs;
     word_paths := word_paths ps ++ word_paths qs; phone_paths := phone_paths ps ++ phone_paths qs |}.

Lemma app_paths_assoc ps qs rs : app_paths ps (app_paths qs rs) = app_paths (app_paths ps qs) rs.
Proof. unfold app_paths; simpl. by rewrite !app_assoc. Qed.

Lemma app_paths_nil ps : app_paths ps no_paths = ps.
Proof. destruct ps. unfold app_paths; simpl. by rewrite !app_nil_r. Qed.

Lemma add_file_lands data_path speakers ps f :
  length (last3 f) = 3 ->
  add_file data_path speakers ps f = Ok (app_paths ps (by_filter data_path speakers [f])).
Proof.
  intros Hf. unfold add_file, by_filter, lands; simpl.
  destruct (last3 f) as [|r [|s [|fn [|]]]]; simpl in Hf; try lia.
  destruct (skipped speakers s); simpl; [symmetry; f_equal; apply app_paths_nil|].
  case_decide as Hsx.
  - rewrite bool_decide_true by done. simpl. unfold add_by_ext, app_paths; destruct ps; simpl.
    repeat case_decide; repeat case_bool_decide; simplify_eq; simpl; rewrite ?app_nil_r.
    all: congruence.
  - rewrite bool_decide_false by done. simpl. symmetry; f_equal; apply app_paths_nil.
Qed.

Lemma by_filter_cons data_path speakers f files :
  by_filter data_path speakers (f :: files) = app_paths (by_filter data_path speakers [f]) (by_filter data_path speakers files).
Proof.
  unfold by_filter, app_paths.
  generalize (lands (str ".wav") speakers), (lands (str ".txt") speakers),
    (lands (str ".wrd") speakers), (lands (str ".phn") speakers).
  intros a b c d. simpl. by destruct (a f), (b f), (c f), (d f).
Qed.

(** [__make]'s loop keeps, for every extension, the [sx]/[si] files of
    the kept speakers, in [glob] order, joined to the part's path. *)
Lemma add_files_filter data_path speakers files : forall ps,
  Forall (fun f => length (last3 f) = 3) files ->
  add_files data_path speakers ps files = Ok (app_paths ps (by_filter data_path speakers files)).
Proof.
  induction files as [|f files IH]; intros ps Hf; simpl.
  - symmetry. f_equal. apply app_paths_nil.
  - apply Forall_cons in Hf as [Hf Hfs]. rewrite add_file_lands by done. simpl.
    rewrite IH by done. by rewrite (by_filter_cons _ _ f files), app_paths_assoc.
Qed.

Definition all_paths (ps : split_paths) : list pystr :=
  wav_paths ps ++ text_paths ps ++ word_paths ps ++ phone_paths ps.

Lemma elem_of_by_filter data_path speakers files x :
  x ∈ all_paths (by_filter data_path speakers files) ->
  exists e f, lands e speakers f = true /\ x = path_join data_path f.
Proof.
  unfold all_paths, by_filter; simpl. rewrite !elem_of_app.
  intros [H|[H|[H|H]]]; apply list_elem_of_In, in_map_iff in H as (f & <- & Hf);
    apply filter_In in Hf as [_ Hl]; (eexists _, f; split; [exact Hl|done]).
Qed.

Lemma length_last3 p : length (last3 p) = 3 -> 3 <= length (py_split "/" p).
Proof. unfold last3. rewrite py_slice_last3, length_drop. lia. Qed.

(** A file a part keeps names, as its second-to-last directory, a kept
    speaker. *)
Lemma lands_speaker e sp f : lands e (Some sp) f = true -> exists s, last3 f !! 1 = Some s /\ s ∈ sp.
Proof.
  unfold lands, skipped. destruct (last3 f) as [|r [|s [|fn [|]]]]; try done.
  intros [[Hs _]%andb_prop _]%andb_prop. exists s. split; [done|].
  apply negb_true_iff, bool_decide_eq_false in Hs. destruct (decide (s ∈ sp)); tauto.
Qed.

Lemma lands_length e spk f : lands e spk f = true -> length (last3 f) = 3.
Proof. unfold lands. by destruct (last3 f) as [|r [|s [|fn [|]]]]. Qed.

Lemma by_filter_speaker data_path sp files x :
  x ∈ all_paths (by_filter data_path (Some sp) files) -> exists s, last3 x !! 1 = Some s /\ s ∈ sp.
Proof.
  intros (e & f & Hl & ->)%elem_of_by_filter.
  rewrite path_join_last3 by by eapply length_last3, lands_length. by eapply lands_speaker.
Qed.

(** [__make] when every path [glob] returns has three components: each
    part's lists are the filters of its [glob] results. *)
Lemma init_filter data_path run_root_path train_glob test_glob dev_lines test_lines :
  Forall (fun f => length (last3 f) = 3) train_glob -> Forall (fun f => length (last3 f) = 3) test_glob ->
  init data_path run_root_path train_glob test_glob dev_lines test_lines =
  Ok {| run_root_path := run_root_path;
        train := by_filter (path_join data_path (str "train")) None train_glob;
        dev := by_filter (path_join data_path (str "test")) (Some (map py_strip dev_lines)) test_glob;
        test := by_filter (path_join data_path (str "test")) (Some (map py_strip test_lines)) test_glob |}.
Proof. intros Htr Hte. unfold init. rewrite !add_files_filter by done. simpl. by destruct (by_filter _ _ _). Qed.

Lemma add_files_shape data_path speakers files : forall ps ps',
  add_files data_path speakers ps files = Ok ps' -> Forall (fun f => length (last3 f) = 3) files.
Proof.
  induction files as [|f files IH]; intros ps ps' H; simpl in H; [constructor|].
  destruct (add_file data_path speakers ps f) as [ps1|] eqn:E; [|done]. constructor; [|eauto].
  unfold add_file in E. by destruct (last3 f) as [|r [|s [|fn [|]]]].
Qed.

(** * Properties *)

(** C7: What [Prepare] lists: for every extension, the [sx]/[si] files
    that [glob] found in the part, of a listed speaker for the
    development and test parts, in [glob] order, each joined to the
    part's path. *)
Theorem init_lists data_path run_root_path train_glob test_glob dev_lines test_lines self :
  init data_path run_root_path train_glob test_glob dev_lines test_lines = Ok self ->
  self = {| run_root_path := run_root_path;
            train := by_filter (path_join data_path (str "train")) None train_glob;
            dev := by_filter (path_join data_path (str "test")) (Some (map py_strip dev_lines)) test_glob;
            test := by_filter (path_join data_path (str "test")) (Some (map py_strip test_lines)) test_glob |}.
Proof.
  intros H. pose proof H as H'. unfold init in H'. result_inv H'.
  rewrite init_filter in H by (by eapply add_files_shape). symmetry. by apply Ok_inj.
Qed.

(** C10: With speaker lists that share no speaker, no path is both a
    development and a test path. *)
Theorem dev_test_disjoint data_path run_root_path train_glob test_glob dev_lines test_lines self x :
  (forall s, s ∈ map py_strip dev_lines -> s ∉ map py_strip test_lines) ->
  init data_path run_root_path train_glob test_glob dev_lines test_lines = Ok self ->
  x ∈ all_paths (dev self) -> x ∉ all_paths (test self).
Proof.
  intros Hdis ->%init_lists Hd Ht; simpl in *.
  destruct (by_filter_speaker _ _ _ _ Hd) as (s & Hs & Hsd).
  destruct (by_filter_speaker _ _ _ _ Ht) as (s' & Hs' & Hst).
  rewrite Hs in Hs'. injection Hs' as <-. by apply (Hdis s).
Qed.

(** With a relative [data_path], [glob] returns relative paths that
    already start with it, and [join(self.train_data_path, file_path)]
    puts it twice; and an unknown [data_type] gives [None] where the
    spec asks for a fatal error. *)
Theorem relative_data_path :
  (exists self, init (str "timit") (str ".") [str "timit/train/dr1/fcjf0/sx1.wav"] [] [] [] = Ok self /\
     wav self (str "train") = Some [str "timit/train/timit/train/dr1/fcjf0/sx1.wav"] /\
     wav self (str "eval") = None).
Proof. eexists. split_and!; [vm_compute; reflexivity..]. Qed.

(** * Witnesses *)

Definition test_glob : list pystr := [str "/data/timit/test/dr1/mabc0/sx3.txt"; str "/data/timit/test/dr2/mdef0/si4.wav"].

Definition timit_self : t :=
  {| run_root_path := str "/run";
     train := by_filter (path_join (str "/data/timit") (str "train")) None [];
     dev := by_filter (path_join (str "/data/timit") (str "test")) (Some (map py_strip [str "mabc0"])) test_glob;
     test := by_filter (path_join (str "/data/timit") (str "test")) (Some (map py_strip [str "mdef0"])) test_glob |}.

Lemma timit_init : init (str "/data/timit") (str "/run") [] test_glob [str "mabc0"] [str "mdef0"] = Ok timit_self.
Proof. vm_compute. reflexivity. Qed.

Lemma init_lists_witness :
  init (str "/data/timit") (str "/run") [] test_glob [str "mabc0"] [str "mdef0"] = Ok timit_self /\
  timit_self = {| run_root_path := str "/run";
            train := by_filter (path_join (str "/data/timit") (str "train")) None [];
            dev := by_filter (path_join (str "/data/timit") (str "test")) (Some (map py_strip [str "mabc0"])) test_glob;
            test := by_filter (path_join (str "/data/timit") (str "test")) (Some (map py_strip [str "mdef0"])) test_glob |}.
Proof. split; [exact timit_init|exact (init_lists _ _ _ _ _ _ _ timit_init)]. Defined.

Lemma dev_test_disjoint_witness :
  (forall s, s ∈ map py_strip [str "mabc0"] -> s ∉ map py_strip [str "mdef0"]) /\
  init (str "/data/timit") (str "/run") [] test_glob [str "mabc0"] [str "mdef0"] = Ok timit_self /\
  str "/data/timit/test/dr1/mabc0/sx3.txt" ∈ all_paths (dev timit_self) /\
  str "/data/timit/test/dr1/mabc0/sx3.txt" ∉ all_paths (test timit_self).
Proof.
  assert (Hdis : forall s, s ∈ map py_strip [str "mabc0"] -> s ∉ map py_strip [str "mdef0"]).
  { intros s Hs. vm_compute in Hs. elem_of_list_cases Hs ltac:(by apply (bool_decide_unpack _)). }
  assert (Hx : str "/data/timit/test/dr1/mabc0/sx3.txt" ∈ all_paths (dev timit_self))
    by (apply (bool_decide_unpack _); vm_compute; reflexivity).
  split_and!; [exact Hdis|exact timit_init|exact Hx|exact (dev_test_disjoint _ _ _ _ _ _ _ _ Hdis timit_init Hx)].
Defined.

End TimitPrepare.
