(* ===== verification/CsjPath.v ===== *)
(** * CSJ file lists: the class [Path]

    Models src/csj/path.py: [__make] reads the three evaluation speaker
    lists and the excluded speakers, sorts the wav files that [glob]
    finds under [WAV/CORE], [WAV/NONCORE] and [WAV/NONCORE-DIALOG] into
    the six lists of the dictionary [self.wav_paths], and derives the
    transcript paths ([Ver4/SDB/<speaker>.sdb] when that file exists,
    else the wav path with [.sdb]).  The [glob] results, the lines of
    the speaker files and [os.path.isfile] are inputs.  The dictionaries
    have the six keys of lines 63-70: they are records indexed by
    [key], and a lookup with another string raises [KeyError]. *)

From S2P Require Import Prelude Regex OsPath.
Local Open Scope py_scope.

Module CsjPath.

Inductive key := TrainSubset | TrainFullset | Eval1 | Eval2 | Eval3 | Dialog.

#[export] Instance key_eq_dec : EqDecision key.
Proof. solve_decision. Defined.

Definition key_name (k : key) : pystr :=
  match k with
  | TrainSubset => str "train_subset" | TrainFullset => str "train_fullset"
  | Eval1 => str "eval1" | Eval2 => str "eval2" | Eval3 => str "eval3" | Dialog => str "dialog"
  end.

Definition all_keys : list key := [TrainSubset; TrainFullset; Eval1; Eval2; Eval3; Dialog].

(** A dictionary of lines 63-70 or 129-136. *)
Record paths := {
  train_subset : list pystr; train_fullset : list pystr;
  eval1 : list pystr; eval2 : list pystr; eval3 : list pystr; dialog : list pystr
}.

Definition no_paths : paths :=
  {| train_subset := []; train_fullset := []; eval1 := []; eval2 := []; eval3 := []; dialog := [] |}.

Definition get (d : paths) (k : key) : list pystr :=
  match k with
  | TrainSubset => train_subset d | TrainFullset => train_fullset d
  | Eval1 => eval1 d | Eval2 => eval2 d | Eval3 => eval3 d | Dialog => dialog d
  end.

(** [d[k].append(p)] *)
Definition append (k : key) (p : pystr) (d : paths) : paths :=
  {| train_subset := if decide (k = TrainSubset) then train_subset d ++ [p] else train_subset d;
     train_fullset := if decide (k = TrainFullset) then train_fullset d ++ [p] else train_fullset d;
     eval1 := if decide (k = Eval1) then eval1 d ++ [p] else eval1 d;
     eval2 := if decide (k = Eval2) then eval2 d ++ [p] else eval2 d;
     eval3 := if decide (k = Eval3) then eval3 d ++ [p] else eval3 d;
     dialog := if decide (k = Dialog) then dialog d ++ [p] else dialog d |}.

(** [d[data_type]] with a string. *)
Definition lookup (d : paths) (data_type : pystr) : result (list pystr) :=
  match List.find (fun k => bool_decide (key_name k = data_type)) all_keys with
  | Some k => Ok (get d k)
  | None => Err (KeyError data_type)
  end.

(** [basename(wav_path).split('.')[0]] and [speaker.split('-')[0]]
    ([split] never returns an empty list). *)
Definition speaker_of (wav_path : pystr) : pystr := default [] (head (py_split "." (basename wav_path))).
Definition speaker_prefix (speaker : pystr) : pystr := default [] (head (py_split "-" speaker)).

(** The speaker lists of lines 36-56. *)
Record speakers := {
  eval1_speakers : list pystr; eval2_speakers : list pystr; eval3_speakers : list pystr;
  excluded_speakers : list pystr
}.

(** Lines 36-56: [line.strip()] of every line of the four files. *)
Definition read_speakers (eval1_lines eval2_lines eval3_lines excluded_lines : list pystr) : speakers :=
  {| eval1_speakers := map py_strip eval1_lines; eval2_speakers := map py_strip eval2_lines;
     eval3_speakers := map py_strip eval3_lines; excluded_speakers := map py_strip excluded_lines |}.

(** Lines 73-92: a file of [WAV/CORE]; [speaker[0]] raises [IndexError]
    for an empty speaker name. *)
Definition core_step (sp : speakers) (d : paths) (wav_path : pystr) : result paths :=
  let speaker := speaker_of wav_path in
  if decide (speaker ∈ eval1_speakers sp) then Ok (append Eval1 wav_path d)
  else if decide (speaker ∈ eval2_speakers sp) then Ok (append Eval2 wav_path d)
  else if decide (speaker ∈ eval3_speakers sp) then Ok (append Eval3 wav_path d)
  else if decide (speaker_prefix speaker ∈ excluded_speakers sp) then Ok d
  else
    c <- py_get speaker 0 ;;
    if decide (c = "D"%char) then
      (if decide (speaker ∉ excluded_speakers sp) then Ok (append Dialog wav_path d) else Ok d)
    else if decide (c = "A"%char) then Ok (append TrainFullset wav_path (append TrainSubset wav_path d))
    else Ok (append TrainFullset wav_path d).

(** Lines 95-110: a file of [WAV/NONCORE]. *)
Definition noncore_step (sp : speakers) (d : paths) (wav_path : pystr) : result paths :=
  let speaker := speaker_of wav_path in
  if decide (speaker ∈ eval1_speakers sp) then Ok (append Eval1 wav_path d)
  else if decide (speaker ∈ eval2_speakers sp) then Ok (append Eval2 wav_path d)
  else if decide (speaker ∈ eval3_speakers sp) then Ok (append Eval3 wav_path d)
  else if decide (speaker_prefix speaker ∈ excluded_speakers sp) then Ok d
  else
    c <- py_get speaker 0 ;;
    if decide (c ∈ ["A"%char; "M"%char]) then Ok (append TrainFullset wav_path (append TrainSubset wav_path d))
    else Ok (append TrainFullset wav_path d).

(** Lines 113-124: a file of [WAV/NONCORE-DIALOG]. *)
Definition dialog_step (sp : speakers) (d : paths) (wav_path : pystr) : result paths :=
  let speaker := speaker_of wav_path in
  if decide (speaker_prefix speaker ∈ excluded_speakers sp) then Ok d
  else
    c <- py_get speaker 0 ;;
    if decide (c = "D"%char) then
      (if decide (speaker ∉ excluded_speakers sp) then Ok (append Dialog wav_path d) else Ok d)
    else Ok (append TrainFullset wav_path d).

Fixpoint fold_steps (step : paths -> pystr -> result paths) (d : paths) (files : list pystr) : result paths :=
  match files with
  | [] => Ok d
  | f :: files' => d' <- step d f ;; fold_steps step d' files'
  end.

(** Lines 138-147: the transcript of a wav file. *)
Definition trans_of (ver4_path : pystr) (isfile : pystr -> bool) (wav_path : pystr) : pystr :=
  let ver4 := path_join ver4_path (speaker_of wav_path ++ str ".sdb") in
  if isfile ver4 then ver4 else re_sub (lit (str ".wav")) (str ".sdb") wav_path.

Definition add_trans (ver4_path : pystr) (isfile : pystr -> bool) (wav : paths) (k : key) (d : paths) : paths :=
  foldl (fun d w => append k (trans_of ver4_path isfile w) d) d (get wav k).

(** The attributes of [Path]. *)
Record t := {
  data_path : pystr; config_path : pystr; htk_save_path : option pystr;
  wav_paths : paths; trans_paths : paths
}.

(** [__init__] and [__make] (lines 21-147). *)
Definition init (data_path config_path : pystr) (htk_save_path : option pystr)
    (eval1_lines eval2_lines eval3_lines excluded_lines : list pystr)
    (core_glob noncore_glob dialog_glob : list pystr) (isfile : pystr -> bool) : result t :=
  let ver4_path := path_join data_path (str "Ver4/SDB") in
  let sp := read_speakers eval1_lines eval2_lines eval3_lines excluded_lines in
  d <- fold_steps (core_step sp) no_paths core_glob ;;
  d <- fold_steps (noncore_step sp) d noncore_glob ;;
  d <- fold_steps (dialog_step sp) d dialog_glob ;;
  let tr := foldl (fun tr k => add_trans ver4_path isfile d k tr) no_paths
                  [TrainSubset; TrainFullset; Eval1; Eval2; Eval3] in
  Ok {| data_path := data_path; config_path := config_path; htk_save_path := htk_save_path;
        wav_paths := d; trans_paths := tr |}.

(** [wav], [htk], [trans] (lines 149-181); [htk_glob] is what [glob]
    returns for [htk_save_path/data_type/*.htk]. *)
Definition wav (self : t) (data_type : pystr) : result (list pystr) :=
  l <- lookup (wav_paths self) data_type ;; Ok (py_sorted l).

Definition htk (self : t) (htk_glob : list pystr) : result (list pystr) :=
  match htk_save_path self with None => Err ValueError | Some _ => Ok htk_glob end.

Definition trans (self : t) (data_type : pystr) : result (list pystr) :=
  l <- lookup (trans_paths self) data_type ;; Ok (py_sorted l).

(** * Lemmas *)

Lemma get_append k k' p d : get (append k p d) k' = if decide (k = k') then get d k' ++ [p] else get d k'.
Proof. by destruct k, k'. Qed.

Lemma fold_steps_inv (P : paths -> Prop) step files :
  (forall d f d', f ∈ files -> P d -> step d f = Ok d' -> P d') ->
  forall d d', P d -> fold_steps step d files = Ok d' -> P d'.
Proof.
  intros Hstep. induction files as [|f files IH]; intros d d' Hd H; simpl in H; [by apply Ok_inj in H as <-|].
  destruct (step d f) as [d1|] eqn:E; [|done].
  eapply IH; [|eapply Hstep; [apply elem_of_cons; by left|exact Hd|exact E]|exact H].
  intros d0 f0 d0' Hf0. apply Hstep. apply elem_of_cons. by right.
Qed.

(** Take a step apart: every branch, the [IndexError] of [speaker[0]]
    discharged. *)
Ltac step_cases H :=
  unfold core_step, noncore_step, dialog_step in H;
  repeat first
    [ progress case_decide
    | match type of H with
      | context [py_get ?s 0] => let E := fresh "E" in destruct (py_get s 0) eqn:E; [simpl in H|discriminate H]
      end ];
  apply Ok_inj in H; subst.

Lemma add_trans_get v isfile w k k' d :
  get (add_trans v isfile w k d) k' =
  if decide (k = k') then get d k' ++ map (trans_of v isfile) (get w k) else get d k'.
Proof.
  unfold add_trans. generalize d. induction (get w k) as [|x l IH]; intros d0; simpl.
  - case_decide; by rewrite ?app_nil_r.
  - rewrite IH, get_append. case_decide; [by rewrite <- app_assoc|done].
Qed.

Lemma init_Ok data_path config_path htk_save_path e1 e2 e3 ex core noncore dial isfile self :
  init data_path config_path htk_save_path e1 e2 e3 ex core noncore dial isfile = Ok self ->
  exists d1 d2, fold_steps (core_step (read_speakers e1 e2 e3 ex)) no_paths core = Ok d1 /\
    fold_steps (noncore_step (read_speakers e1 e2 e3 ex)) d1 noncore = Ok d2 /\
    fold_steps (dialog_step (read_speakers e1 e2 e3 ex)) d2 dial = Ok (wav_paths self) /\
    trans_paths self = foldl (fun tr k => add_trans (path_join data_path (str "Ver4/SDB")) isfile (wav_paths self) k tr)
                             no_paths [TrainSubset; TrainFullset; Eval1; Eval2; Eval3].
Proof.
  unfold init. intros H. result_inv H. subst self. by exists a, a0.
Qed.

(** The training subset is part of the full training set. *)
Definition subset_in_full (d : paths) : Prop := forall x, x ∈ get d TrainSubset -> x ∈ get d TrainFullset.

Ltac step_pres := intros ? ? ? Hd H; step_cases H; rewrite ?get_append; simpl; set_solver.

Lemma steps_subset sp d f d' :
  subset_in_full d ->
  (core_step sp d f = Ok d' \/ noncore_step sp d f = Ok d' \/ dialog_step sp d f = Ok d') ->
  subset_in_full d'.
Proof. unfold subset_in_full. intros Hd [H|[H|H]]; step_cases H; intros x; rewrite ?get_append; simpl; set_solver. Qed.

Lemma get_foldl_add_trans v isfile w ks k :
  get (foldl (fun tr k' => add_trans v isfile w k' tr) no_paths ks) k =
  if decide (k ∈ ks) then concat (map (fun k' => if decide (k' = k) then map (trans_of v isfile) (get w k) else []) ks)
  else [].
Proof.
  assert (Hgen : forall tr, get (foldl (fun tr k' => add_trans v isfile w k' tr) tr ks) k =
    get tr k ++ concat (map (fun k' => if decide (k' = k) then map (trans_of v isfile) (get w k) else []) ks)).
  { induction ks as [|k1 ks IH]; intros tr; simpl; [by rewrite app_nil_r|].
    rewrite IH, add_trans_get. case_decide; simpl; subst; by rewrite <- ?app_assoc. }
  rewrite Hgen. replace (get no_paths k) with (@nil pystr) by (by destruct k). simpl. case_decide as Hk; [done|].
  clear Hgen. induction ks as [|k1 ks IH]; [done|]. simpl.
  rewrite elem_of_cons in Hk. destruct (decide (k1 = k)); [subst; tauto|]. simpl. apply IH. tauto.
Qed.

(** The evaluation lists hold files of their speakers, and the full
    training set no file of an evaluation speaker. *)
Definition eval_ok (sp : speakers) (d : paths) : Prop :=
  (forall x, x ∈ get d Eval1 -> speaker_of x ∈ eval1_speakers sp) /\
  (forall x, x ∈ get d Eval2 -> speaker_of x ∈ eval2_speakers sp) /\
  (forall x, x ∈ get d Eval3 -> speaker_of x ∈ eval3_speakers sp) /\
  (forall x, x ∈ get d TrainFullset ->
     (speaker_of x ∉ eval1_speakers sp) /\ (speaker_of x ∉ eval2_speakers sp) /\
     (speaker_of x ∉ eval3_speakers sp)).

Lemma eval_ok_append sp d k f :
  eval_ok sp d ->
  (k = Eval1 -> speaker_of f ∈ eval1_speakers sp) -> (k = Eval2 -> speaker_of f ∈ eval2_speakers sp) ->
  (k = Eval3 -> speaker_of f ∈ eval3_speakers sp) ->
  (k = TrainFullset -> (speaker_of f ∉ eval1_speakers sp) /\ (speaker_of f ∉ eval2_speakers sp) /\
                       (speaker_of f ∉ eval3_speakers sp)) ->
  eval_ok sp (append k f d).
Proof.
  intros (H1 & H2 & H3 & H4) K1 K2 K3 K4. unfold eval_ok. rewrite !get_append.
  split_and!; intros x; (case_decide; subst; [intros [Hx| ->%list_elem_of_singleton]%elem_of_app| ]); auto.
Qed.

Lemma steps_eval_ok sp d f d' :
  eval_ok sp d ->
  (core_step sp d f = Ok d' \/ noncore_step sp d f = Ok d' \/
   (dialog_step sp d f = Ok d' /\ (speaker_of f ∉ eval1_speakers sp) /\ (speaker_of f ∉ eval2_speakers sp) /\
    (speaker_of f ∉ eval3_speakers sp))) ->
  eval_ok sp d'.
Proof.
  intros Hd [H|[H|(H & N1 & N2 & N3)]]; step_cases H;
    repeat (apply eval_ok_append;
            [|let K := fresh in intros K; first [discriminate K | split_and!; assumption | assumption]..]);
    done.
Qed.

(** * Properties *)

(** C22: Every file of the training subset is in the full training set. *)
Theorem wav_subset_in_full data_path config_path htk_save_path e1 e2 e3 ex core noncore dial isfile self :
  init data_path config_path htk_save_path e1 e2 e3 ex core noncore dial isfile = Ok self ->
  forall x, x ∈ train_subset (wav_paths self) -> x ∈ train_fullset (wav_paths self).
Proof.
  intros (d1 & d2 & H1 & H2 & H3 & _)%init_Ok.
  assert (Hs : forall step, (forall d f d', step d f = Ok d' -> core_step (read_speakers e1 e2 e3 ex) d f = Ok d' \/
                 noncore_step (read_speakers e1 e2 e3 ex) d f = Ok d' \/ dialog_step (read_speakers e1 e2 e3 ex) d f = Ok d') ->
             forall files d d', subset_in_full d -> fold_steps step d files = Ok d' -> subset_in_full d').
  { intros step Hstep files. apply fold_steps_inv. intros d f d' _ Hd H. eapply steps_subset; eauto. }
  eapply (Hs _ ltac:(by right; right) dial); [|exact H3].
  eapply (Hs _ ltac:(by right; left) noncore); [|exact H2].
  eapply (Hs _ ltac:(by left) core); [|exact H1]. intros x Hx. by apply not_elem_of_nil in Hx.
Qed.

(** [trans] is [trans_of] applied to [wav], for the five data types of
    line 138; the dialog data has no transcripts. *)
Lemma trans_paths_map data_path config_path htk_save_path e1 e2 e3 ex core noncore dial isfile self k :
  init data_path config_path htk_save_path e1 e2 e3 ex core noncore dial isfile = Ok self ->
  get (trans_paths self) k =
  if decide (k = Dialog) then []
  else map (trans_of (path_join data_path (str "Ver4/SDB")) isfile) (get (wav_paths self) k).
Proof.
  intros (d1 & d2 & _ & _ & _ & ->)%init_Ok. rewrite get_foldl_add_trans.
  destruct k; simpl; by rewrite ?app_nil_r.
Qed.

Lemma Forall2_map_self {A B} (P : A -> B -> Prop) (f : A -> B) l :
  (forall x, P x (f x)) -> Forall2 P l (map f l).
Proof. intros H. induction l; simpl; constructor; auto. Qed.

(** C24: The transcript paths (lines 136-145): for each of the five data
    types of line 138 and each wav file, in the same order, the path
    [Ver4/SDB/<speaker>.sdb] under the data path when that file exists,
    else the wav path with [.wav] replaced by [.sdb]; the dialog data
    has no transcripts (line 138 leaves [dialog] out). *)
Theorem trans_paths_spec data_path config_path htk_save_path e1 e2 e3 ex core noncore dial isfile self :
  init data_path config_path htk_save_path e1 e2 e3 ex core noncore dial isfile = Ok self ->
  get (trans_paths self) Dialog = [] /\
  forall k, k <> Dialog ->
    Forall2 (fun wav_path trans_path =>
               let ver4 := path_join (path_join data_path (str "Ver4/SDB")) (speaker_of wav_path ++ str ".sdb") in
               trans_path = if isfile ver4 then ver4 else re_sub (lit (str ".wav")) (str ".sdb") wav_path)
      (get (wav_paths self) k) (get (trans_paths self) k).
Proof.
  intros Hinit. split; [by rewrite (trans_paths_map _ _ _ _ _ _ _ _ _ _ _ _ Dialog Hinit)|].
  intros k Hk. rewrite (trans_paths_map _ _ _ _ _ _ _ _ _ _ _ _ k Hinit), decide_False by done.
  by apply Forall2_map_self.
Qed.

(** C8: When no file under [WAV/NONCORE-DIALOG] belongs to an
    evaluation speaker, the full training set shares no file with the
    three evaluation sets. *)
Theorem eval_train_disjoint data_path config_path htk_save_path e1 e2 e3 ex core noncore dial isfile self x :
  (forall f, f ∈ dial -> (speaker_of f ∉ map py_strip e1) /\ (speaker_of f ∉ map py_strip e2) /\
                          (speaker_of f ∉ map py_strip e3)) ->
  init data_path config_path htk_save_path e1 e2 e3 ex core noncore dial isfile = Ok self ->
  x ∈ train_fullset (wav_paths self) ->
  (x ∉ eval1 (wav_paths self)) /\ (x ∉ eval2 (wav_paths self)) /\ (x ∉ eval3 (wav_paths self)).
Proof.
  intros Hdial (d1 & d2 & H1 & H2 & H3 & _)%init_Ok Hx.
  set (sp := read_speakers e1 e2 e3 ex).
  assert (Hc : eval_ok sp d1).
  { refine (fold_steps_inv (eval_ok sp) _ core _ no_paths d1 _ H1);
      [|split_and!; intros y Hy; by apply not_elem_of_nil in Hy].
    intros d f d' _ Hd H. eapply steps_eval_ok; [exact Hd|by left]. }
  assert (Hn : eval_ok sp d2).
  { eapply (fold_steps_inv _ _ noncore); [|exact Hc|exact H2].
    intros d f d' _ Hd H. eapply steps_eval_ok; [exact Hd|by right; left]. }
  assert (Hok : eval_ok sp (wav_paths self)).
  { eapply (fold_steps_inv _ _ dial); [|exact Hn|exact H3].
    intros d f d' Hf Hd H. eapply steps_eval_ok; [exact Hd|right; right; split; [exact H|apply (Hdial f Hf)]]. }
  destruct Hok as (K1 & K2 & K3 & K4). destruct (K4 x Hx) as (N1 & N2 & N3).
  split_and!; intros Hy; [apply N1, (K1 x Hy)|apply N2, (K2 x Hy)|apply N3, (K3 x Hy)].
Qed.

(** The loop over [WAV/NONCORE-DIALOG] does not look at the
    evaluation lists: a file of an evaluation speaker found there goes
    to the full training set while the speaker's core file is in
    [eval1]; [trans] gives no dialog transcripts while [wav] lists the
    dialog files; an unknown data type raises [KeyError], and [htk]
    without [htk_save_path] raises [ValueError]. *)
Theorem dialog_loop_examples :
  (exists self, init (str "/c") (str "/conf") None [str "A01M0110"] [] [] []
                  [str "/c/WAV/CORE/x/y/A01M0110.wav"] [] [str "/c/WAV/NONCORE-DIALOG/z/A01M0110.wav"]
                  (fun _ => false) = Ok self /\
     eval1 (wav_paths self) = [str "/c/WAV/CORE/x/y/A01M0110.wav"] /\
     train_fullset (wav_paths self) = [str "/c/WAV/NONCORE-DIALOG/z/A01M0110.wav"]) /\
  (exists self, init (str "/c") (str "/conf") None [] [] [] [] [] [] [str "/c/WAV/NONCORE-DIALOG/z/D01F0004.wav"]
                  (fun _ => false) = Ok self /\
     wav self (str "dialog") = Ok [str "/c/WAV/NONCORE-DIALOG/z/D01F0004.wav"] /\
     trans self (str "dialog") = Ok [] /\ wav self (str "dev") = Err (KeyError (str "dev")) /\
     htk self [] = Err ValueError).
Proof. split; eexists; split_and!; vm_compute; reflexivity. Qed.

(** * Witnesses *)

Definition csj_core : list pystr :=
  [str "/c/WAV/CORE/x/y/A01M0110.wav"; str "/c/WAV/CORE/x/y/A01M0001.wav"; str "/c/WAV/CORE/x/y/S01F0002.wav"].
Definition csj_noncore : list pystr := [str "/c/WAV/NONCORE/a/b/c/M01M0003.wav"].
Definition csj_dialog : list pystr := [str "/c/WAV/NONCORE-DIALOG/z/D01F0004.wav"].
Definition csj_isfile (p : pystr) : bool := bool_decide (p = str "/c/Ver4/SDB/A01M0001.sdb").

Definition csj_init : result t :=
  init (str "/c") (str "/conf") None [str "A01M0110"] [] [] [] csj_core csj_noncore csj_dialog csj_isfile.

Definition csj_self : t :=
  match csj_init with
  | Ok self => self
  | Err _ => {| data_path := []; config_path := []; htk_save_path := None; wav_paths := no_paths; trans_paths := no_paths |}
  end.

Lemma csj_init_Ok :
  init (str "/c") (str "/conf") None [str "A01M0110"] [] [] [] csj_core csj_noncore csj_dialog csj_isfile = Ok csj_self.
Proof. vm_compute. reflexivity. Qed.

Lemma wav_subset_in_full_witness :
  init (str "/c") (str "/conf") None [str "A01M0110"] [] [] [] csj_core csj_noncore csj_dialog csj_isfile = Ok csj_self /\
  (forall x, x ∈ train_subset (wav_paths csj_self) -> x ∈ train_fullset (wav_paths csj_self)).
Proof. split; [exact csj_init_Ok|exact (wav_subset_in_full _ _ _ _ _ _ _ _ _ _ _ _ csj_init_Ok)]. Defined.

Lemma trans_paths_spec_witness :
  init (str "/c") (str "/conf") None [str "A01M0110"] [] [] [] csj_core csj_noncore csj_dialog csj_isfile = Ok csj_self /\
  get (trans_paths csj_self) TrainSubset = [str "/c/Ver4/SDB/A01M0001.sdb"; str "/c/WAV/NONCORE/a/b/c/M01M0003.sdb"] /\
  Forall2 (fun wav_path trans_path =>
             let ver4 := path_join (path_join (str "/c") (str "Ver4/SDB")) (speaker_of wav_path ++ str ".sdb") in
             trans_path = if csj_isfile ver4 then ver4 else re_sub (lit (str ".wav")) (str ".sdb") wav_path)
    (get (wav_paths csj_self) TrainSubset) (get (trans_paths csj_self) TrainSubset).
Proof.
  split_and!; [exact csj_init_Ok|vm_compute; reflexivity|].
  exact (proj2 (trans_paths_spec _ _ _ _ _ _ _ _ _ _ _ _ csj_init_Ok) TrainSubset ltac:(discriminate)).
Defined.

Lemma eval_train_disjoint_witness :
  (forall f, f ∈ csj_dialog -> (speaker_of f ∉ map py_strip [str "A01M0110"]) /\
     (speaker_of f ∉ map py_strip []) /\ (speaker_of f ∉ map py_strip [])) /\
  init (str "/c") (str "/conf") None [str "A01M0110"] [] [] [] csj_core csj_noncore csj_dialog csj_isfile = Ok csj_self /\
  str "/c/WAV/CORE/x/y/A01M0001.wav" ∈ train_fullset (wav_paths csj_self) /\
  (str "/c/WAV/CORE/x/y/A01M0001.wav" ∉ eval1 (wav_paths csj_self)) /\
  (str "/c/WAV/CORE/x/y/A01M0001.wav" ∉ eval2 (wav_paths csj_self)) /\
  (str "/c/WAV/CORE/x/y/A01M0001.wav" ∉ eval3 (wav_paths csj_self)).
Proof.
  assert (Hd : forall f, f ∈ csj_dialog -> (speaker_of f ∉ map py_strip [str "A01M0110"]) /\
     (speaker_of f ∉ map py_strip []) /\ (speaker_of f ∉ map py_strip [])).
  { intros f Hf. elem_of_list_cases Hf ltac:(split_and!; by apply (bool_decide_unpack _)). }
  assert (Hx : str "/c/WAV/CORE/x/y/A01M0001.wav" ∈ train_fullset (wav_paths csj_self))
    by (apply (bool_decide_unpack _); vm_compute; reflexivity).
  split_and!; [exact Hd|exact csj_init_Ok|exact Hx|..];
    apply (eval_train_disjoint _ _ _ _ _ _ _ _ _ _ _ _ _ Hd csj_init_Ok Hx).
Defined.

End CsjPath.
