(* ===== verification/CsjLabels.v ===== *)
(** * CSJ transcripts: [read_sdb]

    Models [read_sdb] of src/csj/labels/character.py.  The [.sdb] rows
    of a lecture are words; the reader stacks the words of an utterance
    and cuts at a new utterance index only where the parentheses of the
    stacked text balance (lines 108-242).  A finished utterance is
    cleaned, put between [_] (or [<] and [>]), its [__] removed by a loop,
    and stored unless it is silence or noise only.  Then the [kana+phones]
    table gives the kana-to-phone dictionary (lines 247-262), the symbol
    lists of the three mapping files (lines 268-313), and the phone
    sequence of every utterance (lines 360-388).

    The text is Japanese: a character is a code point ([Z]), a string a
    list of code points ([ustr]).  The cleaner [fix_transcript], the
    tests [is_hiragana], [is_katakana] ([csj.labels.fix_trans], absent
    from the repository) and [jaconv.kata2hira] are Section variables.
    The [.sdb] rows are given after [pandas] has read them, with the
    utterance index and the frames converted to integers (lines
    109-113). *)

From Stdlib Require Import String Orders Mergesort.
From S2P Require Import Prelude OsPath.
Local Open Scope py_scope.

Module CsjLabels.

(** ** Strings of code points *)

Abbreviation ustr := (list Z).

(** An ASCII literal as code points. *)
Definition u (s : string) : ustr := map (fun a => Z.of_nat (nat_of_ascii a)) (list_ascii_of_string s).

Definition c_under : Z := 95.
Definition c_lparen : Z := 40.
Definition c_rparen : Z := 41.
Definition c_lt : Z := 60.
Definition c_gt : Z := 62.

(** [s.count(c)] for one character. *)
Definition count (c : Z) (s : ustr) : nat := length (filter (fun x => x = c) s).

(** [s.split(sep)] for one character. *)
Fixpoint usplit (sep : Z) (s : ustr) : list ustr :=
  match s with
  | [] => [[]]
  | c :: s' =>
      let rest := usplit sep s' in
      if decide (c = sep) then [] :: rest
      else match rest with w :: ws => (c :: w) :: ws | [] => [[c]] end
  end.

(** [re.sub(xy, rep, s)] for a two-character literal: leftmost matches,
    without overlap. *)
Fixpoint sub_pair (x y : Z) (rep s : ustr) : ustr :=
  match s with
  | a :: ((b :: s'') as s') =>
      if decide (a = x /\ b = y) then rep ++ sub_pair x y rep s'' else a :: sub_pair x y rep s'
  | _ => s
  end.

(** [xy in s] *)
Fixpoint has_pair (x y : Z) (s : ustr) : bool :=
  match s with
  | a :: ((b :: _) as s') => bool_decide (a = x /\ b = y) || has_pair x y s'
  | _ => false
  end.

(** Lines 173-176 (and 204-207):
    [while '__' in t: t = re.sub('__', '_', t)], with [len(t)] rounds
    as bound; each round shortens the string. *)
Fixpoint dedup_fuel (fuel : nat) (t : ustr) : ustr :=
  match fuel with
  | 0 => t
  | S fuel' => if has_pair c_under c_under t then dedup_fuel fuel' (sub_pair c_under c_under [c_under] t) else t
  end.

Definition dedup (t : ustr) : ustr := dedup_fuel (length t) t.

(** [str.strip()]: the code points [str.isspace] holds of. *)
Definition is_uspace (c : Z) : bool :=
  bool_decide (c ∈ [9; 10; 11; 12; 13; 28; 29; 30; 31; 32; 133; 160; 5760;
    8192; 8193; 8194; 8195; 8196; 8197; 8198; 8199; 8200; 8201; 8202;
    8232; 8233; 8239; 8287; 12288]%Z).

Fixpoint ulstrip (s : ustr) : ustr :=
  match s with c :: s' => if is_uspace c then ulstrip s' else s | [] => [] end.

Definition ustrip (s : ustr) : ustr := reverse (ulstrip (reverse (ulstrip s))).

(** [sorted()] on strings of code points. *)
Fixpoint ustr_leb (s1 s2 : ustr) : bool :=
  match s1, s2 with
  | [], _ => true
  | _ :: _, [] => false
  | c1 :: s1', c2 :: s2' => if decide (c1 = c2) then ustr_leb s1' s2' else (c1 <? c2)%Z
  end.

Lemma ustr_leb_total s1 s2 : ustr_leb s1 s2 = true \/ ustr_leb s2 s1 = true.
Proof.
  revert s2; induction s1 as [|c1 s1 IH]; intros [|c2 s2]; simpl; auto.
  case_decide; [subst; rewrite decide_True by done; auto|].
  rewrite decide_False by congruence. rewrite !Z.ltb_lt. lia.
Qed.

Module UStrOrder <: Orders.TotalLeBool.
Definition t := ustr.
Definition leb := ustr_leb.
Definition leb_total := ustr_leb_total.
End UStrOrder.

Module UStrSort := Sort UStrOrder.

Definition usorted (l : list ustr) : list ustr := UStrSort.sort l.

(** ** The reader of [.sdb] files (lines 85-244) *)

(** One row of a [.sdb] file as [pandas] gives it: the utterance
    index and frames of column 3 (converted at lines 109-113), the
    word of column 5 ([kanji]) and its reading of column 10 ([yomi]). *)
Record row := mk_row {
  utt_index : Z;
  start_frame : Z;
  end_frame : Z;
  kanji : ustr;
  yomi : ustr
}.

(** [[start_frame, end_frame, trans_kana, trans_kanji]]; a frame is
    [None] until the first row of the file sets it. *)
Record utt := mk_utt {
  u_start : option Z;
  u_end : option Z;
  u_kana : ustr;
  u_kanji : ustr
}.

(** The local variables of [read_sdb]: the per-file ones
    ([utt_index_pre] to [utterance_dict]) and the ones of the whole
    call. *)
Record state := mk_state {
  utt_index_pre : Z;
  start_frame_pre : option Z;
  end_frame_pre : option Z;
  trans_kana : ustr;
  trans_kanji : ustr;
  utterance_dict : gmap pystr utt;
  speaker_dict : gmap pystr (gmap pystr utt);
  char_set : gset Z;
  all_char_set : gset Z
}.

Section ReadSdb.

(** [csj.labels.fix_trans.fix_transcript], not in the repository. *)
Variable fix_transcript : ustr -> ustr.

Variable model : pystr.
Variable divide_by_space : bool.

(** Line 85. *)
Definition model_ok : bool := bool_decide (model = str "ctc" \/ model = str "attention").

Definition is_ctc : bool := bool_decide (model = str "ctc").

(** Lines 125-130 (and 140-145, 154-159): the word and its reading
    are appended. *)
Definition stack_word (t_kana t_kanji : ustr) (r : row) : ustr * ustr :=
  if divide_by_space then (t_kana ++ yomi r ++ [c_under], t_kanji ++ kanji r ++ [c_under])
  else (t_kana ++ yomi r, t_kanji ++ kanji r).

(** Lines 232-237: a new utterance starts with the word. *)
Definition first_word (r : row) : ustr * ustr := stack_word [] [] r.

(** Lines 167-176: the CTC transcript of a finished utterance. *)
Definition clean_ctc (t : ustr) : ustr := dedup (c_under :: fix_transcript t ++ [c_under]).

(** Lines 198-211: the attention transcript. *)
Definition clean_attention (t : ustr) : ustr :=
  let t := dedup (c_lt :: fix_transcript t ++ [c_gt]) in
  sub_pair c_under c_gt [c_gt] (sub_pair c_lt c_under [c_lt] t).

Definition clean (t : ustr) : ustr := if is_ctc then clean_ctc t else clean_attention t.

(** Lines 179 and 214: silence and noise only. *)
Definition skip_utt (kana : ustr) : bool :=
  if is_ctc then bool_decide (kana ∈ [u "_"; u "_NZ_"])
  else bool_decide (kana ∈ [u "<>"; u "<_>"; u "<NZ>"]).

(** Lines 165-241: the stacked utterance is cleaned and, unless
    skipped, added to the sets and stored under the key
    [str(utt_index - 1).zfill(4)] of the row that ends it; then the row
    starts the next utterance. *)
Definition flush (s : state) (r : row) : state :=
  let kana := clean (trans_kana s) in
  let kanji := clean (trans_kanji s) in
  let s := if skip_utt kana then s else
    {| utt_index_pre := utt_index_pre s; start_frame_pre := start_frame_pre s;
       end_frame_pre := end_frame_pre s; trans_kana := trans_kana s; trans_kanji := trans_kanji s;
       utterance_dict := <[py_zfill 4 (py_str_Z (utt_index r - 1)) :=
         mk_utt (start_frame_pre s) (end_frame_pre s) kana kanji]> (utterance_dict s);
       speaker_dict := speaker_dict s;
       char_set := char_set s ∪ list_to_set kana;
       all_char_set := all_char_set s ∪ list_to_set kanji |} in
  let '(kana', kanji') := first_word r in
  {| utt_index_pre := utt_index r; start_frame_pre := Some (start_frame r);
     end_frame_pre := Some (end_frame r); trans_kana := kana'; trans_kanji := kanji';
     utterance_dict := utterance_dict s; speaker_dict := speaker_dict s;
     char_set := char_set s; all_char_set := all_char_set s |}.

(** Lines 124-134, 139-149 and 153-163: the word joins the current
    utterance. *)
Definition stack (s : state) (r : row) : state :=
  let '(kana, kanji) := stack_word (trans_kana s) (trans_kanji s) r in
  {| utt_index_pre := utt_index r; start_frame_pre := start_frame_pre s;
     end_frame_pre := Some (end_frame r); trans_kana := kana; trans_kanji := kanji;
     utterance_dict := utterance_dict s; speaker_dict := speaker_dict s;
     char_set := char_set s; all_char_set := all_char_set s |}.

Definition balanced (t : ustr) : bool := bool_decide (count c_lparen t = count c_rparen t).

(** Lines 109-241: one row.  Lines 114-117 set the frames of the
    first row. *)
Definition set_frames (s : state) (r : row) : state :=
  {| utt_index_pre := utt_index_pre s;
     start_frame_pre := Some (default (start_frame r) (start_frame_pre s));
     end_frame_pre := Some (default (end_frame r) (end_frame_pre s));
     trans_kana := trans_kana s; trans_kanji := trans_kanji s;
     utterance_dict := utterance_dict s; speaker_dict := speaker_dict s;
     char_set := char_set s; all_char_set := all_char_set s |}.

Definition step (s : state) (r : row) : state :=
  let s := set_frames s r in
  if decide (utt_index r = utt_index_pre s) then stack s r
  else if negb (balanced (trans_kanji s)) then stack s r
  else if negb (balanced (trans_kana s)) then stack s r
  else flush s r.

(** Line 107. *)
Definition speaker_of (label_path : pystr) : pystr :=
  default [] (head (py_split "." (basename label_path))).

(** Lines 103-106: the per-file variables are reset. *)
Definition start_file (s : state) : state :=
  {| utt_index_pre := 1; start_frame_pre := None; end_frame_pre := None;
     trans_kana := []; trans_kanji := []; utterance_dict := ∅;
     speaker_dict := speaker_dict s; char_set := char_set s; all_char_set := all_char_set s |}.

(** Lines 103-244: one file; the utterance still stacked when the rows
    end is not stored. *)
Definition read_file (s : state) (f : pystr * list row) : state :=
  let s := foldl step (start_file s) f.2 in
  {| utt_index_pre := utt_index_pre s; start_frame_pre := start_frame_pre s;
     end_frame_pre := end_frame_pre s; trans_kana := trans_kana s; trans_kanji := trans_kanji s;
     utterance_dict := utterance_dict s;
     speaker_dict := <[speaker_of f.1 := utterance_dict s]> (speaker_dict s);
     char_set := char_set s; all_char_set := all_char_set s |}.

Definition init_state : state :=
  {| utt_index_pre := 1; start_frame_pre := None; end_frame_pre := None;
     trans_kana := []; trans_kanji := []; utterance_dict := ∅;
     speaker_dict := ∅; char_set := ∅; all_char_set := ∅ |}.

(** Lines 85-244, with the rows of each label file. *)
Definition read_sdb (files : list (pystr * list row)) : result state :=
  if model_ok then Ok (foldl read_file init_state files) else Err ValueError.

End ReadSdb.

(** ** Kana to phones (lines 247-262) *)

Record kana_table := mk_table {
  kana_list : list ustr;
  kana2phone_dict : gmap ustr ustr;
  phone_set : gset ustr
}.

Definition c_plus : Z := 43.
Definition c_space : Z := 32.

(** Lines 252-257: [kana, phone_seq = line.strip().split('+')] raises
    [ValueError] unless the line has exactly one [+]. *)
Definition add_table_line (tb : kana_table) (line : ustr) : result kana_table :=
  match usplit c_plus (ustrip line) with
  | [kana; phone_seq] =>
      Ok (mk_table (kana_list tb ++ [kana]) (<[kana := phone_seq]> (kana2phone_dict tb))
                   (foldl (fun ps p => ps ∪ {[p]}) (phone_set tb) (usplit c_space phone_seq)))
  | _ => Err ValueError
  end.

Fixpoint add_table_lines (tb : kana_table) (lines : list ustr) : result kana_table :=
  match lines with
  | [] => Ok tb
  | l :: ls => tb' <- add_table_line tb l ;; add_table_lines tb' ls
  end.

(** Lines 247-262. *)
Definition read_kana2phone (model : pystr) (lines : list ustr) : result kana_table :=
  tb <- add_table_lines (mk_table [] ∅ ∅) lines ;;
  let d := <[u "NZ" := u "NZ"]> (<[u "_" := u "_"]> (kana2phone_dict tb)) in
  let d := if decide (model = str "attention") then <[u ">" := u ">"]> (<[u "<" := u "<"]> d) else d in
  Ok (mk_table (kana_list tb) d (phone_set tb)).

(** ** The mapping files (lines 268-313) *)

Definition reserved (model : pystr) : list ustr :=
  if decide (model = str "ctc") then [u "_"; u "NZ"] else [u "_"; u "<"; u ">"; u "NZ"].

Section KanjiList.

(** [is_hiragana], [is_katakana] of [csj.labels.fix_trans] and
    [jaconv.kata2hira]. *)
Variable is_hiragana is_katakana : ustr -> bool.
Variable kata2hira : ustr -> ustr.

(** Lines 272-290. *)
Definition kanji_list (model : pystr) (all_chars : gset Z) (kanas : list ustr) : list ustr :=
  let cs := all_chars ∖ {[78; 90; 95]}%Z in
  let cs := if decide (model = str "attention") then cs ∖ {[c_lt; c_gt]} else cs in
  let ks := set_fold (fun c (ks : gset ustr) =>
                        if negb (is_hiragana [c]) && negb (is_katakana [c]) then {[ [c] ]} ∪ ks else ks) ∅ cs in
  let ks := foldl (fun ks k => ks ∪ {[k]} ∪ {[kata2hira k]}) ks kanas in
  reserved model ++ usorted (elements ks).

End KanjiList.

(** Lines 297-300. *)
Definition kana_map_list (model : pystr) (kanas : list ustr) : list ustr := reserved model ++ kanas.

(** Lines 307-310. *)
Definition phone_list (model : pystr) (phones : gset ustr) : list ustr :=
  reserved model ++ usorted (elements phones).

(** ** The phones of a transcript (lines 360-388) *)

(** The [while i < len(trans_kana_list)] loop: a pair of characters
    that is a key is taken first, then one character; a character with
    neither raises [ValueError]. *)
Fixpoint kana2phone_seqs (d : gmap ustr ustr) (t : ustr) : result (list ustr) :=
  match t with
  | [] => Ok []
  | [c] => match d !! [c] with Some p => Ok [p] | None => Err ValueError end
  | c :: ((c' :: t'') as t') =>
      match d !! [c; c'] with
      | Some p => ps <- kana2phone_seqs d t'' ;; Ok (p :: ps)
      | None =>
          match d !! [c] with
          | Some p => ps <- kana2phone_seqs d t' ;; Ok (p :: ps)
          | None => Err ValueError
          end
      end
  end.

(** Lines 386-388. *)
Definition trans_phone_list (d : gmap ustr ustr) (t : ustr) : result (list ustr) :=
  seqs <- kana2phone_seqs d t ;; Ok (mjoin (map (usplit c_space) seqs)).

(** * Lemmas *)

(** ** Two-character scans

    [sub_pair], [has_pair] and [kana2phone_seqs] look at two
    characters and go on from the second or the third: their proofs go
    by this induction. *)

Lemma pair_ind (P : ustr -> Prop) :
  P [] -> (forall a, P [a]) -> (forall a b t, P t -> P (b :: t) -> P (a :: b :: t)) -> forall t, P t.
Proof.
  intros H0 H1 H2 t. cut (P t /\ forall a, P (a :: t)); [by intros []|].
  induction t as [|b t [IH1 IH2]]; [done|]. split; [done|]. intros a. by apply H2.
Qed.

Lemma sub_pair_cons2 x y rep a b t :
  sub_pair x y rep (a :: b :: t) =
  if decide (a = x /\ b = y) then rep ++ sub_pair x y rep t else a :: sub_pair x y rep (b :: t).
Proof. done. Qed.

Lemma sub_pair_length x y rep t :
  length rep <= 2 -> length (sub_pair x y rep t) <= length t.
Proof.
  induction t using pair_ind; intros Hr; simpl; [lia|lia|].
  case_decide; simpl; rewrite ?length_app; simpl in *; lia.
Qed.

Lemma sub_pair_shrinks x y t :
  has_pair x y t = true -> length (sub_pair x y [x] t) < length t.
Proof.
  induction t as [| |a b t IH1 IH2] using pair_ind; simpl; [done|done|].
  case_bool_decide as H; case_decide; try tauto; simpl.
  - pose proof (sub_pair_length x y [x] t). simpl in *. lia.
  - intros Hp. specialize (IH2 Hp). simpl in *. lia.
Qed.

Lemma sub_pair_head x y rep t :
  (head rep = Some x \/ head t <> Some x) -> head t <> None -> head (sub_pair x y rep t) = head t.
Proof.
  intros Hr Ht. destruct t as [|a [|b t]]; simpl in *; [done|done|].
  case_decide as Hab; [|done]. destruct Hab as [-> ->].
  destruct rep; simpl in *; destruct Hr; congruence.
Qed.

Lemma sub_pair_nonempty x y rep t : rep <> [] -> t <> [] -> sub_pair x y rep t <> [].
Proof.
  intros Hr Ht. destruct t as [|a [|b t]]; simpl; [done|done|].
  case_decide; [|done]. by destruct rep.
Qed.

Lemma sub_pair_last x y rep t :
  rep <> [] -> (last rep = Some y \/ last t <> Some y) -> last (sub_pair x y rep t) = last t.
Proof.
  induction t as [| |a b t IH1 IH2] using pair_ind; intros Hrep Hr; [done|done|].
  rewrite sub_pair_cons2. case_decide as Hab.
  - destruct Hab as [-> ->]. destruct t as [|c t].
    + rewrite app_nil_r. by destruct Hr.
    + rewrite last_app_ne by (by apply sub_pair_nonempty).
      rewrite IH1 by (try done; by rewrite !last_cons_cons in Hr).
      by rewrite !last_cons_cons.
  - rewrite last_cons_ne by (by apply sub_pair_nonempty).
    rewrite IH2 by (try done; by rewrite last_cons_cons in Hr).
    by rewrite last_cons_cons.
Qed.

(** ** The [__] loop *)

Lemma dedup_fuel_done n t : has_pair c_under c_under t = false -> dedup_fuel n t = t.
Proof. destruct n; simpl; [done|]. by intros ->. Qed.

Lemma dedup_fuel_no_pair n t : length t <= n -> has_pair c_under c_under (dedup_fuel n t) = false.
Proof.
  revert t; induction n as [|n IH]; intros t Hn; simpl.
  - destruct t; [done|simpl in Hn; lia].
  - destruct (has_pair c_under c_under t) eqn:E; [|done].
    apply IH. pose proof (sub_pair_shrinks _ _ _ E). lia.
Qed.

Lemma dedup_fuel_stable k n t : length t <= n -> dedup_fuel (k + n) t = dedup_fuel n t.
Proof.
  revert t; induction n as [|n IH]; intros t Hn.
  - destruct t; [|simpl in Hn; lia]. rewrite !dedup_fuel_done; done.
  - rewrite Nat.add_succ_r. simpl. destruct (has_pair c_under c_under t) eqn:E; [|done].
    apply IH. pose proof (sub_pair_shrinks _ _ _ E). lia.
Qed.

Lemma dedup_fuel_head n t : head t <> None -> head (dedup_fuel n t) = head t.
Proof.
  revert t; induction n as [|n IH]; intros t Ht; simpl; [done|].
  destruct (has_pair _ _ t); [|done].
  assert (head (sub_pair c_under c_under [c_under] t) = head t) as E by (apply sub_pair_head; [left|]; done).
  rewrite IH; [done|by rewrite E].
Qed.

Lemma dedup_fuel_last n t : last (dedup_fuel n t) = last t.
Proof.
  revert t; induction n as [|n IH]; intros t; simpl; [done|].
  destruct (has_pair _ _ t); [|done]. rewrite IH. by apply sub_pair_last; [|left].
Qed.

(** C26: The loop [while '__' in t: t = re.sub('__', '_', t)] ends
    within [len(t)] rounds: [dedup] has no [__] left, and no larger
    bound changes its result. *)
Theorem dedup_terminates t :
  has_pair c_under c_under (dedup t) = false /\
  (forall n, length t <= n -> dedup_fuel n t = dedup t).
Proof.
  split; [by apply dedup_fuel_no_pair|].
  intros n Hn. replace n with ((n - length t) + length t) by lia. by apply dedup_fuel_stable.
Qed.

Lemma dedup_terminates_witness :
  length (u "a___b") <= 10 /\ dedup_fuel 10 (u "a___b") = u "a_b".
Proof. split; [simpl; lia|]. rewrite (proj2 (dedup_terminates (u "a___b")) 10); [vm_compute; reflexivity|simpl; lia]. Defined.

Lemma dedup_head t : head t <> None -> head (dedup t) = head t.
Proof. apply dedup_fuel_head. Qed.

Lemma dedup_last t : last (dedup t) = last t.
Proof. apply dedup_fuel_last. Qed.

(** ** Cleaned transcripts *)

Section Clean.
Variable fix_transcript : ustr -> ustr.

Lemma clean_ctc_shape t :
  head (clean_ctc fix_transcript t) = Some c_under /\ last (clean_ctc fix_transcript t) = Some c_under /\
  has_pair c_under c_under (clean_ctc fix_transcript t) = false.
Proof.
  unfold clean_ctc. rewrite dedup_head, dedup_last by done.
  split_and!; [done|by rewrite app_comm_cons, last_snoc|apply dedup_terminates].
Qed.

Lemma clean_attention_shape t :
  head (clean_attention fix_transcript t) = Some c_lt /\ last (clean_attention fix_transcript t) = Some c_gt.
Proof.
  unfold clean_attention.
  assert (H1 : head (dedup (c_lt :: fix_transcript t ++ [c_gt])) = Some c_lt) by (by rewrite dedup_head).
  assert (H2 : last (dedup (c_lt :: fix_transcript t ++ [c_gt])) = Some c_gt)
    by (by rewrite dedup_last, app_comm_cons, last_snoc).
  split.
  - assert (H3 : head (sub_pair c_lt c_under [c_lt] (dedup (c_lt :: fix_transcript t ++ [c_gt]))) = Some c_lt)
      by (rewrite sub_pair_head, H1; [done|by left|by rewrite H1]).
    rewrite sub_pair_head, H3; [done|right; by rewrite H3|by rewrite H3].
  - rewrite sub_pair_last by (done || by left).
    by rewrite sub_pair_last, H2 by (done || by right; rewrite H2).
Qed.

End Clean.

(** ** What [read_sdb] stores *)

Lemma balanced_nil : balanced [] = true.
Proof. reflexivity. Qed.


Section Stored.
Variable fix_transcript : ustr -> ustr.
Variable model : pystr.
Variable divide_by_space : bool.


(** A stored utterance is the cleaning of texts whose parentheses
    balance, is not silence or noise only, and has its frames. *)
Definition utt_ok (v : utt) : Prop :=
  (exists tk tj, balanced tk = true /\ balanced tj = true /\ u_kana v = clean fix_transcript model tk /\ u_kanji v = clean fix_transcript model tj) /\
  skip_utt model (u_kana v) = false /\ is_Some (u_start v) /\ is_Some (u_end v).

Definition stored_ok (s : state) (v : utt) : Prop :=
  utt_ok v /\ list_to_set (u_kana v) ⊆ char_set s /\ list_to_set (u_kanji v) ⊆ all_char_set s.

Definition state_ok (s : state) : Prop :=
  map_Forall (fun _ v => stored_ok s v) (utterance_dict s) /\
  map_Forall (fun _ d => map_Forall (fun _ v => stored_ok s v) d) (speaker_dict s).

Lemma stored_ok_mono (s s' : state) v :
  char_set s ⊆ char_set s' -> all_char_set s ⊆ all_char_set s' -> stored_ok s v -> stored_ok s' v.
Proof. intros H1 H2 (? & ? & ?). split_and!; set_solver. Qed.

Lemma stored_mono_all (s s' : state) (m : gmap pystr utt) :
  char_set s ⊆ char_set s' -> all_char_set s ⊆ all_char_set s' ->
  map_Forall (fun _ v => stored_ok s v) m -> map_Forall (fun _ v => stored_ok s' v) m.
Proof. intros H1 H2 Hm. eapply map_Forall_impl; [done|]. intros ?? Hv. by eapply stored_ok_mono. Qed.

Lemma state_ok_mono (s s' : state) :
  utterance_dict s' = utterance_dict s -> speaker_dict s' = speaker_dict s ->
  char_set s ⊆ char_set s' -> all_char_set s ⊆ all_char_set s' -> state_ok s -> state_ok s'.
Proof.
  unfold state_ok. intros -> -> H1 H2 [Hu Hs]. split; [by eapply stored_mono_all|].
  eapply map_Forall_impl; [done|]. intros ?? Hd. cbv beta in Hd. by eapply stored_mono_all.
Qed.

Lemma stack_ok s r : state_ok s -> state_ok (stack divide_by_space s r).
Proof. unfold stack. destruct (stack_word _ _ _ _). apply state_ok_mono; done. Qed.

Lemma set_frames_ok s r : state_ok s -> state_ok (set_frames s r).
Proof. apply state_ok_mono; done. Qed.

Lemma flush_ok s r :
  balanced (trans_kana s) = true -> balanced (trans_kanji s) = true ->
  is_Some (start_frame_pre s) -> is_Some (end_frame_pre s) ->
  state_ok s -> state_ok (flush fix_transcript model divide_by_space s r).
Proof.
  intros Hk Hj Hs He Hok. unfold flush. destruct (first_word _ _) as [k j].
  destruct (skip_utt model _) eqn:Hskip; [by eapply state_ok_mono|].
  destruct Hok as [Hu Hsp]. split; simpl.
  - apply map_Forall_insert_2.
    + unfold stored_ok, utt_ok. simpl. split_and!; [by exists (trans_kana s), (trans_kanji s)|done|done|done|set_solver|set_solver].
    + eapply stored_mono_all; [| |done]; set_solver.
  - eapply map_Forall_impl; [done|]. intros ?? Hd. cbv beta in Hd. eapply stored_mono_all; [| |done]; set_solver.
Qed.

Lemma step_ok s r : state_ok s -> state_ok (step fix_transcript model divide_by_space s r).
Proof.
  intros Hok. pose proof (set_frames_ok s r Hok) as Hf. unfold step.
  repeat case_decide; simpl; try by apply stack_ok.
  destruct (balanced (trans_kanji s)) eqn:Hj; [|by apply stack_ok].
  destruct (balanced (trans_kana s)) eqn:Hk; [|by apply stack_ok].
  by apply flush_ok.
Qed.

Lemma foldl_step_ok rows s :
  state_ok s -> state_ok (foldl (step fix_transcript model divide_by_space) s rows).
Proof. revert s; induction rows; intros s Hs; simpl; [done|]. by apply IHrows, step_ok. Qed.

Lemma read_file_state_ok s f : state_ok s -> state_ok (read_file fix_transcript model divide_by_space s f).
Proof.
  intros Hok. unfold read_file.
  assert (Hf : state_ok (foldl (step fix_transcript model divide_by_space) (start_file s) f.2)).
  { apply foldl_step_ok. split; [apply map_Forall_empty|apply Hok]. }
  destruct Hf as [Hu Hs]. split; [done|]. by apply map_Forall_insert_2.
Qed.

Lemma read_sdb_ok files s : read_sdb fix_transcript model divide_by_space files = Ok s -> state_ok s.
Proof.
  unfold read_sdb. destruct model_ok; intros H; [apply Ok_inj in H; subst|done].
  assert (Hi : state_ok init_state) by (split; apply map_Forall_empty).
  revert Hi. generalize init_state. induction files; intros s0 Hs0; simpl; [done|].
  by apply IHfiles, read_file_state_ok.
Qed.

Lemma read_sdb_lookup files s spk d k v :
  read_sdb fix_transcript model divide_by_space files = Ok s ->
  speaker_dict s !! spk = Some d -> d !! k = Some v -> stored_ok s v.
Proof. intros H Hd Hv. destruct (read_sdb_ok _ _ H) as [_ Hs]. exact (Hs _ _ Hd _ _ Hv). Qed.

Lemma clean_ctc_eq t : model = str "ctc" -> clean fix_transcript model t = clean_ctc fix_transcript t.
Proof. intros ->. done. Qed.

Lemma clean_attention_eq t :
  model = str "attention" -> clean fix_transcript model t = clean_attention fix_transcript t.
Proof. intros ->. done. Qed.

(** C11: Every utterance [read_sdb] stores for a speaker is the cleaning
    of stacked kana and kanji texts whose parentheses balance (the cut
    of lines 137-163), is not silence or noise only (lines 179, 214),
    has the frames of its first and last row, and its characters are in
    [char_set] and [all_char_set]. *)
Theorem read_sdb_stored files s spk d k v :
  read_sdb fix_transcript model divide_by_space files = Ok s ->
  speaker_dict s !! spk = Some d -> d !! k = Some v ->
  (exists tk tj, balanced tk = true /\ balanced tj = true /\
     u_kana v = clean fix_transcript model tk /\ u_kanji v = clean fix_transcript model tj) /\
  skip_utt model (u_kana v) = false /\ is_Some (u_start v) /\ is_Some (u_end v) /\
  list_to_set (u_kana v) ⊆ char_set s /\ list_to_set (u_kanji v) ⊆ all_char_set s.
Proof. intros H Hd Hv. destruct (read_sdb_lookup _ _ _ _ _ _ H Hd Hv) as [(? & ? & ? & ?) ?]. tauto. Qed.

(** C12: A stored CTC transcript, kana or kanji, begins and ends with
    [_] and has no [__]; its kana is neither [_] nor [_NZ_].  A stored
    attention transcript begins with [<] and ends with [>]; its kana is
    none of [<>], [<_>], [<NZ>]. *)
Theorem read_sdb_labels files s spk d k v :
  read_sdb fix_transcript model divide_by_space files = Ok s ->
  speaker_dict s !! spk = Some d -> d !! k = Some v ->
  (model = str "ctc" ->
     (forall t, t = u_kana v \/ t = u_kanji v ->
        head t = Some c_under /\ last t = Some c_under /\ has_pair c_under c_under t = false) /\
     u_kana v ∉ [u "_"; u "_NZ_"]) /\
  (model = str "attention" ->
     (forall t, t = u_kana v \/ t = u_kanji v -> head t = Some c_lt /\ last t = Some c_gt) /\
     u_kana v ∉ [u "<>"; u "<_>"; u "<NZ>"]).
Proof.
  intros H Hd Hv. destruct (read_sdb_lookup _ _ _ _ _ _ H Hd Hv) as [[(tk & tj & _ & _ & Hk & Hj) [Hskip _]] _].
  unfold skip_utt, is_ctc in Hskip. split; intros Hm.
  - rewrite bool_decide_true in Hskip by done. apply bool_decide_eq_false in Hskip.
    split; [|done]. intros t [-> | ->]; rewrite ?Hk, ?Hj, clean_ctc_eq by done; apply clean_ctc_shape.
  - rewrite bool_decide_false in Hskip by (rewrite Hm; done). apply bool_decide_eq_false in Hskip.
    split; [|done]. intros t [-> | ->]; rewrite ?Hk, ?Hj, clean_attention_eq by done;
      apply clean_attention_shape.
Qed.

Lemma skip_clean_nil :
  model_ok model = true -> fix_transcript [] = [] -> skip_utt model (clean fix_transcript model []) = true.
Proof.
  intros Hm Hfix. apply bool_decide_eq_true in Hm.
  unfold skip_utt, clean, clean_ctc, clean_attention. rewrite !Hfix.
  destruct Hm as [-> | ->]; vm_compute; reflexivity.
Qed.

(** While the rows carry one index [i], nothing is stored: the first
    row either continues the empty initial utterance or flushes it,
    and the flush of an empty text is skipped. *)
Definition one_utt (i : Z) (s : state) : Prop :=
  utterance_dict s = ∅ /\ (utt_index_pre s = i \/ (trans_kana s = [] /\ trans_kanji s = [])).

Lemma step_one_utt i s r :
  model_ok model = true -> fix_transcript [] = [] -> utt_index r = i ->
  one_utt i s -> one_utt i (step fix_transcript model divide_by_space s r).
Proof.
  intros Hm Hfix Hr [Hd Hpre]. unfold step. case_decide as Hi.
  - unfold stack. destruct (stack_word _ _ _ _). split; simpl; [done|by left].
  - destruct Hpre as [Hpre|[Hk Hj]]; [simpl in Hi; congruence|].
    simpl. rewrite Hk, Hj. rewrite balanced_nil. cbn [negb].
    unfold flush. simpl. rewrite Hk, skip_clean_nil by done. destruct (first_word _ _).
    split; simpl; [done|by left].
Qed.

(** A label file whose rows all carry the same utterance index
    contributes no utterance: the utterance still being stacked when
    the rows end is never stored (lines 108-244 store an utterance only
    when a row with another index follows). *)
Theorem read_sdb_single_utterance path rows i s :
  fix_transcript [] = [] -> Forall (fun r => utt_index r = i) rows ->
  read_sdb fix_transcript model divide_by_space [(path, rows)] = Ok s ->
  speaker_dict s !! speaker_of path = Some ∅.
Proof.
  intros Hfix Hrows H. unfold read_sdb in H. destruct (model_ok model) eqn:Hm; [|done].
  apply Ok_inj in H. subst s. simpl. rewrite lookup_insert_eq. f_equal.
  assert (Hone : one_utt i (start_file init_state)) by (split; [done|by right]).
  revert Hone. generalize (start_file init_state) as s0.
  induction Hrows as [|r rows Hr _ IH]; intros s0 Hs0; [apply Hs0|].
  apply IH. by apply step_one_utt.
Qed.

End Stored.

(** ** The mapping files *)

Section Mapping.
Variable is_hiragana is_katakana : ustr -> bool.
Variable kata2hira : ustr -> ustr.

Lemma elem_of_usorted l x : x ∈ usorted l <-> x ∈ l.
Proof. unfold usorted. by rewrite <- (UStrSort.Permuted_sort l). Qed.

Lemma kanji_fold_mono (kanas : list ustr) (ks : gset ustr) :
  ks ⊆ foldl (fun ks k => ks ∪ {[k]} ∪ {[kata2hira k]}) ks kanas.
Proof. revert ks; induction kanas as [|k kanas IH]; intros ks; simpl; [done|]. etrans; [|apply IH]. set_solver. Qed.

Lemma elem_of_kanji_chars (cs : gset Z) c :
  c ∈ cs -> is_hiragana [c] = false -> is_katakana [c] = false ->
  [c] ∈ set_fold (fun c (ks : gset ustr) =>
                    if negb (is_hiragana [c]) && negb (is_katakana [c]) then {[ [c] ]} ∪ ks else ks) ∅ cs.
Proof.
  intros Hc Hh Hk. revert c Hc Hh Hk. apply (set_fold_ind_L (fun r X => forall c, c ∈ X ->
    is_hiragana [c] = false -> is_katakana [c] = false -> [c] ∈ r)); [set_solver|].
  intros x X r _ IH c Hc Hh Hk. apply elem_of_union in Hc as [->%elem_of_singleton|Hc].
  - rewrite Hh, Hk. simpl. set_solver.
  - destruct (_ && _); [apply elem_of_union_r|]; auto.
Qed.

(** C40: Every character of a stored kanji transcript that is not a
    reserved character ([N], [Z], [_], and [<], [>] for attention)
    and neither hiragana nor katakana is a symbol of the kanji mapping
    list built from [all_char_set] (lines 272-290). *)
Theorem kanji_list_covers fix_transcript model divide_by_space files s spk d k v c kanas :
  read_sdb fix_transcript model divide_by_space files = Ok s ->
  speaker_dict s !! spk = Some d -> d !! k = Some v -> c ∈ u_kanji v ->
  c ∉ [78; 90; 95]%Z -> (model = str "attention" -> c ∉ [c_lt; c_gt]) ->
  is_hiragana [c] = false -> is_katakana [c] = false ->
  [c] ∈ kanji_list is_hiragana is_katakana kata2hira model (all_char_set s) kanas.
Proof.
  intros H Hd Hv Hc Hres Hatt Hh Hk.
  destruct (read_sdb_lookup _ _ _ _ _ _ _ _ _ H Hd Hv) as (_ & _ & Hall).
  unfold kanji_list. apply elem_of_app. right. rewrite elem_of_usorted, elem_of_elements.
  apply kanji_fold_mono, elem_of_kanji_chars; [|done|done].
  assert (c ∈ all_char_set s) by (apply Hall, elem_of_list_to_set, Hc).
  rewrite !elem_of_cons, elem_of_nil in Hres.
  case_decide as Hm; [|set_solver]. specialize (Hatt Hm). rewrite !elem_of_cons, elem_of_nil in Hatt.
  set_solver.
Qed.

End Mapping.

(** ** Kana to phones *)

Lemma kana2phone_seqs_cons2 d c c' t :
  kana2phone_seqs d (c :: c' :: t) =
  match d !! [c; c'] with
  | Some p => ps <- kana2phone_seqs d t ;; Ok (p :: ps)
  | None => match d !! [c] with Some p => ps <- kana2phone_seqs d (c' :: t) ;; Ok (p :: ps) | None => Err ValueError end
  end.
Proof. done. Qed.

(** C27: The loop of lines 360-385 reads the transcript as a sequence
    of dictionary keys of one or two characters, a pair being tried
    first, and yields their phone sequences in order; it succeeds on
    every transcript whose characters are all keys. *)
Theorem kana2phone_seqs_spec d t :
  (forall ps, kana2phone_seqs d t = Ok ps ->
     exists toks, mjoin toks = t /\ Forall2 (fun k p => d !! k = Some p) toks ps /\
       Forall (fun k => length k = 1 \/ (length k = 2 /\ is_Some (d !! k))) toks) /\
  ((forall c, c ∈ t -> is_Some (d !! [c])) -> exists ps, kana2phone_seqs d t = Ok ps).
Proof.
  induction t as [|c|c c' t IH1 IH2] using pair_ind.
  - split; [intros ps [= <-]; by exists []|by exists []].
  - simpl. split.
    + intros ps H. destruct (d !! [c]) eqn:E; [|done]. injection H as <-.
      exists [[c]]. split_and!; simpl; auto.
    + intros Hc. destruct (Hc c) as [p ->]; [set_solver|]. by eexists.
  - rewrite kana2phone_seqs_cons2. split.
    + intros ps H. destruct (d !! [c; c']) as [p|] eqn:E2.
      * destruct (kana2phone_seqs d t) as [ps'|] eqn:Et; [|done]. injection H as <-.
        destruct (proj1 IH1 ps' eq_refl) as (toks & <- & ? & ?).
        exists ([c; c'] :: toks). split_and!; [done|by constructor|constructor; [right; by split|done]].
      * destruct (d !! [c]) as [p|] eqn:E1; [|done].
        destruct (kana2phone_seqs d (c' :: t)) as [ps'|] eqn:Et; [|done]. injection H as <-.
        destruct (proj1 IH2 ps' eq_refl) as (toks & Ht & ? & ?).
        exists ([c] :: toks). rewrite <- Ht. split_and!; [done|by constructor|constructor; [by left|done]].
    + intros Hc. destruct (d !! [c; c']) eqn:E2.
      * destruct (proj2 IH1) as [ps ->]; [set_solver|]. by eexists.
      * destruct (Hc c) as [p ->]; [set_solver|]. destruct (proj2 IH2) as [ps ->]; [set_solver|]. by eexists.
Qed.

Lemma kana2phone_seqs_spec_witness :
  (forall c, c ∈ u "ab" -> is_Some ((<[u "ab" := u "x y"]> (<[u "a" := u "p"]> (<[u "b" := u "q"]> ∅)) : gmap ustr ustr) !! [c])) /\
  exists ps, kana2phone_seqs (<[u "ab" := u "x y"]> (<[u "a" := u "p"]> (<[u "b" := u "q"]> ∅))) (u "ab") = Ok ps.
Proof.
  assert (Hc : forall c, c ∈ u "ab" -> is_Some ((<[u "ab" := u "x y"]> (<[u "a" := u "p"]> (<[u "b" := u "q"]> ∅)) : gmap ustr ustr) !! [c])).
  { intros c Hc. change (u "ab") with [97%Z; 98%Z] in Hc. rewrite !elem_of_cons, elem_of_nil in Hc.
    destruct Hc as [->|[->|[]]]; vm_compute; eauto. }
  split; [exact Hc|]. exact (proj2 (kana2phone_seqs_spec _ (u "ab")) Hc).
Defined.

Definition table_fields (l : ustr) : list ustr := usplit c_plus (ustrip l).

Lemma add_table_lines_cases tb lines :
  (Exists (fun l => length (table_fields l) <> 2) lines /\ add_table_lines tb lines = Err ValueError) \/
  (Forall (fun l => length (table_fields l) = 2) lines /\ exists tb', add_table_lines tb lines = Ok tb' /\
     kana_list tb' = kana_list tb ++ map (fun l => default [] (head (table_fields l))) lines).
Proof.
  revert tb; induction lines as [|l ls IH]; intros tb; simpl.
  - right. split; [done|]. exists tb. by rewrite app_nil_r.
  - unfold add_table_line. fold (table_fields l).
    destruct (table_fields l) as [|k [|p [|x r]]] eqn:Ef;
      try (left; split; [by constructor; rewrite Ef|done]).
    destruct (IH (mk_table (kana_list tb ++ [k]) (<[k:=p]> (kana2phone_dict tb))
      (foldl (fun ps p => ps ∪ {[p]}) (phone_set tb) (usplit c_space p))))
      as [[Hex Herr]|[Hall (tb' & Hok & Hk)]].
    + left. split; [by right|done].
    + right. split; [constructor; [cbv beta; by rewrite Ef|done]|]. exists tb'. split; [done|].
      rewrite Hk. simpl. by rewrite <- app_assoc.
Qed.

(** C34: Reading [kana2phone.txt] (lines 247-262) raises [ValueError]
    exactly when some stripped line does not have exactly one [+];
    otherwise [kana_list] is the first fields of the lines in order, and
    the dictionary maps [_] and [NZ] to themselves, and [<], [>] for
    attention. *)
Theorem read_kana2phone_spec model lines :
  (read_kana2phone model lines = Err ValueError <->
     Exists (fun l => length (usplit c_plus (ustrip l)) <> 2) lines) /\
  (forall tb, read_kana2phone model lines = Ok tb ->
     kana_list tb = map (fun l => default [] (head (usplit c_plus (ustrip l)))) lines /\
     kana2phone_dict tb !! u "_" = Some (u "_") /\ kana2phone_dict tb !! u "NZ" = Some (u "NZ") /\
     (model = str "attention" ->
        kana2phone_dict tb !! u "<" = Some (u "<") /\ kana2phone_dict tb !! u ">" = Some (u ">"))).
Proof.
  unfold read_kana2phone.
  destruct (add_table_lines_cases (mk_table [] ∅ ∅) lines) as [[Hex ->]|[Hall (tb & -> & Hk)]].
  - simpl. split; [by split|]. by intros tb.
  - split.
    + split; [intros H; discriminate H|]. intros (l & Hl & Hn)%Exists_exists.
      rewrite Forall_forall in Hall. by destruct (Hn (Hall l Hl)).
    + intros tb' H. case_decide as Hm; apply Ok_inj in H; subst tb'; simpl;
        (split_and!; [exact Hk| | |intros Hm'; try done; split]);
        repeat (rewrite lookup_insert_eq || rewrite lookup_insert_ne by (vm_compute; congruence)); done.
Qed.

(** ** A lecture file

    Utterances 1 and 2 are stacked (a parenthesis opens in 1 and
    closes in 2), utterance 4 is missing from the numbering, and 6 is
    the last. *)

Definition csj_rows : list row :=
  [mk_row 1 0 10 (u "a") (u "A"); mk_row 1 10 20 (u "(b") (u "(B"); mk_row 2 20 30 (u "c)") (u "C)");
   mk_row 3 30 40 (u "d") (u "D"); mk_row 5 50 60 (u "e") (u "E"); mk_row 6 60 70 (u "f") (u "F")].

Definition csj_files : list (pystr * list row) := [(str "/csj/A01M0001.sdb", csj_rows)].

Definition csj_state : state :=
  Eval vm_compute in match read_sdb id (str "ctc") false csj_files with Ok s => s | Err _ => init_state end.

Definition csj_utts : gmap pystr utt := Eval vm_compute in default ∅ (speaker_dict csj_state !! str "A01M0001").

Definition csj_utt (k : string) : utt := default (mk_utt None None [] []) (csj_utts !! str k).

Lemma csj_read : read_sdb id (str "ctc") false csj_files = Ok csj_state.
Proof. vm_compute. reflexivity. Qed.

Lemma csj_speaker : speaker_dict csj_state !! str "A01M0001" = Some csj_utts.
Proof. vm_compute. reflexivity. Qed.

(** On that file [read_sdb] stores three utterances: the stacked
    1-2 under [0002], utterance 3 under [0004], the index of the next
    row minus one, and 5 under [0005]; utterance 6, the last, is not
    stored. *)
Example read_sdb_keys :
  read_sdb id (str "ctc") false csj_files = Ok csj_state /\
  speaker_dict csj_state !! str "A01M0001" = Some csj_utts /\
  dom csj_utts = {[str "0002"; str "0004"; str "0005"]} /\
  u_kana <$> csj_utts !! str "0004" = Some (u "_D_") /\ u_kana <$> csj_utts !! str "0002" = Some (u "_A(BC)_").
Proof. split_and!; [exact csj_read|exact csj_speaker|vm_compute; reflexivity..]. Qed.

Lemma read_sdb_stored_witness :
  is_Some (u_start (csj_utt "0002")) /\ list_to_set (u_kana (csj_utt "0002")) ⊆ char_set csj_state.
Proof.
  destruct (read_sdb_stored id (str "ctc") false csj_files _ _ _ (str "0002") (csj_utt "0002") csj_read
    csj_speaker ltac:(vm_compute; reflexivity)) as (_ & _ & ? & _ & ? & _).
  split; assumption.
Defined.

Lemma read_sdb_labels_witness :
  head (u_kanji (csj_utt "0004")) = Some c_under /\ last (u_kanji (csj_utt "0004")) = Some c_under.
Proof.
  destruct (read_sdb_labels id (str "ctc") false csj_files _ _ _ (str "0004") (csj_utt "0004") csj_read
    csj_speaker ltac:(vm_compute; reflexivity)) as [Hc _].
  destruct (proj1 (Hc eq_refl) _ (or_intror eq_refl)) as (? & ? & _). split; assumption.
Defined.

Definition csj_one_rows : list row := [mk_row 7 0 10 (u "a") (u "A"); mk_row 7 10 20 (u "b") (u "B")].

Definition csj_one_state : state :=
  Eval vm_compute in match read_sdb id (str "attention") true [(str "/csj/S01F0002.sdb", csj_one_rows)] with
                     | Ok s => s | Err _ => init_state end.

Lemma read_sdb_single_utterance_witness :
  speaker_dict csj_one_state !! str "S01F0002" = Some ∅.
Proof.
  apply (read_sdb_single_utterance id (str "attention") true (str "/csj/S01F0002.sdb") csj_one_rows 7).
  - done.
  - repeat constructor.
  - vm_compute. reflexivity.
Defined.

Lemma kanji_list_covers_witness :
  [100%Z] ∈ kanji_list (fun _ => false) (fun _ => false) id (str "ctc") (all_char_set csj_state) [].
Proof.
  apply (kanji_list_covers (fun _ => false) (fun _ => false) id id (str "ctc") false csj_files csj_state
    (str "A01M0001") csj_utts (str "0004") (csj_utt "0004") 100 [] csj_read csj_speaker).
  - vm_compute. reflexivity.
  - apply list_elem_of_In. vm_compute. auto.
  - rewrite !elem_of_cons, elem_of_nil. lia.
  - intros H. vm_compute in H. discriminate H.
  - reflexivity.
  - reflexivity.
Defined.

Lemma read_kana2phone_spec_witness :
  (forall tb, read_kana2phone (str "attention") [u "ab+a b"; u " c+c "] = Ok tb ->
     kana_list tb = [u "ab"; u "c"] /\ kana2phone_dict tb !! u "<" = Some (u "<")) /\
  read_kana2phone (str "ctc") [u "ab+a b"; u "c"] = Err ValueError.
Proof.
  split.
  - intros tb H. destruct (proj2 (read_kana2phone_spec (str "attention") _) tb H) as (Hk & _ & _ & Ha).
    split; [rewrite Hk; vm_compute; reflexivity|]. by apply Ha.
  - apply (proj1 (read_kana2phone_spec (str "ctc") [u "ab+a b"; u "c"])). right. left. vm_compute. lia.
Defined.

End CsjLabels.
