(* ===== verification/Wav2Feature.v ===== *)
(** * Feature extraction: [wav2feature] and [_delta]

    Models src/utils/inputs/wav2feature_python_speech_features.py.  A
    feature matrix is a list of rows of rationals ([mat]), one row per
    frame.  The libraries the module calls are interfaces:
    [FeatureLib] holds [fbank] and [mfcc] of [python_speech_features]
    and [np.log], [AudioIO] holds [scipy.io.wavfile.read] and the [sox]
    command; the classes [FeatureLibLaws], [AudioIOLaws] state the
    shapes and effects the theorems rely on.  The file system is a map
    from paths to file contents, passed along explicitly, so that the
    temporary file [./tmp.wav] of the NIST fallback (lines 44-57) is
    visible.

    Python binds [delta1] (line 41) and [feat] (line 87) only on some
    paths; a local that is read unbound raises [UnboundLocalError],
    here [NameError].  Such a local is an [option]. *)

From Stdlib Require Import QArith Qfield.
From S2P Require Import Prelude.
Local Close Scope Q_scope.
Local Open Scope py_scope.

Module Wav2Feature.

Abbreviation mat := (list (list Q)).
Abbreviation audio := (list Z).
Abbreviation fsys := (gmap pystr (list Z)).

(** ** numpy *)

(** [np.c_[a, b]] of two 2-D arrays: the rows side by side; numpy
    raises [ValueError] when the numbers of rows differ. *)
Definition hstack (a b : mat) : result mat :=
  if decide (length a = length b) then Ok (zip_with app a b) else Err ValueError.

(** A 1-D array as the column [np.c_] makes of it. *)
Definition column (v : list Q) : mat := map (fun q => [q]) v.

(** [np.pad(feat, ((N, N), (0, 0)), mode='edge')]: [N] copies of the
    first row before and of the last row after; numpy cannot extend an
    empty axis in [edge] mode. *)
Definition pad_edge (n : nat) (m : mat) : result mat :=
  match head m, last m with
  | Some r0, Some rl => Ok (replicate n r0 ++ m ++ replicate n rl)
  | _, _ => Err ValueError
  end.

Definition vscale (q : Q) (r : list Q) : list Q := Qmult q <$> r.
Definition vadd (u v : list Q) : list Q := zip_with Qplus u v.

(** [np.dot(w, rows)] of a 1-D array of weights and a 2-D array whose
    rows have [dim] entries: the weighted sum of the rows. *)
Definition weighted_sum (dim : nat) (ws : list Q) (rows : mat) : list Q :=
  foldr (fun wr acc => vadd (vscale wr.1 wr.2) acc) (replicate dim 0%Q) (zip ws rows).

(** [np.arange(-N, N + 1)]. *)
Definition arange_sym (n : nat) : list Q :=
  (fun k => inject_Z (Z.of_nat k - Z.of_nat n)) <$> seq 0 (2 * n + 1).

(** [2 * sum([i**2 for i in range(1, N + 1)])]. *)
Definition denominator (n : nat) : Z := (2 * zsum (map (fun i => Z.of_nat i * Z.of_nat i) (seq 1 n)))%Z.

(** ** [_delta] (lines 105-128) *)

Definition delta (feat : mat) (N : Z) : result mat :=
  if decide (N < 1)%Z then Err ValueError
  else
    let n := Z.to_nat N in
    padded <- pad_edge n feat ;;
    let dim := length (default [] (head feat)) in
    Ok ((fun t => (fun x => x / inject_Z (denominator n))%Q <$>
                    weighted_sum dim (arange_sym n) (take (2 * n + 1) (drop t padded)))
        <$> seq 0 (length feat)).

(** ** The libraries *)

Inductive winfunc := Hamming | Ones.

(** The keyword arguments of [python_speech_features.fbank]. *)
Record fbank_args := mk_fbank_args {
  fb_samplerate : Z;
  fb_winlen : Q;
  fb_winstep : Q;
  fb_nfilt : nat;
  fb_nfft : nat;
  fb_lowfreq : Q;
  fb_highfreq : option Q;
  fb_preemph : Q;
  fb_winfunc : winfunc
}.

(** [fbank(audio, samplerate=fs, nfilt=n)] with the library's defaults
    (lines 71-73). *)
Definition fbank_defaults (fs : Z) (n : nat) : fbank_args :=
  mk_fbank_args fs (1 # 40) (1 # 100) n 512 0 None (97 # 100) Ones.

Class FeatureLib := {
  fbank : audio -> fbank_args -> mat * list Q;
  (** [mfcc(audio, samplerate=fs, numcep=n)], the other arguments at
      their defaults *)
  mfcc : audio -> Z -> nat -> mat;
  np_log : Q -> Q
}.

(** [scipy.io.wavfile.read] raises [ValueError] on a NIST header;
    [subprocess.call(['sox', src, '-t', 'wav', dst])] returns the exit
    code and the new file system. *)
Class AudioIO := {
  wavfile_read : fsys -> pystr -> result (Z * audio);
  sox : fsys -> pystr -> pystr -> Z * fsys
}.

Section Extract.
Context `{!FeatureLib, !AudioIO}.

Definition tmp_path : pystr := str "./tmp.wav".

(** Lines 44-57: read the file; on [ValueError] convert it with [sox]
    into [./tmp.wav], read that, and remove it with [rm].  Other
    exceptions propagate.  The file system is returned in every case. *)
Definition read_audio (fs : fsys) (wav_path : pystr) : result (Z * audio) * fsys :=
  match wavfile_read fs wav_path with
  | Ok x => (Ok x, fs)
  | Err ValueError =>
      let '(code, fs1) := sox fs wav_path tmp_path in
      if decide (code <> 0%Z) then (Err ValueError, fs1)
      else match wavfile_read fs1 tmp_path with
           | Ok x => (Ok x, delete tmp_path fs1)
           | Err e => (Err e, fs1)
           end
  | Err e => (Err e, fs)
  end.

(** A local that may be unbound. *)
Definition get_local {A} (name : string) (x : option A) : result A :=
  match x with Some v => Ok v | None => Err (NameError (str name)) end.

(** Lines 36-42: the feature type and [delta1], bound only when
    [use_delta2 and not use_delta1]. *)
Definition norm_feature_type (feature_type : pystr) : pystr :=
  if decide (feature_type = str "logmelfbank") then str "logfbank" else feature_type.

Definition feature_type_ok (feature_type : pystr) : bool :=
  bool_decide (feature_type ∈ [str "logfbank"; str "fbank"; str "mfcc"]).

Definition delta1_of (use_delta1 use_delta2 : bool) : option bool :=
  if use_delta2 && negb use_delta1 then Some true else None.

(** Lines 59-64: [feature_dim + 1] has no effect; the dimension is
    multiplied before the extraction. *)
Definition scaled_dim (feature_dim : nat) (use_delta2 : bool) (delta1 : option bool) : result nat :=
  if use_delta2 then Ok (feature_dim * 3)
  else b <- get_local "delta1" delta1 ;; Ok (if b then feature_dim * 2 else feature_dim).

(** Lines 66-91: [feat] is unbound after the [fbank] branch when the
    type is [fbank]. *)
Definition extract (feature_type : pystr) (rate : Z) (sig : audio) (feature_dim : nat)
    (use_energy : bool) (window slide : Q) : result (option mat) :=
  if decide (feature_type = str "mfcc") then
    let feat := mfcc sig rate feature_dim in
    if use_energy then f <- hstack feat (column (fbank sig (fbank_defaults rate feature_dim)).2) ;; Ok (Some f)
    else Ok (Some feat)
  else
    let '(fbank_feat, energy_feat) :=
      fbank sig (mk_fbank_args rate window slide feature_dim 512 0 None (97 # 100) Hamming) in
    let feat := if decide (feature_type = str "logfbank") then Some (map (map np_log) fbank_feat) else None in
    if use_energy then f <- get_local "feat" feat ;; f' <- hstack f (column energy_feat) ;; Ok (Some f')
    else Ok feat.

(** Lines 93-102. *)
Definition add_deltas (feat : option mat) (use_delta2 : bool) (delta1 : option bool) : result mat :=
  if use_delta2 then
    f <- get_local "feat" feat ;;
    d1 <- delta f 2 ;;
    d2 <- delta d1 2 ;;
    f1 <- hstack f d1 ;;
    hstack f1 d2
  else
    b <- get_local "delta1" delta1 ;;
    if b then f <- get_local "feat" feat ;; d1 <- delta f 2 ;; hstack f d1
    else get_local "feat" feat.

(** Lines 19-102. *)
Definition wav2feature (fs : fsys) (wav_path feature_type : pystr) (feature_dim : nat)
    (use_energy use_delta1 use_delta2 : bool) (window slide : Q) : result mat * fsys :=
  let feature_type := norm_feature_type feature_type in
  if negb (feature_type_ok feature_type) then (Err ValueError, fs)
  else
    let delta1 := delta1_of use_delta1 use_delta2 in
    let '(r, fs') := read_audio fs wav_path in
    (x <- r ;;
     dim <- scaled_dim feature_dim use_delta2 delta1 ;;
     feat <- extract feature_type x.1 x.2 dim use_energy window slide ;;
     add_deltas feat use_delta2 delta1, fs').

End Extract.

(** * Lemmas *)

(** ** Rows *)

(** A matrix whose rows all have [w] entries. *)
Definition width (w : nat) (m : mat) : Prop := Forall (fun r => length r = w) m.

Lemma length_vadd u v : length u = length v -> length (vadd u v) = length u.
Proof. intros H. unfold vadd. rewrite length_zip_with. lia. Qed.

Lemma length_vscale q v : length (vscale q v) = length v.
Proof. apply length_fmap. Qed.

Lemma weighted_sum_cons dim w ws r rows :
  weighted_sum dim (w :: ws) (r :: rows) = vadd (vscale w r) (weighted_sum dim ws rows).
Proof. done. Qed.

Lemma weighted_sum_nil dim ws rows : ws = [] \/ rows = [] -> weighted_sum dim ws rows = replicate dim 0%Q.
Proof. by intros [-> | ->]; [|destruct ws]. Qed.

Lemma length_weighted_sum dim ws rows : width dim rows -> length (weighted_sum dim ws rows) = dim.
Proof.
  revert rows; induction ws as [|w ws IH]; intros [|r rows] Hw;
    try (rewrite weighted_sum_nil by auto; apply length_replicate).
  inversion Hw; subst. rewrite weighted_sum_cons, length_vadd; rewrite length_vscale; [done|]. by rewrite IH.
Qed.

Lemma hstack_width a b wa wb :
  length a = length b -> width wa a -> width wb b ->
  exists c, hstack a b = Ok c /\ length c = length a /\ width (wa + wb) c.
Proof.
  intros Hl Ha Hb. unfold hstack. rewrite decide_True by done. eexists; split; [done|].
  rewrite length_zip_with. split; [lia|]. revert b Hl Hb.
  induction a as [|r a IH]; intros [|r' b] Hl Hb; simpl in *; [constructor|lia|lia|].
  apply Forall_cons in Ha as [Hr Ha]. apply Forall_cons in Hb as [Hr' Hb].
  apply Forall_cons; split; [rewrite length_app; lia|]. apply IH; [done|lia|done].
Qed.

Lemma column_width v : length (column v) = length v /\ width 1 (column v).
Proof.
  unfold column, width. rewrite length_map. split; [done|].
  induction v; simpl; constructor; auto.
Qed.

Lemma pad_edge_Ok n m :
  m <> [] -> exists r0 rl, pad_edge n m = Ok (replicate n r0 ++ m ++ replicate n rl) /\ r0 ∈ m /\ rl ∈ m.
Proof.
  intros Hm. unfold pad_edge. destruct (head m) as [r0|] eqn:E0; [|by apply head_None in E0].
  destruct (last m) as [rl|] eqn:El; [|by apply last_None in El].
  exists r0, rl. split; [done|]. split; [by apply head_Some_elem_of|by apply last_Some_elem_of].
Qed.

Lemma width_take_drop w k t m : width w m -> width w (take k (drop t m)).
Proof. intros H. by apply Forall_take, Forall_drop. Qed.

(** [_delta] raises [ValueError] when [N < 1] or the matrix has
    no row (numpy cannot pad an empty axis in [edge] mode); otherwise
    it returns a matrix of the same shape: one row per frame, as many
    entries per row as the input. *)
Theorem delta_shape feat N w :
  width w feat ->
  ((N < 1)%Z \/ feat = [] -> delta feat N = Err ValueError) /\
  ((1 <= N)%Z -> feat <> [] ->
     exists d, delta feat N = Ok d /\ length d = length feat /\ width w d).
Proof.
  intros Hw. unfold delta. split.
  - intros [HN| ->]; [by rewrite decide_True|]. case_decide; done.
  - intros HN Hne. rewrite decide_False by lia.
    destruct (pad_edge_Ok (Z.to_nat N) feat Hne) as (r0 & rl & -> & H0 & Hl).
    eexists; split; [done|]. rewrite length_fmap, length_seq. split; [done|].
    assert (Hd : length (default [] (head feat)) = w) by (destruct feat; [done|by inversion Hw]).
    rewrite Hd. unfold width in *. apply Forall_fmap, Forall_forall. intros t _. unfold compose.
    rewrite length_fmap, length_weighted_sum; [done|]. apply width_take_drop.
    rewrite Forall_forall in Hw. apply Forall_app_2; [|apply Forall_app_2; [by apply Forall_forall|]];
      apply Forall_replicate; auto.
Qed.

(** ** [wav2feature] *)

(** [nfilt] of [mfcc], left at its default: [mfcc] computes [fbank]
    with 26 filters and keeps [dct(...)[:, :numcep]] of it. *)
Definition mfcc_nfilt : nat := 26.

(** What the theorems need of [python_speech_features]: the number of
    frames depends on the signal, the rate, the window and the step;
    [fbank] gives a row of [nfilt] entries and one energy per frame,
    [mfcc] (window 0.025, step 0.01) a row of [min(numcep, 26)] entries:
    the cepstra of 26 filter outputs, of which the slice [[:, :numcep]]
    keeps at most 26. *)
Class FeatureLibLaws `{!FeatureLib} := {
  num_frames : audio -> Z -> Q -> Q -> nat;
  fbank_frames sig a :
    length (fbank sig a).1 = num_frames sig (fb_samplerate a) (fb_winlen a) (fb_winstep a) /\
    length (fbank sig a).2 = num_frames sig (fb_samplerate a) (fb_winlen a) (fb_winstep a);
  fbank_width sig a : width (fb_nfilt a) (fbank sig a).1;
  mfcc_frames sig rate n : length (mfcc sig rate n) = num_frames sig rate (1 # 40) (1 # 100);
  mfcc_width sig rate n : width (Nat.min n mfcc_nfilt) (mfcc sig rate n)
}.

Section Shape.
Context `{!FeatureLib, !AudioIO}.

Lemma width_map_log w m : width w m -> width w (map (map np_log) m).
Proof. unfold width. intros Hw. induction Hw; simpl; constructor; [by rewrite length_map|done]. Qed.

(** The width a frame has after [extract]. *)
Definition extract_frames `{!FeatureLibLaws} (feature_type : pystr) (rate : Z) (sig : audio) (window slide : Q) : nat :=
  if decide (feature_type = str "mfcc") then num_frames sig rate (1 # 40) (1 # 100)
  else num_frames sig rate window slide.

(** The number of features per frame [extract] gives before the energy. *)
Definition extract_width (feature_type : pystr) (dim : nat) : nat :=
  if decide (feature_type = str "mfcc") then Nat.min dim mfcc_nfilt else dim.

Lemma extract_shape `{!FeatureLibLaws} feature_type rate sig dim (use_energy : bool) window slide :
  feature_type ∈ [str "logfbank"; str "mfcc"] ->
  exists f, extract feature_type rate sig dim use_energy window slide = Ok (Some f) /\
    length f = extract_frames feature_type rate sig window slide /\
    width (extract_width feature_type dim + if use_energy then 1 else 0) f.
Proof.
  intros Hft. unfold extract, extract_frames, extract_width. case_decide as Hm.
  - pose proof (fbank_frames sig (fbank_defaults rate dim)) as [_ He].
    destruct use_energy.
    + destruct (column_width (fbank sig (fbank_defaults rate dim)).2) as [Hc Hcw].
      destruct (hstack_width (mfcc sig rate dim) (column (fbank sig (fbank_defaults rate dim)).2) _ 1
        ltac:(by rewrite mfcc_frames, Hc, He) (mfcc_width sig rate dim) Hcw)
        as (c & -> & Hl & Hw). exists c. by rewrite Hl, mfcc_frames.
    + exists (mfcc sig rate dim). rewrite Nat.add_0_r. split_and!; [done|apply mfcc_frames|apply mfcc_width].
  - assert (feature_type = str "logfbank") as -> by (rewrite !elem_of_cons, elem_of_nil in Hft; tauto).
    pose proof (fbank_frames sig (mk_fbank_args rate window slide dim 512 0 None (97 # 100) Hamming)) as [Hf He].
    pose proof (fbank_width sig (mk_fbank_args rate window slide dim 512 0 None (97 # 100) Hamming)) as Hw.
    destruct (fbank sig _) as [fb en]. simpl in *.
    destruct use_energy; simpl.
    + destruct (column_width en) as [Hc Hcw].
      destruct (hstack_width (map (map np_log) fb) _ dim 1 ltac:(by rewrite length_map, Hc, Hf, He)
        (width_map_log _ _ Hw) Hcw) as (c & -> & Hl & Hcw').
      exists c. rewrite Hl, length_map. auto.
    + eexists. rewrite Nat.add_0_r, length_map. split_and!; [done|done|by apply width_map_log].
Qed.

Lemma add_deltas_shape f w delta1 :
  f <> [] -> width w f ->
  exists out, add_deltas (Some f) true delta1 = Ok out /\ length out = length f /\ width (3 * w) out.
Proof.
  intros Hne Hw. unfold add_deltas. simpl.
  destruct (proj2 (delta_shape f 2 w Hw) ltac:(lia) Hne) as (d1 & -> & Hl1 & Hw1).
  assert (Hd1 : d1 <> []) by (intros ->; destruct f; done).
  destruct (proj2 (delta_shape d1 2 w Hw1) ltac:(lia) Hd1) as (d2 & -> & Hl2 & Hw2).
  destruct (hstack_width f d1 w w ltac:(done) Hw Hw1) as (f1 & -> & Hf1 & Hw3).
  destruct (hstack_width f1 d2 (w + w) w ltac:(lia) Hw3 Hw2) as (f2 & -> & Hf2 & Hw4).
  exists f2. split_and!; [done|lia|]. by replace (w + (w + (w + 0))) with (w + w + w) by lia.
Qed.

(** C13: With [use_delta2] and the type [logfbank] ([logmelfbank]) or
    [mfcc], a signal that has frames gives one row per frame of
    [3 * (w + e)] features, [e] being 1 with the energy: [feature_dim]
    is tripled before the extraction (line 62), and the two deltas
    triple the width again; [feature_dim + 1] (line 60) adds nothing.
    [w] is [3 * feature_dim] for [logfbank]; for [mfcc], which is asked
    for [numcep = 3 * feature_dim] cepstra of its 26 filters, [w] is
    [min(3 * feature_dim, 26)]. *)
Theorem wav2feature_shape `{!FeatureLibLaws} fs wav_path feature_type feature_dim use_energy use_delta1
    window slide rate sig fs' :
  norm_feature_type feature_type ∈ [str "logfbank"; str "mfcc"] ->
  read_audio fs wav_path = (Ok (rate, sig), fs') ->
  0 < extract_frames (norm_feature_type feature_type) rate sig window slide ->
  exists feat,
    wav2feature fs wav_path feature_type feature_dim use_energy use_delta1 true window slide = (Ok feat, fs') /\
    length feat = extract_frames (norm_feature_type feature_type) rate sig window slide /\
    width (3 * (extract_width (norm_feature_type feature_type) (3 * feature_dim) + if use_energy then 1 else 0)) feat.
Proof.
  intros Hft Hread Hpos. unfold wav2feature.
  assert (Hok : feature_type_ok (norm_feature_type feature_type) = true)
    by (apply bool_decide_eq_true; rewrite !elem_of_cons, elem_of_nil in *; tauto).
  rewrite Hok. cbn -[add_deltas extract Nat.mul]. rewrite Hread. cbn -[add_deltas extract Nat.mul].
  destruct (extract_shape _ rate sig (feature_dim * 3) use_energy window slide Hft) as (f & -> & Hl & Hw).
  cbn -[add_deltas Nat.mul]. destruct (add_deltas_shape f _ (delta1_of use_delta1 true) ltac:(by intros ->; simpl in Hl; lia) Hw)
    as (out & -> & Hout & Hwout).
  exists out. split_and!; [done|lia|]. by replace (3 * feature_dim) with (feature_dim * 3) by lia.
Qed.

(** C35: The exceptions of [wav2feature], path by path.  An unknown
    type raises [ValueError] before the file is read (line 39); an
    exception of the reading ([read_audio]) is raised as it is; after a
    successful read, without [use_delta2] the read of [delta1] at line
    63 raises [NameError] (it is bound at line 41 only when [use_delta2]
    holds), and with [use_delta2] the type [fbank] raises [NameError] on
    [feat] (bound at line 87 only for [logfbank]). *)
Theorem wav2feature_errors fs wav_path feature_type feature_dim use_energy use_delta1 use_delta2 window slide :
  (feature_type_ok (norm_feature_type feature_type) = false ->
     wav2feature fs wav_path feature_type feature_dim use_energy use_delta1 use_delta2 window slide =
       (Err ValueError, fs)) /\
  (feature_type_ok (norm_feature_type feature_type) = true ->
     forall e fs', read_audio fs wav_path = (Err e, fs') ->
     wav2feature fs wav_path feature_type feature_dim use_energy use_delta1 use_delta2 window slide = (Err e, fs')) /\
  (feature_type_ok (norm_feature_type feature_type) = true ->
     forall rate sig fs', read_audio fs wav_path = (Ok (rate, sig), fs') ->
     (use_delta2 = false ->
        wav2feature fs wav_path feature_type feature_dim use_energy use_delta1 use_delta2 window slide =
          (Err (NameError (str "delta1")), fs')) /\
     (use_delta2 = true -> norm_feature_type feature_type = str "fbank" ->
        wav2feature fs wav_path feature_type feature_dim use_energy use_delta1 use_delta2 window slide =
          (Err (NameError (str "feat")), fs'))).
Proof.
  unfold wav2feature. split; [intros ->; done|]. split.
  - intros -> e fs' Hr. simpl. by rewrite Hr.
  - intros -> rate sig fs' Hr. simpl. rewrite Hr. simpl. split.
    + intros ->. by destruct use_delta1.
    + intros -> ->. unfold extract. simpl.
      destruct (fbank sig _). destruct use_energy; done.
Qed.

End Shape.

(** ** The NIST fallback *)

(** What the theorem needs of [sox]: when it exits with 0 it has
    written the output file. *)
Class AudioIOLaws `{!AudioIO} := {
  sox_writes fs src dst : (sox fs src dst).1 = 0%Z -> is_Some ((sox fs src dst).2 !! dst)
}.

Section Fallback.
Context `{!AudioIO}.

(** [read_audio] changes the file system only through
    [./tmp.wav]: a direct read leaves it as it was; after a conversion
    by [sox] a successful read removes [./tmp.wav], also a file of that
    name that was there before, and a failed read of the converted
    file leaves [./tmp.wav] behind (line 57 is not reached). *)
Theorem read_audio_tmp `{!AudioIOLaws} fs wav_path r fs' :
  read_audio fs wav_path = (r, fs') ->
  (is_Ok r -> (exists x, wavfile_read fs wav_path = Ok x) -> fs' = fs) /\
  (wavfile_read fs wav_path = Err ValueError -> (is_Ok r -> fs' !! tmp_path = None) /\
     ((sox fs wav_path tmp_path).1 = 0%Z -> ~ is_Ok r -> is_Some (fs' !! tmp_path))).
Proof.
  unfold read_audio. intros Hra. split.
  - intros _ [x Hx]. rewrite Hx in Hra. by injection Hra as _ <-.
  - intros Hv. rewrite Hv in Hra. pose proof (sox_writes fs wav_path tmp_path) as Hw.
    destruct (sox fs wav_path tmp_path) as [code fs1]. simpl in Hw.
    case_decide as Hc.
    + injection Hra as <- <-. split; [by intros [? ?]|]. intros Hc1. simpl in Hc1. lia.
    + destruct (wavfile_read fs1 tmp_path) as [x|e]; injection Hra as <- <-.
      * split; [intros _; apply lookup_delete_eq|]. intros _ Hn. by destruct Hn; exists x.
      * split; [by intros [? ?]|]. intros Hc0 _. by apply Hw.
Qed.

End Fallback.

(** ** [_delta] on a ramp *)

Definition Q_of (k : nat) : Q := inject_Z (Z.of_nat k).

(** Entry [i] of a row, [0] out of range. *)
Definition vnth (i : nat) (v : list Q) : Q := default 0%Q (v !! i).

Definition qsum (l : list Q) : Q := foldr Qplus 0%Q l.

(** Frames that grow linearly: frame [j] is [a + j * b]. *)
Definition ramp_row (a b : list Q) (j : nat) : list Q := vadd a (vscale (Q_of j) b).

Definition ramp (a b : list Q) (T : nat) : mat := ramp_row a b <$> seq 0 T.

Lemma vnth_vadd i u v : length u = length v -> (vnth i (vadd u v) == vnth i u + vnth i v)%Q.
Proof.
  intros Hl. unfold vnth, vadd. rewrite lookup_zip_with.
  destruct (u !! i) eqn:Eu, (v !! i) eqn:Ev; simpl; try reflexivity;
    apply lookup_ge_None in Eu || apply lookup_ge_None in Ev;
    apply lookup_lt_Some in Eu || apply lookup_lt_Some in Ev; lia.
Qed.

Lemma vnth_vscale i q v : (vnth i (vscale q v) == q * vnth i v)%Q.
Proof. unfold vnth, vscale. rewrite list_lookup_fmap. destruct (v !! i); simpl; ring. Qed.

Lemma vnth_replicate_0 i dim : (vnth i (replicate dim 0%Q) == 0)%Q.
Proof.
  unfold vnth. destruct (decide (i < dim)).
  - by rewrite lookup_replicate_2.
  - rewrite lookup_ge_None_2; [reflexivity|]. rewrite length_replicate. lia.
Qed.

Lemma vnth_weighted_sum i dim ws rows :
  length ws = length rows -> width dim rows ->
  (vnth i (weighted_sum dim ws rows) == qsum (zip_with (fun w r => w * vnth i r) ws rows))%Q.
Proof.
  revert rows; induction ws as [|w ws IH]; intros [|r rows] Hl Hw; simpl in Hl; try lia;
    [by rewrite weighted_sum_nil, vnth_replicate_0 by auto|].
  apply Forall_cons in Hw as [Hr Hw].
  rewrite weighted_sum_cons, vnth_vadd, vnth_vscale, IH by (lia || done || by rewrite length_vscale, length_weighted_sum).
  reflexivity.
Qed.

Lemma zip_with_fmap_same {A B C D} (f : B -> C -> D) (g : A -> B) (h : A -> C) l :
  zip_with f (g <$> l) (h <$> l) = (fun x => f (g x) (h x)) <$> l.
Proof. induction l as [|x l IH]; [done|]. rewrite !fmap_cons. simpl. by rewrite IH. Qed.

Lemma qsum_ext {A} (f g : A -> Q) l : (forall x, (f x == g x)%Q) -> (qsum (f <$> l) == qsum (g <$> l))%Q.
Proof.
  intros H. unfold qsum. induction l as [|x l IH]; rewrite ?fmap_nil, ?fmap_cons; cbn [foldr]; [reflexivity|].
  by rewrite H, IH.
Qed.

(** A sum of integer weights times affine terms. *)
Lemma qsum_affine (w : nat -> Z) (c b : Q) l :
  (qsum ((fun k => inject_Z (w k) * (c + Q_of k * b)) <$> l) ==
   c * inject_Z (zsum (w <$> l)) + b * inject_Z (zsum ((fun k => w k * Z.of_nat k)%Z <$> l)))%Q.
Proof.
  unfold qsum, zsum. induction l as [|k l IH]; rewrite ?fmap_nil, ?fmap_cons; cbn [foldr]; [ring|].
  rewrite IH, !inject_Z_plus, inject_Z_mult. unfold Q_of. ring.
Qed.

Lemma zsum_weights m c :
  (2 * zsum ((fun k => Z.of_nat k - c) <$> seq 0 m) = Z.of_nat m * (Z.of_nat m - 1) - 2 * c * Z.of_nat m)%Z /\
  (6 * zsum ((fun k => (Z.of_nat k - c) * Z.of_nat k) <$> seq 0 m) =
     (Z.of_nat m - 1) * Z.of_nat m * (2 * Z.of_nat m - 1) - 3 * c * Z.of_nat m * (Z.of_nat m - 1))%Z.
Proof.
  induction m as [|m [IH1 IH2]]; [simpl; lia|].
  rewrite seq_S, !fmap_app, !zsum_app. simpl. lia.
Qed.

Lemma denominator_eq n : (6 * denominator n = 2 * Z.of_nat n * (Z.of_nat n + 1) * (2 * Z.of_nat n + 1))%Z.
Proof.
  unfold denominator. induction n as [|n IH]; [done|].
  rewrite seq_S, map_app, zsum_app. simpl in *. lia.
Qed.

Lemma ramp_slice a b T n t r0 rl :
  n <= t -> t + n < T ->
  take (2 * n + 1) (drop t (replicate n r0 ++ ramp a b T ++ replicate n rl)) =
  (fun k => ramp_row a b (t - n + k)) <$> seq 0 (2 * n + 1).
Proof.
  intros H1 H2. assert (Hl : length (ramp a b T) = T) by (unfold ramp; by rewrite length_fmap, length_seq).
  apply list_eq. intros k. rewrite lookup_take, lookup_drop. case_decide.
  - rewrite lookup_app_r, length_replicate, lookup_app_l by (rewrite ?length_replicate; lia).
    unfold ramp. rewrite !list_lookup_fmap, !lookup_seq_lt by lia. simpl. do 3 f_equal. lia.
  - by rewrite list_lookup_fmap, lookup_seq_ge by lia.
Qed.

Lemma length_ramp_row a b j : length a = length b -> length (ramp_row a b j) = length a.
Proof. intros H. unfold ramp_row. by rewrite length_vadd; rewrite ?length_vscale. Qed.

Lemma vnth_ramp_row i a b j :
  length a = length b -> (vnth i (ramp_row a b j) == vnth i a + Q_of j * vnth i b)%Q.
Proof. intros H. unfold ramp_row. rewrite vnth_vadd, vnth_vscale by (by rewrite length_vscale). reflexivity. Qed.

Lemma Forall2_vnth u v :
  length u = length v -> (forall i, i < length u -> (vnth i u == vnth i v)%Q) -> Forall2 Qeq u v.
Proof.
  revert v; induction u as [|x u IH]; intros [|y v] Hl H; simpl in Hl; try lia; constructor.
  - apply (H 0). simpl. lia.
  - apply IH; [lia|]. intros i Hi. apply (H (S i)). simpl. lia.
Qed.

Lemma vnth_div i v q : i < length v -> (vnth i ((fun x => x / q)%Q <$> v) == vnth i v / q)%Q.
Proof.
  intros Hi. unfold vnth. rewrite list_lookup_fmap.
  destruct (lookup_lt_is_Some_2 v i Hi) as [x ->]. reflexivity.
Qed.

(** The weighted sum of [_delta] over [2N + 1] frames of a ramp. *)
Lemma delta_ramp_entry a b n t i :
  length a = length b -> 1 <= n -> n <= t -> i < length a ->
  (vnth i (weighted_sum (length a) (arange_sym n) ((fun k => ramp_row a b (t - n + k)) <$> seq 0 (2 * n + 1)))
     == inject_Z (denominator n) * vnth i b)%Q.
Proof.
  intros Hl Hn Ht Hi.
  rewrite vnth_weighted_sum.
  2:{ unfold arange_sym. by rewrite !length_fmap. }
  2:{ unfold width. apply Forall_fmap, Forall_forall. intros k _. by apply length_ramp_row. }
  unfold arange_sym. rewrite zip_with_fmap_same.
  rewrite (qsum_ext _ (fun k => inject_Z (Z.of_nat k - Z.of_nat n) *
                                 ((vnth i a + Q_of (t - n) * vnth i b) + Q_of k * vnth i b))%Q).
  2:{ intros k. simpl. rewrite vnth_ramp_row by done. unfold Q_of. rewrite Nat2Z.inj_add, inject_Z_plus. ring. }
  rewrite qsum_affine.
  destruct (zsum_weights (2 * n + 1) (Z.of_nat n)) as [H0 H1]. pose proof (denominator_eq n) as Hd.
  assert (E0 : zsum ((fun k => Z.of_nat k - Z.of_nat n)%Z <$> seq 0 (2 * n + 1)) = 0%Z) by lia.
  assert (E1 : zsum ((fun k => (Z.of_nat k - Z.of_nat n) * Z.of_nat k)%Z <$> seq 0 (2 * n + 1)) = denominator n)
    by nia.
  rewrite E0, E1. ring.
Qed.

(** C14: On frames that grow linearly, [a + j * b] for frame [j],
    [_delta] gives the slope [b] at every frame [t] with [N] frames on
    each side: the edge padding only changes the first and last [N]
    rows. *)
Theorem delta_ramp a b T N :
  length a = length b -> (1 <= N)%Z -> 0 < T ->
  exists d, delta (ramp a b T) N = Ok d /\
    forall t, Z.to_nat N <= t -> t + Z.to_nat N < T -> exists dt, d !! t = Some dt /\ Forall2 Qeq dt b.
Proof.
  intros Hl HN HT. unfold delta. rewrite decide_False by lia.
  assert (Hne : ramp a b T <> []) by (unfold ramp; destruct T; [lia|done]).
  destruct (pad_edge_Ok (Z.to_nat N) _ Hne) as (r0 & rl & -> & _ & _).
  eexists; split; [done|]. intros t Ht1 Ht2.
  assert (Hlen : length (ramp a b T) = T) by (unfold ramp; by rewrite length_fmap, length_seq).
  rewrite list_lookup_fmap, lookup_seq_lt by lia. eexists; split; [done|].
  assert (Hdim : length (default [] (head (ramp a b T))) = length a)
    by (unfold ramp; destruct T; [lia|]; simpl; by apply length_ramp_row).
  rewrite Hdim, ramp_slice by lia.
  pose proof (denominator_eq (Z.to_nat N)) as Hd.
  assert (Hden : ~ (inject_Z (denominator (Z.to_nat N)) == 0)%Q).
  { intros H0. unfold Qeq in H0. simpl in H0. rewrite Z2Nat.id in Hd by lia. nia. }
  apply Forall2_vnth.
  - rewrite length_fmap, length_weighted_sum; [lia|]. unfold width. apply Forall_fmap, Forall_forall.
    intros k _. by apply length_ramp_row.
  - intros i Hi. rewrite length_fmap, length_weighted_sum in Hi.
    2:{ unfold width. apply Forall_fmap, Forall_forall. intros k _. by apply length_ramp_row. }
    rewrite vnth_div, delta_ramp_entry by (lia || (rewrite length_weighted_sum; [lia|]; unfold width;
      apply Forall_fmap, Forall_forall; intros k _; by apply length_ramp_row)).
    field. done.
Qed.

(** ** Witnesses

    A library whose [fbank] gives one row of ones per sample, and a
    file system where a file starting with [N] is a NIST file that
    [sox] converts. *)

#[local] Instance test_lib : FeatureLib := {|
  fbank sig args := (replicate (length sig) (replicate (fb_nfilt args) 1%Q), replicate (length sig) 1%Q);
  mfcc sig rate n := replicate (length sig) (replicate (Nat.min n 26) 0%Q);
  np_log q := q
|}.

#[local] Instance test_lib_laws : FeatureLibLaws.
Proof.
  refine {| num_frames sig _ _ _ := length sig |};
    intros; simpl; rewrite ?length_replicate; try done; apply Forall_replicate; by rewrite length_replicate.
Defined.

#[local] Instance test_io : AudioIO := {|
  wavfile_read fs p :=
    match fs !! p with
    | Some (78%Z :: _) => Err ValueError
    | Some bytes => Ok (16000%Z, bytes)
    | None => Err (KeyError p)
    end;
  sox fs src dst :=
    match fs !! src with
    | Some (78%Z :: bytes) => (0%Z, <[dst := bytes]> fs)
    | _ => (1%Z, fs)
    end
|}.

#[local] Instance test_io_laws : AudioIOLaws.
Proof.
  constructor. intros fs src dst. simpl.
  repeat case_match; simpl; intros Hc; try discriminate Hc; rewrite lookup_insert_eq; by eexists.
Qed.

Definition test_fs : fsys := {[ str "a.wav" := [1; 2; 3]%Z ]}.

Lemma delta_shape_witness :
  exists d, delta [[0]; [1]; [4]]%Q 2 = Ok d /\ length d = 3 /\ width 1 d.
Proof.
  destruct (delta_shape [[0]; [1]; [4]]%Q 2 1 ltac:(repeat constructor)) as [_ H].
  exact (H ltac:(lia) ltac:(discriminate)).
Defined.

Lemma wav2feature_shape_witness :
  exists feat, wav2feature test_fs (str "a.wav") (str "mfcc") 10 true false true (1 # 40) (1 # 100) =
    (Ok feat, test_fs) /\
    length feat = extract_frames (norm_feature_type (str "mfcc")) 16000 [1; 2; 3]%Z (1 # 40) (1 # 100) /\
    width (3 * (extract_width (norm_feature_type (str "mfcc")) (3 * 10) + 1)) feat.
Proof.
  apply (wav2feature_shape test_fs (str "a.wav") (str "mfcc") 10 true false (1 # 40) (1 # 100)
    16000 [1; 2; 3]%Z test_fs).
  - vm_compute. right. left.
  - vm_compute. reflexivity.
  - vm_compute. lia.
Defined.

Lemma wav2feature_errors_witness :
  feature_type_ok (norm_feature_type (str "fbank")) = true /\
  read_audio test_fs (str "a.wav") = (Ok (16000%Z, [1; 2; 3]%Z), test_fs) /\
  wav2feature test_fs (str "a.wav") (str "fbank") 2 false false true (1 # 40) (1 # 100) =
    (Err (NameError (str "feat")), test_fs).
Proof.
  assert (Hok : feature_type_ok (norm_feature_type (str "fbank")) = true) by (vm_compute; reflexivity).
  assert (Hr : read_audio test_fs (str "a.wav") = (Ok (16000%Z, [1; 2; 3]%Z), test_fs)) by (vm_compute; reflexivity).
  split_and!; [exact Hok|exact Hr|].
  exact (proj2 (proj2 (proj2 (wav2feature_errors test_fs (str "a.wav") (str "fbank") 2 false false true
    (1 # 40) (1 # 100))) Hok _ _ _ Hr) eq_refl eq_refl).
Defined.

(** A NIST file next to a [./tmp.wav] of the user's. *)
Definition nist_fs : fsys := <[str "b.sph" := [78; 5]%Z]> {[ tmp_path := [9]%Z ]}.

Definition nist_after : fsys := Eval vm_compute in (read_audio nist_fs (str "b.sph")).2.

Lemma read_audio_tmp_witness : nist_fs !! tmp_path = Some [9%Z] /\ nist_after !! tmp_path = None.
Proof.
  split; [vm_compute; reflexivity|].
  assert (Hr : read_audio nist_fs (str "b.sph") = (Ok (16000%Z, [5%Z]), nist_after)) by (vm_compute; reflexivity).
  assert (Hv : wavfile_read nist_fs (str "b.sph") = Err ValueError) by (vm_compute; reflexivity).
  apply (proj1 (proj2 (read_audio_tmp nist_fs (str "b.sph") _ _ Hr) Hv)).
  eexists. reflexivity.
Defined.

Lemma delta_ramp_witness :
  exists d, delta (ramp [0%Q] [1%Q] 6) 2 = Ok d /\
    forall t, Z.to_nat 2 <= t -> t + Z.to_nat 2 < 6 -> exists dt, d !! t = Some dt /\ Forall2 Qeq dt [1%Q].
Proof. exact (delta_ramp [0%Q] [1%Q] 6 2 eq_refl ltac:(lia) ltac:(lia)). Defined.

End Wav2Feature.
