(* ===== verification/CsjRefine.v ===== *)
(** * CSJ transcripts: the row loop refines an utterance-level reading

    [read_sdb] (src/csj/labels/character.py, lines 108-244) reads a
    lecture row by row.  Read at the level of utterances, a lecture is a
    list of groups: an utterance index and its rows.  When neighbouring
    groups have different indices and the parentheses of each group but
    the last balance, the row loop of [CsjLabels] stores exactly what
    [spec_dict] says: every group but the last, cleaned, under the index
    of the following group minus one, unless it is silence or noise only.
    The theorem [read_file_refines] is stated on [CsjLabels.read_file]. *)

From S2P Require Import Prelude OsPath CsjLabels.
Local Open Scope py_scope.

Module CsjRefine.
Import CsjLabels.

Section Spec.
Variable fix_transcript : ustr -> ustr.
Variable model : pystr.
Variable divide_by_space : bool.

(** An utterance of a lecture: its index and its rows. *)
Definition group : Type := Z * list row.

(** The kana and kanji text the rows of an utterance stack up to. *)
Definition group_text (rows : list row) : ustr * ustr :=
  foldl (fun acc r => stack_word divide_by_space acc.1 acc.2 r) ([], []) rows.

(** The key of an utterance, from the index [next] of the utterance
    that follows it. *)
Definition group_key (next : Z) : pystr := py_zfill 4 (py_str_Z (next - 1)).

Definition group_utt (rows : list row) : utt :=
  mk_utt (start_frame <$> head rows) (end_frame <$> last rows)
    (clean fix_transcript model (group_text rows).1) (clean fix_transcript model (group_text rows).2).

(** The utterance-level reading: each group that a group follows is
    stored, unless skipped; the last group is not. *)
Fixpoint spec_dict (d : gmap pystr utt) (gs : list group) : gmap pystr utt :=
  match gs with
  | g :: ((g' :: _) as rest) =>
      let v := group_utt g.2 in
      spec_dict (if skip_utt model (u_kana v) then d else <[group_key g'.1 := v]> d) rest
  | _ => d
  end.

(** Well-formed groups: rows of one index; neighbours differ; all but
    the last balance. *)
Definition group_ok (g : group) : Prop := g.2 <> [] /\ Forall (fun r => utt_index r = g.1) g.2.

Fixpoint chain_ok (gs : list group) : Prop :=
  match gs with
  | g :: ((g' :: _) as rest) =>
      g.1 <> g'.1 /\ balanced (group_text g.2).1 = true /\ balanced (group_text g.2).2 = true /\ chain_ok rest
  | _ => True
  end.

(** The state of the row loop at the end of a group. *)
Definition at_group (d : gmap pystr utt) (g : group) (st : state) : Prop :=
  utterance_dict st = d /\ trans_kana st = (group_text g.2).1 /\ trans_kanji st = (group_text g.2).2 /\
  utt_index_pre st = g.1 /\ start_frame_pre st = start_frame <$> head g.2 /\
  end_frame_pre st = end_frame <$> last g.2.

End Spec.

(** * Lemmas *)

Section Refine.
Variable fix_transcript : ustr -> ustr.
Variable model : pystr.
Variable divide_by_space : bool.

#[local] Abbreviation step := (CsjLabels.step fix_transcript model divide_by_space).
#[local] Abbreviation stacked := (fun acc r => stack_word divide_by_space acc.1 acc.2 r).

(** The storing half of [flush]: the text read so far, cleaned, is kept
    under [group_key] of the row that ends it unless it is skipped.  The
    lemmas below assume it; the refinement theorem discharges it from
    the definition of [flush]. *)
Definition flush_stores : Prop :=
  forall st r, utterance_dict (flush fix_transcript model divide_by_space st r) =
    (if skip_utt model (clean fix_transcript model (trans_kana st)) then utterance_dict st
     else <[group_key (utt_index r) :=
             mk_utt (start_frame_pre st) (end_frame_pre st) (clean fix_transcript model (trans_kana st))
               (clean fix_transcript model (trans_kanji st))]> (utterance_dict st)).

Hypothesis Hstore : flush_stores.

Lemma set_frames_some st r :
  is_Some (start_frame_pre st) -> is_Some (end_frame_pre st) -> set_frames st r = st.
Proof. destruct st; simpl. intros [x ->] [y ->]. reflexivity. Qed.

Lemma step_stack st r :
  utt_index r = utt_index_pre st -> is_Some (start_frame_pre st) -> is_Some (end_frame_pre st) ->
  step st r = stack divide_by_space st r.
Proof. intros Hi Hs He. unfold CsjLabels.step. rewrite set_frames_some by done. by rewrite decide_True. Qed.

(** Rows with the index of the utterance being read are stacked. *)
Lemma stack_rows st rows i :
  utt_index_pre st = i -> is_Some (start_frame_pre st) -> is_Some (end_frame_pre st) ->
  Forall (fun r => utt_index r = i) rows ->
  let st' := foldl step st rows in
  utterance_dict st' = utterance_dict st /\
  (trans_kana st', trans_kanji st') = foldl stacked (trans_kana st, trans_kanji st) rows /\
  utt_index_pre st' = i /\ start_frame_pre st' = start_frame_pre st /\
  end_frame_pre st' = match last rows with Some r => Some (end_frame r) | None => end_frame_pre st end.
Proof.
  revert st; induction rows as [|r rows IH]; intros st Hi Hs He Hrows; simpl; [done|].
  apply Forall_cons in Hrows as [Hr Hrows].
  rewrite step_stack by congruence. unfold stack. destruct (stack_word _ _ _ r) as [k j] eqn:Ek.
  destruct (IH {| utt_index_pre := utt_index r; start_frame_pre := start_frame_pre st;
                  end_frame_pre := Some (end_frame r); trans_kana := k; trans_kanji := j;
                  utterance_dict := utterance_dict st; speaker_dict := speaker_dict st;
                  char_set := char_set st; all_char_set := all_char_set st |})
    as (Hd & Ht & Hp & Hs' & He'); simpl; try done.
  simpl in Hd, Ht, Hp, Hs', He'. split_and!; try done.
  rewrite He'. destruct rows as [|r' rows]; [reflexivity|]. rewrite last_cons_cons.
  destruct (last (r' :: rows)) eqn:El; [reflexivity|by apply last_None in El].
Qed.

Lemma group_text_cons r rows :
  group_text divide_by_space (r :: rows) = foldl stacked (first_word divide_by_space r) rows.
Proof. done. Qed.

Lemma flush_fields st r :
  let st' := flush fix_transcript model divide_by_space st r in
  (trans_kana st', trans_kanji st') = first_word divide_by_space r /\
  utt_index_pre st' = utt_index r /\ start_frame_pre st' = Some (start_frame r) /\
  end_frame_pre st' = Some (end_frame r).
Proof. unfold flush. destruct (skip_utt _ _); destruct (first_word _ r); simpl; auto. Qed.

Lemma end_after r rows :
  match last rows with Some r' => Some (end_frame r') | None => Some (end_frame r) end = end_frame <$> last (r :: rows).
Proof.
  destruct rows as [|r' rows]; [done|]. rewrite last_cons_cons.
  destruct (last (r' :: rows)) eqn:El; [done|by apply last_None in El].
Qed.

(** After the first row of an utterance: its word is the stacked text. *)
Definition opened (d : gmap pystr utt) (r : row) (st : state) : Prop :=
  utterance_dict st = d /\ (trans_kana st, trans_kanji st) = first_word divide_by_space r /\
  utt_index_pre st = utt_index r /\ start_frame_pre st = Some (start_frame r) /\
  end_frame_pre st = Some (end_frame r).

Lemma opened_group d i r rows st :
  opened d r st -> Forall (fun r' => utt_index r' = i) (r :: rows) ->
  at_group divide_by_space d (i, r :: rows) (foldl step st rows).
Proof.
  intros (Hd & Ht & Hp & Hs & He) Hrows. apply Forall_cons in Hrows as [Hr Hrows].
  destruct (stack_rows st rows i) as (Hd' & Ht' & Hp' & Hs' & He'); try congruence; [by rewrite Hs|by rewrite He|].
  unfold at_group. simpl. rewrite group_text_cons, <- Ht, <- Ht'. simpl.
  split_and!; try congruence. rewrite He', He. apply end_after.
Qed.

Lemma first_row s r :
  model_ok model = true -> fix_transcript [] = [] -> opened ∅ r (step (start_file s) r).
Proof.
  intros Hm Hfix. unfold CsjLabels.step. simpl. case_decide as Hi.
  - unfold stack, first_word. simpl. destruct (stack_word _ [] [] r) eqn:E. unfold opened. simpl. by rewrite Hi.
  - try rewrite balanced_nil. simpl.
    destruct (flush_fields (set_frames (start_file s) r) r) as (Ht & Hp & Hs & He).
    pose proof (Hstore (set_frames (start_file s) r) r) as Hd. simpl in *. rewrite skip_clean_nil in Hd by done. by split_and!.
Qed.

Lemma next_row d g st r :
  at_group divide_by_space d g st -> g.2 <> [] -> utt_index r <> g.1 ->
  balanced (group_text divide_by_space g.2).1 = true -> balanced (group_text divide_by_space g.2).2 = true ->
  opened (let v := group_utt fix_transcript model divide_by_space g.2 in
          if skip_utt model (u_kana v) then d else <[group_key (utt_index r) := v]> d) r (step st r).
Proof.
  intros (Hd & Htk & Htj & Hp & Hs & He) Hne Hi Hbk Hbj.
  assert (Hs' : is_Some (start_frame_pre st)) by (rewrite Hs; destruct g as [? [|]]; [done|by eexists]).
  assert (He' : is_Some (end_frame_pre st))
    by (rewrite He; destruct (last g.2) eqn:El; [by eexists|by apply last_None in El]).
  unfold CsjLabels.step. rewrite set_frames_some by done.
  rewrite decide_False by congruence. rewrite Htj, Hbj, Htk, Hbk. simpl.
  destruct (flush_fields st r) as (Ht' & Hp' & Hs'' & He''). pose proof (Hstore st r) as Hd'.
  unfold opened. split_and!; try done. rewrite Hd', Htk, Htj, Hd, Hs, He. done.
Qed.

End Refine.

(** * The refinement *)

Section Refinement.
Variable fix_transcript : ustr -> ustr.
Variable model : pystr.
Variable divide_by_space : bool.

Lemma spec_dict_cons2 d g g' gs :
  spec_dict fix_transcript model divide_by_space d (g :: g' :: gs) =
  spec_dict fix_transcript model divide_by_space
    (let v := group_utt fix_transcript model divide_by_space g.2 in
     if skip_utt model (u_kana v) then d else <[group_key g'.1 := v]> d) (g' :: gs).
Proof. done. Qed.

Lemma join_groups (g : group) gs : mjoin (snd <$> g :: gs) = g.2 ++ mjoin (snd <$> gs).
Proof. done. Qed.

Lemma run_groups d g gs st :
  flush_stores fix_transcript model divide_by_space ->
  at_group divide_by_space d g st -> group_ok g -> Forall group_ok gs -> chain_ok divide_by_space (g :: gs) ->
  utterance_dict (foldl (CsjLabels.step fix_transcript model divide_by_space) st (mjoin (snd <$> gs))) =
  spec_dict fix_transcript model divide_by_space d (g :: gs).
Proof.
  intros Hst. revert d g st; induction gs as [|g' gs IH]; intros d g st Hat Hg Hgs Hch; [by destruct Hat|].
  apply Forall_cons in Hgs as [Hg' Hgs]. destruct Hch as (Hne & Hbk & Hbj & Hch).
  destruct g' as [i' [|r rows]]; [by destruct Hg' as [[] _]|]. simpl in Hne.
  rewrite join_groups, foldl_app, spec_dict_cons2. simpl fst. simpl snd.
  destruct Hg' as [_ Hrows]. pose proof (Forall_inv Hrows) as Hr. simpl in Hr.
  apply IH; [|split; [done|done]|done|done].
  cbn [foldl]. apply opened_group; [|done]. rewrite <- Hr. apply next_row; [done|done|apply Hg|congruence|done|done].
Qed.

(** C15: On a lecture whose rows come in utterances (each a non-empty
    run of rows with one index, neighbours with different indices, the
    parentheses of each but the last balanced), [read_sdb] stores for
    the file exactly [spec_dict]: every utterance but the last, cleaned,
    under [str(next index - 1).zfill(4)], unless it is silence or noise
    only.  [fix_transcript] is assumed to map the empty text to itself
    (it matters only when the first index is not 1). *)
Theorem read_file_refines s path gs :
  model_ok model = true -> fix_transcript [] = [] ->
  Forall group_ok gs -> chain_ok divide_by_space gs ->
  speaker_dict (read_file fix_transcript model divide_by_space s (path, mjoin (snd <$> gs))) !! speaker_of path =
  Some (spec_dict fix_transcript model divide_by_space ∅ gs).
Proof.
  intros Hm Hfix Hgs Hch. unfold read_file. simpl. rewrite lookup_insert_eq. f_equal.
  assert (Hst : flush_stores fix_transcript model divide_by_space)
    by (intros st r; unfold flush; destruct (skip_utt _ _); destruct (first_word _ r); reflexivity).
  destruct gs as [|[i [|r rows]] gs]; [done|apply Forall_cons in Hgs as [[Hne _] _]; by destruct Hne|].
  apply Forall_cons in Hgs as [Hg Hgs]. rewrite join_groups, foldl_app. simpl snd.
  apply run_groups; [done| |done|done|done].
  destruct Hg as [_ Hrows]. pose proof (Forall_inv Hrows) as Hr. simpl in Hr.
  cbn [foldl]. apply opened_group; [|done]. by apply first_row.
Qed.

End Refinement.


(** ** A lecture in three utterances *)

Definition lecture : list group :=
  [(1%Z, [mk_row 1 0 10 (u "a") (u "A"); mk_row 1 10 20 (u "b") (u "B")]);
   (2%Z, [mk_row 2 20 30 (u "(c)") (u "(C)")]);
   (4%Z, [mk_row 4 40 50 (u "d") (u "D")])].

Lemma read_file_refines_witness :
  speaker_dict (read_file id (str "ctc") false init_state (str "/csj/A01F0001.sdb", mjoin (snd <$> lecture)))
    !! speaker_of (str "/csj/A01F0001.sdb") = Some (spec_dict id (str "ctc") false ∅ lecture).
Proof.
  apply read_file_refines.
  - reflexivity.
  - reflexivity.
  - repeat constructor; discriminate.
  - vm_compute. split_and!; try reflexivity; discriminate.
Defined.

End CsjRefine.
