(* ===== verification/HtkConfig.v ===== *)
(** * HTK configuration: src/utils/htk/make_config.py

    [setup] writes the configuration file [config_fbank] under
    [save_path] that HTK's [HCopy] reads to compute features: the source
    format and sampling period, the target kind with its qualifiers
    [_E], [_D], [_A], the frame rate and window size in units of 100 ns,
    the window function and the filterbank size.  It is modelled as the
    function [setup] from its arguments (the record [args]) to the path
    and the text written; each [f.write] is one line of [config_lines].
    ['%.1f' % x] is [format_1f] on the exact rational value (the
    rounding of Python's correctly rounded formatting, ties to even),
    ['%d' % n] is [py_str_Z].

    HTK's reading of the file is specified by [read_config]: one
    [KEY = VALUE] entry per line.  The theorems show that what HTK reads
    back is what the arguments ask for: a well-formed file with one entry
    per key, the feature kind and its qualifiers, the frame rate and
    window size to 0.05 of a unit, a sampling period consistent with the
    sampling rate, and when the period is missing. *)

From Stdlib Require Import QArith Qabs.
From S2P Require Import Prelude OsPath.
Local Close Scope Q_scope.
Local Open Scope py_scope.

Module HtkConfig.

(** ** The arguments of [setup] (line 7) *)

Record args := mk_args {
  corpus : pystr; feature : pystr; channels : Z; save_path : pystr;
  sampling_rate : Z; window : Q; slide : Q;
  energy : bool; delta : bool; deltadelta : bool; window_func : pystr }.

(** The defaults of line 7-8. *)
Definition setup_args (corpus feature : pystr) (channels : Z) (save_path : pystr) : args :=
  mk_args corpus feature channels save_path 16000 (25 # 1000) (1 # 100) true true true (str "hamming").

(** ** ['%.1f' % x]

    The value times ten, rounded to the nearest integer, ties to even;
    then its digits with a point before the last.  A negative value that
    rounds to zero prints as [-0.0], as in Python. *)
Definition round_half_even (q : Q) : Z :=
  let d := Zpos (Qden q) in
  let fl := (Qnum q / d)%Z in
  let r2 := (2 * (Qnum q mod d))%Z in
  if decide (r2 < d)%Z then fl
  else if decide (d < r2)%Z then (fl + 1)%Z
  else if Z.even fl then fl else (fl + 1)%Z.

Definition digit_char (d : Z) : ascii := ascii_of_nat (48 + Z.to_nat d).

Definition format_1f (q : Q) : pystr :=
  let n := round_half_even (q * 10)%Q in
  (if negb (Qle_bool 0 q) then str "-" else []) ++
  py_str_Z (Z.abs n / 10) ++ "."%char :: [digit_char (Z.abs n mod 10)].

(** ** The file (lines 23-64) *)

(** [feature.upper()] and the qualifiers of lines 36-42. *)
Definition target_kind (a : args) : pystr :=
  let target := map ascii_upper (feature a) in
  let target := if energy a then target ++ str "_E" else target in
  let target := if delta a then target ++ str "_D" else target in
  if deltadelta a then target ++ str "_A" else target.

(** The lines written, in order, without their ["\n"]. *)
Definition config_lines (a : args) : list pystr :=
  [if decide (corpus a = str "timit") then str "SOURCEFORMAT = NIST" else str "SOURCEFORMAT = WAV"] ++
  (if decide (sampling_rate a = 16000%Z) then [str "SOURCERATE = 625"]
   else if decide (sampling_rate a = 8000%Z) then [str "SOURCERATE = 1250"] else []) ++
  [str "TARGETKIND = " ++ target_kind a;
   str "TARGETRATE = " ++ format_1f (slide a * 10000000)%Q;
   str "SAVECOMPRESSED = F";
   str "SAVEWITHCRC = F";
   str "WINDOWSIZE = " ++ format_1f (window a * 10000000)%Q] ++
  (if decide (window_func a = str "hamming") then [str "USEHAMMING = T"] else []) ++
  [str "PREEMCOEF = 0.97";
   str "NUMCHANS = " ++ py_str_Z (channels a);
   str "ENORMALISE = F";
   str "ZMEANSOURCE = T"].

Definition newline : ascii := "010"%char.

(** [f.write(s + '\n')] for each line, into [join(save_path, 'config_fbank')]. *)
Definition setup (a : args) : pystr * pystr :=
  (path_join (save_path a) (str "config_fbank"), mjoin ((fun l => l ++ [newline]) <$> config_lines a)).

(** ** HTK's reading of a configuration file

    Each line is [KEY = VALUE]: the key up to the first [" = "], the
    value after it.  The text ends with a newline. *)
Fixpoint split_entry (l : pystr) : option (pystr * pystr) :=
  match l with
  | " "%char :: "="%char :: " "%char :: v => Some ([], v)
  | c :: l' => (fun kv => (c :: kv.1, kv.2)) <$> split_entry l'
  | [] => None
  end.

Definition read_config (text : pystr) : option (list (pystr * pystr)) :=
  let ls := py_split newline text in
  if decide (last ls = Some []) then mapM split_entry (removelast ls) else None.

Definition config_get (es : list (pystr * pystr)) (k : pystr) : option pystr :=
  snd <$> head (filter (fun e => e.1 = k) es).

(** A target kind read back: the base kind and its qualifiers. *)
Definition parse_target (t : pystr) : pystr * bool * bool * bool :=
  match py_split "_" t with
  | base :: quals => (base, bool_decide (str "E" ∈ quals), bool_decide (str "D" ∈ quals), bool_decide (str "A" ∈ quals))
  | [] => (t, false, false, false)
  end.

(** A value written by ['%.1f']: an optional sign, digits, a point and
    one digit; the number of tenths. *)
Definition parse_1f (v : pystr) : option Z :=
  let '(neg, v) := match v with
                   | c :: v' => if decide (c = "-"%char) then (true, v') else (false, v)
                   | [] => (false, v) end in
  match reverse v with
  | d :: "."%char :: ip =>
      parse_digits (reverse ip) ≫= fun n => parse_digits [d] ≫= fun dd =>
      let t := (10 * n + dd)%Z in Some (if neg then (- t)%Z else t)
  | _ => None
  end.

(** * Lemmas *)

(** ** The lines of the text *)

Lemma split_lines ls :
  Forall (fun l => newline ∉ l) ls ->
  py_split newline (mjoin ((fun l => l ++ [newline]) <$> ls)) = ls ++ [[]].
Proof.
  induction ls as [|l ls IH]; intros Hls; [done|]. apply Forall_cons in Hls as [Hl Hls].
  rewrite fmap_cons. simpl. rewrite <- app_assoc. simpl. rewrite py_split_app_sep, IH; done.
Qed.

Lemma read_config_lines ls :
  Forall (fun l => newline ∉ l) ls ->
  read_config (mjoin ((fun l => l ++ [newline]) <$> ls)) = mapM split_entry ls.
Proof.
  intros Hls. unfold read_config. cbv zeta. rewrite split_lines by done.
  rewrite last_snoc, decide_True by done. by rewrite removelast_last.
Qed.

Lemma ascii_upper_other c c' :
  ~ (65 <= nat_of_ascii c' <= 90) -> ascii_upper c = c' -> c = c'.
Proof.
  unfold ascii_upper. destruct (_ && _) eqn:E; [|done].
  apply andb_true_iff in E as [E1 E2]. apply Nat.leb_le in E1, E2.
  intros Hc <-. rewrite nat_ascii_embedding in Hc by lia. lia.
Qed.

Lemma not_elem_of_upper c s :
  ~ (65 <= nat_of_ascii c <= 90) -> c ∉ s -> c ∉ map ascii_upper s.
Proof.
  intros Hc Hs Hin. apply list_elem_of_In, in_map_iff in Hin as (c' & Hu & Hin).
  apply Hs, list_elem_of_In. by rewrite <- (ascii_upper_other c' c).
Qed.

Lemma digit_not_newline c : is_digit c = true \/ c = "-"%char \/ c = "."%char -> c <> newline.
Proof. intros H ->. destruct H as [H|[H|H]]; vm_compute in H; congruence. Qed.

Lemma no_newline_chars s :
  Forall (fun c => is_digit c = true \/ c = "-"%char \/ c = "."%char) s -> newline ∉ s.
Proof. intros Hs Hin. rewrite Forall_forall in Hs. by apply (digit_not_newline newline); [apply Hs|]. Qed.

Lemma py_str_Z_no_newline n : newline ∉ py_str_Z n.
Proof.
  apply no_newline_chars. eapply Forall_impl; [apply py_str_Z_chars|]. simpl. tauto.
Qed.

Lemma format_1f_no_newline q : newline ∉ format_1f q.
Proof.
  apply no_newline_chars. unfold format_1f. set (n := round_half_even (q * 10)).
  destruct (digit_char_ok (Z.abs n)) as [Hd _].
  apply Forall_app; split; [destruct (negb _); [constructor; [right; left; reflexivity|constructor]|constructor]|].
  apply Forall_app; split.
  - eapply Forall_impl; [apply py_str_Z_chars|]. simpl. tauto.
  - constructor; [right; right; reflexivity|]. constructor; [|constructor]. left. exact Hd.
Qed.

Lemma target_kind_no_newline a : newline ∉ feature a -> newline ∉ target_kind a.
Proof.
  intros Hf. unfold target_kind.
  apply (not_elem_of_upper newline) in Hf; [|vm_compute; lia].
  repeat case_match; repeat (apply not_elem_of_app; split); try done; by apply (bool_decide_unpack _).
Qed.

Lemma config_lines_no_newline a :
  newline ∉ feature a -> Forall (fun l => newline ∉ l) (config_lines a).
Proof.
  intros Hf. pose proof (target_kind_no_newline a Hf).
  pose proof (format_1f_no_newline (slide a * 10000000)). pose proof (format_1f_no_newline (window a * 10000000)).
  pose proof (py_str_Z_no_newline (channels a)).
  unfold config_lines. repeat case_decide; repeat (apply Forall_app; split); repeat constructor;
    try (apply not_elem_of_app; split); try done; by apply (bool_decide_unpack _).
Qed.

(** What HTK reads from the file [setup] writes: one entry per line. *)
Lemma read_setup a :
  newline ∉ feature a ->
  read_config (setup a).2 =
  Some ([(str "SOURCEFORMAT", if decide (corpus a = str "timit") then str "NIST" else str "WAV")] ++
        (if decide (sampling_rate a = 16000%Z) then [(str "SOURCERATE", str "625")]
         else if decide (sampling_rate a = 8000%Z) then [(str "SOURCERATE", str "1250")] else []) ++
        [(str "TARGETKIND", target_kind a);
         (str "TARGETRATE", format_1f (slide a * 10000000)%Q);
         (str "SAVECOMPRESSED", str "F"); (str "SAVEWITHCRC", str "F");
         (str "WINDOWSIZE", format_1f (window a * 10000000)%Q)] ++
        (if decide (window_func a = str "hamming") then [(str "USEHAMMING", str "T")] else []) ++
        [(str "PREEMCOEF", str "0.97"); (str "NUMCHANS", py_str_Z (channels a));
         (str "ENORMALISE", str "F"); (str "ZMEANSOURCE", str "T")]).
Proof.
  intros Hf. unfold setup. cbn [snd]. rewrite read_config_lines by by apply config_lines_no_newline.
  unfold config_lines.
  set (t := target_kind a). set (r := format_1f (slide a * 10000000)). set (w := format_1f (window a * 10000000)).
  set (c := py_str_Z (channels a)). clearbody t r w c. by repeat case_decide.
Qed.

(** ** Rounding and ['%.1f'] *)

Lemma round_half_even_close q : (Qabs (q - inject_Z (round_half_even q)) <= 1 # 2)%Q.
Proof.
  destruct q as [a b]. unfold round_half_even. cbn [Qnum Qden].
  pose proof (Z.mod_pos_bound a (Zpos b) ltac:(lia)). pose proof (Z.div_mod a (Zpos b) ltac:(lia)).
  apply Qabs_Qle_condition. unfold Qminus, Qle, Qplus, Qopp, inject_Z. cbn [Qnum Qden].
  rewrite !Pos2Z.inj_mul. repeat case_decide; [| |destruct (Z.even _)]; split; nia.
Qed.

Lemma round_half_even_nonneg q : (0 <= q)%Q -> (0 <= round_half_even q)%Z.
Proof.
  destruct q as [a b]. unfold Qle, round_half_even. cbn [Qnum Qden]. intros Hq.
  assert (0 <= a / Zpos b)%Z by (apply Z.div_pos; lia). repeat case_decide; [|lia|destruct (Z.even _)]; lia.
Qed.

Lemma round_half_even_nonpos q : (q < 0)%Q -> (round_half_even q <= 0)%Z.
Proof.
  destruct q as [a b]. unfold Qlt, round_half_even. cbn [Qnum Qden]. intros Hq.
  pose proof (Z.mod_pos_bound a (Zpos b) ltac:(lia)). pose proof (Z.div_mod a (Zpos b) ltac:(lia)).
  assert (a / Zpos b < 0)%Z by nia. repeat case_decide; [|lia|destruct (Z.even _)]; lia.
Qed.

Lemma reverse_point s d : reverse (s ++ "."%char :: [d]) = d :: "."%char :: reverse s.
Proof. by rewrite reverse_app. Qed.

Lemma parse_1f_digits (neg : bool) s d :
  s <> [] -> Forall (fun c => is_digit c = true) s -> is_digit d = true ->
  parse_1f ((if neg then str "-" else []) ++ s ++ "."%char :: [d]) =
  Some (if neg then (- (10 * digits_value s + (Z.of_nat (nat_of_ascii d) - 48)))%Z
        else (10 * digits_value s + (Z.of_nat (nat_of_ascii d) - 48))%Z).
Proof.
  intros Hne Hs Hd. assert (parse_digits s = Some (digits_value s)) as Hp by (by apply parse_digits_Some).
  assert (parse_digits [d] = Some (Z.of_nat (nat_of_ascii d) - 48)%Z) as Hpd
    by (apply parse_digits_Some; split_and!; [done|by constructor|apply digits_value_single]).
  unfold parse_1f. destruct neg.
  - cbn [str String.list_ascii_of_string app]. rewrite decide_True by done.
    rewrite reverse_point. cbn -[reverse parse_digits]. rewrite reverse_involutive, Hp, Hpd. done.
  - destruct s as [|c s]; [done|]. apply Forall_cons in Hs as [Hc _]. cbn [app].
    rewrite decide_False by (intros ->; discriminate Hc).
    rewrite app_comm_cons, reverse_point. cbn -[reverse parse_digits]. rewrite reverse_involutive, Hp, Hpd. done.
Qed.

(** ['%.1f' % x] reads back as the value, rounded to tenths: the
    printed sign, digits and point give the number of tenths
    [round_half_even (10 x)], also for a negative value that rounds to
    zero and prints as [-0.0]. *)
Theorem parse_format_1f q : parse_1f (format_1f q) = Some (round_half_even (q * 10)).
Proof.
  unfold format_1f. set (n := round_half_even (q * 10)).
  destruct (proj1 (parse_digits_Some _ _) (parse_py_str_Z (Z.abs n / 10) ltac:(apply Z.div_pos; lia)))
    as (Hne & Hs & Hv).
  destruct (digit_char_ok (Z.abs n)) as [Hd Hdv].
  rewrite parse_1f_digits by done. unfold digit_char. rewrite Hdv, Hv.
  pose proof (Z.div_mod (Z.abs n) 10 ltac:(lia)). f_equal.
  destruct (Qle_bool 0 q) eqn:E; simpl.
  - apply Qle_bool_iff in E. assert (0 <= n)%Z.
    { apply round_half_even_nonneg. apply (Qmult_le_0_compat q 10); [done|discriminate]. } lia.
  - assert (q < 0)%Q as Hq by (apply Qnot_le_lt; intros Hle; apply Qle_bool_iff in Hle; congruence).
    assert (n <= 0)%Z; [|lia]. apply round_half_even_nonpos.
    clear -Hq. destruct q as [a b]. unfold Qlt in *. simpl in *. lia.
Qed.

(** ** The file *)

(** C38: For a feature name without a newline, the file [setup] writes
    is a well-formed HTK configuration: every line is a [KEY = VALUE]
    entry, and no key is written twice. *)
Theorem setup_well_formed a :
  newline ∉ feature a ->
  exists es, read_config (setup a).2 = Some es /\ NoDup (fst <$> es).
Proof.
  intros Hf. eexists. split; [by apply read_setup|].
  repeat case_decide; apply (bool_decide_unpack _); vm_compute; reflexivity.
Qed.

Lemma parse_target_kind a :
  "_"%char ∉ feature a ->
  parse_target (target_kind a) = (map ascii_upper (feature a), energy a, delta a, deltadelta a).
Proof.
  intros Hf. apply (not_elem_of_upper "_") in Hf; [|vm_compute; lia].
  unfold target_kind, parse_target.
  destruct (energy a), (delta a), (deltadelta a); rewrite <- ?app_assoc; simpl;
    first [rewrite py_split_app_sep by done | rewrite py_split_no_sep_single by done]; reflexivity.
Qed.

(** C39: HTK reads back the target kind that was asked for: for a
    feature name without a newline or an underscore, the [TARGETKIND]
    entry splits at [_] into [feature.upper()] and exactly the
    qualifiers [E], [D], [A] of [energy], [delta] and [deltadelta]. *)
Theorem setup_target_kind a :
  newline ∉ feature a -> "_"%char ∉ feature a ->
  exists es t, read_config (setup a).2 = Some es /\ config_get es (str "TARGETKIND") = Some t /\
    parse_target t = (map ascii_upper (feature a), energy a, delta a, deltadelta a).
Proof.
  intros Hn Hu. rewrite read_setup by done. do 2 eexists. split; [reflexivity|].
  split; [|by apply parse_target_kind]. by repeat case_decide.
Qed.

(** C36: The sampling period HTK reads is the period of the sampling
    rate in units of 100 ns ([SOURCERATE] times the rate is [10^7]);
    the entry is written exactly for 16 kHz and 8 kHz, and for any other
    rate the file has none. *)
Theorem setup_source_rate a :
  newline ∉ feature a ->
  exists es, read_config (setup a).2 = Some es /\
    match config_get es (str "SOURCERATE") with
    | Some v => exists p, parse_digits v = Some p /\ (p * sampling_rate a = 10000000)%Z
    | None => sampling_rate a <> 16000%Z /\ sampling_rate a <> 8000%Z
    end.
Proof.
  intros Hn. rewrite read_setup by done. eexists. split; [reflexivity|].
  repeat case_decide; simpl; try (eexists; split; [reflexivity|]); try lia;
    match goal with Hr : sampling_rate a = _ |- _ => rewrite Hr; reflexivity end.
Qed.

(** C37: The frame rate and the window size HTK reads are [slide] and
    [window] in units of 100 ns to within half a tenth (read back in
    tenths of a unit, the value is within [1/2] of [10^8 slide] and
    [10^8 window]); a non-negative channel count reads back exactly. *)
Theorem setup_numbers a :
  newline ∉ feature a ->
  exists es, read_config (setup a).2 = Some es /\
    (exists v n, config_get es (str "TARGETRATE") = Some v /\ parse_1f v = Some n /\
       (Qabs (slide a * 10000000 * 10 - inject_Z n) <= 1 # 2)%Q) /\
    (exists w n, config_get es (str "WINDOWSIZE") = Some w /\ parse_1f w = Some n /\
       (Qabs (window a * 10000000 * 10 - inject_Z n) <= 1 # 2)%Q) /\
    ((0 <= channels a)%Z -> config_get es (str "NUMCHANS") ≫= parse_digits = Some (channels a)).
Proof.
  intros Hn. rewrite read_setup by done. eexists. split; [reflexivity|]. split_and!.
  - eexists _, _. split; [by repeat case_decide|]. split; [apply parse_format_1f|apply round_half_even_close].
  - eexists _, _. split; [by repeat case_decide|]. split; [apply parse_format_1f|apply round_half_even_close].
  - intros Hc. rewrite <- (parse_py_str_Z (channels a) Hc). by repeat case_decide.
Qed.

(** ** Two configurations

    The defaults for TIMIT with 40 filterbank channels, and MFCC features
    of a 44.1 kHz recording, for which no sampling period is written. *)

Definition htk_timit : args := setup_args (str "timit") (str "fbank") 40 (str "/save").

Definition htk_cd : args :=
  mk_args (str "csj") (str "mfcc") 26 (str "/save") 44100 (25 # 1000) (1 # 100) true false false (str "hanning").

Lemma setup_well_formed_witness :
  exists es, read_config (setup htk_timit).2 = Some es /\ NoDup (fst <$> es).
Proof. apply setup_well_formed. apply (bool_decide_unpack _); vm_compute; reflexivity. Defined.

Lemma setup_target_kind_witness :
  exists es t, read_config (setup htk_timit).2 = Some es /\ config_get es (str "TARGETKIND") = Some t /\
    parse_target t = (str "FBANK", true, true, true).
Proof. apply (setup_target_kind htk_timit); apply (bool_decide_unpack _); vm_compute; reflexivity. Defined.

Lemma setup_source_rate_witness :
  exists es, read_config (setup htk_cd).2 = Some es /\
    match config_get es (str "SOURCERATE") with
    | Some v => exists p, parse_digits v = Some p /\ (p * 44100 = 10000000)%Z
    | None => 44100%Z <> 16000%Z /\ 44100%Z <> 8000%Z
    end.
Proof. apply (setup_source_rate htk_cd). apply (bool_decide_unpack _); vm_compute; reflexivity. Defined.

Lemma setup_numbers_witness :
  exists es, read_config (setup htk_timit).2 = Some es /\
    (exists v n, config_get es (str "TARGETRATE") = Some v /\ parse_1f v = Some n /\
       (Qabs ((1 # 100) * 10000000 * 10 - inject_Z n) <= 1 # 2)%Q) /\
    (exists w n, config_get es (str "WINDOWSIZE") = Some w /\ parse_1f w = Some n /\
       (Qabs ((25 # 1000) * 10000000 * 10 - inject_Z n) <= 1 # 2)%Q) /\
    ((0 <= 40)%Z -> config_get es (str "NUMCHANS") ≫= parse_digits = Some 40%Z).
Proof. apply (setup_numbers htk_timit). apply (bool_decide_unpack _); vm_compute; reflexivity. Defined.

End HtkConfig.
