(* ===== verification/CsjPhoneLoop.v ===== *)
(** * CSJ: the kana-to-phone loop as the code writes it

    Lines 360-385 of src/csj/labels/character.py convert a kana
    transcript into phone sequences with an index loop:
    [i = 0; while i < len(trans_kana_list): ...], trying the pair
    [trans_kana_list[i] + trans_kana_list[i + 1]] first unless [i] is the
    last position, then the single character, raising [ValueError] when
    neither is a key; the pair branch advances [i] twice.

    [CsjLabels.kana2phone_seqs] reads this loop as recursion on the rest
    of the string.  Here the loop is modelled as the code has it: its
    locals [i] and [trans_phone_seq_list] are the record [loop_state],
    one pass of the body is [loop_body], and the [while] is the step
    function [loop_next] on configurations (running, or finished with a
    result or an exception).  The theorem [loop_equiv] shows, with
    [Prelude.eventually], that the run from [i = 0] ends, and ends with
    what [kana2phone_seqs] computes. *)

From S2P Require Import Prelude CsjLabels.
Import CsjLabels.
Local Open Scope py_scope.

Module CsjPhoneLoop.

(** The locals of the loop: [i] and [trans_phone_seq_list] (lines 361-362). *)
Record loop_state := mk_loop { li : nat; seq_list : list ustr }.

Definition loop_init : loop_state := mk_loop 0 [].

(** One pass of the body, lines 364-385: the pair when [i] is not the
    last position, else (or when the pair is no key) the single
    character; [i += 1] inside the pair branch and at the end. *)
Definition loop_body (d : gmap ustr ustr) (t : ustr) (s : loop_state) : result loop_state :=
  let i := li s in
  if decide (i <> length t - 1) then
    c <- py_get t (Z.of_nat i) ;;
    c' <- py_get t (Z.of_nat (S i)) ;;
    match d !! [c; c'] with
    | Some p => Ok (mk_loop (S (S i)) (seq_list s ++ [p]))
    | None =>
        match d !! [c] with
        | Some p => Ok (mk_loop (S i) (seq_list s ++ [p]))
        | None => Err ValueError
        end
    end
  else
    c <- py_get t (Z.of_nat i) ;;
    match d !! [c] with
    | Some p => Ok (mk_loop (S i) (seq_list s ++ [p]))
    | None => Err ValueError
    end.

(** A configuration of the loop: running with its locals, or finished
    with the phone sequences or the exception raised. *)
Inductive conf :=
  | Running (s : loop_state)
  | Finished (r : result (list ustr)).

(** The [while] of line 363: test [i < len(trans_kana_list)], run the
    body. *)
Definition loop_next (d : gmap ustr ustr) (t : ustr) (c : conf) : option conf :=
  match c with
  | Running s =>
      if decide (li s < length t) then
        match loop_body d t s with
        | Ok s' => Some (Running s')
        | Err e => Some (Finished (Err e))
        end
      else Some (Finished (Ok (seq_list s)))
  | Finished _ => None
  end.

Definition loop_step (d : gmap ustr ustr) (t : ustr) (c c' : conf) : Prop := loop_next d t c = Some c'.

(** The loop run for [fuel] passes, executable. *)
Fixpoint run_loop (d : gmap ustr ustr) (t : ustr) (fuel : nat) (c : conf) : conf :=
  match fuel with
  | 0 => c
  | S fuel' => match loop_next d t c with Some c' => run_loop d t fuel' c' | None => c end
  end.

(** What the run from [i] adds to the list already built. *)
Definition after (acc : list ustr) (r : result (list ustr)) : result (list ustr) :=
  match r with Ok ps => Ok (acc ++ ps) | Err e => Err e end.

(** * Lemmas *)

Lemma drop_next (t : ustr) i c rest : drop i t = c :: rest -> t !! i = Some c /\ drop (S i) t = rest.
Proof.
  intros Hd. split.
  - rewrite <- (Nat.add_0_r i), <- lookup_drop, Hd. done.
  - by rewrite <- Nat.add_1_r, <- drop_drop, Hd.
Qed.

Lemma after_cons acc p r :
  after acc (ps <- r ;; Ok (p :: ps)) = after (acc ++ [p]) r.
Proof. destruct r; simpl; [by rewrite <- app_assoc|done]. Qed.

(** One pass of the loop, read off the characters from position [i]. *)
Lemma loop_next_drop d t i acc c rest :
  drop i t = c :: rest ->
  loop_next d t (Running (mk_loop i acc)) =
  Some (match rest with
        | [] => match d !! [c] with Some p => Running (mk_loop (S i) (acc ++ [p])) | None => Finished (Err ValueError) end
        | c' :: _ =>
            match d !! [c; c'] with
            | Some p => Running (mk_loop (S (S i)) (acc ++ [p]))
            | None => match d !! [c] with
                      | Some p => Running (mk_loop (S i) (acc ++ [p]))
                      | None => Finished (Err ValueError) end
            end
        end).
Proof.
  intros Hd. destruct (drop_next t i c rest Hd) as [Hc Hrest].
  pose proof (length_drop t i) as Hlen. rewrite Hd in Hlen. simpl in Hlen.
  unfold loop_next, loop_body. cbn [li seq_list]. rewrite decide_True by lia.
  destruct rest as [|c' rest']; simpl in Hlen.
  - rewrite decide_False by lia. rewrite py_get_nat, Hc. cbn -[py_get]. by destruct (d !! [c]).
  - rewrite decide_True by lia. rewrite py_get_nat, Hc. cbn -[py_get]. destruct (drop_next t (S i) c' rest' Hrest) as [Hc' _].
    rewrite (py_get_nat t (S i)), Hc'. cbn -[py_get].
    destruct (d !! [c; c']); [done|]. by destruct (d !! [c]).
Qed.

(** From [i] with the list [acc] built, the loop ends with [acc]
    followed by what [kana2phone_seqs] makes of the rest of the
    transcript. *)
Lemma loop_from d t n :
  forall i acc, length t - i <= n ->
  eventually (loop_step d t) (fun c => c = Finished (after acc (kana2phone_seqs d (drop i t))))
    (Running (mk_loop i acc)).
Proof.
  induction n as [|n IH]; intros i acc Hn; destruct (drop i t) as [|c rest] eqn:Hd.
  2: { pose proof (length_drop t i) as Hl. rewrite Hd in Hl. simpl in Hl. lia. }
  1,2: apply (eventually_next _ _ _ (Finished (Ok acc))); [unfold loop_next; cbn [li seq_list];
         apply drop_nil_inv in Hd; rewrite decide_False by lia; done|];
       apply eventually_done; simpl; by rewrite app_nil_r.
  destruct (drop_next t i c rest Hd) as [_ Hrest].
  eapply eventually_next; [by apply loop_next_drop|].
  destruct rest as [|c' rest']; [|destruct (drop_next t (S i) c' rest' Hrest) as [_ Hrest']].
  - simpl. destruct (d !! [c]) as [p|]; [|by apply eventually_done].
    eapply eventually_mono; [|apply (IH (S i) (acc ++ [p])); lia].
    intros ? ->. rewrite Hrest. simpl. by rewrite app_nil_r.
  - rewrite kana2phone_seqs_cons2.
    destruct (d !! [c; c']) as [p|]; [|destruct (d !! [c]) as [p|]; [|by apply eventually_done]].
    + eapply eventually_mono; [|apply (IH (S (S i)) (acc ++ [p])); lia].
      intros ? ->. by rewrite Hrest', after_cons.
    + eapply eventually_mono; [|apply (IH (S i) (acc ++ [p])); lia].
      intros ? ->. by rewrite Hrest, after_cons.
Qed.

(** C28: Equivalence of the code's index loop with [kana2phone_seqs]:
    the [while i < len(trans_kana_list)] loop of lines 360-385, started
    from [i = 0] and an empty list, ends with the phone sequences that
    [kana2phone_seqs] computes, or with the [ValueError] it raises. *)
Theorem loop_equiv d t :
  eventually (loop_step d t) (fun c => c = Finished (kana2phone_seqs d t)) (Running loop_init).
Proof.
  eapply eventually_mono; [|apply (loop_from d t (length t) 0 []); lia].
  intros ? ->. rewrite drop_0. by destruct (kana2phone_seqs d t).
Qed.

(** ** A run

    The pair [1 2] is a key: it is read first, then [2] alone; three
    passes of the loop reach the result of [kana2phone_seqs]. *)
Definition test_dict : gmap ustr ustr := {[ [1%Z] := [10%Z]; [2%Z] := [20%Z]; [1%Z; 2%Z] := [30%Z] ]}.

Example loop_run_pair :
  run_loop test_dict [1%Z; 2%Z; 2%Z] 3 (Running loop_init) = Finished (Ok [[30%Z]; [20%Z]]) /\
  kana2phone_seqs test_dict [1%Z; 2%Z; 2%Z] = Ok [[30%Z]; [20%Z]].
Proof. split; vm_compute; reflexivity. Qed.

End CsjPhoneLoop.
