(* ===== verification/LabelSave.v ===== *)
(** * Saving the labels: the [np.save] loops of the corpus readers

    After reading, each corpus reader converts every transcript into
    indices and saves it with [np.save]: src/switchboard/labels/ctc/
    ldc97s62/character.py (lines 86-97), src/timit/labels/character.py
    (lines 141-154), src/timit/labels/phone.py (lines 29-87, the saving
    inside the reading loop) and src/csj/labels/character.py (lines
    323-396).  The converters [char2num], [kana2num] and [phone2num] are
    imported from src/utils/labels, which does not define them, and
    [mkdir], [mkdir_join] from the absent [utils.util]: the converters
    are Section variables; [mkdir] adds a directory.

    The files are the record [fsys]: the [.npy] files by path, holding
    an index array or (CSJ test set) a string, and the directories.  The
    loops run in the monad [io]: a write made before an exception stays
    on disk.  [touches] states which paths a computation may write; the
    theorems say that a loop ends without an exception exactly when every
    conversion succeeds, and that every utterance then has its own file
    holding its conversion. *)

From S2P Require Import Prelude OsPath SwbdTranscript TimitText TimitPhone CsjLabels.
Import CsjLabels.
Local Open Scope py_scope.

Module LabelSave.

(** ** Files and the [io] monad *)

Inductive npy :=
  | NpyIdx (l : list Z)
  | NpyText (s : list Z).

Record fsys := mk_fsys { files : gmap pystr npy; dirs : gset pystr }.

Definition io (A : Type) : Type := fsys -> fsys * result A.

Definition io_ret {A} (x : A) : io A := fun fs => (fs, Ok x).

Definition io_bind {A B} (m : io A) (k : A -> io B) : io B :=
  fun fs => let '(fs', r) := m fs in
            match r with Ok x => k x fs' | Err e => (fs', Err e) end.

(** A value of Python that may raise, evaluated in [io]. *)
Definition io_lift {A} (r : result A) : io A := fun fs => (fs, r).

Declare Scope io_scope.
Delimit Scope io_scope with io.
Notation "x <-- m ;;; k" := (io_bind m (fun x => k))
  (at level 60, m at next level, right associativity) : io_scope.
Local Open Scope io_scope.

(** [np.save(path, value)]. *)
Definition np_save (p : pystr) (v : npy) : io unit :=
  fun fs => (mk_fsys (<[p := v]> (files fs)) (dirs fs), Ok tt).

(** [mkdir(path)] of [utils.util]. *)
Definition mkdir (p : pystr) : io unit :=
  fun fs => (mk_fsys (files fs) ({[p]} ∪ dirs fs), Ok tt).

(** [for x in xs: body(x)]: an exception leaves the loop. *)
Fixpoint io_for {A} (body : A -> io unit) (xs : list A) : io unit :=
  match xs with
  | [] => io_ret tt
  | x :: xs' => _ <-- body x ;;; io_for body xs'
  end.

(** [os.path.join(a, b, c)]. *)
Definition join3 (a b c : pystr) : pystr := path_join (path_join a b) c.

(** ** Switchboard (character.py of ldc97s62, lines 86-97) *)

(** [d.items()]: Python lists the entries in insertion order, which the
    map does not keep; the loops take the order as a parameter, and the
    theorems hold for every order that lists each entry once. *)
Section SwbdSave.
Variable items : forall V, gmap pystr V -> list (pystr * V).
(** [char2num(transcript, mapping_file_path)]. *)
Variable char2num : pystr -> pystr -> result (list Z).

(** [speaker_name + '_' + utt_index + '.npy'] (line 90). *)
Definition swbd_file_name (speaker_name utt_index : pystr) : pystr :=
  speaker_name ++ str "_" ++ utt_index ++ str ".npy".

Definition swbd_save_utt (save_path mapping_file_path speaker_name : pystr)
    (u : pystr * (pystr * pystr * pystr)) : io unit :=
  let '(utt_index, (_, _, transcript)) := u in
  char_index_list <-- io_lift (char2num transcript mapping_file_path) ;;;
  np_save (join3 save_path speaker_name (swbd_file_name speaker_name utt_index)) (NpyIdx char_index_list).

(** Lines 86-97: for each speaker, [mkdir], then each utterance. *)
Definition swbd_save (save_path mapping_file_path : pystr)
    (speaker_dict : gmap pystr (gmap pystr (pystr * pystr * pystr))) : io unit :=
  io_for (fun '(speaker_name, utterance_dict) =>
            _ <-- mkdir (path_join save_path speaker_name) ;;;
            io_for (swbd_save_utt save_path mapping_file_path speaker_name) (items _ utterance_dict))
         (items _ speaker_dict).

End SwbdSave.

(** ** TIMIT sentences (src/timit/labels/character.py) *)

(** Lines 114-119: the mapping file of the symbols. *)
Definition text_mapping_path (run_root_path model : pystr) (divide_by_capital : bool) : pystr :=
  path_join (join3 (path_join run_root_path (str "labels")) (str "mapping_files") model)
    (if divide_by_capital then str "character_to_num_capital.txt" else str "character_to_num.txt").

(** Lines 145-147: [speaker_name + '_' + file_name + '.npy']. *)
Definition text_save_name (label_path : pystr) : result pystr :=
  speaker_name <- py_get (py_split "/" label_path) (-2) ;;
  base <- py_get (py_split "/" label_path) (-1) ;;
  file_name <- py_get (py_split "." base) 0 ;;
  Ok (speaker_name ++ str "_" ++ file_name ++ str ".npy").

Section TimitTextSave.
Variable items : forall V, gmap pystr V -> list (pystr * V).
(** [char2num(transcript, mapping_file_path, double_letter=divide_by_capital)]. *)
Variable char2num : pystr -> pystr -> bool -> result (list Z).

Definition text_save_one (save_path mapping_file_path : pystr) (divide_by_capital : bool)
    (x : pystr * pystr) : io unit :=
  let '(label_path, transcript) := x in
  save_file_name <-- io_lift (text_save_name label_path) ;;;
  char_index_list <-- io_lift (char2num transcript mapping_file_path divide_by_capital) ;;;
  np_save (path_join save_path save_file_name) (NpyIdx char_index_list).

(** Lines 141-154. *)
Definition text_save (save_path : option pystr) (mapping_file_path : pystr) (divide_by_capital : bool)
    (text_dict : gmap pystr pystr) : io unit :=
  match save_path with
  | None => io_ret tt
  | Some sp => io_for (text_save_one sp mapping_file_path divide_by_capital) (items _ text_dict)
  end.

End TimitTextSave.

(** ** TIMIT phones (src/timit/labels/phone.py) *)

(** Lines 52-53: the mapping file of the phones. *)
Definition phone_mapping_path (run_root_path model label_type : pystr) : pystr :=
  path_join (join3 (path_join run_root_path (str "labels")) (str "mapping_files") model)
    (label_type ++ str "_to_num.txt").

Section TimitPhoneSave.
Variable map_phone2phone : list pystr -> pystr -> result (list pystr).
(** [phone2num(phone_list, phone2num_map_file_path)]. *)
Variable phone2num : list pystr -> pystr -> result (list Z).

Definition phone_save_one (run_root_path label_type model : pystr) (table : list pystr)
    (save_path : option pystr) (label : pystr * list pystr) : io unit :=
  r <-- io_lift (TimitPhone.read_phone_file map_phone2phone label_type model table label) ;;;
  let '(save_file_name, _, phone_list) := r in
  phone_index_list <-- io_lift (phone2num phone_list (phone_mapping_path run_root_path model label_type)) ;;;
  match save_path with
  | Some sp => np_save (path_join sp save_file_name) (NpyIdx phone_index_list)
  | None => io_ret tt
  end.

(** [read_phone] (lines 29-87) with its conversion and save: the loop
    reads, converts and saves one file before the next. *)
Definition read_phone_save (labels : list (pystr * list pystr)) (label_type run_root_path model : pystr)
    (table : list pystr) (save_path : option pystr) : io unit :=
  if decide (label_type ∉ TimitPhone.label_types) then io_lift (Err ValueError)
  else io_for (phone_save_one run_root_path label_type model table save_path) labels.

End TimitPhoneSave.

(** ** CSJ (src/csj/labels/character.py) *)

(** Lines 265-267: the mapping files of kanji, kana and phones.  The
    directory is ['labels/mapping_files' + model]: no separator before
    the model name. *)
Definition csj_map_paths (run_root_path model : pystr) : pystr * pystr * pystr :=
  (path_join run_root_path (str "labels/mapping_files" ++ model ++ str "/kanji2num.txt"),
   path_join run_root_path (str "labels/mapping_files" ++ model ++ str "/kana2num.txt"),
   path_join run_root_path (str "labels/mapping_files" ++ model ++ str "/phone2num.txt")).

Section CsjSave.
Variable items : forall V, gmap pystr V -> list (pystr * V).
(** [kana2num(trans, map_file_path)] and [phone2num(phones, map_file_path)]. *)
Variable kana2num : ustr -> pystr -> result (list Z).
Variable phone2num : list ustr -> pystr -> result (list Z).

(** Line 330. *)
Definition csj_file_name (speaker utt_index : pystr) : pystr :=
  speaker ++ str "_" ++ utt_index ++ str ".npy".

(** One utterance (lines 327-396): the kanji and the kana transcripts,
    converted or, for the test set, as strings; then the phones of the
    kana (the loop of lines 360-388) converted. *)
Definition csj_save_utt (kanji_save_path kana_save_path phone_save_path : pystr)
    (maps : pystr * pystr * pystr) (is_test : bool) (kana2phone_dict : gmap ustr ustr)
    (speaker : pystr) (x : pystr * utt) : io unit :=
  let '(utt_index, u) := x in
  let '(kanji_map_file_path, kana_map_file_path, phone_map_file_path) := maps in
  let save_file_name := csj_file_name speaker utt_index in
  _ <-- (if negb is_test then
           kanji_index_list <-- io_lift (kana2num (u_kanji u) kanji_map_file_path) ;;;
           np_save (join3 kanji_save_path speaker save_file_name) (NpyIdx kanji_index_list)
         else np_save (join3 kanji_save_path speaker save_file_name) (NpyText (u_kanji u))) ;;;
  _ <-- (if negb is_test then
           kana_index_list <-- io_lift (kana2num (u_kana u) kana_map_file_path) ;;;
           np_save (join3 kana_save_path speaker save_file_name) (NpyIdx kana_index_list)
         else np_save (join3 kana_save_path speaker save_file_name) (NpyText (u_kana u))) ;;;
  trans_phone_list <-- io_lift (CsjLabels.trans_phone_list kana2phone_dict (u_kana u)) ;;;
  phone_index_list <-- io_lift (phone2num trans_phone_list phone_map_file_path) ;;;
  np_save (join3 phone_save_path speaker save_file_name) (NpyIdx phone_index_list).

(** Lines 323-396: for each speaker, [mkdir_join] of the three
    directories, then each utterance. *)
Definition csj_save (kanji_save_path kana_save_path phone_save_path : pystr)
    (maps : pystr * pystr * pystr) (is_test : bool) (kana2phone_dict : gmap ustr ustr)
    (speaker_dict : gmap pystr (gmap pystr utt)) : io unit :=
  io_for (fun '(speaker, utterance_dict) =>
            _ <-- mkdir (path_join kanji_save_path speaker) ;;;
            _ <-- mkdir (path_join kana_save_path speaker) ;;;
            _ <-- mkdir (path_join phone_save_path speaker) ;;;
            io_for (csj_save_utt kanji_save_path kana_save_path phone_save_path maps is_test kana2phone_dict speaker)
                   (items _ utterance_dict))
         (items _ speaker_dict).

End CsjSave.

(** * Lemmas on [io] *)

Lemma io_bind_Ok {A B} (m : io A) (k : A -> io B) fs fs' y :
  io_bind m k fs = (fs', Ok y) -> exists x fs1, m fs = (fs1, Ok x) /\ k x fs1 = (fs', Ok y).
Proof. unfold io_bind. destruct (m fs) as [fs1 [x|e]]; [eauto|by intros [=]]. Qed.

(** A computation that cannot raise, from any files. *)
Definition succeeds {A} (m : io A) : Prop := forall fs, is_Ok (m fs).2.

Lemma succeeds_bind {A B} (m : io A) (k : A -> io B) :
  succeeds m -> (forall x, succeeds (k x)) -> succeeds (io_bind m k).
Proof.
  intros Hm Hk fs. unfold io_bind. destruct (Hm fs) as [x Hx].
  destruct (m fs) as [fs1 r]. simpl in Hx. subst r. apply Hk.
Qed.

Lemma io_for_succeeds {A} (body : A -> io unit) xs :
  (forall x, x ∈ xs -> succeeds (body x)) -> succeeds (io_for body xs).
Proof.
  induction xs as [|x xs IH]; intros Hb; [by intros fs; eexists|].
  apply succeeds_bind; [apply Hb; left|intros _; apply IH; intros y Hy; apply Hb; by right].
Qed.

(** A loop that ends without an exception ran every body without one. *)
Lemma io_for_Ok_inv {A} (body : A -> io unit) xs fs fs' :
  io_for body xs fs = (fs', Ok tt) -> forall x, x ∈ xs -> exists fs1 fs2, body x fs1 = (fs2, Ok tt).
Proof.
  revert fs; induction xs as [|x0 xs IH]; intros fs Hrun x Hx; [by apply not_elem_of_nil in Hx|].
  apply io_bind_Ok in Hrun as ([] & fs1 & H0 & Hrest).
  apply elem_of_cons in Hx as [->|Hx]; [eauto|by apply (IH fs1)].
Qed.

(** A property of the files that [x]'s body establishes and the bodies
    of the other elements keep holds at the end of the loop. *)
Lemma io_for_keep {A} `{EqDecision A} (body : A -> io unit) (P : fsys -> Prop) x xs fs fs' :
  io_for body xs fs = (fs', Ok tt) -> P fs ->
  (forall fs1 fs2, body x fs1 = (fs2, Ok tt) -> P fs2) ->
  (forall y fs1 fs2, y ∈ xs -> y <> x -> P fs1 -> body y fs1 = (fs2, Ok tt) -> P fs2) ->
  P fs'.
Proof.
  revert fs; induction xs as [|y xs IH]; intros fs Hrun HP Hx Hy; [by injection Hrun as <-|].
  apply io_bind_Ok in Hrun as ([] & fs1 & H0 & Hrest). apply (IH fs1); [done| |done|].
  - destruct (decide (y = x)) as [->|Hne]; [by eapply Hx|]. eapply Hy; [left|..]; done.
  - intros z ? ? Hz. apply Hy. by right.
Qed.

Lemma io_for_establish {A} `{EqDecision A} (body : A -> io unit) (P : A -> fsys -> Prop) xs fs fs' :
  io_for body xs fs = (fs', Ok tt) ->
  (forall x fs1 fs2, x ∈ xs -> body x fs1 = (fs2, Ok tt) -> P x fs2) ->
  (forall x y fs1 fs2, x ∈ xs -> y ∈ xs -> y <> x -> P x fs1 -> body y fs1 = (fs2, Ok tt) -> P x fs2) ->
  forall x, x ∈ xs -> P x fs'.
Proof.
  revert fs; induction xs as [|x0 xs IH]; intros fs Hrun Hest Hkeep x Hx; [by apply not_elem_of_nil in Hx|].
  apply io_bind_Ok in Hrun as ([] & fs1 & H0 & Hrest).
  destruct (decide (x = x0)) as [->|Hne].
  - apply (io_for_keep body (P x0) x0 xs fs1); [done|by eapply Hest; [left|]| |].
    + intros ? ? ?. eapply Hest; [left|]; done.
    + intros y ? ? Hy Hyx. eapply Hkeep; [left|by right|done].
  - apply elem_of_cons in Hx as [->|Hx]; [done|].
    apply (IH fs1); [done| | |done].
    + intros y ? ? Hy. apply Hest. by right.
    + intros y z ? ? Hy Hz. apply Hkeep; by right.
Qed.

(** ** Which files a computation writes *)

Definition touches {A} (S : pystr -> Prop) (m : io A) : Prop :=
  forall fs p, ~ S p -> files (m fs).1 !! p = files fs !! p.

Lemma touches_ret {A} S (x : A) : touches S (io_ret x).
Proof. done. Qed.

Lemma touches_lift {A} S (r : result A) : touches S (io_lift r).
Proof. done. Qed.

Lemma touches_np_save (S : pystr -> Prop) p v : S p -> touches S (np_save p v).
Proof. intros Hp fs q Hq. simpl. rewrite lookup_insert_ne; [done|]. intros ->. contradiction. Qed.

Lemma touches_mkdir S p : touches S (mkdir p).
Proof. done. Qed.

Lemma touches_bind {A B} S (m : io A) (k : A -> io B) :
  touches S m -> (forall x, touches S (k x)) -> touches S (io_bind m k).
Proof.
  intros Hm Hk fs p Hp. unfold io_bind. pose proof (Hm fs p Hp) as H1.
  destruct (m fs) as [fs1 [x|e]]; simpl in *; [by rewrite Hk|done].
Qed.

(** A step that fails before writing writes nothing. *)
Lemma touches_lift_bind {A B} S (r : result A) (k : A -> io B) :
  (forall x, r = Ok x -> touches S (k x)) -> touches S (io_bind (io_lift r) k).
Proof. intros Hk fs p Hp. unfold io_bind, io_lift. destruct r as [x|e]; simpl; [by apply Hk|done]. Qed.

Lemma touches_for {A} S (body : A -> io unit) xs :
  (forall x, x ∈ xs -> touches S (body x)) -> touches S (io_for body xs).
Proof.
  induction xs as [|x xs IH]; intros Hb; [apply touches_ret|].
  apply touches_bind; [apply Hb; left|intros _; apply IH; intros y Hy; apply Hb; by right].
Qed.

Lemma touches_weaken {A} (S S' : pystr -> Prop) (m : io A) :
  touches S m -> (forall p, S p -> S' p) -> touches S' m.
Proof. intros Hm HS fs p Hp. apply Hm. auto. Qed.

(** What [m] keeps at [p] when it writes elsewhere. *)
Lemma touches_keep {A} S (m : io A) fs fs' r p : touches S m -> m fs = (fs', r) -> ~ S p -> files fs' !! p = files fs !! p.
Proof. intros Hm Hfs Hp. pose proof (Hm fs p Hp) as H. by rewrite Hfs in H. Qed.

#[local] Hint Resolve touches_ret touches_lift touches_mkdir touches_bind touches_for : core.

(** ** Paths *)

Lemma split_path_join a b :
  "/"%char ∉ b -> b <> [] -> exists pre, py_split "/" (path_join a b) = pre ++ [b].
Proof.
  intros Hb Hne. destruct b as [|c b']; [done|].
  assert (c <> "/"%char) by (intros ->; apply Hb; left).
  unfold path_join. rewrite decide_False by (simpl; congruence).
  case_decide as Ha; [destruct Ha as [->|Hl]|].
  - exists []. by apply py_split_no_sep_single.
  - apply last_Some in Hl as [a0 ->]. rewrite <- app_assoc. simpl.
    exists (py_split "/" a0). rewrite py_split_app. by rewrite (py_split_no_sep_single _ (c :: b')).
  - exists (py_split "/" a). rewrite py_split_app. by rewrite (py_split_no_sep_single _ (c :: b')).
Qed.

Lemma last_path_join a b : "/"%char ∉ b -> b <> [] -> last (path_join a b) = last b.
Proof.
  intros Hb Hne. destruct b as [|c b']; [done|].
  assert (c <> "/"%char) by (intros ->; apply Hb; left).
  unfold path_join. rewrite decide_False by (simpl; congruence).
  case_decide; [apply last_app_ne|apply (last_app_ne a ("/"%char :: c :: b'))]; done.
Qed.

Lemma split_join3 a s n :
  "/"%char ∉ s -> s <> [] -> "/"%char ∉ n -> n <> [] ->
  exists pre, py_split "/" (join3 a s n) = pre ++ [s; n].
Proof.
  intros Hs Hsne Hn Hnne. destruct (split_path_join a s Hs Hsne) as [pre Hpre].
  exists pre. unfold join3, path_join at 1.
  destruct n as [|c n']; [done|]. assert (c <> "/"%char) by (intros ->; apply Hn; left).
  rewrite decide_False by (simpl; congruence).
  rewrite decide_False.
  - rewrite py_split_app, Hpre, (py_split_no_sep_single _ (c :: n')) by done. by rewrite <- app_assoc.
  - rewrite last_path_join by done. intros [Hx|Hl].
    + pose proof (last_path_join a s Hs Hsne) as Hl. rewrite Hx in Hl. symmetry in Hl. by apply last_None in Hl.
    + apply last_Some_elem_of in Hl. contradiction.
Qed.

(** Different directories or names give different paths. *)
Lemma join3_inj a s n s' n' :
  "/"%char ∉ s -> s <> [] -> "/"%char ∉ n -> n <> [] ->
  "/"%char ∉ s' -> s' <> [] -> "/"%char ∉ n' -> n' <> [] ->
  join3 a s n = join3 a s' n' -> s = s' /\ n = n'.
Proof.
  intros ???????? Heq.
  destruct (split_join3 a s n) as [pre Hp]; [done..|]. destruct (split_join3 a s' n') as [pre' Hp']; [done..|].
  rewrite Heq, Hp' in Hp.
  assert (Hq : (pre' ++ [s']) ++ [n'] = (pre ++ [s]) ++ [n]) by (rewrite <- !app_assoc; exact Hp).
  apply app_inj_tail in Hq as [Hq ->]. by apply app_inj_tail in Hq as [_ ->].
Qed.

Lemma swbd_file_name_ok s k :
  "/"%char ∉ s -> "/"%char ∉ k -> ("/"%char ∉ swbd_file_name s k) /\ swbd_file_name s k <> [].
Proof.
  intros Hs Hk. unfold swbd_file_name. split; [|by destruct s].
  repeat (apply not_elem_of_app; split); try done; by apply (bool_decide_unpack _).
Qed.

Lemma swbd_file_name_inj s k k' : swbd_file_name s k = swbd_file_name s k' -> k = k'.
Proof. unfold swbd_file_name. intros H. apply app_inv_head in H. apply app_inv_head in H. by apply app_inv_tail in H. Qed.

(** ** Dictionary entries *)

Section Items.
Variable items : forall V, gmap pystr V -> list (pystr * V).
Hypothesis items_perm : forall V (m : gmap pystr V), items V m ≡ₚ map_to_list m.

Lemma elem_of_items {V} (m : gmap pystr V) k v : (k, v) ∈ items V m <-> m !! k = Some v.
Proof. by rewrite items_perm, elem_of_map_to_list. Qed.

Lemma items_key_ne {V} (m : gmap pystr V) x y : x ∈ items V m -> y ∈ items V m -> y <> x -> y.1 <> x.1.
Proof.
  destruct x as [k v], y as [k' v']. rewrite !elem_of_items. simpl. intros Hx Hy Hne ->. congruence.
Qed.

End Items.

(** ** One save loop over a dictionary

    [for k, v in d.items(): body(k, v)] with a contract for one body: what
    it establishes ([P]), when it succeeds ([ok]), the paths it writes
    ([T]) and the paths [P] reads ([R]); the bodies of different keys
    write where the others read nothing.  Then the loop succeeds exactly
    when every body may, and every entry's [P] holds at the end. *)
Section Flat.
Context {V : Type} `{EqDecision V}.
Variable items : forall V, gmap pystr V -> list (pystr * V).
Hypothesis items_perm : forall V (m : gmap pystr V), items V m ≡ₚ map_to_list m.
Variable body : pystr * V -> io unit.
Variable good : pystr -> Prop.
Variable ok : pystr -> V -> Prop.
Variable P : pystr -> V -> fsys -> Prop.
Variable T R : pystr -> pystr -> Prop.

Hypothesis body_Ok : forall k v fs fs', good k -> body (k, v) fs = (fs', Ok tt) -> P k v fs'.
Hypothesis P_ok : forall k v fs, P k v fs -> ok k v.
Hypothesis body_succeeds : forall k v, ok k v -> succeeds (body (k, v)).
Hypothesis body_touches : forall k v, good k -> touches (T k) (body (k, v)).
Hypothesis P_frame : forall k v fs fs',
  (forall p, R k p -> files fs' !! p = files fs !! p) -> P k v fs -> P k v fs'.
Hypothesis T_R_disjoint : forall k k' p, good k -> good k' -> k' <> k -> T k' p -> ~ R k p.

(** [P] of an entry, kept by writes elsewhere. *)
Lemma P_keep {A} S (m : io A) k v fs fs' r :
  touches S m -> m fs = (fs', r) -> (forall p, S p -> ~ R k p) -> P k v fs -> P k v fs'.
Proof.
  intros Hm Hrun Hdis. apply P_frame. intros p Hp. eapply touches_keep; [done..|]. intros HS. by apply (Hdis p).
Qed.

Lemma flat_Ok d fs fs' :
  map_Forall (fun k _ => good k) d -> io_for body (items _ d) fs = (fs', Ok tt) ->
  forall k v, d !! k = Some v -> P k v fs'.
Proof.
  intros Hg Hrun k v Hkv.
  refine (io_for_establish _ (fun x fs => P x.1 x.2 fs) _ _ _ Hrun _ _ (k, v) _); [| |by apply elem_of_items].
  - intros [k1 v1] ? ? Hx. apply elem_of_items in Hx; [|done]. apply body_Ok, (Hg _ _ Hx).
  - intros [k1 v1] [k2 v2] ? ? Hx Hy Hyx HP Hb. simpl in *.
    pose proof (items_key_ne items items_perm d _ _ Hx Hy Hyx) as Hne. simpl in Hne.
    apply elem_of_items in Hx, Hy; [|done..].
    eapply P_keep; [apply body_touches, (Hg _ _ Hy)|exact Hb| |exact HP]. intros p HT.
    apply (T_R_disjoint k1 k2 p); [apply (Hg _ _ Hx)|apply (Hg _ _ Hy)|done|done].
Qed.

Lemma flat_succeeds d :
  (forall k v, d !! k = Some v -> ok k v) -> succeeds (io_for body (items _ d)).
Proof.
  intros Hall. apply io_for_succeeds. intros [k v] Hx. apply elem_of_items in Hx; [|done].
  by apply body_succeeds, Hall.
Qed.

Theorem flat_spec d fs :
  map_Forall (fun k _ => good k) d ->
  ((io_for body (items _ d) fs).2 = Ok tt <-> forall k v, d !! k = Some v -> ok k v) /\
  ((io_for body (items _ d) fs).2 = Ok tt -> forall k v, d !! k = Some v -> P k v (io_for body (items _ d) fs).1).
Proof.
  intros Hg. destruct (io_for body (items _ d) fs) as [fs' r] eqn:Hrun. simpl.
  split; [split|].
  - intros -> k v Hkv. eapply P_ok, (flat_Ok d fs fs'); done.
  - intros Hall. destruct (flat_succeeds d Hall fs) as [[] Hr]. by rewrite Hrun in Hr.
  - intros -> k v Hkv. eapply flat_Ok; done.
Qed.

End Flat.

(** ** Two nested save loops

    [for s, ud in d.items(): pre(s); for k, v in ud.items(): body(s, k, v)]
    with a contract for one body: what it establishes ([P]), when it
    succeeds ([ok]), the paths it writes ([T]) and the paths [P] reads
    ([R]); bodies of different entries write where the others read
    nothing.  Then the loops succeed exactly when every body may, and
    every entry's [P] holds at the end. *)
Section Nested.
Context {V : Type} `{EqDecision V}.
Variable items : forall V, gmap pystr V -> list (pystr * V).
Hypothesis items_perm : forall V (m : gmap pystr V), items V m ≡ₚ map_to_list m.
Variable pre : pystr -> io unit.
Variable body : pystr -> pystr * V -> io unit.
Variable good : pystr -> pystr -> Prop.
Variable ok : pystr -> pystr -> V -> Prop.
Variable P : pystr -> pystr -> V -> fsys -> Prop.
Variable T R : pystr -> pystr -> pystr -> Prop.

Hypothesis pre_succeeds : forall s, succeeds (pre s).
Hypothesis pre_touches : forall s, touches (fun _ => False) (pre s).
Hypothesis body_Ok : forall s k v fs fs', good s k -> body s (k, v) fs = (fs', Ok tt) -> P s k v fs'.
Hypothesis P_ok : forall s k v fs, P s k v fs -> ok s k v.
Hypothesis body_succeeds : forall s k v, ok s k v -> succeeds (body s (k, v)).
Hypothesis body_touches : forall s k v, good s k -> touches (T s k) (body s (k, v)).
Hypothesis P_frame : forall s k v fs fs',
  (forall p, R s k p -> files fs' !! p = files fs !! p) -> P s k v fs -> P s k v fs'.
Hypothesis T_R_disjoint : forall s k s' k' p,
  good s k -> good s' k' -> (s', k') <> (s, k) -> T s' k' p -> ~ R s k p.

Definition nested (d : gmap pystr (gmap pystr V)) : io unit :=
  io_for (fun '(s, ud) => _ <-- pre s ;;; io_for (body s) (items _ ud)) (items _ d).

Definition all_good (d : gmap pystr (gmap pystr V)) : Prop :=
  forall s ud k v, d !! s = Some ud -> ud !! k = Some v -> good s k.

Lemma nested_speaker_touches s ud :
  map_Forall (fun k _ => good s k) ud ->
  touches (fun p => exists k, good s k /\ T s k p) (_ <-- pre s ;;; io_for (body s) (items _ ud)).
Proof.
  intros Hg. apply touches_bind; [eapply touches_weaken; [apply pre_touches|done]|]. intros _.
  apply touches_for. intros [k v] Hx. apply elem_of_items in Hx; [|done].
  eapply touches_weaken; [apply body_touches, (Hg k v Hx)|]. intros p Hp. exists k. split; [apply (Hg k v Hx)|done].
Qed.

Lemma nested_speaker_Ok s ud fs fs' :
  map_Forall (fun k _ => good s k) ud ->
  (_ <-- pre s ;;; io_for (body s) (items _ ud)) fs = (fs', Ok tt) ->
  forall k v, ud !! k = Some v -> P s k v fs'.
Proof.
  intros Hg Hrun. apply io_bind_Ok in Hrun as ([] & fs1 & _ & Hrun).
  eapply (flat_Ok items items_perm (body s) (good s) (P s) (T s) (R s)); [..|exact Hg|exact Hrun].
  - intros k v ? ? ?. by apply body_Ok.
  - intros k v ?. by apply body_touches.
  - intros k v ? ?. apply P_frame.
  - intros k k' p ? ? Hne. apply T_R_disjoint; [done|done|congruence].
Qed.

Theorem nested_spec d fs :
  all_good d ->
  ((nested d fs).2 = Ok tt <-> forall s ud k v, d !! s = Some ud -> ud !! k = Some v -> ok s k v) /\
  ((nested d fs).2 = Ok tt -> forall s ud k v, d !! s = Some ud -> ud !! k = Some v -> P s k v (nested d fs).1).
Proof.
  intros Hg. unfold nested. destruct (io_for _ (items _ d) fs) as [fs' r] eqn:Hrun. simpl.
  assert (HP : r = Ok tt -> forall s ud k v, d !! s = Some ud -> ud !! k = Some v -> P s k v fs').
  { intros -> s ud k v Hs Hkv.
    refine (io_for_establish _ (fun x fs => forall k v, x.2 !! k = Some v -> P x.1 k v fs)
              _ _ _ Hrun _ _ (s, ud) _ k v Hkv); [| |by apply elem_of_items].
    - intros [s1 ud1] ? ? Hx Hb. apply elem_of_items in Hx; [|done].
      eapply nested_speaker_Ok; [|exact Hb]. intros k1 v1 Hk1. by apply (Hg s1 ud1 k1 v1).
    - intros [s1 ud1] [s2 ud2] ? ? Hx Hy Hyx HP Hb k1 v1 Hk1. simpl in *.
      pose proof (items_key_ne items items_perm d _ _ Hx Hy Hyx) as Hne. simpl in Hne.
      apply elem_of_items in Hx, Hy; [|done..].
      apply (P_frame s1 k1 v1 fs1 fs2); [|by apply HP]. intros p Hp.
      eapply touches_keep; [apply nested_speaker_touches|exact Hb|].
      + intros k2 v2 Hk2. by apply (Hg s2 ud2 k2 v2).
      + intros (k2 & Hg2 & HT). apply (T_R_disjoint s1 k1 s2 k2 p); [by apply (Hg s1 ud1 k1 v1)|done|congruence|done|done]. }
  split; [split|done].
  - intros Hok s ud k v Hs Hkv. apply (P_ok s k v fs'). by apply (HP Hok s ud).
  - intros Hall. destruct (io_for_succeeds (fun '(s, ud) => _ <-- pre s ;;; io_for (body s) (items _ ud)) (items _ d))
      with fs as [[] Hr]; [|by rewrite Hrun in Hr].
    intros [s ud] Hx. apply elem_of_items in Hx; [|done].
    apply succeeds_bind; [apply pre_succeeds|]. intros _. apply io_for_succeeds.
    intros [k v] Hy. apply elem_of_items in Hy; [|done]. apply body_succeeds, (Hall s ud k v); done.
Qed.

End Nested.

(** * Switchboard *)

Section SwbdSpec.
Variable items : forall V, gmap pystr V -> list (pystr * V).
Hypothesis items_perm : forall V (m : gmap pystr V), items V m ≡ₚ map_to_list m.
Variable char2num : pystr -> pystr -> result (list Z).
Variables save_path mapping_file_path : pystr.

Definition swbd_path (s k : pystr) : pystr := join3 save_path s (swbd_file_name s k).

(** Speaker names and utterance keys are single path components. *)
Definition names_ok (sd : gmap pystr (gmap pystr (pystr * pystr * pystr))) : Prop :=
  map_Forall (fun s ud => ("/"%char ∉ s) /\ s <> [] /\ map_Forall (fun k _ => "/"%char ∉ k) ud) sd.

(** The file of utterance [k] of [s] holds the conversion of [t]. *)
Definition swbd_saved (fs : fsys) (s k t : pystr) : Prop :=
  exists idx, char2num t mapping_file_path = Ok idx /\ files fs !! swbd_path s k = Some (NpyIdx idx).

Lemma swbd_path_ne s k s' k' :
  "/"%char ∉ s -> s <> [] -> "/"%char ∉ k -> "/"%char ∉ s' -> s' <> [] -> "/"%char ∉ k' ->
  (s, k) <> (s', k') -> swbd_path s k <> swbd_path s' k'.
Proof.
  intros ?????? Hne Heq. destruct (swbd_file_name_ok s k), (swbd_file_name_ok s' k'); try done.
  apply join3_inj in Heq as [-> Hn]; try done. apply swbd_file_name_inj in Hn. congruence.
Qed.

Lemma swbd_save_utt_touches s x :
  touches (fun p => p = swbd_path s x.1) (swbd_save_utt char2num save_path mapping_file_path s x).
Proof. destruct x as [k [[a b] t]]. apply touches_bind; [apply touches_lift|]. intros idx. by apply touches_np_save. Qed.

Lemma swbd_save_utt_Ok s x fs fs' :
  swbd_save_utt char2num save_path mapping_file_path s x fs = (fs', Ok tt) -> swbd_saved fs' s x.1 x.2.2.
Proof.
  destruct x as [k [[a b] t]]. unfold swbd_save_utt, io_bind, io_lift. simpl.
  destruct (char2num t _) as [idx|e] eqn:Hc; simpl; [|by intros [=]]. intros [= <-]. exists idx. split; [done|].
  simpl. by rewrite lookup_insert_eq.
Qed.

Lemma swbd_save_utt_succeeds s x :
  is_Ok (char2num x.2.2 mapping_file_path) -> succeeds (swbd_save_utt char2num save_path mapping_file_path s x).
Proof.
  destruct x as [k [[a b] t]]. intros [idx Hidx] fs. simpl in Hidx. unfold swbd_save_utt, io_bind, io_lift. simpl.
  rewrite Hidx. by eexists.
Qed.

Lemma swbd_save_nested sd :
  swbd_save items char2num save_path mapping_file_path sd =
  nested items (fun s => mkdir (path_join save_path s)) (swbd_save_utt char2num save_path mapping_file_path) sd.
Proof. reflexivity. Qed.

Lemma names_ok_good sd :
  names_ok sd -> all_good (fun s k => ("/"%char ∉ s) /\ s <> [] /\ ("/"%char ∉ k)) sd.
Proof. intros Hn s ud k v Hs Hk. destruct (Hn s ud Hs) as (? & ? & Hks). split_and!; [done|done|by apply (Hks k v)]. Qed.

(** C31: The Switchboard save loop (lines 86-97) ends without an
    exception exactly when [char2num] converts every stored transcript;
    then the file [save_path/speaker/speaker_key.npy] of every utterance
    holds the conversion of its transcript, none overwritten by
    another, whatever order the dictionaries are listed in (speaker names
    and keys being single path components). *)
Theorem swbd_save_spec sd fs :
  names_ok sd ->
  ((swbd_save items char2num save_path mapping_file_path sd fs).2 = Ok tt <->
     forall s ud k v, sd !! s = Some ud -> ud !! k = Some v -> is_Ok (char2num v.2 mapping_file_path)) /\
  ((swbd_save items char2num save_path mapping_file_path sd fs).2 = Ok tt ->
     forall s ud k v, sd !! s = Some ud -> ud !! k = Some v ->
       swbd_saved (swbd_save items char2num save_path mapping_file_path sd fs).1 s k v.2).
Proof.
  intros Hn. rewrite swbd_save_nested.
  apply (nested_spec items items_perm _ _ (fun s k => ("/"%char ∉ s) /\ s <> [] /\ ("/"%char ∉ k))
           (fun _ _ v => is_Ok (char2num v.2 mapping_file_path)) (fun s k v fs => swbd_saved fs s k v.2)
           (fun s k p => p = swbd_path s k) (fun s k p => p = swbd_path s k)); last by apply names_ok_good.
  - intros s' fs'. by eexists.
  - intros s'. apply touches_mkdir.
  - intros s' k v ? ? _. apply (swbd_save_utt_Ok s' (k, v)).
  - intros ? ? ? ? (idx & Hc & _). by eexists.
  - intros s' k v Hc. apply (swbd_save_utt_succeeds s' (k, v) Hc).
  - intros s' k v _. apply (swbd_save_utt_touches s' (k, v)).
  - intros s' k v fs1 fs2 Hkeep (idx & Hc & Hf). exists idx. split; [done|]. by rewrite Hkeep.
  - intros s1 k1 s2 k2 p (? & ? & ?) (? & ? & ?) Hne Hp1 Hp2. subst p. by apply (swbd_path_ne s2 k2 s1 k1).
Qed.

(** What [read_trans] stores uses the symbols of its mapping file. *)
Lemma read_trans_symbols_of files sd syms s ud k v :
  Swbd.read_trans files = Ok (sd, syms) -> sd !! s = Some ud -> ud !! k = Some v ->
  Forall (fun c => [c] ∈ syms) v.2.
Proof.
  intros (st & [Hd _] & -> & ->)%Swbd.read_trans_state Hs Hk. destruct v as [v t].
  eapply Forall_impl; [exact (Hd _ _ Hs _ _ Hk)|]. intros c [[_ Hl] Hin].
  apply Swbd.elem_of_mapping_symbols. destruct Hl as [Hl|[->| ->]]; [rewrite Hl in Hin|..]; auto.
Qed.

(** C30: Reading and saving compose: when [char2num] converts every
    string over the symbols of the mapping file, the save loop run on the
    [speaker_dict] that [read_trans] returns raises nothing and leaves
    every stored utterance in its own file, converted. *)
Theorem swbd_read_save files sd syms fs :
  Swbd.read_trans files = Ok (sd, syms) -> names_ok sd ->
  (forall t, Forall (fun c => [c] ∈ syms) t -> is_Ok (char2num t mapping_file_path)) ->
  (swbd_save items char2num save_path mapping_file_path sd fs).2 = Ok tt /\
  forall s ud k v, sd !! s = Some ud -> ud !! k = Some v ->
    swbd_saved (swbd_save items char2num save_path mapping_file_path sd fs).1 s k v.2.
Proof.
  intros Hr Hn Hconv. destruct (swbd_save_spec sd fs Hn) as [[_ Hok] Hsaved].
  assert (Hres : (swbd_save items char2num save_path mapping_file_path sd fs).2 = Ok tt).
  { apply Hok. intros s ud k v Hs Hk. apply Hconv. by eapply read_trans_symbols_of. }
  split; [done|]. by apply Hsaved.
Qed.

End SwbdSpec.

(** * TIMIT *)

Lemma text_save_name_phone : text_save_name = TimitPhone.save_file_name.
Proof. reflexivity. Qed.

(** A save name is one path component. *)
Lemma text_save_name_ok p n : text_save_name p = Ok n -> ("/"%char ∉ n) /\ n <> [].
Proof.
  unfold text_save_name.
  destruct (py_get (py_split "/" p) (-2)) as [sn|e] eqn:E1; [|done].
  destruct (py_get (py_split "/" p) (-1)) as [b|e] eqn:E2; [|done].
  destruct (py_get (py_split "." b) 0) as [fname|e] eqn:E3; [|done]. intros [= <-].
  apply py_get_elem in E1, E2, E3. split; [|by destruct sn].
  apply not_elem_of_app. split; [by apply (py_split_no_sep _ p)|].
  apply not_elem_of_cons. split; [by apply (bool_decide_unpack _)|].
  apply not_elem_of_app. split; [|by apply (bool_decide_unpack _)].
  intros Hc. apply (py_split_no_sep "/" p b E2). by apply (py_split_chars "." b fname).
Qed.

Lemma path_join_inj a n n' :
  "/"%char ∉ n -> n <> [] -> "/"%char ∉ n' -> n' <> [] -> path_join a n = path_join a n' -> n = n'.
Proof.
  intros Hn Hne Hn' Hne'. destruct n as [|c n]; [done|]. destruct n' as [|c' n']; [done|].
  assert (c <> "/"%char) by (intros ->; apply Hn; left). assert (c' <> "/"%char) by (intros ->; apply Hn'; left).
  unfold path_join. simpl head. rewrite (decide_False (P := Some c = Some "/"%char)) by congruence.
  rewrite (decide_False (P := Some c' = Some "/"%char)) by congruence.
  case_decide; intros Heq; apply app_inv_head in Heq; congruence.
Qed.

Section TimitTextSpec.
Variable items : forall V, gmap pystr V -> list (pystr * V).
Hypothesis items_perm : forall V (m : gmap pystr V), items V m ≡ₚ map_to_list m.
Variable char2num : pystr -> pystr -> bool -> result (list Z).
Variables save_path mapping_file_path : pystr.
Variable divide_by_capital : bool.

(** Different label files have different save names. *)
Definition save_names_distinct (d : gmap pystr pystr) : Prop :=
  forall p1 p2 n, is_Some (d !! p1) -> is_Some (d !! p2) ->
    text_save_name p1 = Ok n -> text_save_name p2 = Ok n -> p1 = p2.

Definition text_saved (fs : fsys) (label_path transcript : pystr) : Prop :=
  exists n idx, text_save_name label_path = Ok n /\ char2num transcript mapping_file_path divide_by_capital = Ok idx /\
    files fs !! path_join save_path n = Some (NpyIdx idx).

Definition text_ok (label_path transcript : pystr) : Prop :=
  is_Ok (text_save_name label_path) /\ is_Ok (char2num transcript mapping_file_path divide_by_capital).

Definition text_writes (label_path p : pystr) : Prop :=
  exists n, text_save_name label_path = Ok n /\ p = path_join save_path n.

Lemma text_save_one_Ok x fs fs' :
  text_save_one char2num save_path mapping_file_path divide_by_capital x fs = (fs', Ok tt) -> text_saved fs' x.1 x.2.
Proof.
  destruct x as [lp t]. unfold text_save_one, io_bind, io_lift. simpl.
  destruct (text_save_name lp) as [n|e] eqn:E1; simpl; [|by intros [=]].
  destruct (char2num t _ _) as [idx|e] eqn:E2; simpl; [|by intros [=]]. intros [= <-].
  exists n, idx. split_and!; [done|done|]. simpl. by rewrite lookup_insert_eq.
Qed.

Lemma text_save_one_succeeds x : text_ok x.1 x.2 -> succeeds (text_save_one char2num save_path mapping_file_path divide_by_capital x).
Proof.
  destruct x as [lp t]. intros [[n E1] [idx E2]] fs. simpl in *. unfold text_save_one, io_bind, io_lift.
  rewrite E1. simpl. rewrite E2. by eexists.
Qed.

Lemma text_save_one_touches x : touches (text_writes x.1) (text_save_one char2num save_path mapping_file_path divide_by_capital x).
Proof.
  destruct x as [lp t]. apply touches_lift_bind. intros n E1.
  apply touches_bind; [auto|intros idx]. apply touches_np_save. by exists n.
Qed.

(** C32: The TIMIT sentence save loop (lines 141-154) ends without an
    exception exactly when every label path gives a save name
    ([speaker_file.npy], from its last two components) and [char2num]
    converts every transcript; then, when different label files have
    different save names, each file holds the conversion of its
    transcript. *)
Theorem text_save_spec d fs :
  save_names_distinct d ->
  ((text_save items char2num (Some save_path) mapping_file_path divide_by_capital d fs).2 = Ok tt <->
     forall lp t, d !! lp = Some t -> text_ok lp t) /\
  ((text_save items char2num (Some save_path) mapping_file_path divide_by_capital d fs).2 = Ok tt ->
     forall lp t, d !! lp = Some t ->
       text_saved (text_save items char2num (Some save_path) mapping_file_path divide_by_capital d fs).1 lp t).
Proof.
  intros Hd. unfold text_save.
  apply (flat_spec items items_perm _ (fun lp => is_Some (d !! lp)) text_ok
           (fun lp t fs => text_saved fs lp t) text_writes text_writes).
  - intros lp t ? ? _. apply (text_save_one_Ok (lp, t)).
  - intros lp t ? (n & idx & E1 & E2 & _). split; by eexists.
  - intros lp t. apply (text_save_one_succeeds (lp, t)).
  - intros lp t _. apply (text_save_one_touches (lp, t)).
  - intros lp t fs1 fs2 Hkeep (n & idx & E1 & E2 & Hf). exists n, idx. split_and!; [done|done|].
    rewrite Hkeep; [done|]. by exists n.
  - intros k k' p Hk Hk' Hne (n' & E1 & ->) (n & E2 & Hp).
    destruct (text_save_name_ok _ _ E1), (text_save_name_ok _ _ E2).
    apply path_join_inj in Hp; [subst|done..]. apply Hne. by apply (Hd k' k n).
  - intros k v Hk. by eexists.
Qed.

End TimitTextSpec.

(** ** TIMIT phones: the fused loop refines [read_phone] *)

Lemma io_for_cons_Ok {A} (body : A -> io unit) x xs fs :
  (io_for body (x :: xs) fs).2 = Ok tt <-> (body x fs).2 = Ok tt /\ (io_for body xs (body x fs).1).2 = Ok tt.
Proof. simpl. unfold io_bind. destruct (body x fs) as [fs1 [[]|e]]; simpl; intuition congruence. Qed.

Lemma map_result_Forall_cons {A B} (f : A -> result B) (P : B -> Prop) x xs :
  (exists ys, map_result f (x :: xs) = Ok ys /\ Forall P ys) <->
  (exists y, f x = Ok y /\ P y) /\ (exists ys, map_result f xs = Ok ys /\ Forall P ys).
Proof.
  simpl. split.
  - intros (ys & H & HP). destruct (f x) as [y|e]; [|done]. simpl in H.
    destruct (map_result f xs) as [ys'|e]; [|done]. injection H as <-. apply Forall_cons in HP as [? ?].
    split; eexists; split; done.
  - intros ((y & -> & Py) & ys & -> & HP). eexists. split; [done|]. by constructor.
Qed.

Section TimitPhoneSpec.
Variable map_phone2phone : list pystr -> pystr -> result (list pystr).
Variable phone2num : list pystr -> pystr -> result (list Z).
Variables run_root_path label_type model : pystr.
Variable table : list pystr.
Variable save_path : option pystr.

Lemma phone_save_one_Ok label fs :
  (phone_save_one map_phone2phone phone2num run_root_path label_type model table save_path label fs).2 = Ok tt <->
  exists o, TimitPhone.read_phone_file map_phone2phone label_type model table label = Ok o /\
    is_Ok (phone2num o.2 (phone_mapping_path run_root_path model label_type)).
Proof.
  unfold phone_save_one, io_bind, io_lift. simpl.
  destruct (TimitPhone.read_phone_file _ _ _ _ _) as [[[n sy] ps]|e]; simpl;
    [|split; [done|by intros (? & ? & _)]].
  destruct (phone2num ps _) as [idx|e] eqn:E; simpl.
  - split; [intros _; exists (n, sy, ps); split; [done|]; simpl; rewrite E; by eexists|]. by destruct save_path.
  - split; [done|]. intros (? & [= <-] & ? & ?). simpl in *. congruence.
Qed.

(** C33: Refinement of [read_phone] by the code's loop: the loop of lines
    29-89 of src/timit/labels/phone.py, which reads, maps, converts and
    saves each label file before the next, ends without an exception
    exactly when [read_phone] (the reading and mapping of every file, as
    [TimitPhone] models it) succeeds and [phone2num] converts every phone
    list it returns with the mapping file of [model] and [label_type]. *)
Theorem read_phone_save_refines labels fs :
  (read_phone_save map_phone2phone phone2num labels label_type run_root_path model table save_path fs).2 = Ok tt <->
  exists outs, TimitPhone.read_phone map_phone2phone labels label_type model table = Ok outs /\
    Forall (fun o => is_Ok (phone2num o.2 (phone_mapping_path run_root_path model label_type))) outs.
Proof.
  unfold read_phone_save, TimitPhone.read_phone. case_decide; [split; [done|by intros (? & ? & _)]|].
  revert fs. induction labels as [|l ls IH]; intros fs; [split; [intros _; by exists []|done]|].
  rewrite io_for_cons_Ok, map_result_Forall_cons, phone_save_one_Ok, IH. done.
Qed.

End TimitPhoneSpec.

(** * CSJ *)

#[local] Instance utt_eq_dec : EqDecision utt.
Proof. solve_decision. Defined.

(** A save directory: not empty, no trailing separator. *)
Definition dir_ok (a : pystr) : Prop := a <> [] /\ last a <> Some "/"%char.

Lemma split_join3_dir a s n :
  dir_ok a -> "/"%char ∉ s -> s <> [] -> "/"%char ∉ n -> n <> [] ->
  py_split "/" (join3 a s n) = py_split "/" a ++ [s; n].
Proof.
  intros [Ha Hl] Hs Hsne Hn Hnne.
  assert (Hps : path_join a s = a ++ "/"%char :: s).
  { unfold path_join. destruct s as [|c s']; [done|].
    rewrite decide_False by (simpl; intros [= ->]; apply Hs; left). rewrite decide_False; [done|]. tauto. }
  destruct (split_join3 a s n) as [pre Hpre]; [done..|]. unfold join3 in *. rewrite Hps in Hpre |- *.
  unfold path_join at 1. destruct n as [|c n']; [done|].
  rewrite decide_False by (simpl; intros [= ->]; apply Hn; left).
  rewrite decide_False.
  - rewrite !py_split_app, (py_split_no_sep_single _ s), (py_split_no_sep_single _ (c :: n')) by done.
    by rewrite <- app_assoc.
  - rewrite last_app_ne, last_cons_ne by done. intros [Hx|Hx]; [by destruct a|]. apply last_Some_elem_of in Hx. contradiction.
Qed.

Lemma join3_dir_inj a b s n s' n' :
  dir_ok a -> dir_ok b -> "/"%char ∉ s -> s <> [] -> "/"%char ∉ n -> n <> [] ->
  "/"%char ∉ s' -> s' <> [] -> "/"%char ∉ n' -> n' <> [] ->
  join3 a s n = join3 b s' n' -> a = b /\ s = s' /\ n = n'.
Proof.
  intros Ha Hb ???????? Heq. apply (f_equal (py_split "/")) in Heq.
  rewrite !split_join3_dir in Heq by done.
  assert (Hq : (py_split "/" a ++ [s]) ++ [n] = (py_split "/" b ++ [s']) ++ [n']) by (rewrite <- !app_assoc; exact Heq).
  apply app_inj_tail in Hq as [Hq ->]. apply app_inj_tail in Hq as [Hq ->]. split; [|done].
  rewrite <- (py_join_split "/" a), <- (py_join_split "/" b). by rewrite Hq.
Qed.

Lemma csj_file_name_ok s k :
  "/"%char ∉ s -> "/"%char ∉ k -> ("/"%char ∉ csj_file_name s k) /\ csj_file_name s k <> [].
Proof. apply swbd_file_name_ok. Qed.

Lemma csj_file_name_inj s k k' : csj_file_name s k = csj_file_name s k' -> k = k'.
Proof. apply swbd_file_name_inj. Qed.

Section CsjSpec.
Variable items : forall V, gmap pystr V -> list (pystr * V).
Hypothesis items_perm : forall V (m : gmap pystr V), items V m ≡ₚ map_to_list m.
Variable kana2num : ustr -> pystr -> result (list Z).
Variable phone2num : list ustr -> pystr -> result (list Z).
Variables kanji_save_path kana_save_path phone_save_path : pystr.
Variables kanji_map kana_map phone_map : pystr.
Variable is_test : bool.
Variable kana2phone_dict : gmap ustr ustr.

Definition csj_dirs_ok : Prop :=
  dir_ok kanji_save_path /\ dir_ok kana_save_path /\ dir_ok phone_save_path /\
  kanji_save_path <> kana_save_path /\ kanji_save_path <> phone_save_path /\ kana_save_path <> phone_save_path.

Definition csj_path (a s k : pystr) : pystr := join3 a s (csj_file_name s k).

Definition csj_good (s k : pystr) : Prop := ("/"%char ∉ s) /\ s <> [] /\ ("/"%char ∉ k).

(** The conversions of one utterance succeed. *)
Definition csj_ok (u : utt) : Prop :=
  (is_test = true \/ (is_Ok (kana2num (u_kanji u) kanji_map) /\ is_Ok (kana2num (u_kana u) kana_map))) /\
  exists ps, trans_phone_list kana2phone_dict (u_kana u) = Ok ps /\ is_Ok (phone2num ps phone_map).

(** The three files of utterance [k] of [s]. *)
Definition csj_saved (fs : fsys) (s k : pystr) (u : utt) : Prop :=
  (if is_test then files fs !! csj_path kanji_save_path s k = Some (NpyText (u_kanji u)) /\
                   files fs !! csj_path kana_save_path s k = Some (NpyText (u_kana u))
   else exists i1 i2, kana2num (u_kanji u) kanji_map = Ok i1 /\ kana2num (u_kana u) kana_map = Ok i2 /\
          files fs !! csj_path kanji_save_path s k = Some (NpyIdx i1) /\
          files fs !! csj_path kana_save_path s k = Some (NpyIdx i2)) /\
  exists ps idx, trans_phone_list kana2phone_dict (u_kana u) = Ok ps /\ phone2num ps phone_map = Ok idx /\
    files fs !! csj_path phone_save_path s k = Some (NpyIdx idx).

Definition csj_writes (s k p : pystr) : Prop :=
  p = csj_path kanji_save_path s k \/ p = csj_path kana_save_path s k \/ p = csj_path phone_save_path s k.

Lemma csj_path_ne a b s k s' k' :
  dir_ok a -> dir_ok b -> csj_good s k -> csj_good s' k' -> (a, s, k) <> (b, s', k') ->
  csj_path a s k <> csj_path b s' k'.
Proof.
  intros Ha Hb (? & ? & ?) (? & ? & ?) Hne Heq.
  destruct (csj_file_name_ok s k), (csj_file_name_ok s' k'); try done.
  apply join3_dir_inj in Heq as (-> & -> & Hn); try done. apply csj_file_name_inj in Hn. congruence.
Qed.

Definition csj_body : pystr -> pystr * utt -> io unit :=
  csj_save_utt kana2num phone2num kanji_save_path kana_save_path phone_save_path
    (kanji_map, kana_map, phone_map) is_test kana2phone_dict.

Lemma csj_body_Ok s k u fs fs' :
  csj_dirs_ok -> csj_good s k -> csj_body s (k, u) fs = (fs', Ok tt) -> csj_saved fs' s k u.
Proof.
  intros (Hk & Hn & Hp & Hkn & Hkp & Hnp) Hg.
  assert (Hne : forall a b, dir_ok a -> dir_ok b -> a <> b -> csj_path a s k <> csj_path b s k)
    by (intros a b Ha Hb Hab; apply csj_path_ne; auto; congruence).
  pose proof (Hne _ _ Hp Hk ltac:(congruence)). pose proof (Hne _ _ Hp Hn ltac:(congruence)).
  pose proof (Hne _ _ Hn Hk ltac:(congruence)).
  unfold csj_body, csj_save_utt, csj_saved, io_bind, io_lift, np_save. destruct is_test; simpl.
  2: destruct (kana2num (u_kanji u) kanji_map) as [i1|e] eqn:E1; simpl; [|by intros [=]];
     destruct (kana2num (u_kana u) kana_map) as [i2|e] eqn:E2; simpl; [|by intros [=]].
  all: destruct (trans_phone_list _ _) as [ps|e] eqn:E3; simpl; [|by intros [=]];
    destruct (phone2num ps phone_map) as [idx|e] eqn:E4; simpl; [|by intros [=]]; intros [= <-]; simpl;
    (split; [|exists ps, idx; split_and!; [done|done|by rewrite lookup_insert_eq]]).
  - split; [rewrite lookup_insert_ne, lookup_insert_ne by done|rewrite lookup_insert_ne by done];
      by rewrite lookup_insert_eq.
  - exists i1, i2. split_and!; [done|done| |].
    + rewrite lookup_insert_ne, lookup_insert_ne by done. by rewrite lookup_insert_eq.
    + rewrite lookup_insert_ne by done. by rewrite lookup_insert_eq.
Qed.

Lemma csj_saved_ok fs s k u : csj_saved fs s k u -> csj_ok u.
Proof.
  unfold csj_saved, csj_ok. intros [Hf (ps & idx & E3 & E4 & _)]. split; [|exists ps; split; [done|by eexists]].
  destruct is_test; [by left|right]. destruct Hf as (i1 & i2 & E1 & E2 & _). split; by eexists.
Qed.

Lemma csj_body_succeeds s k u : csj_ok u -> succeeds (csj_body s (k, u)).
Proof.
  intros [Hc (ps & E3 & [idx E4])] fs. unfold csj_body, csj_save_utt, io_bind, io_lift, np_save.
  destruct is_test; simpl; [|destruct Hc as [Hc|[[i1 E1] [i2 E2]]]; [done|rewrite E1; simpl; rewrite E2; simpl]];
    rewrite E3; simpl; rewrite E4; by eexists.
Qed.

Lemma csj_body_touches s k u : touches (csj_writes s k) (csj_body s (k, u)).
Proof.
  unfold csj_body, csj_save_utt. destruct is_test; simpl;
    repeat match goal with
    | |- forall _, _ => intros ?
    | |- touches _ (io_bind _ _) => apply touches_bind
    | |- touches _ (io_lift _) => apply touches_lift
    | |- touches _ (np_save _ _) => apply touches_np_save; unfold csj_writes, csj_path; tauto
    end.
Qed.

(** C29: The CSJ save loop (lines 323-396) ends without an exception
    exactly when, for every stored utterance, [kana2num] converts its
    kanji and kana transcripts (unless [is_test]), the kana-to-phone loop
    converts its kana and [phone2num] the phones; then each utterance
    has its three files: the kanji and kana indices (the strings
    themselves for the test set) and the phone indices, none overwritten,
    for three distinct save directories. *)
Theorem csj_save_spec sd fs :
  csj_dirs_ok -> all_good csj_good sd ->
  ((csj_save items kana2num phone2num kanji_save_path kana_save_path phone_save_path
      (kanji_map, kana_map, phone_map) is_test kana2phone_dict sd fs).2 = Ok tt <->
     forall s ud k u, sd !! s = Some ud -> ud !! k = Some u -> csj_ok u) /\
  ((csj_save items kana2num phone2num kanji_save_path kana_save_path phone_save_path
      (kanji_map, kana_map, phone_map) is_test kana2phone_dict sd fs).2 = Ok tt ->
     forall s ud k u, sd !! s = Some ud -> ud !! k = Some u ->
       csj_saved (csj_save items kana2num phone2num kanji_save_path kana_save_path phone_save_path
                    (kanji_map, kana_map, phone_map) is_test kana2phone_dict sd fs).1 s k u).
Proof.
  intros Hd Hg.
  change (csj_save items kana2num phone2num kanji_save_path kana_save_path phone_save_path
            (kanji_map, kana_map, phone_map) is_test kana2phone_dict sd)
    with (nested items (fun s => _ <-- mkdir (path_join kanji_save_path s) ;;;
                                 _ <-- mkdir (path_join kana_save_path s) ;;; mkdir (path_join phone_save_path s))
            csj_body sd).
  apply (nested_spec items items_perm _ _ csj_good (fun _ _ u => csj_ok u) (fun s k u fs => csj_saved fs s k u) csj_writes csj_writes);
    [..|done].
  - intros s' fs'. unfold io_bind, mkdir. simpl. by eexists.
  - intros s'. repeat (apply touches_bind; [apply touches_mkdir|intros _]). apply touches_mkdir.
  - intros s' k u ? ? Hgood. by apply csj_body_Ok.
  - intros s' k u fs'. apply csj_saved_ok.
  - intros s' k u. apply csj_body_succeeds.
  - intros s' k u _. apply csj_body_touches.
  - intros s' k u fs1 fs2 Hkeep [Hf (ps & idx & E3 & E4 & Hp)]. unfold csj_saved, csj_writes in *.
    rewrite !Hkeep by tauto. split; [done|eauto 10].
  - destruct Hd as (Hk & Hn & Hp & _). intros s1 k1 s2 k2 p Hg1 Hg2 Hne Hw Hr. unfold csj_writes in *.
    destruct Hw as [->|[->| ->]]; destruct Hr as [Hr|[Hr|Hr]]; (eapply csj_path_ne; [..|exact Hr]); auto; congruence.
Qed.

End CsjSpec.

(** ** Runs

    The loops on small inputs, with [d.items()] listing the entries in
    the map's order and stand-in converters: the theorems above apply
    and give the files each run writes. *)

Definition demo_items : forall V, gmap pystr V -> list (pystr * V) := fun V m => map_to_list m.

Lemma demo_items_perm : forall V (m : gmap pystr V), demo_items V m ≡ₚ map_to_list m.
Proof. done. Qed.

(** A converter that knows the symbols of the SWBD sample file. *)
Definition demo_swbd_char2num (t _ : pystr) : result (list Z) :=
  if decide (Forall (fun c => [c] ∈ Swbd.swbd_syms) t) then Ok (map (fun c => Z.of_nat (nat_of_ascii c)) t)
  else Err (KeyError t).

Lemma swbd_save_spec_witness :
  names_ok {[ str "sw2001A" := Swbd.swbd_utts ]} /\
  (swbd_save demo_items demo_swbd_char2num (str "/save") (str "/map") {[ str "sw2001A" := Swbd.swbd_utts ]}
     (mk_fsys ∅ ∅)).2 = Ok tt /\
  swbd_saved demo_swbd_char2num (str "/save") (str "/map")
    (swbd_save demo_items demo_swbd_char2num (str "/save") (str "/map") {[ str "sw2001A" := Swbd.swbd_utts ]}
       (mk_fsys ∅ ∅)).1 (str "sw2001A") (str "0002") (str "_yeah,_uh-huh_").
Proof.
  assert (Hn : names_ok {[ str "sw2001A" := Swbd.swbd_utts ]}) by (apply (bool_decide_unpack _); vm_compute; done).
  destruct (swbd_save_spec demo_items demo_items_perm demo_swbd_char2num (str "/save") (str "/map") _
              (mk_fsys ∅ ∅) Hn) as [[_ Hok] Hsaved].
  assert (Hres : (swbd_save demo_items demo_swbd_char2num (str "/save") (str "/map")
                    {[ str "sw2001A" := Swbd.swbd_utts ]} (mk_fsys ∅ ∅)).2 = Ok tt).
  { apply Hok. intros s ud k v Hs Hk. apply lookup_singleton_Some in Hs as [<- <-].
    unfold Swbd.swbd_utts in Hk. apply lookup_insert_Some in Hk as [[_ <-]|[_ Hk]];
      [|apply lookup_singleton_Some in Hk as [_ <-]]; eexists; vm_compute; reflexivity. }
  split_and!; [exact Hn|exact Hres|].
  exact (Hsaved Hres _ _ (str "0002") (str "1.0", str "2.0", str "_yeah,_uh-huh_")
           (lookup_singleton_eq _ _) ltac:(vm_compute; reflexivity)).
Defined.

Lemma swbd_read_save_witness :
  Swbd.read_trans [Swbd.swbd_file] = Ok ({[ str "sw2001A" := Swbd.swbd_utts ]}, Swbd.swbd_syms) /\
  names_ok {[ str "sw2001A" := Swbd.swbd_utts ]} /\
  (forall t, Forall (fun c => [c] ∈ Swbd.swbd_syms) t -> is_Ok (demo_swbd_char2num t (str "/map"))) /\
  (swbd_save demo_items demo_swbd_char2num (str "/save") (str "/map") {[ str "sw2001A" := Swbd.swbd_utts ]}
     (mk_fsys ∅ ∅)).2 = Ok tt.
Proof.
  assert (Hn : names_ok {[ str "sw2001A" := Swbd.swbd_utts ]}) by (apply (bool_decide_unpack _); vm_compute; done).
  assert (Hc : forall t, Forall (fun c => [c] ∈ Swbd.swbd_syms) t -> is_Ok (demo_swbd_char2num t (str "/map"))).
  { intros t Ht. unfold demo_swbd_char2num. rewrite decide_True by done. by eexists. }
  split_and!; [exact Swbd.swbd_read_trans|exact Hn|exact Hc|].
  exact (proj1 (swbd_read_save demo_items demo_items_perm demo_swbd_char2num (str "/save") (str "/map") _ _ _
                  (mk_fsys ∅ ∅) Swbd.swbd_read_trans Hn Hc)).
Defined.

Definition demo_text_dict : gmap pystr pystr :=
  {[ str "/timit/train/dr1/fcjf0/sa1.txt" := str "she had"; str "/timit/train/dr1/fcjf0/sa2.txt" := str "don't ask" ]}.

Definition demo_char2num (t _ : pystr) (_ : bool) : result (list Z) := Ok (map (fun c => Z.of_nat (nat_of_ascii c)) t).

Lemma text_save_spec_witness :
  save_names_distinct demo_text_dict /\
  (text_save demo_items demo_char2num (Some (str "/save")) (str "/map") false demo_text_dict (mk_fsys ∅ ∅)).2 = Ok tt /\
  text_saved demo_char2num (str "/save") (str "/map") false
    (text_save demo_items demo_char2num (Some (str "/save")) (str "/map") false demo_text_dict (mk_fsys ∅ ∅)).1
    (str "/timit/train/dr1/fcjf0/sa2.txt") (str "don't ask").
Proof.
  assert (Hd : save_names_distinct demo_text_dict).
  { intros p1 p2 n [? H1] [? H2] E1 E2. unfold demo_text_dict in H1, H2.
    apply lookup_insert_Some in H1 as [[<- _]|[_ H1]]; [|apply lookup_singleton_Some in H1 as [<- _]];
    (apply lookup_insert_Some in H2 as [[<- _]|[_ H2]]; [|apply lookup_singleton_Some in H2 as [<- _]]);
    try done; vm_compute in E1, E2; congruence. }
  destruct (text_save_spec demo_items demo_items_perm demo_char2num (str "/save") (str "/map") false
              demo_text_dict (mk_fsys ∅ ∅) Hd) as [[_ Hok] Hsaved].
  assert (Hres : (text_save demo_items demo_char2num (Some (str "/save")) (str "/map") false demo_text_dict
                    (mk_fsys ∅ ∅)).2 = Ok tt).
  { apply Hok. intros lp t Hlp. unfold demo_text_dict in Hlp.
    apply lookup_insert_Some in Hlp as [[<- _]|[_ Hlp]]; [|apply lookup_singleton_Some in Hlp as [<- _]];
      (split; [eexists; vm_compute; reflexivity|by eexists]). }
  split_and!; [exact Hd|exact Hres|]. apply (Hsaved Hres). vm_compute. reflexivity.
Defined.


Definition demo_csj_utt : utt := mk_utt None None [1%Z; 2%Z] [5%Z; 6%Z].

Definition demo_csj_dict : gmap pystr (gmap pystr utt) := {[ str "A01M0001" := {[ str "0001" := demo_csj_utt ]} ]}.

Definition demo_kana2phone : gmap ustr ustr := {[ [1%Z] := [10%Z]; [2%Z] := [20%Z] ]}.

Lemma csj_save_spec_witness :
  csj_dirs_ok (str "/kanji") (str "/kana") (str "/phone") /\ all_good csj_good demo_csj_dict /\
  (csj_save demo_items (fun t _ => Ok t) (fun ps _ => Ok (concat ps)) (str "/kanji") (str "/kana") (str "/phone")
     (str "k", str "a", str "p") false demo_kana2phone demo_csj_dict (mk_fsys ∅ ∅)).2 = Ok tt /\
  csj_saved (fun t _ => Ok t) (fun ps _ => Ok (concat ps)) (str "/kanji") (str "/kana") (str "/phone")
    (str "k") (str "a") (str "p") false demo_kana2phone
    (csj_save demo_items (fun t _ => Ok t) (fun ps _ => Ok (concat ps)) (str "/kanji") (str "/kana") (str "/phone")
       (str "k", str "a", str "p") false demo_kana2phone demo_csj_dict (mk_fsys ∅ ∅)).1
    (str "A01M0001") (str "0001") demo_csj_utt.
Proof.
  assert (Hd : csj_dirs_ok (str "/kanji") (str "/kana") (str "/phone")).
  { unfold csj_dirs_ok, dir_ok. apply (bool_decide_unpack _). vm_compute. done. }
  assert (Hg : all_good csj_good demo_csj_dict).
  { intros s ud k v Hs Hk. unfold demo_csj_dict in Hs. apply lookup_singleton_Some in Hs as [<- <-].
    apply lookup_singleton_Some in Hk as [<- _]. unfold csj_good. apply (bool_decide_unpack _). vm_compute. done. }
  destruct (csj_save_spec demo_items demo_items_perm (fun t _ => Ok t) (fun ps _ => Ok (concat ps))
              (str "/kanji") (str "/kana") (str "/phone") (str "k") (str "a") (str "p") false demo_kana2phone
              demo_csj_dict (mk_fsys ∅ ∅) Hd Hg) as [[_ Hok] Hsaved].
  assert (Hres : (csj_save demo_items (fun t _ => Ok t) (fun ps _ => Ok (concat ps)) (str "/kanji") (str "/kana")
                    (str "/phone") (str "k", str "a", str "p") false demo_kana2phone demo_csj_dict
                    (mk_fsys ∅ ∅)).2 = Ok tt).
  { apply Hok. intros s ud k u Hs Hk. unfold demo_csj_dict in Hs. apply lookup_singleton_Some in Hs as [<- <-].
    apply lookup_singleton_Some in Hk as [<- <-].
    split; [right; split; by eexists|]. eexists. split; [vm_compute; reflexivity|by eexists]. }
  split_and!; [exact Hd|exact Hg|exact Hres|].
  apply (Hsaved Hres (str "A01M0001") {[ str "0001" := demo_csj_utt ]}); vm_compute; reflexivity.
Defined.

End LabelSave.
